(** * Off-site backup transfer (bur-offsite): a shallow embedding

    The development follows the Python sources under [src/backup]:

    - [PyStr]     the [str] and [os.path] primitives the sources call;
    - [PyObj]     Python values (pickle payloads, exception parameters);
    - [Exc]       the exception classes and codes raised by the sources;
    - [Remote]    [utils/remote.py];
    - [Fsys]      [utils/fsys.py] over a small POSIX-like directory tree;
    - [BackupHandler] [utils/backup_handler.py];
    - [Rsync]     [rsync_manager.py];
    - [Offsite]   [offsite_backup_handler.py];
    - [Local]     [local_backup_handler.py];
    - [RemoteDirs], [FsysLists], [Datatypes], [RsyncTransfer],
      [OffsiteOps], [Validation], [LocalOps], [Decompress], [Download]
                  the other functions of these files: remote directories
                  and listings, validation of a backup against its
                  metadata, the backups kept on site, and the volumes of
                  a download.

    External processes (ssh, rsync, gpg, tar, df, du) are inputs of the
    model: every function takes the answers of the processes it starts.
    So is the text of an exception, which [backup/exceptions.py] builds
    and which is not among the sources. *)

From Stdlib Require Import List String Ascii Bool Arith ZArith Lia.
From Stdlib Require Import Permutation Sorted DecimalString OrderedTypeEx.
Import ListNotations.

Set Implicit Arguments.
Set Warnings "-register-all".

Declare Scope pystr_scope.
Delimit Scope pystr_scope with pystr.
Infix "^^" := String.append (at level 60, right associativity) : pystr_scope.
Local Open Scope string_scope.
Local Open Scope pystr_scope.
Local Open Scope list_scope.

(* ================================================================== *)
(** * Python strings *)
(* ================================================================== *)

Module PyStr.

Definition nl : string := String "010"%char EmptyString.
Definition tab : string := String "009"%char EmptyString.
Definition dquote : string := String "034"%char EmptyString.

(** Truth value of a [str]: only the empty string is false. *)
Definition truthy (s : string) : bool :=
  match s with EmptyString => false | String _ _ => true end.

(** [string.whitespace] of Python 2: tab, LF, VT, FF, CR and space. *)
Definition is_space (c : ascii) : bool :=
  match nat_of_ascii c with
  | 9 | 10 | 11 | 12 | 13 | 32 => true
  | _ => false
  end.

Fixpoint lstrip (s : string) : string :=
  match s with
  | EmptyString => EmptyString
  | String c s' => if is_space c then lstrip s' else s
  end.

Fixpoint rstrip (s : string) : string :=
  match s with
  | EmptyString => EmptyString
  | String c s' =>
      match rstrip s' with
      | EmptyString => if is_space c then EmptyString else String c EmptyString
      | r => String c r
      end
  end.

(** [s.strip()] *)
Definition strip (s : string) : string := rstrip (lstrip s).

(** every character of [s] is whitespace (this includes the empty string) *)
Fixpoint blank (s : string) : bool :=
  match s with
  | EmptyString => true
  | String c s' => is_space c && blank s'
  end.

(** some character of [s] is whitespace *)
Fixpoint has_space (s : string) : bool :=
  match s with
  | EmptyString => false
  | String c s' => is_space c || has_space s'
  end.

(** [s.split()]: the maximal runs of non-whitespace characters.
    [cur] is the token being read. *)
Fixpoint split_ws_go (cur : string) (s : string) : list string :=
  match s with
  | EmptyString => if truthy cur then [cur] else []
  | String c s' =>
      if is_space c
      then (if truthy cur then cur :: split_ws_go EmptyString s'
            else split_ws_go EmptyString s')
      else split_ws_go (cur ^^ String c EmptyString) s'
  end.

Definition split_ws (s : string) : list string := split_ws_go EmptyString s.

(** [s.split(sep)] for a non-empty [sep]: scan from the left, cut at every
    occurrence of [sep], occurrences do not overlap.  [skip] counts the
    characters of a matched separator that are still to be dropped. *)
Fixpoint split_go (sep : string) (skip : nat) (cur : string) (s : string)
  : list string :=
  match s with
  | EmptyString => [cur]
  | String c s' =>
      match skip with
      | S k => split_go sep k cur s'
      | O =>
          if prefix sep s
          then cur :: split_go sep (String.length sep - 1) EmptyString s'
          else split_go sep 0 (cur ^^ String c EmptyString) s'
      end
  end.

Definition split (sep s : string) : list string :=
  split_go sep 0 EmptyString s.

(** [sub in s] *)
Fixpoint contains (sub s : string) : bool :=
  prefix sub s ||
  match s with
  | EmptyString => false
  | String _ s' => contains sub s'
  end.

Definition is_slash (c : ascii) : bool := Ascii.eqb c "/"%char.
Definition is_dot (c : ascii) : bool := Ascii.eqb c "."%char.

Fixpoint has_slash (s : string) : bool :=
  match s with
  | EmptyString => false
  | String c s' => is_slash c || has_slash s'
  end.

Fixpoint all_slashes (s : string) : bool :=
  match s with
  | EmptyString => true
  | String c s' => is_slash c && all_slashes s'
  end.

Fixpoint rstrip_slash (s : string) : string :=
  match s with
  | EmptyString => EmptyString
  | String c s' =>
      match rstrip_slash s' with
      | EmptyString => if is_slash c then EmptyString else String c EmptyString
      | r => String c r
      end
  end.

(** cut a path after its last slash: [(p[:i+1], p[i+1:])] with
    [i = p.rfind('/')], as [posixpath.split] does before it trims the head *)
Fixpoint rsplit_slash (p : string) : string * string :=
  match p with
  | EmptyString => (EmptyString, EmptyString)
  | String c p' =>
      if has_slash p'
      then let '(head, tail) := rsplit_slash p' in (String c head, tail)
      else if is_slash c then (String c EmptyString, p')
           else (EmptyString, p)
  end.

(** [os.path.basename] *)
Definition basename (p : string) : string := snd (rsplit_slash p).

(** [os.path.dirname] *)
Definition dirname (p : string) : string :=
  let head := fst (rsplit_slash p) in
  if truthy head && negb (all_slashes head) then rstrip_slash head else head.

Fixpoint ends_with_slash (s : string) : bool :=
  match s with
  | EmptyString => false
  | String c EmptyString => is_slash c
  | String _ s' => ends_with_slash s'
  end.

(** [os.path.join(a, b)] *)
Definition join (a b : string) : string :=
  match b with
  | String c _ =>
      if is_slash c then b
      else if negb (truthy a) || ends_with_slash a then a ^^ b
           else a ^^ "/" ^^ b
  | EmptyString =>
      if negb (truthy a) || ends_with_slash a then a else a ^^ "/"
  end.

Fixpoint has_dot (s : string) : bool :=
  match s with
  | EmptyString => false
  | String c s' => is_dot c || has_dot s'
  end.

Fixpoint all_dots (s : string) : bool :=
  match s with
  | EmptyString => true
  | String c s' => is_dot c && all_dots s'
  end.

(** split a file name at its last dot: [(root, ext)], [ext] starts with
    the dot; [None] when the name has no dot *)
Fixpoint rsplit_dot (s : string) : option (string * string) :=
  match s with
  | EmptyString => None
  | String c s' =>
      match rsplit_dot s' with
      | Some (root, ext) => Some (String c root, ext)
      | None => if is_dot c then Some (EmptyString, s) else None
      end
  end.

(** [os.path.splitext]: the extension starts at the last dot of the last
    path component; leading dots of that component do not count. *)
Definition splitext (p : string) : string * string :=
  let '(head, tail) := rsplit_slash p in
  match rsplit_dot tail with
  | Some (root, ext) =>
      if all_dots root then (p, EmptyString)
      else (head ^^ root, ext)
  | None => (p, EmptyString)
  end.

(** [int(s)] for a [str]: optional surrounding whitespace, optional sign,
    then decimal digits only; anything else is a [ValueError]. *)
Definition digit_val (c : ascii) : option Z :=
  let n := nat_of_ascii c in
  if ((48 <=? n)%nat && (n <=? 57)%nat)%bool then Some (Z.of_nat (n - 48)) else None.

Fixpoint digits_go (acc : Z) (s : string) : option Z :=
  match s with
  | EmptyString => Some acc
  | String c s' =>
      match digit_val c with
      | Some d => digits_go (10 * acc + d) s'
      | None => None
      end
  end.

Definition py_int (s : string) : option Z :=
  match strip s with
  | EmptyString => None
  | String c rest =>
      if Ascii.eqb c "-"%char
      then (if truthy rest then option_map Z.opp (digits_go 0 rest) else None)
      else if Ascii.eqb c "+"%char
           then (if truthy rest then digits_go 0 rest else None)
           else digits_go 0 (String c rest)
  end.

(** the last character of a string *)
Fixpoint last_char (s : string) : option ascii :=
  match s with
  | EmptyString => None
  | String c EmptyString => Some c
  | String _ s' => last_char s'
  end.

End PyStr.


(* ================================================================== *)
(** * Python values and exceptions *)
(* ================================================================== *)

Module PyObj.

(** The Python values that cross the modelled interfaces: what a pickle
    file may hold and what an exception carries as parameters. *)
Inductive pyobj : Type :=
| PyNone
| PyBool (b : bool)
| PyInt (n : Z)
| PyStr (s : string)
| PyList (l : list pyobj)
| PyTuple (l : list pyobj)
| PyDict (l : list (string * pyobj)).

(** [isinstance(o, list)] *)
Definition isinstance_list (o : pyobj) : bool :=
  match o with PyList _ => true | _ => false end.

(** [isinstance(o, str)] *)
Definition isinstance_str (o : pyobj) : bool :=
  match o with PyStr _ => true | _ => false end.

(** a list all of whose elements are strings *)
Definition is_list_of_str (o : pyobj) : bool :=
  match o with
  | PyList l => forallb isinstance_str l
  | _ => false
  end.

Definition str_list (l : list string) : pyobj := PyList (map PyStr l).

End PyObj.

Module Exc.
Import PyObj.

(** Modelled from the spec: [backup/exceptions.py] is not among the
    sources.  The codes are the [ExceptionCodes] members the modelled
    functions raise; the four classes derive from [BurException] (every
    handler of the sources that catches them names [BurException]). *)
Inductive ExceptionCodes : Type :=
| EmptyValue
| InvalidPath
| InvalidFolder
| CannotAccessHost
| CannotParseValue
| CannotCreatePath
| CannotRemovePath
| CannotRemoveFile
| ErrorSortingOffsiteBackupList
| NotEnoughFreeDiskSpace
| NoFilesToSend
| ExceedTryOuts
| RsyncTransferNumberFilesDiffer
| WrongTypeError
| NoVolumeListForBackup
| NoMetadataForBackup
| FailedToGetProcessedVolsNamesOffsite
| TarZipCommandError
| GzipCommandError
| InvalidCompressionMode
| MissingNumberOfParameter
| DefaultExceptionCode.

Inductive BurExceptionClass : Type :=
| UtilsException
| RsyncException
| UploadBackupException
| DownloadBackupException
| GnupgException.

(** A raised exception.  [OtherError] stands for the Python exceptions
    outside the [BurException] hierarchy ([OSError], [TypeError], ...). *)
Inductive exn : Type :=
| BurException (cls : BurExceptionClass) (code : ExceptionCodes)
               (parameters : list pyobj)
| OtherError (name : string).

Definition is_BurException (e : exn) : bool :=
  match e with BurException _ _ _ => true | OtherError _ => false end.

Definition exn_code (e : exn) : option ExceptionCodes :=
  match e with BurException _ c _ => Some c | OtherError _ => None end.

(** The outcome of a call: a value or a raised exception. *)
Inductive res (A : Type) : Type :=
| Ok (a : A)
| Raise (e : exn).
Arguments Ok {A} a.
Arguments Raise {A} e.

Definition bind {A B} (m : res A) (k : A -> res B) : res B :=
  match m with Ok a => k a | Raise e => Raise e end.

Definition raised {A} (m : res A) : bool :=
  match m with Ok _ => false | Raise _ => true end.

(** the call returned, or what it raised is a [BurException] *)
Definition returns_or_raises_bur {A} (m : res A) : bool :=
  match m with Raise (OtherError _) => false | _ => true end.

Definition class_name (c : BurExceptionClass) : string :=
  match c with
  | UtilsException => "UtilsException"
  | RsyncException => "RsyncException"
  | UploadBackupException => "UploadBackupException"
  | DownloadBackupException => "DownloadBackupException"
  | GnupgException => "GnupgException"
  end.

(** Modelled from the spec: [exception.__str__()].  The table of numbers
    and messages of [backup/exceptions.py] is not among the sources (the
    unit tests show texts such as "Error Code 35. Path informed cannot be
    created." followed by the parameters in brackets).  The text of an
    exception is therefore an input of the functions that format it: they
    take an [exn_text] and say nothing on what it returns. *)
Definition exn_text : Type := exn -> string.

End Exc.

Notation "x <- m ;; k" := (Exc.bind m (fun x => k))
  (at level 61, m at next level, right associativity).

(** [utils/validator.py]: [check_not_empty] on a [str] and on a list. *)
Module Validator.
Import PyStr PyObj Exc.

Definition check_not_empty (value : string) : res bool :=
  if negb (truthy value) then Raise (BurException UtilsException EmptyValue [])
  else if negb (truthy (strip value))
       then Raise (BurException UtilsException EmptyValue [])
       else Ok true.

Definition check_not_empty_list {A} (value : list A) : res bool :=
  match value with
  | [] => Raise (BurException UtilsException EmptyValue [])
  | _ :: _ => Ok true
  end.

End Validator.

(* ================================================================== *)
(** * utils/remote.py *)
(* ================================================================== *)

Module Remote.
Import PyStr PyObj Exc Validator.

(** What [Popen(['ssh', ...]).communicate(command)] gives back, and
    whether the watchdog [Timer] has fired by then. *)
Record ssh_reply : Type := {
  reply_stdout : string;
  reply_stderr : string;
  timer_fired : bool
}.

(** The network as the program sees it: the remote side ([peer], of a type
    [R] chosen by the model of the host) and the ssh processes spawned so
    far, as [(host, command)] pairs in order. *)
Record net (R : Type) : Type := {
  peer : R;
  spawned : list (string * string)
}.

Section WithPeer.
Variable R : Type.
(** the remote shell: state, host and command give a reply and a state *)
Variable communicate : R -> string -> string -> ssh_reply * R.

Definition run_ssh_command (host command : string) (w : net R)
  : (string * string) * net R :=
  if negb (truthy (strip host)) || negb (truthy (strip command))
  then ((EmptyString, EmptyString), w)
  else
    let '(r, p') := communicate (peer w) host command in
    let stderr :=
      if timer_fired r then "Command '" ^^ command ^^ "' timeout."
      else reply_stderr r in
    ((reply_stdout r, stderr),
     {| peer := p'; spawned := spawned w ++ [(host, command)] |}).

Definition check_remote_path_exists (host path : string) (w : net R)
  : bool * net R :=
  if negb (truthy (strip host)) || negb (truthy (strip path))
  then (false, w)
  else
    let ssh_check_dir_command :=
      nl ^^ "    if [ -d " ^^ path ^^ " ] || [ -f " ^^ path
         ^^ " ]; then echo " ^^ dquote ^^ "DIR_IS_AVAILABLE" ^^ dquote
         ^^ "; fi" ^^ nl ^^ nl ^^ "    " in
    let '((stdout, _), w') := run_ssh_command host ssh_check_dir_command w in
    if negb (String.eqb (strip stdout) "DIR_IS_AVAILABLE")
    then (false, w')
    else (true, w').

Definition get_number_of_content_from_remote_path
  (host remote_path : string) (w : net R) : res (Z * Z) * net R :=
  match check_not_empty host with
  | Raise e => (Raise e, w)
  | Ok _ =>
  match check_not_empty remote_path with
  | Raise e => (Raise e, w)
  | Ok _ =>
    let count_files_command := "find " ^^ remote_path ^^ " -type f | wc -l" in
    let '((files_out, error), w1) :=
      run_ssh_command host count_files_command w in
    if truthy error
    then (Raise (BurException UtilsException CannotAccessHost
                   [PyStr host; PyStr remote_path; PyStr error]), w1)
    else
      let count_folders_command :=
        "find " ^^ remote_path ^^ " -mindepth 1 -type d | wc -l" in
      let '((folders_out, error), w2) :=
        run_ssh_command host count_folders_command w1 in
      if truthy error
      then (Raise (BurException UtilsException CannotAccessHost
                     [PyStr host; PyStr remote_path; PyStr error]), w2)
      else
        match py_int files_out, py_int folders_out with
        | Some total_files, Some total_folders =>
            (Ok (total_files, total_folders), w2)
        | _, _ =>
            (Raise (BurException UtilsException CannotParseValue
                      [PyStr files_out; PyStr folders_out]), w2)
        end
  end end.

Definition is_remote_folder_empty (host remote_path : string) (w : net R)
  : res bool * net R :=
  match get_number_of_content_from_remote_path host remote_path w with
  | (Ok (n_files, n_folders), w') => (Ok (n_files + n_folders =? 0)%Z, w')
  | (Raise e, w') => (Raise e, w')
  end.

(** [list.sort(l, key=..., reverse=True)]: stable, greatest key first;
    entries with equal keys keep their order. *)
Fixpoint insert_reverse {A} (key : A -> string) (x : A) (l : list A)
  : list A :=
  match l with
  | [] => [x]
  | y :: l' =>
      if String.ltb (key x) (key y) then y :: insert_reverse key x l'
      else x :: l
  end.

Definition sort_reverse {A} (key : A -> string) (l : list A) : list A :=
  fold_right (insert_reverse key) [] l.

(** the key of [x] is not below the key of [y]: [x] may come first *)
Definition not_older {A} (key : A -> string) (x y : A) : Prop :=
  String.ltb (key x) (key y) = false.

Definition find_oldest_command (remote_folder : string) : string :=
  "find " ^^ remote_folder ^^ " ! -path " ^^ remote_folder ^^ " -printf "
    ^^ dquote ^^ "%T+" ^^ tab ^^ "%p" ^^ nl ^^ dquote
    ^^ " | sort | head -1" ^^ nl ^^ "echo END_OF_COMMAND" ^^ nl.

(** [find_cmd]: one such command per folder, one after the other *)
Definition build_find_cmd (remote_folder_list : list string) : string :=
  fold_left (fun find_cmd remote_folder =>
               find_cmd ^^ find_oldest_command remote_folder)
            remote_folder_list EmptyString.

(** the loop over [stdout.split('END_OF_COMMAND')] *)
Fixpoint parse_find_results (host : string) (remote_folder_list : list string)
  (results : list string) : res (list (string * string)) :=
  match results with
  | [] => Ok []
  | find_cmd_result :: rest =>
      if negb (truthy (strip find_cmd_result))
      then parse_find_results host remote_folder_list rest
      else
        match split_ws find_cmd_result with
        | [first_file_timestamp; first_file_full_path] =>
            file_timestamp_list <-
              parse_find_results host remote_folder_list rest ;;
            Ok ((dirname (strip first_file_full_path),
                 strip first_file_timestamp) :: file_timestamp_list)
        | _ =>
            Raise (BurException UtilsException ErrorSortingOffsiteBackupList
                     [PyStr host; str_list remote_folder_list;
                      PyStr (strip find_cmd_result)])
        end
  end.

Definition sort_remote_folders_by_content
  (host : string) (remote_folder_list : list string) (w : net R)
  : res (list string) * net R :=
  match remote_folder_list with
  | [] => (Ok [], w)
  | _ :: _ =>
      let find_cmd := build_find_cmd remote_folder_list in
      let '((stdout, stderr), w') := run_ssh_command host find_cmd w in
      if truthy stderr
      then (Raise (BurException UtilsException ErrorSortingOffsiteBackupList
                     [PyStr host; str_list remote_folder_list;
                      PyStr stderr]), w')
      else
        match parse_find_results host remote_folder_list
                (split "END_OF_COMMAND" stdout) with
        | Raise e => (Raise e, w')
        | Ok file_timestamp_list =>
            (Ok (map fst (sort_reverse snd file_timestamp_list)), w')
        end
  end.

End WithPeer.

(** a string that [str.split()] leaves whole: not empty, no white space *)
Definition token (s : string) : Prop :=
  has_space s = false /\ truthy s = true.

(** What the remote side printed in answer to [find_cmd], when it
    reports the oldest entry of one folder after the other: [entries] are
    the pairs (path of the entry, time stamp), and the pieces of [stdout]
    between [END_OF_COMMAND] markers that are not blank are, in the same
    order, the lines [time stamp, TAB, path, NEWLINE] of the entries, with
    at most white space before them. *)
Definition reports (stdout : string) (entries : list (string * string))
  : Prop :=
  Forall2
    (fun piece entry =>
       exists lead,
         blank lead = true
         /\ piece = lead ^^ snd entry ^^ tab ^^ fst entry ^^ nl)
    (filter (fun piece => truthy (strip piece))
            (split "END_OF_COMMAND" stdout))
    entries
  /\ Forall (fun entry => token (fst entry) /\ token (snd entry)) entries.

End Remote.

(* ================================================================== *)
(** * utils/fsys.py *)
(* ================================================================== *)

Module Fsys.
Import PyStr.

(** The local file system: a tree of directories and files.  A directory
    carries its write permission, which is what decides whether entries
    can be created in it or removed from it, and its entries in the order
    [os.listdir] reports them. *)
Inductive node : Type :=
| File
| Dir (writable : bool) (entries : list (string * node)).

(** The root directory; the root itself can never be removed. *)
Definition fs : Type := node.

(** A path is looked up by its components: [a/b//c] is [a], [b], [c]. *)
Definition components (path : string) : list string :=
  filter truthy (split "/" path).

Fixpoint find_entry (name : string) (es : list (string * node)) : option node :=
  match es with
  | [] => None
  | (n, m) :: rest => if String.eqb n name then Some m else find_entry name rest
  end.

(** put [r] in place of the first entry called [name]; [None] deletes it *)
Fixpoint replace_entry (name : string) (r : option node)
  (es : list (string * node)) : list (string * node) :=
  match es with
  | [] => []
  | (n, m) :: rest =>
      if String.eqb n name
      then match r with Some m' => (n, m') :: rest | None => rest end
      else (n, m) :: replace_entry name r rest
  end.

Fixpoint lookup (n : node) (p : list string) : option node :=
  match p with
  | [] => Some n
  | c :: p' =>
      match n with
      | File => None
      | Dir _ es =>
          match find_entry c es with
          | Some m => lookup m p'
          | None => None
          end
      end
  end.

(** the node a path names; the empty path names nothing *)
Definition resolve (root : fs) (path : string) : option node :=
  if truthy path then lookup root (components path) else None.

Definition os_path_exists (root : fs) (path : string) : bool :=
  match resolve root path with Some _ => true | None => false end.

Definition os_path_isdir (root : fs) (path : string) : bool :=
  match resolve root path with
  | Some (Dir _ _) => true
  | _ => false
  end.

(** Emptying a directory, [rm] being the removal of one entry: the entries
    go one by one in listing order, and the first that cannot be removed
    stops the walk.  The flag tells whether all of them went; the list is
    what is left. *)
Fixpoint rm_list (rm : node -> option node) (es : list (string * node))
  : bool * list (string * node) :=
  match es with
  | [] => (true, [])
  | (name, child) :: rest =>
      match rm child with
      | None => rm_list rm rest
      | Some child' => (false, (name, child') :: rest)
      end
  end.

(** Removal of a node that sits in a directory with write permission
    [parent_w].  A file goes when the parent is writable ([os.remove]).
    A directory is emptied first and then removed itself ([shutil.rmtree]
    without [ignore_errors]).  [None]: the node is gone; [Some n']: an
    [OSError] was raised and [n'] is what is left. *)
Fixpoint rm_node (parent_w : bool) (n : node) : option node :=
  match n with
  | File => if parent_w then None else Some File
  | Dir w es =>
      match rm_list (rm_node w) es with
      | (true, _) => if parent_w then None else Some (Dir w [])
      | (false, es') => Some (Dir w es')
      end
  end.

(** removal of the node at path [p] below [n]; the flag tells whether it
    succeeded, the node is what became of [n] *)
Fixpoint rm_at (parent_w : bool) (n : node) (p : list string)
  : bool * option node :=
  match p with
  | [] =>
      match rm_node parent_w n with
      | None => (true, None)
      | Some n' => (false, Some n')
      end
  | c :: p' =>
      match n with
      | File => (false, Some n)
      | Dir w es =>
          match find_entry c es with
          | Some m =>
              let '(ok, r) := rm_at w m p' in
              (ok, Some (Dir w (replace_entry c r es)))
          | None => (false, Some n)
          end
      end
  end.

(** [shutil.rmtree(path)] and [os.remove(path)]: [false] is an [OSError] *)
Definition remove_tree_or_file (root : fs) (path : string) : bool * fs :=
  match rm_at false root (components path) with
  | (ok, Some root') => (ok, root')
  | (ok, None) => (false, root)
  end.

Definition shutil_rmtree (root : fs) (path : string) : bool * fs :=
  if os_path_isdir root path then remove_tree_or_file root path
  else (false, root).

Definition os_remove (root : fs) (path : string) : bool * fs :=
  if os_path_isdir root path then (false, root)
  else remove_tree_or_file root path.

(** a chain of fresh directories [c1/c2/...] *)
Fixpoint fresh (p : list string) : node :=
  match p with
  | [] => Dir true []
  | c :: p' => Dir true [(c, fresh p')]
  end.

(** [os.makedirs]: walk down the existing directories and create what is
    missing; [None] is an [OSError] (the path exists, a component is a
    file, or the directory that lacks the next component is read-only).
    The tree has neither a limit on the length of a name nor a umask: a
    fresh directory is writable, so here the call creates the whole chain
    or nothing, whereas the real one can fail after it has created some
    of the parents. *)
Fixpoint mk_at (n : node) (p : list string) : option node :=
  match p with
  | [] => None
  | c :: p' =>
      match n with
      | File => None
      | Dir w es =>
          match find_entry c es with
          | Some m =>
              match mk_at m p' with
              | Some m' => Some (Dir w (replace_entry c (Some m') es))
              | None => None
              end
          | None => if w then Some (Dir w (es ++ [(c, fresh p')])) else None
          end
      end
  end.

Definition os_makedirs (root : fs) (path : string) : option fs :=
  if truthy path then mk_at root (components path) else None.

(** [remove_path(path)]: the result and the file system afterwards *)
Definition remove_path (path : string) (root : fs) : bool * fs :=
  if negb (os_path_exists root path) then (true, root)
  else
    let '(ok, root') :=
      if os_path_isdir root path then shutil_rmtree root path
      else os_remove root path in
    if ok then (true, root') else (false, root').

(** [create_path(path)] *)
Definition create_path (path : string) (root : fs) : bool * fs :=
  if os_path_exists root path then (true, root)
  else
    match os_makedirs root path with
    | Some root' => (true, root')
    | None => (false, root)
    end.

(** no directory lists a name twice *)
Fixpoint names_unique (l : list string) : bool :=
  match l with
  | [] => true
  | x :: l' => negb (existsb (String.eqb x) l') && names_unique l'
  end.

Fixpoint well_formed (n : node) : bool :=
  match n with
  | File => true
  | Dir _ es =>
      names_unique (map fst es)
      && forallb (fun e => well_formed (snd e)) es
  end.

End Fsys.

(* ================================================================== *)
(** * utils/backup_handler.py and the disk figures of utils/fsys.py *)
(* ================================================================== *)

Module BackupHandler.
Import PyStr PyObj Exc.

Definition BLOCK_SIZE_MB_STR : string := "MB".
Definition BLOCK_SIZE_MB : Z := 1000.
Definition DF_COMMAND_AVAILABLE_SPACE_INDEX : nat := 3.

(** [str(n)] of an integer *)
Definition str_of_Z (n : Z) : string := NilZero.string_of_int (Z.to_int n).

(** the fields of the last line a process printed:
    [for line in stdout.readlines(): disk_space_output = line.split()] *)
Definition last_line_fields (lines : list string) : list string :=
  fold_left (fun _ line => split_ws line) lines [].

(** [get_free_disk_space], given the lines [df -k] printed for the first
    existing ancestor of the path: the available kilobytes divided by
    [BLOCK_SIZE_MB] (integer division of Python 2). *)
Definition get_free_disk_space (df_stdout : list string) : res Z :=
  match nth_error (last_line_fields df_stdout) DF_COMMAND_AVAILABLE_SPACE_INDEX with
  | None => Raise (BurException UtilsException DefaultExceptionCode
                     [PyStr "IndexError"])
  | Some field =>
      match py_int field with
      | Some free_disk_space => Ok (free_disk_space / BLOCK_SIZE_MB)%Z
      | None => Raise (OtherError "ValueError")
      end
  end.

(** [get_size_on_disk], given the lines [du -sm] printed *)
Definition get_size_on_disk (du_stdout : list string) : res Z :=
  match nth_error (last_line_fields du_stdout) 0 with
  | None => Raise (BurException UtilsException DefaultExceptionCode
                     [PyStr "IndexError"])
  | Some field =>
      match py_int field with
      | Some content_size => Ok content_size
      | None => Raise (OtherError "ValueError")
      end
  end.

(** [check_local_disk_space_for_upload]; the two arguments are what
    [get_free_disk_space(temp_backup_path)] and
    [get_size_on_disk(local_backup_path)] returned or raised. *)
Definition check_local_disk_space_for_upload
  (temp_backup_path : string)
  (free_disk_space : res Z) (size_on_disk : res Z) : res bool :=
  free_disk_space_onsite_mb <- free_disk_space ;;
  bkp_size_mb <- size_on_disk ;;
  if (free_disk_space_onsite_mb <=? bkp_size_mb)%Z
  then Raise (BurException UtilsException NotEnoughFreeDiskSpace
         [PyStr ("Path: " ^^ temp_backup_path ^^ ".");
          PyStr ("Required: " ^^ str_of_Z bkp_size_mb ^^ BLOCK_SIZE_MB_STR ^^ ".");
          PyStr ("Available: " ^^ str_of_Z free_disk_space_onsite_mb
                    ^^ BLOCK_SIZE_MB_STR ^^ ".")])
  else Ok true.

(** whether a result is the disk-space error *)
Definition is_disk_space_error {A} (r : res A) : bool :=
  match r with
  | Raise (BurException UtilsException NotEnoughFreeDiskSpace _) => true
  | _ => false
  end.

End BackupHandler.

(* ================================================================== *)
(** * rsync_manager.py *)
(* ================================================================== *)

Module Rsync.
Import PyStr PyObj Exc Validator.

Definition NUMBER_TRIES : Z := 3.
Definition RSYNC_MODULE : string := "rsync://".
Definition RSYNC_DAEMON_DESTINATION : string := "/rsyncd".

(** [s.replace(":", new)] *)
Fixpoint replace_colon (new s : string) : string :=
  match s with
  | EmptyString => EmptyString
  | String c s' =>
      if Ascii.eqb c ":"%char then new ^^ replace_colon new s'
      else String c (replace_colon new s')
  end.

Inductive RSYNC_OUTPUT_SUMMARY_ITEM : Type :=
| total_files | created | deleted | transferred | rate | speedup.

Definition item_name (i : RSYNC_OUTPUT_SUMMARY_ITEM) : string :=
  match i with
  | total_files => "total_files" | created => "created"
  | deleted => "deleted" | transferred => "transferred"
  | rate => "rate" | speedup => "speedup"
  end.

Definition item_eqb (a b : RSYNC_OUTPUT_SUMMARY_ITEM) : bool :=
  String.eqb (item_name a) (item_name b).

Record RsyncOutput : Type := {
  n_files : string;
  n_created_files : string;
  n_deleted_files : string;
  n_transferred_files : string;
  out_speedup : string;
  out_rate : string
}.

Definition RsyncOutput_str (o : RsyncOutput) : string :=
  "RsyncOutput:" ^^ nl ^^
  "Number of files: " ^^ n_files o ^^ nl ^^
  "Number of created files: " ^^ n_created_files o ^^ nl ^^
  "Number of deleted files: " ^^ n_deleted_files o ^^ nl ^^
  "Number of transferred files: " ^^ n_transferred_files o ^^ nl ^^
  "Speedup: " ^^ out_speedup o ^^ nl ^^
  "Transfer rate: " ^^ out_rate o ^^ nl.

(** [s.lower()] *)
Definition lower_char (c : ascii) : ascii :=
  let n := nat_of_ascii c in
  if ((65 <=? n)%nat && (n <=? 90)%nat)%bool then ascii_of_nat (n + 32) else c.

Fixpoint lower (s : string) : string :=
  match s with
  | EmptyString => EmptyString
  | String c s' => String (lower_char c) (lower s')
  end.

(** [s.find(sub)]: [None] is Python's [-1] *)
Fixpoint find_from (i : nat) (sub s : string) : option nat :=
  if prefix sub s then Some i
  else match s with
       | EmptyString => None
       | String _ s' => find_from (S i) sub s'
       end.
Definition find (sub s : string) : option nat := find_from 0 sub s.

(** [s[0:k]] and [s[k:]] for [k >= 0] *)
Definition take (k : nat) (s : string) : string := substring 0 k s.
Definition drop (k : nat) (s : string) : string :=
  substring k (String.length s - k) s.

(** [s[0:par - 1]] where [par] is an index found in [s]; for [par = 0]
    the stop index is [-1], which counts from the end *)
Definition slice_before (par : nat) (s : string) : string :=
  match par with
  | O => take (String.length s - 1) s
  | S k => take k s
  end.

Definition parse_number_of_file_key_value (rsync_output_line : string)
  : res (RSYNC_OUTPUT_SUMMARY_ITEM * string) :=
  if negb (contains "number of" rsync_output_line)
  then Raise (BurException RsyncException MissingNumberOfParameter
                [PyStr rsync_output_line])
  else
    let rsync_output_line :=
      match find "(" rsync_output_line with
      | Some par => slice_before par rsync_output_line
      | None => rsync_output_line
      end in
    match find ":" rsync_output_line with
    | None => Raise (BurException RsyncException CannotParseValue
                       [PyStr rsync_output_line])
    | Some _ =>
        let number_of_files :=
          strip (nth 1 (split ":" rsync_output_line) EmptyString) in
        let key :=
          if contains (item_name transferred) rsync_output_line then transferred
          else if contains (item_name deleted) rsync_output_line then deleted
          else if contains (item_name created) rsync_output_line then created
          else total_files in
        Ok (key, number_of_files)
    end.

(** [summary_dic]: the six keys, each [None] until a line sets it *)
Definition summary := RSYNC_OUTPUT_SUMMARY_ITEM -> option string.
Definition summary_empty : summary := fun _ => None.
Definition summary_set (k : RSYNC_OUTPUT_SUMMARY_ITEM) (v : string)
  (d : summary) : summary :=
  fun k' => if item_eqb k k' then Some v else d k'.

(** index of the first item of [items] that contains ["bytes/sec"] *)
Fixpoint rate_item_index (items : list string) : nat :=
  match items with
  | [] => 0
  | item :: rest =>
      if contains "bytes/sec" (strip item) then 0 else S (rate_item_index rest)
  end.

(** [l[i - 1]]; for [i = 0] this is the last element *)
Definition item_before (i : nat) (l : list string) : string :=
  match i with
  | O => last l EmptyString
  | S k => nth k l EmptyString
  end.

Fixpoint parse_lines (lines : list string) (summary_dic : summary)
  : res summary :=
  match lines with
  | [] => Ok summary_dic
  | line :: rest =>
      if contains "number of" line then
        kv <- parse_number_of_file_key_value line ;;
        parse_lines rest (summary_set (fst kv) (snd kv) summary_dic)
      else if contains "bytes/sec" line then
        let line_split := split " " line in
        let item_index := rate_item_index line_split in
        parse_lines rest
          (summary_set rate (item_before item_index line_split) summary_dic)
      else if contains (item_name speedup) line then
        let speedup_value :=
          match find (item_name speedup) line with
          | Some i => drop (i + String.length (item_name speedup)
                              + String.length " is ") line
          | None => line
          end in
        parse_lines rest (summary_set speedup speedup_value summary_dic)
      else parse_lines rest summary_dic
  end.

Definition parse_output (output : string) : res RsyncOutput :=
  _ <- check_not_empty output ;;
  summary_dic <- parse_lines (split nl (lower output)) summary_empty ;;
  match summary_dic total_files, summary_dic created, summary_dic deleted,
        summary_dic transferred, summary_dic rate, summary_dic speedup with
  | Some f, Some c, Some d, Some t, Some r, Some s =>
      Ok {| n_files := f; n_created_files := c; n_deleted_files := d;
            n_transferred_files := t; out_speedup := s; out_rate := r |}
  | _, _, _, _, _, _ =>
      Raise (BurException RsyncException CannotParseValue [PyNone])
  end.

Record RsyncManager : Type := {
  source_path : string;
  destination_path : string;
  retry : Z;
  rsync_ssh : bool
}.

(** What [subprocess.check_output([rsync, ...])] does: it returns what
    rsync printed or raises [CalledProcessError]. *)
Inductive check_output_result : Type :=
| CalledProcessError
| Stdout (output : string).

(** what [send] returns: the parsed output, or [False] when the loop ran
    out without a try *)
Inductive send_value : Type :=
| Sent (rsync_output : RsyncOutput)
| ReturnedFalse.

Section WithRsync.
(** the rsync process: the answer to the [k]-th invocation made by the
    call at hand, [k] counted from 0 *)
Variable check_output : nat -> check_output_result.

Definition process_error : exn :=
  BurException RsyncException DefaultExceptionCode [PyStr "CalledProcessError"].
Definition value_error : exn :=
  BurException RsyncException DefaultExceptionCode [PyStr "ValueError"].

(** the [except (TypeError, ValueError)] clause that closes both methods:
    such an error raised inside becomes a [RsyncException] *)
Definition convert (e : exn) : exn :=
  match e with
  | OtherError name =>
      if (String.eqb name "TypeError" || String.eqb name "ValueError")%bool
      then BurException RsyncException DefaultExceptionCode [PyStr name]
      else e
  | _ => e
  end.

(** what the [k]-th rsync invocation amounts to when it exits normally,
    its statistics parse and the transferred count is a number: the
    parsed output and that count *)
Definition attempt (k : nat) : option (RsyncOutput * Z) :=
  match check_output k with
  | CalledProcessError => None
  | Stdout output =>
      match parse_output output with
      | Raise _ => None
      | Ok rsync_output =>
          match py_int (n_transferred_files rsync_output) with
          | None => None
          | Some n_transferred => Some (rsync_output, n_transferred)
          end
      end
  end.

(** the body of [for current_try in range(1, self.retry + 1)];
    [tries_left] is the number of values the range still has, [calls]
    the number of rsync invocations made so far *)
Fixpoint send_loop (self : RsyncManager) (n_files : Z)
  (tries_left : nat) (current_try : Z) (calls : nat)
  : res send_value * nat :=
  match tries_left with
  | O => (Ok ReturnedFalse, calls)
  | S tries_left' =>
      match check_output calls with
      | CalledProcessError => (Raise process_error, S calls)
      | Stdout output =>
          match parse_output output with
          | Raise e => (Raise e, S calls)
          | Ok rsync_output =>
              match py_int (n_transferred_files rsync_output) with
              | None => (Raise value_error, S calls)
              | Some n_transferred =>
                  if (n_transferred =? n_files)%Z
                  then (Ok (Sent rsync_output), S calls)
                  else if (current_try =? retry self)%Z
                       then (Raise (BurException RsyncException ExceedTryOuts
                                      [PyInt (retry self);
                                       PyStr (RsyncOutput_str rsync_output)]),
                             S calls)
                       else send_loop self n_files tries_left'
                                      (current_try + 1) (S calls)
              end
          end
      end
  end.

(** [RsyncManager.send]; [local_content] is what
    [get_number_of_content_from_path(self.source_path)] returned or
    raised.  The second component counts the rsync invocations. *)
Definition send (self : RsyncManager) (local_content : res (Z * Z))
  : res send_value * nat :=
  match local_content with
  | Raise e => (Raise (convert e), 0)
  | Ok (n_files, _) =>
      if (n_files =? 0)%Z
      then (Raise (BurException RsyncException NoFilesToSend
                     [PyStr (source_path self)]), 0)
      else send_loop self n_files (Z.to_nat (retry self)) 1 0
  end.

(** [RsyncManager.receive]; [remote_path_exists] is the answer of
    [check_remote_path_exists], [origin_content] and
    [destination_content] are what the two counting helpers returned or
    raised after the transfer. *)
Definition receive (self : RsyncManager)
  (remote_path_exists : bool)
  (origin_content destination_content : res (Z * Z))
  : res RsyncOutput * nat :=
  let source_path' :=
    if rsync_ssh self then source_path self
    else RSYNC_MODULE
           ^^ replace_colon RSYNC_DAEMON_DESTINATION (source_path self) in
  let source_path_split := split ":" (source_path self) in
  match source_path_split with
  | [host; remote_path] =>
      if negb remote_path_exists
      then (Raise (BurException RsyncException InvalidPath
                     [PyStr source_path']), 0)
      else
        match check_output 0 with
        | CalledProcessError => (Raise process_error, 1)
        | Stdout output =>
            match parse_output output with
            | Raise e => (Raise e, 1)
            | Ok rsync_output =>
                match origin_content with
                | Raise e => (Raise (convert e), 1)
                | Ok (origin_number_files, _) =>
                match destination_content with
                | Raise e => (Raise (convert e), 1)
                | Ok (destination_number_files, _) =>
                    match py_int (n_transferred_files rsync_output) with
                    | None => (Raise value_error, 1)
                    | Some n_transferred =>
                        if (negb (n_transferred =? origin_number_files)%Z
                            || negb (n_transferred =? destination_number_files)%Z)
                        then
                          (Raise (BurException RsyncException
                                    RsyncTransferNumberFilesDiffer
                                    [PyDict
                                       [("n_transferred_files",
                                          PyStr (n_transferred_files rsync_output));
                                        ("destination_number_files",
                                          PyInt destination_number_files);
                                        ("origin_number_files",
                                          PyInt origin_number_files)]]), 1)
                        else (Ok rsync_output, 1)
                    end
                end end
            end
        end
  | _ => (Raise (BurException RsyncException InvalidPath
                   [str_list source_path_split]), 0)
  end.

End WithRsync.

End Rsync.

(* ================================================================== *)
(** * offsite_backup_handler.py *)
(* ================================================================== *)

Module Offsite.
Import PyStr PyObj Exc.

(** [retrieve_remote_pickle_file_content]: [transfer] is the outcome of
    [RsyncManager.transfer_file], [loaded] that of [load_pickle_file] on
    the downloaded copy, [removed] the answer of [remove_path] on it. *)
Definition retrieve_remote_pickle_file_content
  (remote_file_path local_destination_path : string)
  (transfer : res Rsync.RsyncOutput) (loaded : res pyobj) (removed : bool)
  : res pyobj :=
  _ <- transfer ;;
  let local_file_path :=
    join local_destination_path (basename remote_file_path) in
  list_content <- loaded ;;
  if negb (isinstance_list list_content)
  then Raise (BurException DownloadBackupException WrongTypeError
                [PyStr "Pickle file content was supposed to be a list.";
                 list_content])
  else if negb removed
       then Raise (BurException DownloadBackupException CannotRemoveFile
                     [PyStr local_file_path])
       else Ok list_content.

Section WithPeer.
Variable R : Type.
Variable communicate : R -> string -> string -> Remote.ssh_reply * R.

(** [filter(lambda p: not is_remote_folder_empty(host, p), paths)];
    Python 2, so the result is a list *)
Fixpoint filter_not_empty (host : string) (paths : list string)
  (w : Remote.net R) : res (list string) * Remote.net R :=
  match paths with
  | [] => (Ok [], w)
  | offsite_bkp_path :: rest =>
      match Remote.is_remote_folder_empty communicate host offsite_bkp_path w with
      | (Raise e, w1) => (Raise e, w1)
      | (Ok is_empty, w1) =>
          match filter_not_empty host rest w1 with
          | (Raise e, w2) => (Raise e, w2)
          | (Ok kept, w2) =>
              (Ok (if is_empty then kept else offsite_bkp_path :: kept), w2)
          end
      end
  end.

(** [sorted_backup_list[offsite_retention:]]; the argument validators
    reject a negative retention, hence [nat] *)
Definition slice_from (offsite_retention : nat) (l : list string) : list string :=
  skipn offsite_retention l.

(** the body of the loop of [get_backup_dir_list_to_cleanup] for one
    customer: what is to be appended to [dir_to_be_removed_list] *)
Definition customer_dirs_to_cleanup (host : string) (offsite_retention : nat)
  (customer_dirs : list string) (w : Remote.net R)
  : res (list string) * Remote.net R :=
  match filter_not_empty host customer_dirs w with
  | (Raise e, w1) => (Raise e, w1)
  | (Ok not_empty_bkp_path_list, w1) =>
      let offsite_backup_list_size := List.length not_empty_bkp_path_list in
      if (offsite_retention <? offsite_backup_list_size)%nat
      then
        match Remote.sort_remote_folders_by_content communicate host
                not_empty_bkp_path_list w1 with
        | (Raise e, w2) => (Raise e, w2)
        | (Ok sorted_backup_list, w2) =>
            (Ok (slice_from offsite_retention sorted_backup_list), w2)
        end
      else (Ok [], w1)
  end.

(** [get_backup_dir_list_to_cleanup]; [dir_list_by_customer_dict] is the
    dictionary [get_offsite_backup_dict] returned, as its items *)
Fixpoint get_backup_dir_list_to_cleanup (host : string)
  (offsite_retention : nat)
  (dir_list_by_customer_dict : list (string * list string))
  (w : Remote.net R) : res (list string) * Remote.net R :=
  match dir_list_by_customer_dict with
  | [] => (Ok [], w)
  | (customer_key, customer_dirs) :: rest =>
      match customer_dirs_to_cleanup host offsite_retention customer_dirs w with
      | (Raise e, w1) => (Raise e, w1)
      | (Ok removed_here, w1) =>
          match get_backup_dir_list_to_cleanup host offsite_retention rest w1 with
          | (Raise e, w2) => (Raise e, w2)
          | (Ok removed_rest, w2) => (Ok (removed_here ++ removed_rest), w2)
          end
      end
  end.

(** a folder counts as not empty, on the remote side as it is in [w0],
    when the two counts of its content can be read and do not add up to
    zero *)
Definition counted_not_empty (host : string) (w0 : Remote.net R)
  (offsite_bkp_path : string) : bool :=
  match fst (Remote.is_remote_folder_empty communicate host offsite_bkp_path
               w0) with
  | Ok false => true
  | _ => false
  end.

(** What the retention rule asks of the queue of one customer, on the
    remote side as it is in [w0].  Nothing is queued when at most
    [offsite_retention] backups count as not empty.  Otherwise, for the
    oldest entries the remote reports of these backups, the directories of
    the entries are ordered by time stamp, newest first, and the queue is
    that list from position [offsite_retention] on; when every entry lies
    directly in its backup, what stays and the queue together are the
    backups that count. *)
Definition retention_rule (host : string) (offsite_retention : nat)
  (w0 : Remote.net R) (customer_dirs queue : list string) : Prop :=
  let not_empty := filter (counted_not_empty host w0) customer_dirs in
  (List.length not_empty <= offsite_retention -> queue = [])
  /\ (offsite_retention < List.length not_empty ->
      forall entries : list (string * string),
        Remote.reports
          (fst (fst (Remote.run_ssh_command communicate host
                       (Remote.build_find_cmd not_empty) w0))) entries ->
        exists ordered : list (string * string),
          Permutation ordered
            (map (fun entry => (dirname (fst entry), snd entry)) entries)
          /\ StronglySorted (Remote.not_older snd) ordered
          /\ queue = map fst (skipn offsite_retention ordered)
          /\ (forall kept_one queued_one,
                 In kept_one (firstn offsite_retention ordered) ->
                 In queued_one (skipn offsite_retention ordered) ->
                 Remote.not_older snd kept_one queued_one)
          /\ (map (fun entry => dirname (fst entry)) entries = not_empty ->
              Permutation
                (map fst (firstn offsite_retention ordered) ++ queue)
                not_empty
              /\ List.length (firstn offsite_retention ordered)
                 = offsite_retention)).

End WithPeer.

End Offsite.

(* ================================================================== *)
(** * utils/compress.py *)
(* ================================================================== *)

Module Compress.
Import PyStr PyObj Exc Validator.

Definition TAR_SUFFIX : string := "tar".
Definition GZ_SUFFIX : string := "gz".

(** [is_valid_path]; [path_exists] is the answer of [os.path.exists] *)
Definition is_valid_path (path : string) (path_exists : bool) : res bool :=
  _ <- check_not_empty path ;;
  if negb path_exists
  then Raise (BurException UtilsException InvalidPath [PyStr path])
  else Ok true.

(** [tar_file] and [gzip_file]; [ret] is the exit status of the command *)
Definition tar_file (file_path file_destination : string) (ret : Z) : res string :=
  let archived_file_name := basename file_path ^^ "." ^^ TAR_SUFFIX in
  let tar_file_path := join file_destination archived_file_name in
  if negb (ret =? 0)%Z
  then Raise (BurException UtilsException TarZipCommandError [PyInt ret])
  else Ok tar_file_path.

Definition gzip_file (file_path file_destination : string) (ret : Z) : res string :=
  let compressed_file_name := basename file_path ^^ "." ^^ GZ_SUFFIX in
  let compressed_file_path := join file_destination compressed_file_name in
  if negb (ret =? 0)%Z
  then Raise (BurException UtilsException GzipCommandError [PyInt ret])
  else Ok compressed_file_path.

(** [compress_file(source_path, output_path, mode)]; [path_exists] answers
    [os.path.exists], [ret] is the exit status of the archiver *)
Definition compress_file (source_path : string) (output_path : option string)
  (mode : string) (path_exists : string -> bool) (ret : Z) : res string :=
  _ <- is_valid_path source_path (path_exists source_path) ;;
  if negb (existsb (String.eqb mode) ["w"; "w:"; "w:gz"])
  then Raise (BurException UtilsException InvalidCompressionMode [PyStr mode])
  else
    let output_path :=
      match output_path with
      | None => dirname source_path
      | Some o => if negb (truthy (strip o)) then dirname source_path else o
      end in
    _ <- is_valid_path output_path (path_exists output_path) ;;
    if contains GZ_SUFFIX mode
    then gzip_file source_path output_path ret
    else tar_file source_path output_path ret.

End Compress.

(* ================================================================== *)
(** * local_backup_handler.py *)
(* ================================================================== *)

Module Local.
Import PyStr PyObj Exc.

Definition SUCCESS_FLAG_FILE : string := "BACKUP_OK".
Definition BACKUP_META_FILE : string := "backup.metadata".
Definition PROCESSED_VOLUME_ENDS_WITH : string := ".tar".
Definition BUR_FILE_LIST_DESCRIPTOR_FILE_NAME : string :=
  "bur_file_list_descriptor.dat".
Definition BUR_VOLUME_LIST_DESCRIPTOR_FILE_NAME : string :=
  "bur_volume_list_descriptor.dat".

(** The volume output dictionary, without its three timing entries. *)
Record volume_output : Type := {
  vo_volume_path : string;
  vo_output : string;
  vo_status : bool;
  vo_rsync_output : option Rsync.RsyncOutput
}.

Definition get_empty_volume_output (path : string) (st : bool) : volume_output :=
  {| vo_volume_path := path; vo_output := EmptyString; vo_status := st;
     vo_rsync_output := None |}.

(** the arguments [on_volume_ready] hands to the transfer pool *)
Record transfer_task : Type := {
  task_volume_name : string;
  task_volume_output : volume_output;
  task_processed_volume_path : string;
  task_remote_backup_path : string
}.

(** A call of [RsyncManager.transfer_file]: what was sent, where to, and
    whether the call returned ([true]) or raised ([false]). *)
Inductive event : Type :=
| Transfer (source target_dir : string) (returned : bool).

(** the name under which the file of a transfer shows up on the remote *)
Definition sent_name (e : event) : string :=
  match e with Transfer source _ _ => basename source end.

Definition delivered (e : event) : bool :=
  match e with Transfer _ _ returned => returned end.

(** The entries of the remote backup directory after a trace of
    transfers: what was there, and every file whose transfer returned. *)
Definition remote_after (remote_dir : list string) (trace : list event)
  : list string :=
  remote_dir ++ map sent_name (filter delivered trace).

(** The two pieces of state of the handler that a run changes: the jobs
    handed to [self.transfer_pool], in the order of submission, and
    [self.backup_output_dict]. *)
Record handler : Type := {
  transfer_pool : list transfer_task;
  backup_output_dict : list (string * volume_output)
}.

Definition new_handler : handler :=
  {| transfer_pool := []; backup_output_dict := [] |}.

(** [d[key] = value] *)
Fixpoint dict_set (key : string) (value : volume_output)
  (d : list (string * volume_output)) : list (string * volume_output) :=
  match d with
  | [] => [(key, value)]
  | (k, v) :: d' =>
      if String.eqb k key then (k, value) :: d'
      else (k, v) :: dict_set key value d'
  end.

Definition on_volume_ready
  (volume_name : string) (vo : volume_output) (remote_backup_path : string)
  (h : handler) : bool * handler :=
  if vo_status vo then
    let processed_volume_path := vo_volume_path vo in
    (true,
     {| transfer_pool :=
          transfer_pool h ++
          [{| task_volume_name := volume_name;
              task_volume_output := vo;
              task_processed_volume_path := processed_volume_path;
              task_remote_backup_path := remote_backup_path |}];
        backup_output_dict := backup_output_dict h |})
  else
    (false,
     {| transfer_pool := transfer_pool h;
        backup_output_dict := dict_set volume_name vo (backup_output_dict h) |}).

Definition on_volume_transferred
  (volume_name : string) (vo : volume_output) (h : handler) : bool * handler :=
  (vo_status vo,
   {| transfer_pool := transfer_pool h;
      backup_output_dict := dict_set volume_name vo (backup_output_dict h) |}).

Definition check_backup_output_errors (h : handler) : res bool :=
  let failed_volume_error_message_list :=
    map (fun kv => vo_output (snd kv))
        (filter (fun kv => negb (vo_status (snd kv))) (backup_output_dict h)) in
  match failed_volume_error_message_list with
  | [] => Ok true
  | _ :: _ =>
      Raise (BurException UploadBackupException DefaultExceptionCode
               [str_list failed_volume_error_message_list])
  end.

(** [get_list_processed_vols_names_offsite]; [offsite_volume_list] is what
    [get_remote_folder_content(host, remote_backup_path, "*.tar")]
    returned or raised *)
Definition get_list_processed_vols_names_offsite
  (remote_backup_path : string) (offsite_volume_list : res (list string))
  : res (list string) :=
  match offsite_volume_list with
  | Ok [] => Ok []
  | Ok l => Ok (map (fun volume_path => fst (splitext volume_path)) l)
  | Raise (BurException UtilsException c ps) =>
      Raise (BurException UploadBackupException
               FailedToGetProcessedVolsNamesOffsite
               [PyStr remote_backup_path; PyStr (class_name UtilsException)])
  | Raise e => Raise e
  end.

(** What the loop of [validate_already_processed_volumes] carries along. *)
Record partition_state : Type := {
  volume_path_list_to_process : list string;
  tmp : Fsys.fs;
  pools : handler
}.

(** [x in l] for strings *)
Definition str_in (x : string) (l : list string) : bool :=
  existsb (String.eqb x) l.

(** one turn of [for volume_path in volume_path_list] *)
Definition partition_step
  (temp_backup_path remote_backup_path : string)
  (uploaded_volume_name_list : list string)
  (st : partition_state) (volume_path : string) : partition_state :=
  let volume_name := basename volume_path in
  if str_in volume_name uploaded_volume_name_list then st
  else
    let tar_volume_name := volume_name ^^ PROCESSED_VOLUME_ENDS_WITH in
    let proc_tar_volume_path := join temp_backup_path tar_volume_name in
    if Fsys.os_path_exists (tmp st) proc_tar_volume_path then
      let vo := get_empty_volume_output proc_tar_volume_path true in
      {| volume_path_list_to_process := volume_path_list_to_process st;
         tmp := tmp st;
         pools := snd (on_volume_ready volume_name vo remote_backup_path (pools st)) |}
    else
      let temp_unfinished_volume_path := join temp_backup_path volume_name in
      let tmp' :=
        if Fsys.os_path_exists (tmp st) temp_unfinished_volume_path
        then snd (Fsys.remove_path temp_unfinished_volume_path (tmp st))
        else tmp st in
      {| volume_path_list_to_process :=
           volume_path_list_to_process st ++ [volume_path];
         tmp := tmp';
         pools := pools st |}.

(** The on-site and off-site surroundings of one [process_backup] run. *)
Record upload_env : Type := {
  host : string;
  customer_name : string;
  customer_backup_path : string;
  (** [get_free_disk_space(temp_backup_path)] *)
  free_disk_space : res Z;
  (** [get_size_on_disk(local_backup_path)] *)
  size_on_disk : res Z;
  (** [get_folder_file_lists_from_dir(local_backup_path)] *)
  folder_file_lists : res (list string * list string);
  (** [get_remote_folder_content(host, remote_backup_path, "*.tar")] *)
  offsite_volume_list : res (list string);
  (** the entries of the remote backup directory when the run starts *)
  remote_dir : list string;
  (** the on-site file system when the run starts *)
  local_fs : Fsys.fs;
  (** [exception.__str__()] *)
  exn_str : exn_text;
  (** [create_path], [os.path.exists] and [remove_path] as the worker
      processes and the metadata step see them *)
  create_path_ok : string -> bool;
  path_exists : string -> bool;
  remove_path_ok : string -> bool;
  (** [gpg_manager.compress_encrypt_file_list(volume_path, tmp_volume_path)] *)
  compress_encrypt_file_list : string -> string -> res bool;
  (** [gpg_manager.compress_encrypt_file(file_path, output_path)] *)
  compress_encrypt_file : string -> string -> res string;
  (** exit status of the archiver run on a path *)
  tar_ret : string -> Z;
  (** [RsyncManager.transfer_file(source_path, target_path)] *)
  transfer_file : string -> string -> res Rsync.RsyncOutput;
  (** [create_pickle_file(data, file_path)] *)
  create_pickle_file : string -> res string;
  (** [check_remote_path_exists(host, path)], asked after the transfers
      of the given trace *)
  check_remote_path_exists : list event -> string -> bool;
  (** the moment at which the transfer pool finishes the job it was given
      as number [i], counted from 0 *)
  finish_moment : nat -> nat
}.

(** The order in which the transfer pool finishes the jobs it was given,
    which is the order of the calls of [on_volume_transferred]: by moment
    of finishing, jobs that finish at the same moment in the order of
    submission. *)
Fixpoint insert_job (moment : nat -> nat) (x : nat * transfer_task)
  (l : list (nat * transfer_task)) : list (nat * transfer_task) :=
  match l with
  | [] => [x]
  | y :: l' =>
      if (moment (fst x) <=? moment (fst y))%nat then x :: l
      else y :: insert_job moment x l'
  end.

Definition schedule (env : upload_env) (jobs : list transfer_task)
  : list transfer_task :=
  map snd
    (fold_right (insert_job (finish_moment env)) []
       (combine (seq 0 (List.length jobs)) jobs)).

(** [validate_already_processed_volumes]: the three lists, the on-site
    file system and the handler afterwards *)
Definition validate_already_processed_volumes (env : upload_env)
  (local_backup_path temp_backup_path remote_backup_path : string)
  (h : handler)
  : res (list string * list string * list string) * Fsys.fs * handler :=
  match folder_file_lists env with
  | Raise e => (Raise e, local_fs env, h)
  | Ok (volume_path_list, file_path_list) =>
      match volume_path_list with
      | [] => (Raise (BurException UploadBackupException NoVolumeListForBackup
                        [PyStr local_backup_path]), local_fs env, h)
      | _ :: _ =>
      match file_path_list with
      | [] => (Raise (BurException UploadBackupException NoMetadataForBackup
                        [PyStr local_backup_path]), local_fs env, h)
      | _ :: _ =>
      match get_list_processed_vols_names_offsite remote_backup_path
              (offsite_volume_list env) with
      | Raise e => (Raise e, local_fs env, h)
      | Ok uploaded_volume_name_list =>
          let st :=
            fold_left
              (partition_step temp_backup_path remote_backup_path
                              uploaded_volume_name_list)
              volume_path_list
              {| volume_path_list_to_process := [];
                 tmp := local_fs env; pools := h |} in
          (Ok (file_path_list, volume_path_list,
               volume_path_list_to_process st), tmp st, pools st)
      end end end
  end.

(** [process_volume]: a [BurException] raised on the way ends in an
    output with [status = False]; any other exception leaves the method *)
Definition process_volume (env : upload_env)
  (volume_path tmp_volume_path : string) : res volume_output :=
  let volume_output_dict := get_empty_volume_output EmptyString false in
  let body : res volume_output :=
    _ <- (if negb (create_path_ok env tmp_volume_path)
          then Raise (BurException UploadBackupException CannotCreatePath
                        [PyStr tmp_volume_path])
          else Ok true) ;;
    _ <- compress_encrypt_file_list env volume_path tmp_volume_path ;;
    compressed_volume_path <-
      Compress.compress_file tmp_volume_path None "w" (path_exists env)
                             (tar_ret env tmp_volume_path) ;;
    if negb (remove_path_ok env tmp_volume_path)
    then Raise (BurException UploadBackupException CannotRemovePath
                  [PyStr tmp_volume_path])
    else Ok {| vo_volume_path := compressed_volume_path;
               vo_output := vo_output volume_output_dict;
               vo_status := true;
               vo_rsync_output := vo_rsync_output volume_output_dict |} in
  match body with
  | Ok vo => Ok vo
  | Raise (BurException c code ps) =>
      Ok {| vo_volume_path := vo_volume_path volume_output_dict;
            vo_output := "Error while processing volume. "
                           ^^ exn_str env (BurException c code ps);
            vo_status := vo_status volume_output_dict;
            vo_rsync_output := vo_rsync_output volume_output_dict |}
  | Raise e => Raise e
  end.

(** [transfer_backup_volume_to_offsite]: the pair it returns (or the
    exception that leaves it) and the transfer it made *)
Definition transfer_backup_volume_to_offsite (env : upload_env)
  (volume_name : string) (vo : volume_output)
  (tmp_customer_volume_path remote_dir : string)
  : res (string * volume_output) * list event :=
  let target_dir := host env ^^ ":" ^^ remote_dir in
  let failed (e : exn) (ro : option Rsync.RsyncOutput) : volume_output :=
    {| vo_volume_path := vo_volume_path vo;
       vo_output := "Error while transferring volume. " ^^ exn_str env e;
       vo_status := false;
       vo_rsync_output := ro |} in
  match transfer_file env tmp_customer_volume_path target_dir with
  | Ok ro =>
      let ev := [Transfer tmp_customer_volume_path target_dir true] in
      if negb (remove_path_ok env tmp_customer_volume_path)
      then (Ok (volume_name,
                failed (BurException UploadBackupException CannotRemovePath
                          [PyStr tmp_customer_volume_path]) (Some ro)), ev)
      else (Ok (volume_name,
                {| vo_volume_path := vo_volume_path vo;
                   vo_output := EmptyString;
                   vo_status := true;
                   vo_rsync_output := Some ro |}), ev)
  | Raise (BurException c code ps) =>
      (Ok (volume_name, failed (BurException c code ps) None),
       [Transfer tmp_customer_volume_path target_dir false])
  | Raise e => (Raise e, [Transfer tmp_customer_volume_path target_dir false])
  end.

(** The process pool: every volume to process is handed to
    [process_volume]; when the job returns, [on_volume_ready] is called
    with its result; when it raises, [apply_async] keeps the exception and
    calls nothing. *)
Fixpoint run_process_pool (env : upload_env)
  (temp_backup_path remote_backup_path : string)
  (volume_path_to_process_list : list string) (h : handler) : handler :=
  match volume_path_to_process_list with
  | [] => h
  | volume_path :: rest =>
      let volume_name := basename volume_path in
      let temp_volume_folder_path := join temp_backup_path volume_name in
      let h' :=
        match process_volume env volume_path temp_volume_folder_path with
        | Ok vo => snd (on_volume_ready volume_name vo remote_backup_path h)
        | Raise _ => h
        end in
      run_process_pool env temp_backup_path remote_backup_path rest h'
  end.

(** The transfer pool at work on a list of jobs, in the order given:
    [on_volume_transferred] is the callback of a job that returns. *)
Fixpoint run_transfer_jobs (env : upload_env) (jobs : list transfer_task)
  (h : handler) (trace : list event) : handler * list event :=
  match jobs with
  | [] => (h, trace)
  | job :: rest =>
      let '(r, evs) :=
        transfer_backup_volume_to_offsite env
          (task_volume_name job) (task_volume_output job)
          (task_processed_volume_path job) (task_remote_backup_path job) in
      let h' :=
        match r with
        | Ok (volume_name, vo) => snd (on_volume_transferred volume_name vo h)
        | Raise _ => h
        end in
      run_transfer_jobs env rest h' (trace ++ evs)
  end.

(** The file the loop of [process_backup_metadata_files] sends for
    [file_path]: the success flag as it is, the backup metadata compressed,
    encrypted and archived; any other file is ignored ([None]). *)
Definition file_to_transfer (env : upload_env)
  (file_path temp_backup_path : string) : option (res string) :=
  let file_name := basename file_path in
  if String.eqb SUCCESS_FLAG_FILE file_name then Some (Ok file_path)
  else if String.eqb BACKUP_META_FILE file_name then
    Some (processed_file_path <-
            compress_encrypt_file env file_path temp_backup_path ;;
          archived_file_path <-
            Compress.compress_file processed_file_path None "w"
              (path_exists env) (tar_ret env processed_file_path) ;;
          if negb (remove_path_ok env processed_file_path)
          then Raise (BurException UploadBackupException
                        CannotRemoveFile [PyStr processed_file_path])
          else Ok archived_file_path)
  else None.

(** [process_backup_metadata_files], the loop over [file_list] *)
Fixpoint process_backup_metadata_files (env : upload_env)
  (file_list : list string) (temp_backup_path remote_backup_path : string)
  (trace : list event) : res (list string) * list event :=
  let target_dir := host env ^^ ":" ^^ remote_backup_path in
  match file_list with
  | [] => (Ok [], trace)
  | file_path :: rest =>
      let file_name := basename file_path in
      let file_path_offsite := join remote_backup_path file_name in
      let continue_ :=
        process_backup_metadata_files env rest temp_backup_path
                                      remote_backup_path trace in
      if check_remote_path_exists env trace file_path_offsite then continue_
      else
        match file_to_transfer env file_path temp_backup_path with
        | None => continue_
        | Some (Raise e) => (Raise e, trace)
        | Some (Ok file_to_transfer) =>
            match transfer_file env file_to_transfer target_dir with
            | Raise e =>
                (Raise e, trace ++ [Transfer file_to_transfer target_dir false])
            | Ok _ =>
                let trace' :=
                  trace ++ [Transfer file_to_transfer target_dir true] in
                match process_backup_metadata_files env rest temp_backup_path
                        remote_backup_path trace' with
                | (Ok processed_file_name_list, trace'') =>
                    (Ok (basename file_to_transfer :: processed_file_name_list),
                     trace'')
                | (Raise e, trace'') => (Raise e, trace'')
                end
            end
        end
  end.

(** [create_transfer_pickle_file] *)
Definition create_transfer_pickle_file (env : upload_env)
  (file_path target_dir : string) (trace : list event)
  : res bool * list event :=
  match create_pickle_file env file_path with
  | Raise e => (Raise e, trace)
  | Ok _ =>
      match transfer_file env file_path target_dir with
      | Raise e => (Raise e, trace ++ [Transfer file_path target_dir false])
      | Ok _ =>
          let trace' := trace ++ [Transfer file_path target_dir true] in
          if negb (remove_path_ok env file_path)
          then (Raise (BurException UploadBackupException CannotRemoveFile
                         [PyStr file_path]), trace')
          else (Ok true, trace')
      end
  end.

(** [process_bur_descriptors] *)
Definition process_bur_descriptors (env : upload_env)
  (descriptor_name : string) (content_list : list string)
  (temp_backup_path remote_backup_path : string) (trace : list event)
  : res bool * list event :=
  let descriptor_path_offsite := join remote_backup_path descriptor_name in
  if negb (check_remote_path_exists env trace descriptor_path_offsite)
  then
    let target_dir := host env ^^ ":" ^^ remote_backup_path in
    match create_transfer_pickle_file env (join temp_backup_path descriptor_name)
            target_dir trace with
    | (Raise e, trace') => (Raise e, trace')
    | (Ok _, trace') => (Ok true, trace')
    end
  else (Ok true, trace).

(** The first half of [process_backup], up to and including
    [check_backup_output_errors]: the lists of files and volumes, the
    handler, and the transfers made. *)
Definition process_backup_volumes (env : upload_env)
  (backup_folder_name temp_backup_path remote_backup_path : string)
  : res (list string * list string * handler) * list event :=
  let local_backup_path := join (customer_backup_path env) backup_folder_name in
  match BackupHandler.check_local_disk_space_for_upload temp_backup_path
          (free_disk_space env) (size_on_disk env) with
  | Raise e => (Raise e, [])
  | Ok _ =>
      match validate_already_processed_volumes env local_backup_path
              temp_backup_path remote_backup_path new_handler with
      | (Raise e, _, _) => (Raise e, [])
      | (Ok (file_path_list, volume_path_list, volume_path_to_process_list),
         _, h) =>
          let h1 :=
            run_process_pool env temp_backup_path remote_backup_path
                             volume_path_to_process_list h in
          let '(h2, trace) :=
            run_transfer_jobs env (schedule env (transfer_pool h1)) h1 [] in
          match check_backup_output_errors h2 with
          | Raise e => (Raise e, trace)
          | Ok _ => (Ok (file_path_list, volume_path_list, h2), trace)
          end
      end
  end.

(** The second half: the metadata files and the two descriptors. *)
Definition process_backup_files (env : upload_env)
  (file_path_list volume_path_list : list string)
  (temp_backup_path remote_backup_path : string) (trace : list event)
  : res bool * list event :=
  match process_backup_metadata_files env file_path_list temp_backup_path
          remote_backup_path trace with
  | (Raise e, trace1) => (Raise e, trace1)
  | (Ok file_name_list, trace1) =>
      match process_bur_descriptors env BUR_FILE_LIST_DESCRIPTOR_FILE_NAME
              file_name_list temp_backup_path remote_backup_path trace1 with
      | (Raise e, trace2) => (Raise e, trace2)
      | (Ok _, trace2) =>
          let volume_name_list := map basename volume_path_list in
          process_bur_descriptors env BUR_VOLUME_LIST_DESCRIPTOR_FILE_NAME
            volume_name_list temp_backup_path remote_backup_path trace2
      end
  end.

(** [process_backup]: what it returns or raises, and every call of
    [RsyncManager.transfer_file] the run made, in order. *)
Definition process_backup (env : upload_env)
  (backup_folder_name temp_backup_path remote_backup_path : string)
  : res (string * list (string * volume_output)) * list event :=
  match process_backup_volumes env backup_folder_name temp_backup_path
          remote_backup_path with
  | (Raise e, trace) => (Raise e, trace)
  | (Ok (file_path_list, volume_path_list, h), trace) =>
      match process_backup_files env file_path_list volume_path_list
              temp_backup_path remote_backup_path trace with
      | (Raise e, trace') => (Raise e, trace')
      | (Ok _, trace') =>
          let bur_id := customer_name env ^^ "_" ^^ backup_folder_name in
          (Ok (bur_id, backup_output_dict h), trace')
      end
  end.

(** The worker processes follow the contracts their docstrings declare:
    the gpg manager and the rsync manager return or raise a
    [BurException]. *)
Definition workers_return (env : upload_env) : Prop :=
  (forall volume_path tmp_volume_path,
      returns_or_raises_bur
        (compress_encrypt_file_list env volume_path tmp_volume_path) = true)
  /\ (forall source_path target_path,
        returns_or_raises_bur (transfer_file env source_path target_path) = true).


(** The remote listing tells the truth about the volumes of the backup:
    a volume it reports as processed has its archive on the remote. *)
Definition listing_is_sound (env : upload_env) (remote_backup_path : string)
  : Prop :=
  forall uploaded_volume_name_list volume_path_list file_path_list volume_path,
    get_list_processed_vols_names_offsite remote_backup_path
      (offsite_volume_list env) = Ok uploaded_volume_name_list ->
    folder_file_lists env = Ok (volume_path_list, file_path_list) ->
    In volume_path volume_path_list ->
    str_in (basename volume_path) uploaded_volume_name_list = true ->
    In (basename volume_path ^^ PROCESSED_VOLUME_ENDS_WITH) (remote_dir env).

(** a transfer job sends the archive of its volume *)
Definition sends_archive (job : transfer_task) : Prop :=
  basename (task_processed_volume_path job)
  = task_volume_name job ^^ PROCESSED_VOLUME_ENDS_WITH.

(** every volume of the list has its archive among the remote entries *)
Definition volumes_on_remote (volume_path_list remote : list string) : Prop :=
  forall volume_path,
    In volume_path volume_path_list ->
    In (basename volume_path ^^ PROCESSED_VOLUME_ENDS_WITH) remote.

(** what DownloadEngine relies on: a remote backup directory that holds
    the success flag holds the archive of every volume *)
Definition flag_implies_volumes (volume_path_list remote : list string)
  : Prop :=
  In SUCCESS_FLAG_FILE remote -> volumes_on_remote volume_path_list remote.

(** a transfer of the success flag or of one of the two descriptors *)
Definition writes_flag_or_descriptor (e : event) : Prop :=
  sent_name e = SUCCESS_FLAG_FILE
  \/ sent_name e = BUR_FILE_LIST_DESCRIPTOR_FILE_NAME
  \/ sent_name e = BUR_VOLUME_LIST_DESCRIPTOR_FILE_NAME.

(** "The success flag is the last file written": nothing is transferred
    after a transfer of [BACKUP_OK]. *)
Definition success_flag_written_last (trace : list event) : Prop :=
  forall pre e post,
    trace = pre ++ e :: post ->
    sent_name e = SUCCESS_FLAG_FILE ->
    post = [].

(** the transfer [create_transfer_pickle_file] makes for a descriptor *)
Definition descriptor_transfer (env : upload_env)
  (descriptor_name temp_backup_path remote_backup_path : string) : event :=
  Transfer (join temp_backup_path descriptor_name)
           (host env ^^ ":" ^^ remote_backup_path) true.

End Local.

(* ================================================================== *)
(** * Sample data, taken from the unit tests of the repository *)
(* ================================================================== *)

Module Samples.
Import PyStr PyObj Exc.

(** [RSYNC_OUTPUT] of [tests/unit/test_rsync_manager.py], with the number
    of transferred files as a parameter *)
Definition rsync_stats (transferred : string) : string :=
  "Number of files: 2 (reg: 1, dir: 1)" ^^ nl ^^
  "Number of created files: 1" ^^ nl ^^
  "Number of deleted files: 2" ^^ nl ^^
  "Number of regular files transferred: " ^^ transferred ^^ nl ^^
  "Total file size: 685 bytes" ^^ nl ^^
  "Total transferred file size: 787 bytes" ^^ nl ^^
  "Literal data: 680 bytes" ^^ nl ^^
  "Matched data: 787 bytes" ^^ nl ^^
  "File list size: 0" ^^ nl ^^
  "File list generation time: 0.001 seconds" ^^ nl ^^
  "File list transfer time: 0.000 seconds" ^^ nl ^^
  "Total bytes sent: 95" ^^ nl ^^
  "Total bytes received: 17" ^^ nl ^^ nl ^^
  "sent 95 bytes  received 17 bytes  74.67 bytes/sec" ^^ nl ^^
  "total size is 0  speedup is 0.00".

Definition RSYNC_OUTPUT : string := rsync_stats "1".

Definition parsed (transferred : string) : Rsync.RsyncOutput :=
  {| Rsync.n_files := "2"; Rsync.n_created_files := "1";
     Rsync.n_deleted_files := "2"; Rsync.n_transferred_files := transferred;
     Rsync.out_speedup := "0.00"; Rsync.out_rate := "74.67" |}.

(** an rsync that reports one transferred file at its first invocation
    and two from the second on *)
Definition rsync_second_time_lucky (k : nat) : Rsync.check_output_result :=
  match k with
  | O => Rsync.Stdout (rsync_stats "1")
  | S _ => Rsync.Stdout (rsync_stats "2")
  end.

(** an rsync that always reports one transferred file *)
Definition rsync_always_one (k : nat) : Rsync.check_output_result :=
  Rsync.Stdout RSYNC_OUTPUT.

Definition sender : Rsync.RsyncManager :=
  {| Rsync.source_path := "/tmp/CUSTOMER_0/2018-12-04/volume0.tar";
     Rsync.destination_path := "user@offsite:/bkp/CUSTOMER_0/2018-12-04";
     Rsync.retry := Rsync.NUMBER_TRIES;
     Rsync.rsync_ssh := true |}.

Definition receiver : Rsync.RsyncManager :=
  {| Rsync.source_path := "user@offsite:/bkp/CUSTOMER_0/2018-12-04/volume0.tar";
     Rsync.destination_path := "/restore/CUSTOMER_0/2018-12-04";
     Rsync.retry := Rsync.NUMBER_TRIES;
     Rsync.rsync_ssh := true |}.

Definition sample_rsync_output : Rsync.RsyncOutput := parsed "1".

(** a remote shell that answers every command and counts them *)
Definition counting_peer (n : nat) (host command : string)
  : Remote.ssh_reply * nat :=
  ({| Remote.reply_stdout := "DIR_IS_AVAILABLE";
      Remote.reply_stderr := EmptyString;
      Remote.timer_fired := false |}, S n).

(** a remote shell without state: it answers the commands of a table and
    complains about any other *)
Definition table_peer (table : list (string * string))
  (st : unit) (host command : string) : Remote.ssh_reply * unit :=
  match List.find (fun kv => String.eqb (fst kv) command) table with
  | Some (_, out) =>
      ({| Remote.reply_stdout := out;
          Remote.reply_stderr := EmptyString;
          Remote.timer_fired := false |}, tt)
  | None =>
      ({| Remote.reply_stdout := EmptyString;
          Remote.reply_stderr := "bash: command not found";
          Remote.timer_fired := false |}, tt)
  end.

Definition fresh_net : Remote.net unit :=
  {| Remote.peer := tt; Remote.spawned := [] |}.

Definition backup_dir : string := "/bkp/CUSTOMER_0/2018-12-04".

(** the line [find ... -printf "%T+\t%p\n" | sort | head -1] prints for a
    directory whose oldest entry is [path], and the marker after it *)
Definition oldest_entry_line (timestamp path : string) : string :=
  timestamp ^^ tab ^^ path ^^ nl ^^ "END_OF_COMMAND" ^^ nl.

(** the oldest entry of the backup is a file whose name ends in a space *)
Definition peer_trailing_space : unit -> string -> string -> Remote.ssh_reply * unit :=
  table_peer
    [(Remote.build_find_cmd [backup_dir],
      oldest_entry_line "2018-12-04+10:30:00.0000000000"
                        "/bkp/CUSTOMER_0/2018-12-04/notes ")].

(** the oldest entry of the backup is a file with a space inside its name *)
Definition peer_inner_space : unit -> string -> string -> Remote.ssh_reply * unit :=
  table_peer
    [(Remote.build_find_cmd [backup_dir],
      oldest_entry_line "2018-12-04+10:30:00.0000000000"
                        "/bkp/CUSTOMER_0/2018-12-04/my notes")].

(** the oldest entry of the backup is a file with a line feed in its
    name, [my] and [notes] on two lines: [find] prints the two lines, and
    [sort | head -1] lets the one with the time stamp through *)
Definition peer_line_feed : unit -> string -> string -> Remote.ssh_reply * unit :=
  table_peer
    [(Remote.build_find_cmd [backup_dir],
      oldest_entry_line "2018-12-04+10:30:00.0000000000"
                        "/bkp/CUSTOMER_0/2018-12-04/my")].

(** Scenario 5 of the specification: seven backups of one customer, two
    of them empty directories, retention 4. *)
Definition backup_of_day (day : string) : string :=
  "/bkp/CUSTOMER_0/2018-12-0" ^^ day.

Definition seven_backups : list string :=
  map backup_of_day ["1"; "2"; "3"; "4"; "5"; "6"; "7"].

Definition count_answers (dir files : string) : list (string * string) :=
  [("find " ^^ dir ^^ " -type f | wc -l", files ^^ nl);
   ("find " ^^ dir ^^ " -mindepth 1 -type d | wc -l", "0" ^^ nl)].

Definition five_non_empty : list string :=
  map backup_of_day ["1"; "2"; "4"; "5"; "7"].

Definition retention_peer : unit -> string -> string -> Remote.ssh_reply * unit :=
  table_peer
    (count_answers (backup_of_day "1") "3" ++
     count_answers (backup_of_day "2") "3" ++
     count_answers (backup_of_day "3") "0" ++
     count_answers (backup_of_day "4") "3" ++
     count_answers (backup_of_day "5") "3" ++
     count_answers (backup_of_day "6") "0" ++
     count_answers (backup_of_day "7") "3" ++
     [(Remote.build_find_cmd five_non_empty,
       oldest_entry_line "2018-12-01+02:00:00.0000000000"
                         (backup_of_day "1" ^^ "/volume0.tar") ^^
       oldest_entry_line "2018-12-02+02:00:00.0000000000"
                         (backup_of_day "2" ^^ "/volume0.tar") ^^
       oldest_entry_line "2018-12-04+02:00:00.0000000000"
                         (backup_of_day "4" ^^ "/volume0.tar") ^^
       oldest_entry_line "2018-12-05+02:00:00.0000000000"
                         (backup_of_day "5" ^^ "/volume0.tar") ^^
       oldest_entry_line "2018-12-07+02:00:00.0000000000"
                         (backup_of_day "7" ^^ "/volume0.tar"))]).

(** an on-site file system: the temporary directory of a backup with an
    archived volume, a half-processed volume that holds a read-only
    directory, and a file *)
Definition sample_fs : Fsys.fs :=
  Fsys.Dir true
    [("tmp",
      Fsys.Dir true
        [("CUSTOMER_0",
          Fsys.Dir true
            [("2018-12-04",
              Fsys.Dir true
                [("volume1.tar", Fsys.File);
                 ("volume2",
                  Fsys.Dir true
                    [("a.gz.gpg", Fsys.File);
                     ("locked", Fsys.Dir false [("b.gz", Fsys.File)]);
                     ("c.gz.gpg", Fsys.File)])])])]);
     ("readonly", Fsys.Dir false [])].

(** Scenario 2 of the specification: [volume0.tar] is on the remote,
    [volume1.tar] is in the temporary directory, [volume2] is half done. *)
Definition local_backup : string := "/data/CUSTOMER_0/2018-12-04".
Definition temp_backup : string := "/tmp/CUSTOMER_0/2018-12-04".

(** the text of an exception in the sample runs: what the unit tests
    show for three codes, and the text of the default code otherwise *)
Definition error_text : exn_text :=
  fun e =>
    match e with
    | BurException _ CannotCreatePath _ =>
        "Error Code 35. Path informed cannot be created."
    | BurException _ CannotRemovePath _ =>
        "Error Code 60. Path(s) informed cannot be removed."
    | BurException _ GzipCommandError _ =>
        "Error Code 48. Gzip command returned error code."
    | _ => "Error Code 30. Something went wrong."
    end.

Definition resume_env : Local.upload_env :=
  {| Local.host := "user@offsite";
     Local.customer_name := "CUSTOMER_0";
     Local.customer_backup_path := "/data/CUSTOMER_0";
     Local.free_disk_space := Ok 2000%Z;
     Local.size_on_disk := Ok 1000%Z;
     Local.folder_file_lists :=
       Ok ([join local_backup "volume0"; join local_backup "volume1";
            join local_backup "volume2"; join local_backup "volume3"],
           [join local_backup "BACKUP_OK";
            join local_backup "backup.metadata"]);
     Local.offsite_volume_list := Ok ["volume0.tar"; EmptyString];
     Local.remote_dir := ["volume0.tar"];
     Local.local_fs :=
       Fsys.Dir true
         [("tmp",
           Fsys.Dir true
             [("CUSTOMER_0",
               Fsys.Dir true
                 [("2018-12-04",
                   Fsys.Dir true
                     [("volume1.tar", Fsys.File);
                      ("volume2", Fsys.Dir true [("a.gz", Fsys.File)])])])])];
     Local.exn_str := error_text;
     Local.create_path_ok := fun _ => true;
     Local.path_exists := fun _ => true;
     Local.remove_path_ok := fun _ => true;
     Local.compress_encrypt_file_list := fun _ _ => Ok true;
     Local.compress_encrypt_file :=
       fun file_path output_path =>
         Ok (join output_path (basename file_path ^^ ".gz.gpg"));
     Local.tar_ret := fun _ => 0%Z;
     Local.transfer_file := fun _ _ => Ok sample_rsync_output;
     Local.create_pickle_file := fun file_path => Ok file_path;
     Local.check_remote_path_exists := fun _ _ => false;
     Local.finish_moment := fun i => 3 - i |}.

(** Scenario 2 with a volume that cannot be read: [os.listdir(volume3)]
    raises [OSError] inside [compress_encrypt_file_list]. *)
Definition unreadable_volume_env : Local.upload_env :=
  {| Local.host := Local.host resume_env;
     Local.customer_name := Local.customer_name resume_env;
     Local.customer_backup_path := Local.customer_backup_path resume_env;
     Local.free_disk_space := Local.free_disk_space resume_env;
     Local.size_on_disk := Local.size_on_disk resume_env;
     Local.folder_file_lists := Local.folder_file_lists resume_env;
     Local.offsite_volume_list := Local.offsite_volume_list resume_env;
     Local.remote_dir := Local.remote_dir resume_env;
     Local.local_fs := Local.local_fs resume_env;
     Local.exn_str := error_text;
     Local.create_path_ok := fun _ => true;
     Local.path_exists := fun _ => true;
     Local.remove_path_ok := fun _ => true;
     Local.compress_encrypt_file_list :=
       fun volume_path _ =>
         if String.eqb (basename volume_path) "volume3"
         then Raise (OtherError "OSError")
         else Ok true;
     Local.compress_encrypt_file := Local.compress_encrypt_file resume_env;
     Local.tar_ret := fun _ => 0%Z;
     Local.transfer_file := fun _ _ => Ok sample_rsync_output;
     Local.create_pickle_file := fun file_path => Ok file_path;
     Local.check_remote_path_exists := fun _ _ => false;
     Local.finish_moment := fun i => 3 - i |}.

(** Scenario 2 with a half-done volume that cannot be removed: the
    temporary directory is that of [sample_fs], where [volume2] holds a
    read-only directory. *)
Definition locked_volume_env : Local.upload_env :=
  {| Local.host := Local.host resume_env;
     Local.customer_name := Local.customer_name resume_env;
     Local.customer_backup_path := Local.customer_backup_path resume_env;
     Local.free_disk_space := Local.free_disk_space resume_env;
     Local.size_on_disk := Local.size_on_disk resume_env;
     Local.folder_file_lists := Local.folder_file_lists resume_env;
     Local.offsite_volume_list := Local.offsite_volume_list resume_env;
     Local.remote_dir := Local.remote_dir resume_env;
     Local.local_fs := sample_fs;
     Local.exn_str := error_text;
     Local.create_path_ok := fun _ => true;
     Local.path_exists := fun _ => true;
     Local.remove_path_ok := fun _ => true;
     Local.compress_encrypt_file_list := fun _ _ => Ok true;
     Local.compress_encrypt_file := Local.compress_encrypt_file resume_env;
     Local.tar_ret := fun _ => 0%Z;
     Local.transfer_file := fun _ _ => Ok sample_rsync_output;
     Local.create_pickle_file := fun file_path => Ok file_path;
     Local.check_remote_path_exists := fun _ _ => false;
     Local.finish_moment := fun i => 3 - i |}.

Definition partition_start : Local.partition_state :=
  {| Local.volume_path_list_to_process := [];
     Local.tmp := Local.local_fs resume_env;
     Local.pools := Local.new_handler |}.

(** the transfers of the run of scenario 2, as [rsync] is called *)
Definition offsite_target : string := "user@offsite:/bkp/CUSTOMER_0/2018-12-04".

Definition resume_archives : list Local.event :=
  [Local.Transfer (join temp_backup "volume3.tar") offsite_target true;
   Local.Transfer (join temp_backup "volume2.tar") offsite_target true;
   Local.Transfer (join temp_backup "volume1.tar") offsite_target true].

Definition resume_flag : Local.event :=
  Local.Transfer (join local_backup "BACKUP_OK") offsite_target true.

Definition resume_after_flag : list Local.event :=
  [Local.Transfer (join temp_backup "backup.metadata.gz.gpg.tar")
                  offsite_target true;
   Local.Transfer (join temp_backup "bur_file_list_descriptor.dat")
                  offsite_target true;
   Local.Transfer (join temp_backup "bur_volume_list_descriptor.dat")
                  offsite_target true].

Definition resume_volumes : list string :=
  [join local_backup "volume0"; join local_backup "volume1";
   join local_backup "volume2"; join local_backup "volume3"].

End Samples.

(* ================================================================== *)
(** * utils/remote.py: directories and listings on the remote side *)
(* ================================================================== *)

Module RemoteDirs.
Import PyStr PyObj Exc Validator.

(** the [dir_list] argument of [remove_remote_dir]: [None] (its default),
    a [str], or a list of paths *)
Inductive dir_list_arg : Type :=
| NoDirList
| DirStr (folder_path : string)
| DirList (folder_paths : list string).

(** [if isinstance(dir_list, str): dir_list = [dir_list]] *)
Definition as_list (dir_list : dir_list_arg) : list string :=
  match dir_list with
  | NoDirList => []
  | DirStr folder_path => [folder_path]
  | DirList folder_paths => folder_paths
  end.

(** [check_not_empty(dir_list)] *)
Definition check_dir_list_not_empty (dir_list : dir_list_arg) : res bool :=
  match dir_list with
  | NoDirList => Raise (BurException UtilsException EmptyValue [])
  | DirStr folder_path => check_not_empty folder_path
  | DirList folder_paths => check_not_empty_list folder_paths
  end.

Section WithPeer.
Variable R : Type.
Variable communicate : R -> string -> string -> Remote.ssh_reply * R.

(** the script of [create_remote_dir]; every line of the literal ends in
    an escaped and in a real line feed *)
Definition ssh_create_dir_commands (full_path : string) : string :=
  nl ^^ "    if [ -d " ^^ full_path ^^ " ]; then" ^^ nl ^^ nl
     ^^ "        echo " ^^ dquote ^^ "DIR_IS_AVAILABLE" ^^ nl ^^ dquote ^^ nl
     ^^ "    else" ^^ nl ^^ nl
     ^^ "        mkdir " ^^ full_path ^^ nl ^^ nl
     ^^ "        if [ -d " ^^ full_path ^^ " ]; then" ^^ nl ^^ nl
     ^^ "            echo " ^^ dquote ^^ "DIR_IS_AVAILABLE" ^^ dquote ^^ ";"
     ^^ nl ^^ nl
     ^^ "        fi" ^^ nl ^^ nl
     ^^ "    fi" ^^ nl ^^ nl
     ^^ "    ".

Definition create_remote_dir (host full_path : string) (w : Remote.net R)
  : bool * Remote.net R :=
  let '((stdout, stderr), w') :=
    Remote.run_ssh_command communicate host
      (ssh_create_dir_commands full_path) w in
  if truthy (strip stderr) then (false, w')
  else if negb (String.eqb (strip stdout) "DIR_IS_AVAILABLE") then (false, w')
       else (true, w').

(** the loop of [validate_removed_dir_list] *)
Fixpoint validate_removed_dirs (host : string) (remove_dir_list : list string)
  (w : Remote.net R) : (list string * list string) * Remote.net R :=
  match remove_dir_list with
  | [] => (([], []), w)
  | removed_path :: rest =>
      let '(still_there, w1) :=
        Remote.check_remote_path_exists communicate host removed_path w in
      let '((not_removed_list, validated_removed_list), w2) :=
        validate_removed_dirs host rest w1 in
      if negb still_there
      then ((not_removed_list, removed_path :: validated_removed_list), w2)
      else ((removed_path :: not_removed_list, validated_removed_list), w2)
  end.

(** [validate_removed_dir_list(host, remove_dir_list=None)]: the pair
    [(not_removed_list, validated_removed_list)] *)
Definition validate_removed_dir_list (host : string)
  (remove_dir_list : option (list string)) (w : Remote.net R)
  : (list string * list string) * Remote.net R :=
  let remove_dir_list :=
    match remove_dir_list with None => [] | Some l => l end in
  validate_removed_dirs host remove_dir_list w.

(** [remove_dir_cmd]: one [rm -rf] line per folder *)
Definition remove_dir_cmd (dir_list : list string) : string :=
  fold_left (fun cmd folder_path =>
               cmd ^^ "rm -rf " ^^ strip folder_path ^^ nl)
            dir_list EmptyString.

(** [remove_remote_dir(host, dir_list=None)] *)
Definition remove_remote_dir (host : string) (dir_list : dir_list_arg)
  (w : Remote.net R) : res (list string * list string) * Remote.net R :=
  match check_not_empty host with
  | Raise e => (Raise e, w)
  | Ok _ =>
  match check_dir_list_not_empty dir_list with
  | Raise e => (Raise e, w)
  | Ok _ =>
      let dir_list := as_list dir_list in
      let '((_, stderr), w1) :=
        Remote.run_ssh_command communicate host (remove_dir_cmd dir_list) w in
      if truthy (strip stderr)
      then (Raise (BurException UtilsException CannotRemovePath
                     [str_list dir_list; PyStr stderr]), w1)
      else
        let '(lists, w2) := validate_removed_dir_list host (Some dir_list) w1 in
        (Ok lists, w2)
  end end.

(** [get_remote_folder_content(host, remote_path, filtering_criteria)] *)
Definition get_remote_folder_content
  (host remote_path filtering_criteria : string) (w : Remote.net R)
  : res (list string) * Remote.net R :=
  match check_not_empty host with
  | Raise e => (Raise e, w)
  | Ok _ =>
  match check_not_empty remote_path with
  | Raise e => (Raise e, w)
  | Ok _ =>
      let find_command :=
        "find " ^^ remote_path ^^ " -name " ^^ filtering_criteria in
      let '((result, error), w') :=
        Remote.run_ssh_command communicate host find_command w in
      if truthy error
      then (Raise (BurException UtilsException CannotAccessHost
                     [PyStr host; PyStr remote_path; PyStr error]), w')
      else
        if truthy (strip result)
        then (Ok (map basename (split nl result)), w')
        else (Ok [], w')
  end end.

(** [get_remote_folder_size(host, remote_path)]; the parameters of the
    [CannotParseValue] exception are given without the error object *)
Definition get_remote_folder_size (host remote_path : string)
  (w : Remote.net R) : res Z * Remote.net R :=
  let command := "du -bms " ^^ remote_path in
  let '((stdout, stderr), w') :=
    Remote.run_ssh_command communicate host command w in
  if truthy stderr
  then (Raise (BurException UtilsException CannotAccessHost
                 [PyStr host; PyStr remote_path; PyStr stderr]), w')
  else
    let std_output_list := split tab stdout in
    match nth_error std_output_list 0 with
    | None =>
        (Raise (BurException UtilsException CannotParseValue
                  [str_list std_output_list]), w')
    | Some field =>
        match py_int field with
        | Some backup_size => (Ok backup_size, w')
        | None =>
            (Raise (BurException UtilsException CannotParseValue
                      [str_list std_output_list]), w')
        end
    end.

End WithPeer.

End RemoteDirs.

(* ================================================================== *)
(** * utils/fsys.py: listings *)
(* ================================================================== *)

Module FsysLists.
Import PyStr PyObj Exc Validator.

(** [c in s] for a character *)
Fixpoint has_char (c : ascii) (s : string) : bool :=
  match s with
  | EmptyString => false
  | String a s' => Ascii.eqb a c || has_char c s'
  end.

(** a path as [ls] prints it on a line of its own: no line feed inside,
    no white space around *)
Definition tidy (d : string) : bool :=
  negb (has_char "010"%char d) && String.eqb (strip d) d.

(** [s[0:len(s) - 1]] *)
Fixpoint drop_last (s : string) : string :=
  match s with
  | EmptyString => EmptyString
  | String c EmptyString => EmptyString
  | String c s' => String c (drop_last s')
  end.

(** the loop of [split_folder_list] over the lines *)
Fixpoint split_folder_lines (lines : list string) : list string :=
  match lines with
  | [] => []
  | folder_path :: rest =>
      let folder_path := strip folder_path in
      if negb (truthy folder_path) || String.eqb folder_path "."
      then split_folder_lines rest
      else
        let folder_path :=
          match last_char folder_path with
          | Some c => if is_slash c then drop_last folder_path else folder_path
          | None => folder_path
          end in
        folder_path :: split_folder_lines rest
  end.

(** [split_folder_list(folder_list_string)] *)
Definition split_folder_list (folder_list_string : string) : list string :=
  split_folder_lines (split nl folder_list_string).

(** what [ls -d] prints for a list of directories: each path with a
    slash after it, one per line *)
Definition ls_output (dirs : list string) : string :=
  fold_right (fun d out => d ^^ "/" ^^ nl ^^ out) EmptyString dirs.

(** [os.listdir]: the names in the order of the directory; [None] is an
    [OSError] (no such directory) *)
Definition os_listdir (root : Fsys.fs) (path : string) : option (list string) :=
  match Fsys.resolve root path with
  | Some (Fsys.Dir _ es) => Some (map fst es)
  | _ => None
  end.

(** [os.path.isfile] *)
Definition os_path_isfile (root : Fsys.fs) (path : string) : bool :=
  match Fsys.resolve root path with
  | Some Fsys.File => true
  | _ => false
  end.

(** [is_dir(root_path)] *)
Definition is_dir (root : Fsys.fs) (root_path : string) : bool :=
  if negb (Fsys.os_path_exists root root_path) then false
  else if negb (Fsys.os_path_isdir root root_path) then false
       else true.

(** the loop of [get_folder_file_lists_from_dir]: [(dir_list, file_list)] *)
Fixpoint sort_dir_items (root : Fsys.fs) (dir_path : string)
  (items : list string) : list string * list string :=
  match items with
  | [] => ([], [])
  | dir_item :: rest =>
      let dir_item_path := join dir_path dir_item in
      let '(dir_list, file_list) := sort_dir_items root dir_path rest in
      if os_path_isfile root dir_item_path
      then (dir_list, dir_item_path :: file_list)
      else (dir_item_path :: dir_list, file_list)
  end.

(** [get_folder_file_lists_from_dir(dir_path)] *)
Definition get_folder_file_lists_from_dir (root : Fsys.fs) (dir_path : string)
  : res (list string * list string) :=
  if is_dir root dir_path
  then
    match os_listdir root dir_path with
    | Some items => Ok (sort_dir_items root dir_path items)
    | None => Raise (OtherError "OSError")
    end
  else Raise (BurException UtilsException InvalidFolder [PyStr dir_path]).

(** the loop of [get_number_of_content_from_path] over the entries of a
    directory; [recurse] is the recursive call, [None] when it gave no
    result *)
Fixpoint count_entries (recurse : string -> option (res (Z * Z)))
  (root : Fsys.fs) (source_path : string) (names : list string)
  (total_files total_folders : Z) : option (res (Z * Z)) :=
  match names with
  | [] => Some (Ok (total_files, total_folders))
  | file_name :: rest =>
      let new_path := join source_path file_name in
      if Fsys.os_path_isdir root new_path
      then
        match recurse new_path with
        | None => None
        | Some (Raise e) => Some (Raise e)
        | Some (Ok (files, folders)) =>
            count_entries recurse root source_path rest
              (total_files + files) (total_folders + 1 + folders)
        end
      else
        count_entries recurse root source_path rest
          (total_files + 1) total_folders
  end.

(** [get_number_of_content_from_path(source_path)]: the recursion
    follows the paths, so it is counted by [depth]; [None] means that
    [depth] nested calls were not enough *)
Fixpoint get_number_of_content_from_path (depth : nat) (root : Fsys.fs)
  (source_path : string) : option (res (Z * Z)) :=
  match depth with
  | O => None
  | S depth' =>
      match Compress.is_valid_path source_path
              (Fsys.os_path_exists root source_path) with
      | Raise e => Some (Raise e)
      | Ok _ =>
          if Fsys.os_path_isdir root source_path
          then
            match os_listdir root source_path with
            | None => Some (Raise (OtherError "OSError"))
            | Some names =>
                count_entries
                  (get_number_of_content_from_path depth' root)
                  root source_path names 0 0
            end
          else Some (Ok (1, 0)%Z)
      end
  end.

(** What the documentation of [get_number_of_content_from_path] asks
    for, counted on the tree: the regular files of a node (a file counts
    as one) and the directories below it. *)
Fixpoint files_below (n : Fsys.node) : Z :=
  match n with
  | Fsys.File => 1
  | Fsys.Dir _ es =>
      fold_right (fun e acc => (files_below (snd e) + acc)%Z) 0%Z es
  end.

Fixpoint folders_below (n : Fsys.node) : Z :=
  match n with
  | Fsys.File => 0
  | Fsys.Dir _ es =>
      fold_right
        (fun e acc =>
           (match snd e with
            | Fsys.Dir _ _ => 1 + folders_below (snd e)
            | Fsys.File => 0
            end + acc)%Z) 0%Z es
  end.

(** the number of nested calls a node takes *)
Fixpoint height (n : Fsys.node) : nat :=
  match n with
  | Fsys.File => 1
  | Fsys.Dir _ es =>
      S (fold_right (fun e acc => Nat.max (height (snd e)) acc) 0 es)
  end.

(** every entry has a name, and no name holds a slash *)
Fixpoint proper_names (n : Fsys.node) : bool :=
  match n with
  | Fsys.File => true
  | Fsys.Dir _ es =>
      forallb (fun e => truthy (fst e) && negb (has_slash (fst e))
                        && proper_names (snd e)) es
  end.

End FsysLists.

(* ================================================================== *)
(** * utils/datatypes.py *)
(* ================================================================== *)

Module Datatypes.
Import PyStr PyObj Exc.

(** [for item in dic[key]: if query in str(item): return key, item] *)
Fixpoint find_in_items (query key : string) (items : list string)
  : option (string * string) :=
  match items with
  | [] => None
  | item :: rest =>
      if contains query item then Some (key, item)
      else find_in_items query key rest
  end.

(** the loop over [dic.items()]; the dictionary is given by its items, in
    the order the loop meets them *)
Fixpoint find_in_dict (query : string) (dic : list (string * list string))
  : option (string * string) :=
  match dic with
  | [] => None
  | (key, items) :: rest =>
      match find_in_items query key items with
      | Some found => Some found
      | None => find_in_dict query rest
      end
  end.

(** [find_elem_dict(dic, query)] for a map of lists of strings *)
Definition find_elem_dict (dic : list (string * list string)) (query : string)
  : string * string :=
  if negb (truthy (strip query)) then (EmptyString, EmptyString)
  else
    match find_in_dict query dic with
    | Some found => found
    | None => (EmptyString, EmptyString)
    end.

End Datatypes.

(* ================================================================== *)
(** * rsync_manager.py: [transfer_file] *)
(* ================================================================== *)

Module RsyncTransfer.
Import PyStr PyObj Exc Validator.

Section WithRsync.
Variable check_output : nat -> Rsync.check_output_result.

(** [RsyncManager.transfer_file(source_path, target_path, rsync_ssh)];
    [local_content] is what [send] learns about the source,
    [remote_path_exists], [origin_content] and [destination_content] are
    what [receive] learns.  The second component counts the rsync
    invocations. *)
Definition transfer_file (source_path target_path : string) (rsync_ssh : bool)
  (local_content : res (Z * Z)) (remote_path_exists : bool)
  (origin_content destination_content : res (Z * Z))
  : res Rsync.send_value * nat :=
  match check_not_empty source_path with
  | Raise e => (Raise e, 0)
  | Ok _ =>
  match check_not_empty target_path with
  | Raise e => (Raise e, 0)
  | Ok _ =>
      let manager :=
        {| Rsync.source_path := source_path;
           Rsync.destination_path := target_path;
           Rsync.retry := Rsync.NUMBER_TRIES;
           Rsync.rsync_ssh := rsync_ssh |} in
      if contains "@" source_path
      then
        match Rsync.receive check_output manager remote_path_exists
                origin_content destination_content with
        | (Ok rsync_output, calls) => (Ok (Rsync.Sent rsync_output), calls)
        | (Raise e, calls) => (Raise e, calls)
        end
      else Rsync.send check_output manager local_content
  end end.

End WithRsync.

End RsyncTransfer.

(* ================================================================== *)
(** * offsite_backup_handler.py: listing and cleaning the off-site *)
(* ================================================================== *)

Module OffsiteOps.
Import PyStr PyObj Exc Validator.

(** [EnmConfig] of [backup_settings.py] *)
Record EnmConfig : Type := {
  name : string;
  backup_path : string
}.

(** the [customer_query] argument of [get_offsite_backup_dict]: [None],
    one customer object, or a list of them *)
Inductive customer_query_arg : Type :=
| AllCustomers
| OneCustomer (customer_config : EnmConfig)
| CustomerList (customer_configs : list EnmConfig).

(** A [dict] with string keys, by its items: [d[key] = value] and
    [d.get(key)]. *)
Fixpoint dict_put {A} (key : string) (value : A) (d : list (string * A))
  : list (string * A) :=
  match d with
  | [] => [(key, value)]
  | (k, v) :: d' =>
      if String.eqb k key then (k, value) :: d'
      else (k, v) :: dict_put key value d'
  end.

Fixpoint dict_get {A} (key : string) (d : list (string * A)) : option A :=
  match d with
  | [] => None
  | (k, v) :: d' => if String.eqb k key then Some v else dict_get key d'
  end.

(** [sorted(keys)]: ascending and stable *)
Fixpoint insert_sorted (x : string) (l : list string) : list string :=
  match l with
  | [] => [x]
  | y :: l' => if String.ltb y x then y :: insert_sorted x l' else x :: l
  end.

Definition sorted (l : list string) : list string :=
  fold_right insert_sorted [] l.

(** The loop of [get_offsite_backup_dict] over the sorted keys:
    [customer_idx] counts the keys done, [None] from [nth_error] is the
    [IndexError] of [folder_by_customer[customer_idx]]. *)
Fixpoint assign_folders (keys : list string) (folder_by_customer : list string)
  (customer_idx : nat) (backup_list_by_customer_dict : list (string * list string))
  : res (list (string * list string)) :=
  match keys with
  | [] => Ok backup_list_by_customer_dict
  | key :: rest =>
      if (List.length folder_by_customer <? customer_idx)%nat
      then Ok backup_list_by_customer_dict
      else
        match nth_error folder_by_customer customer_idx with
        | None => Raise (OtherError "IndexError")
        | Some chunk =>
            assign_folders rest folder_by_customer (S customer_idx)
              (dict_put key (FsysLists.split_folder_list chunk)
                        backup_list_by_customer_dict)
        end
  end.

Section WithPeer.
Variable R : Type.
Variable communicate : R -> string -> string -> Remote.ssh_reply * R.
(** [list.sort(customer_config_list)]: the objects have no ordering of
    their own, Python 2 orders them by identity *)
Variable sort_configs : list EnmConfig -> list EnmConfig.
(** [str(l)] of a list of strings *)
Variable list_repr : list string -> string.
(** [exception.__str__()] *)
Variable exn_str : exn_text.

(** the handler: [self.customer_config_dict] by its items,
    [self.remote_root_backup_path] and [self.offsite_config.host] *)
Variable customer_config_dict : list (string * EnmConfig).
Variable remote_root_backup_path : string.
Variable host : string.

(** the customers asked about, once sorted *)
Definition customers_asked (customer_query : customer_query_arg)
  : list EnmConfig :=
  sort_configs
    match customer_query with
    | AllCustomers => map snd customer_config_dict
    | OneCustomer customer_config => [customer_config]
    | CustomerList customer_configs => customer_configs
    end.

(** [ssh_get_sorted_dir_list] *)
Definition ssh_get_sorted_dir_list (customer_config_list : list EnmConfig)
  : string :=
  fold_left
    (fun cmd customer_config =>
       cmd ^^ "ls -dt "
           ^^ join remote_root_backup_path (name customer_config)
           ^^ "/*/" ^^ nl ^^ "echo END-OF-COMMAND" ^^ nl)
    customer_config_list EmptyString.

(** the dictionary before the answer is read: every customer name with an
    empty list *)
Definition empty_backup_lists (customer_config_list : list EnmConfig)
  : list (string * list string) :=
  fold_left (fun d customer_config => dict_put (name customer_config) [] d)
            customer_config_list [].

(** [get_offsite_backup_dict(customer_query)] *)
Definition get_offsite_backup_dict (customer_query : customer_query_arg)
  (w : Remote.net R) : res (list (string * list string)) * Remote.net R :=
  let customer_config_list := customers_asked customer_query in
  let backup_list_by_customer_dict :=
    empty_backup_lists customer_config_list in
  let '((stdout, _), w') :=
    Remote.run_ssh_command communicate host
      (ssh_get_sorted_dir_list customer_config_list) w in
  let folder_by_customer := split "END-OF-COMMAND" stdout in
  (assign_folders (sorted (map fst backup_list_by_customer_dict))
                  folder_by_customer 0 backup_list_by_customer_dict, w').

(** [get_backup_dir_list_to_cleanup(offsite_retention)], the listing
    included *)
Definition get_backup_dir_list_to_cleanup (offsite_retention : nat)
  (w : Remote.net R) : res (list string) * Remote.net R :=
  let customer_config_list := map snd customer_config_dict in
  match get_offsite_backup_dict (CustomerList customer_config_list) w with
  | (Raise e, w1) => (Raise e, w1)
  | (Ok dir_list_by_customer_dict, w1) =>
      Offsite.get_backup_dir_list_to_cleanup communicate host
        offsite_retention dir_list_by_customer_dict w1
  end.

(** [clean_offsite_backup(number_retention)]: the flag, the message and
    the list of removed directories *)
Definition clean_offsite_backup (number_retention : nat) (w : Remote.net R)
  : res (bool * string * list string) * Remote.net R :=
  match get_backup_dir_list_to_cleanup number_retention w with
  | (Raise e, w1) => (Raise e, w1)
  | (Ok remove_dir_list, w1) =>
      match remove_dir_list with
      | [] =>
          (Ok (true,
               "Off-site clean up finished successfully with no backup removed.",
               []), w1)
      | _ :: _ =>
          match RemoteDirs.remove_remote_dir communicate host
                  (RemoteDirs.DirList remove_dir_list) w1 with
          | (Raise (BurException c code ps), w2) =>
              (Ok (false, exn_str (BurException c code ps), []), w2)
          | (Raise e, w2) => (Raise e, w2)
          | (Ok (not_removed_list, validated_removed_list), w2) =>
              match not_removed_list with
              | _ :: _ =>
                  (Ok (false,
                       "Following backups were not removed: "
                         ^^ list_repr not_removed_list,
                       validated_removed_list), w2)
              | [] =>
                  (Ok (true, "Off-site clean up finished successfully.",
                       validated_removed_list), w2)
              end
          end
      end
  end.

(** [validate_backup_destination(customer_name, backup_destination)]:
    what it returns or raises and the on-site file system afterwards *)
Definition validate_backup_destination (customer_name backup_destination : string)
  (root : Fsys.fs) : res string * Fsys.fs :=
  let chosen : res string :=
    if negb (truthy (strip backup_destination))
    then
      match dict_get customer_name customer_config_dict with
      | Some customer_config => Ok (backup_path customer_config)
      | None => Raise (OtherError "KeyError")
      end
    else Ok (join backup_destination customer_name) in
  match chosen with
  | Raise e => (Raise e, root)
  | Ok backup_destination =>
      let '(created, root') := Fsys.create_path backup_destination root in
      if negb created
      then (Raise (BurException DownloadBackupException CannotCreatePath
                     [PyStr backup_destination]), root')
      else (Ok backup_destination, root')
  end.

End WithPeer.

End OffsiteOps.

(* ================================================================== *)
(** * utils/backup_handler.py: the validation of a backup *)
(* ================================================================== *)

Module Validation.
Import PyStr PyObj Exc Validator.

Definition GENIE_VOL_BKPS_DEPLOYMENT : string := "genie_vol_bkp".
Definition METADATA_FILE_SUFFIX : string := "_metadata".
(** [META_DATA_KEYS.objects.name] and [META_DATA_KEYS.md5.name] *)
Definition OBJECTS : string := "objects".
Definition MD5 : string := "md5".

(** the truth value of a Python value *)
Definition py_truthy (o : pyobj) : bool :=
  match o with
  | PyNone => false
  | PyBool b => b
  | PyInt n => negb (n =? 0)%Z
  | PyStr s => truthy s
  | PyList l => match l with [] => false | _ :: _ => true end
  | PyTuple l => match l with [] => false | _ :: _ => true end
  | PyDict d => match d with [] => false | _ :: _ => true end
  end.

(** [o[key]] for a string key; a dictionary is given by its items, its
    keys distinct *)
Definition subscript (o : pyobj) (key : string) : res pyobj :=
  match o with
  | PyDict d =>
      match OffsiteOps.dict_get key d with
      | Some v => Ok v
      | None => Raise (OtherError "KeyError")
      end
  | _ => Raise (OtherError "TypeError")
  end.

(** [o.keys()] *)
Definition keys_of (o : pyobj) : res (list string) :=
  match o with
  | PyDict d => Ok (map fst d)
  | _ => Raise (OtherError "AttributeError")
  end.

(** the characters of a string, each as a string *)
Fixpoint chars (s : string) : list pyobj :=
  match s with
  | EmptyString => []
  | String c s' => PyStr (String c EmptyString) :: chars s'
  end.

(** what [for item in o] goes through *)
Definition iterate (o : pyobj) : res (list pyobj) :=
  match o with
  | PyList l => Ok l
  | PyTuple l => Ok l
  | PyDict d => Ok (map (fun kv => PyStr (fst kv)) d)
  | PyStr s => Ok (chars s)
  | _ => Raise (OtherError "TypeError")
  end.

(** the loop of [validate_metadata_content] over the entries of the
    metadata *)
Fixpoint check_items (volume_list : list string) (items : list pyobj)
  : res bool :=
  match items with
  | [] => Ok true
  | item :: rest =>
      item_key <- keys_of item ;;
      match item_key with
      | [vol_file] =>
          if negb (Local.str_in vol_file volume_list) then Ok false
          else
            entry <- subscript item vol_file ;;
            entry_keys <- keys_of entry ;;
            if negb (Local.str_in MD5 entry_keys) then Ok false
            else check_items volume_list rest
      | _ => Ok false
      end
  end.

(** [validate_metadata_content(volume_path, metadata_json, logger)];
    [volume_list] is what [os.listdir(volume_path)] returned or raised *)
Definition validate_metadata_content (volume_list : res (list string))
  (metadata_json : pyobj) : res bool :=
  volume_list <- volume_list ;;
  metadata_file_list <- subscript metadata_json OBJECTS ;;
  items <- iterate metadata_file_list ;;
  check_items volume_list items.

(** The metadata with other checksums: every value stored under [md5]
    in the attributes of an entry is replaced. *)
Definition checksums_in_attributes (change : pyobj -> pyobj) (o : pyobj)
  : pyobj :=
  match o with
  | PyDict attributes =>
      PyDict (map (fun kv => (fst kv,
                              if String.eqb (fst kv) MD5 then change (snd kv)
                              else snd kv)) attributes)
  | _ => o
  end.

Definition checksums_in_entry (change : pyobj -> pyobj) (o : pyobj) : pyobj :=
  match o with
  | PyDict d =>
      PyDict (map (fun kv => (fst kv, checksums_in_attributes change (snd kv)))
                  d)
  | _ => o
  end.

Definition checksums_in_objects (change : pyobj -> pyobj) (o : pyobj)
  : pyobj :=
  match o with
  | PyList l => PyList (map (checksums_in_entry change) l)
  | PyTuple l => PyTuple (map (checksums_in_entry change) l)
  | _ => o
  end.

Definition with_checksums (change : pyobj -> pyobj) (metadata_json : pyobj)
  : pyobj :=
  match metadata_json with
  | PyDict d =>
      PyDict (map (fun kv => (fst kv,
                              if String.eqb (fst kv) OBJECTS
                              then checksums_in_objects change (snd kv)
                              else snd kv)) d)
  | _ => metadata_json
  end.

Section WithFiles.
(** [glob.glob(pattern)] on a file system *)
Variable glob : Fsys.fs -> string -> list string.
(** [json.load] of the file at a path: the value, or what it raised *)
Variable json_load : string -> res pyobj.

(** [get_volume_metadata_file]; [None] is Python's [None] *)
Definition get_volume_metadata_file (root : Fsys.fs) (volume_path : string)
  : option string :=
  match glob root (join volume_path ("*" ^^ METADATA_FILE_SUFFIX)) with
  | [metadata_file_name] => Some metadata_file_name
  | _ => None
  end.

(** [get_metadata_file_json]; [PyNone] is Python's [None] *)
Definition get_metadata_file_json (root : Fsys.fs) (volume_path : string)
  : res pyobj :=
  match get_volume_metadata_file root volume_path with
  | None => Ok PyNone
  | Some metadata_file_name =>
      if negb (truthy metadata_file_name) then Ok PyNone
      else
        match json_load metadata_file_name with
        | Ok metadata => Ok metadata
        | Raise (OtherError error) =>
            if String.eqb error "ValueError" || String.eqb error "TypeError"
            then Ok PyNone
            else Raise (OtherError error)
        | Raise e => Raise e
        end
  end.

(** [validate_volume_metadata(volume_path, logger)] *)
Definition validate_volume_metadata (root : Fsys.fs) (volume_path : string)
  : res bool :=
  if negb (FsysLists.is_dir root volume_path) then Ok false
  else
    match FsysLists.os_listdir root volume_path with
    | None => Raise (OtherError "OSError")
    | Some [] => Ok false
    | Some (_ :: _) =>
        metadata_json <- get_metadata_file_json root volume_path ;;
        if negb (py_truthy metadata_json) then Ok false
        else
          valid <-
            validate_metadata_content
              (match FsysLists.os_listdir root volume_path with
               | Some volume_list => Ok volume_list
               | None => Raise (OtherError "OSError")
               end) metadata_json ;;
          if negb valid then Ok false else Ok true
    end.

(** [check_is_processed_volume(volume_path, logger)]: the answer and the
    file system afterwards *)
Definition check_is_processed_volume (root : Fsys.fs) (volume_path : string)
  : res bool * Fsys.fs :=
  if negb (Fsys.os_path_exists root volume_path) then (Ok false, root)
  else
    match validate_volume_metadata root volume_path with
    | Raise e => (Raise e, root)
    | Ok valid =>
        if negb valid
        then (Ok false, snd (Fsys.remove_path volume_path root))
        else (Ok true, root)
    end.

(** [is_backup_ok_valid]; [files] is [backup_structure['files']] *)
Definition is_backup_ok_valid (files : list string) : bool :=
  if negb (Local.str_in Local.SUCCESS_FLAG_FILE files) then false else true.

(** the loop of [is_backup_volume_valid] over the folders *)
Fixpoint volumes_valid (root : Fsys.fs) (customer_backup_path : string)
  (folders : list string) : res bool :=
  match folders with
  | [] => Ok true
  | volume_folder :: rest =>
      let volume_path := join customer_backup_path volume_folder in
      valid <- validate_volume_metadata root volume_path ;;
      if negb valid then Ok false
      else volumes_valid root customer_backup_path rest
  end.

(** [is_backup_volume_valid]; [folders] is [backup_structure['folders']] *)
Definition is_backup_volume_valid (root : Fsys.fs)
  (customer_backup_path : string) (folders : list string) : res bool :=
  if negb (Fsys.os_path_exists root customer_backup_path) then Ok false
  else
    match folders with
    | [] => Ok false
    | _ :: _ => volumes_valid root customer_backup_path folders
    end.

(** the files and the folders among the entries of a backup:
    [backup_structure] *)
Fixpoint backup_structure (root : Fsys.fs) (backup_path : string)
  (items : list string) : list string * list string :=
  match items with
  | [] => ([], [])
  | item :: rest =>
      let '(files, folders) := backup_structure root backup_path rest in
      if FsysLists.os_path_isfile root (join backup_path item)
      then (item :: files, folders)
      else (files, item :: folders)
  end.

(** [validate_backup_per_volume(deployment_label, backup_path, logger)] *)
Definition validate_backup_per_volume (root : Fsys.fs)
  (deployment_label backup_path : string) : res bool :=
  match FsysLists.os_listdir root backup_path with
  | None => Raise (OtherError "OSError")
  | Some items =>
      let '(files, folders) := backup_structure root backup_path items in
      if negb (is_backup_ok_valid files) then Ok false
      else
        if String.eqb deployment_label GENIE_VOL_BKPS_DEPLOYMENT
        then Ok true
        else
          valid <- is_backup_volume_valid root backup_path folders ;;
          if negb valid then Ok false else Ok true
  end.

End WithFiles.

Section WithPeer.
Variable R : Type.
Variable communicate : R -> string -> string -> Remote.ssh_reply * R.

(** [check_local_disk_space_for_download]; [free_disk_space] is what
    [get_free_disk_space(bkp_download_path)] returned or raised *)
Definition check_local_disk_space_for_download
  (backup_path_offsite host bkp_download_path : string)
  (free_disk_space : res Z) (w : Remote.net R) : res bool * Remote.net R :=
  match free_disk_space with
  | Raise e => (Raise e, w)
  | Ok free_disk_space_onsite_mb =>
      match RemoteDirs.get_remote_folder_size communicate host
              backup_path_offsite w with
      | (Raise e, w') => (Raise e, w')
      | (Ok bkp_size_offsite_mb, w') =>
          if (free_disk_space_onsite_mb <=? bkp_size_offsite_mb)%Z
          then
            (Raise (BurException UtilsException NotEnoughFreeDiskSpace
               [PyStr ("Path: " ^^ bkp_download_path ^^ ".");
                PyStr ("Required: "
                         ^^ BackupHandler.str_of_Z bkp_size_offsite_mb
                         ^^ BackupHandler.BLOCK_SIZE_MB_STR ^^ ".");
                PyStr ("Available: "
                         ^^ BackupHandler.str_of_Z free_disk_space_onsite_mb
                         ^^ BackupHandler.BLOCK_SIZE_MB_STR ^^ ".")]), w')
          else (Ok true, w')
      end
  end.

End WithPeer.

End Validation.

(* ================================================================== *)
(** * local_backup_handler.py: the backups on site *)
(* ================================================================== *)

Module LocalOps.
Import PyStr PyObj Exc Validator.

Definition MIN_BKP_LOCAL : nat := 1.

(** [clean_local_backup(customer_backup_path)]; [backup_path] is
    [self.customer_conf.backup_path].  The pair it returns and the file
    system afterwards. *)
Definition clean_local_backup (backup_path customer_backup_path : string)
  (root : Fsys.fs) : res (bool * string) * Fsys.fs :=
  match FsysLists.os_listdir root backup_path with
  | None => (Raise (OtherError "OSError"), root)
  | Some entries =>
      let number_backup_dir :=
        List.length
          (filter (fun backup_dir =>
                     negb (FsysLists.os_path_isfile root
                             (join backup_path backup_dir))) entries) in
      if (MIN_BKP_LOCAL <? number_backup_dir)%nat
      then
        let '(removed, root') := Fsys.remove_path customer_backup_path root in
        if negb removed
        then (Ok (false, "Error while deleting folder '"
                           ^^ customer_backup_path ^^ "' from NFS server."),
              root')
        else (Ok (true, "Backup '" ^^ customer_backup_path
                          ^^ "' removed successfully."), root')
      else (Ok (false, "Backup '" ^^ customer_backup_path
                         ^^ "' NOT removed. Just "
                         ^^ BackupHandler.str_of_Z (Z.of_nat MIN_BKP_LOCAL)
                         ^^ " backup found."), root)
  end.

(** [l.sort(key=...)] with numbers as keys: ascending and stable *)
Fixpoint insert_by (key : string -> Z) (x : string) (l : list string)
  : list string :=
  match l with
  | [] => [x]
  | y :: l' =>
      if (key y <? key x)%Z then y :: insert_by key x l' else x :: l
  end.

Definition sort_by (key : string -> Z) (l : list string) : list string :=
  fold_right (insert_by key) [] l.

Section WithFiles.
Variable glob : Fsys.fs -> string -> list string.
Variable json_load : string -> res pyobj.
(** [os.path.getmtime] *)
Variable getmtime : string -> Z.

(** the loop of [get_local_backup_list] over the entries of the
    customer's folder *)
Fixpoint valid_dirs (root : Fsys.fs) (customer_name source_dir : string)
  (customer_tags : list string) : res (list string) :=
  match customer_tags with
  | [] => Ok []
  | backup_folder :: rest =>
      let backup_path := join source_dir backup_folder in
      if FsysLists.os_path_isfile root backup_path
      then valid_dirs root customer_name source_dir rest
      else
        valid <-
          Validation.validate_backup_per_volume glob json_load root
            customer_name backup_path ;;
        valid_dir_list <- valid_dirs root customer_name source_dir rest ;;
        Ok (if negb valid then valid_dir_list
            else backup_folder :: valid_dir_list)
  end.

(** [get_local_backup_list()]; [customer_name] and [source_dir] are the
    name and the backup path of [self.customer_conf]; [None] is Python's
    [None] *)
Definition get_local_backup_list (root : Fsys.fs)
  (customer_name source_dir : string) : res (option (list string)) :=
  if negb (Fsys.os_path_exists root source_dir) then Ok None
  else
    match FsysLists.os_listdir root source_dir with
    | None => Raise (OtherError "OSError")
    | Some customer_tags =>
        valid_dir_list <- valid_dirs root customer_name source_dir customer_tags ;;
        Ok (Some (sort_by (fun s => getmtime (join source_dir s))
                          valid_dir_list))
    end.

End WithFiles.

Section WithPeer.
Variable R : Type.
Variable communicate : R -> string -> string -> Remote.ssh_reply * R.

(** [validate_create_offsite_onsite_base_paths()]; [host] is
    [self.offsite_config.host], [temp_path] is
    [self.onsite_config.temp_path].  The result, the peer and the on-site
    file system afterwards. *)
Definition validate_create_offsite_onsite_base_paths
  (host remote_root_path customer_name temp_path temp_customer_root_path
     : string)
  (w : Remote.net R) (root : Fsys.fs)
  : res bool * Remote.net R * Fsys.fs :=
  let '(created, w1) :=
    RemoteDirs.create_remote_dir communicate host remote_root_path w in
  if negb created
  then (Raise (BurException UploadBackupException CannotCreatePath
                 [PyStr remote_root_path; PyStr customer_name]), w1, root)
  else
    let '(temp_created, root1) := Fsys.create_path temp_path root in
    if negb temp_created
    then (Raise (BurException UploadBackupException CannotCreatePath
                   [PyStr temp_path]), w1, root1)
    else
      let '(customer_created, root2) :=
        Fsys.create_path temp_customer_root_path root1 in
      if negb customer_created
      then (Raise (BurException UploadBackupException CannotCreatePath
                     [PyStr temp_customer_root_path]), w1, root2)
      else (Ok true, w1, root2).

End WithPeer.

End LocalOps.

(* ================================================================== *)
(** * utils/compress.py: unpacking *)
(* ================================================================== *)

Module Decompress.
Import PyStr PyObj Exc.

(** [s.replace(old, new)] for an [old] that is not empty: the
    occurrences of [old] are replaced from the left, and the text of an
    occurrence is not looked at again ([skip] counts what is left of it) *)
Fixpoint replace_go (old new : string) (skip : nat) (s : string) : string :=
  match s with
  | EmptyString => EmptyString
  | String c s' =>
      match skip with
      | S k => replace_go old new k s'
      | O =>
          if prefix old s
          then new ^^ replace_go old new (String.length old - 1) s'
          else String c (replace_go old new 0 s')
      end
  end.

Definition replace (old new s : string) : string := replace_go old new 0 s.

(** [untar_file(file_path, file_destination)]; [ret] is the exit status
    of the command *)
Definition untar_file (file_path file_destination : string) (ret : Z)
  : res string :=
  if negb (ret =? 0)%Z
  then Raise (BurException UtilsException TarZipCommandError [PyInt ret])
  else
    let decompressed_file_name :=
      replace ("." ^^ Compress.TAR_SUFFIX) EmptyString (basename file_path) in
    Ok (join file_destination decompressed_file_name).

End Decompress.

(* ================================================================== *)
(** * offsite_backup_handler.py: the volumes of a download *)
(* ================================================================== *)

Module Download.
Import PyStr PyObj Exc.

(** The volume output dictionary of a download, without its timing
    entries. *)
Record volume_output : Type := {
  vo_status : bool;
  vo_rsync_output : option string;
  (** [None]: the dictionary has no [output] entry yet *)
  vo_output : option string
}.

(** the arguments [on_volume_downloaded] hands to the process pool *)
Record process_task : Type := {
  task_archived_volume_name : string;
  task_backup_destination_path : string;
  task_volume_output : volume_output
}.

(** The two pieces of state of the handler that these methods change:
    the jobs handed to [self.process_pool], in the order of submission,
    and [self.backup_output_dict]. *)
Record handler : Type := {
  process_pool : list process_task;
  backup_output_dict : list (string * volume_output)
}.

(** [on_volume_downloaded((volume_name, archived_volume_name,
    volume_output, backup_destination_path))] *)
Definition on_volume_downloaded
  (volume_name archived_volume_name : string) (volume_output_dict : volume_output)
  (backup_destination_path : string) (h : handler) : bool * handler :=
  if vo_status volume_output_dict
  then
    (true,
     {| process_pool :=
          process_pool h ++
          [{| task_archived_volume_name := archived_volume_name;
              task_backup_destination_path := backup_destination_path;
              task_volume_output := volume_output_dict |}];
        backup_output_dict := backup_output_dict h |})
  else
    (false,
     {| process_pool := process_pool h;
        backup_output_dict :=
          OffsiteOps.dict_put volume_name volume_output_dict
                              (backup_output_dict h) |}).

(** What the loop of [check_volumes_for_download] carries along. *)
Record check_state : Type := {
  missing_volume_list : list string;
  local_fs : Fsys.fs;
  pools : handler
}.

Section WithFiles.
Variable glob : Fsys.fs -> string -> list string.
Variable json_load : string -> res pyobj.

(** one turn of [for volume_name in volume_name_list]; an entry of the
    descriptor that is no string stops [os.path.join] *)
Definition check_volume (download_backup_path : string) (st : check_state)
  (volume_name : pyobj) : res unit * check_state :=
  match volume_name with
  | PyStr volume_name =>
      let volume_path := join download_backup_path volume_name in
      let '(processed, fs1) :=
        Validation.check_is_processed_volume glob json_load (local_fs st)
          volume_path in
      let st1 := {| missing_volume_list := missing_volume_list st;
                    local_fs := fs1; pools := pools st |} in
      match processed with
      | Raise e => (Raise e, st1)
      | Ok true => (Ok tt, st1)
      | Ok false =>
          let archived_volume_name :=
            volume_name ^^ "." ^^ Compress.TAR_SUFFIX in
          let full_archived_volume_path :=
            join download_backup_path archived_volume_name in
          if Fsys.os_path_exists fs1 full_archived_volume_path
          then
            let volume_output_dict :=
              {| vo_status := true; vo_rsync_output := None;
                                    vo_output := None |} in
            (Ok tt,
             {| missing_volume_list := missing_volume_list st;
                local_fs := fs1;
                pools := snd (on_volume_downloaded volume_name
                                archived_volume_name volume_output_dict
                                download_backup_path (pools st)) |})
          else
            (Ok tt,
             {| missing_volume_list :=
                  missing_volume_list st ++ [archived_volume_name];
                local_fs := fs1;
                pools := pools st |})
      end
  | _ => (Raise (OtherError "AttributeError"), st)
  end.

Fixpoint check_volumes (download_backup_path : string) (st : check_state)
  (volume_name_list : list pyobj) : res unit * check_state :=
  match volume_name_list with
  | [] => (Ok tt, st)
  | volume_name :: rest =>
      match check_volume download_backup_path st volume_name with
      | (Raise e, st1) => (Raise e, st1)
      | (Ok _, st1) => check_volumes download_backup_path st1 rest
      end
  end.

(** [check_volumes_for_download(source_remote_dir, download_backup_path)];
    [transfer], [loaded] and [removed] are the three outcomes inside
    [retrieve_remote_pickle_file_content], [root] is the on-site file
    system once the descriptor has been read.  The result, and the file
    system and the handler afterwards. *)
Definition check_volumes_for_download
  (source_remote_dir download_backup_path : string)
  (transfer : res Rsync.RsyncOutput) (loaded : res pyobj) (removed : bool)
  (root : Fsys.fs) (h : handler)
  : res (pyobj * list string) * Fsys.fs * handler :=
  let bur_volume_list_desc_file_path :=
    join source_remote_dir Local.BUR_VOLUME_LIST_DESCRIPTOR_FILE_NAME in
  match Offsite.retrieve_remote_pickle_file_content
          bur_volume_list_desc_file_path download_backup_path
          transfer loaded removed with
  | Raise e => (Raise e, root, h)
  | Ok volume_name_list =>
      if negb (Validation.py_truthy volume_name_list)
      then (Raise (BurException DownloadBackupException NoVolumeListForBackup
                     [PyStr bur_volume_list_desc_file_path]), root, h)
      else
        match Validation.iterate volume_name_list with
        | Raise e => (Raise e, root, h)
        | Ok items =>
            let '(outcome, st) :=
              check_volumes download_backup_path
                {| missing_volume_list := []; local_fs := root; pools := h |}
                items in
            match outcome with
            | Raise e => (Raise e, local_fs st, pools st)
            | Ok _ =>
                (Ok (volume_name_list, missing_volume_list st),
                 local_fs st, pools st)
            end
        end
  end.

End WithFiles.

(** [GnupgManager.decrypt_decompress_file_list(source_dir, number_threads)];
    [job_error_list] is the list of error messages the threads of the pool
    left behind *)
Definition decrypt_decompress_file_list (root : Fsys.fs) (source_dir : string)
  (job_error_list : list string) : res bool :=
  if negb (FsysLists.is_dir root source_dir)
  then Raise (BurException GnupgException InvalidFolder [PyStr source_dir])
  else
    match job_error_list with
    | _ :: _ =>
        Raise (BurException GnupgException DefaultExceptionCode
                 [str_list job_error_list])
    | [] => Ok true
    end.

(** [process_volume(volume_name, volume_root_path, volume_output)]:
    [exn_str] is [exception.__str__()], [path_exists] answers
    [os.path.exists(volume_full_path)], [decompressed] is the outcome of
    [decompress_file], [root] the file system once the archive is
    unpacked.  A [BurException] raised on the way ends in an output with
    [status = False]; any other exception leaves the method. *)
Definition process_volume (volume_name volume_root_path : string)
  (volume_output_dict : volume_output)
  (exn_str : exn_text) (path_exists : bool) (decompressed : res string)
  (root : Fsys.fs) (job_error_list : list string)
  : res (string * volume_output) :=
  let volume_full_path := join volume_root_path volume_name in
  let body : res bool :=
    _ <- Compress.is_valid_path volume_full_path path_exists ;;
    _ <- decompressed ;;
    match nth_error (split "." volume_name) 0 with
    | None => Raise (OtherError "IndexError")
    | Some first_piece =>
        let decompressed_volume_dir := join volume_root_path first_piece in
        decrypt_decompress_file_list root decompressed_volume_dir
                                     job_error_list
    end in
  match body with
  | Ok _ =>
      Ok (volume_name,
          {| vo_status := true;
             vo_rsync_output := vo_rsync_output volume_output_dict;
             vo_output := Some EmptyString |})
  | Raise (BurException c code ps) =>
      Ok (volume_name,
          {| vo_status := false;
             vo_rsync_output := vo_rsync_output volume_output_dict;
             vo_output :=
               Some ("Error while processing volume. "
                       ^^ exn_str (BurException c code ps) ^^ ".") |})
  | Raise e => Raise e
  end.

End Download.

(* ================================================================== *)
(** * More sample data *)
(* ================================================================== *)

Module Cases.
Import PyStr PyObj Exc Samples.

(** the remote backup directory holds two archives *)
Definition two_archives : string :=
  backup_dir ^^ "/volume0.tar" ^^ nl ^^ backup_dir ^^ "/volume1.tar".

Definition listing_peer : unit -> string -> string -> Remote.ssh_reply * unit :=
  table_peer [("find " ^^ backup_dir ^^ " -name " ^^ "*.tar",
               two_archives ^^ nl)].

(** The backups of a customer on site: one backup with its success flag
    and a volume, one backup that was never flagged, and a stray file. *)
Definition nfs : Fsys.fs :=
  Fsys.Dir true
    [("data",
      Fsys.Dir true
        [("customer0",
          Fsys.Dir true
            [("2018-08-23",
              Fsys.Dir true
                [("BACKUP_OK", Fsys.File);
                 ("volume0",
                  Fsys.Dir true
                    [("volume0_metadata", Fsys.File);
                     ("a.tar", Fsys.File)])]);
             ("2018-08-24",
              Fsys.Dir true
                [("volume0",
                  Fsys.Dir true
                    [("volume0_metadata", Fsys.File);
                     ("a.tar", Fsys.File)])]);
             ("notes.txt", Fsys.File)])])].

Definition nfs_customer : string := "/data/customer0".
Definition nfs_backup : string := "/data/customer0/2018-08-23".

(** the metadata files [glob] finds on [nfs] *)
Definition nfs_glob (root : Fsys.fs) (pattern : string) : list string :=
  if String.eqb pattern "/data/customer0/2018-08-23/volume0/*_metadata"
  then ["/data/customer0/2018-08-23/volume0/volume0_metadata"]
  else if String.eqb pattern "/data/customer0/2018-08-24/volume0/*_metadata"
       then ["/data/customer0/2018-08-24/volume0/volume0_metadata"]
       else [].

Definition volume0_metadata : pyobj :=
  PyDict
    [("backup_description", PyStr "volume0");
     ("objects",
      PyList [PyDict [("a.tar",
                       PyDict [("length", PyInt 10);
                               ("md5", PyStr "0cc175b9c0f1b6a8")])]])].

(** every metadata file on [nfs] holds [volume0_metadata] *)
Definition nfs_json_load (path : string) : res pyobj := Ok volume0_metadata.

Definition nfs_getmtime (path : string) : Z :=
  if String.eqb path "/data/customer0/2018-08-23" then 1535000000
  else 1535086400.

(** A download that was interrupted: [volume0] is restored, the archive
    of [volume1] has arrived, nothing of [volume2] is there, and
    [volume3] was unpacked but holds no metadata. *)
Definition restore_fs : Fsys.fs :=
  Fsys.Dir true
    [("restore",
      Fsys.Dir true
        [("2018-08-23",
          Fsys.Dir true
            [("volume0",
              Fsys.Dir true
                [("volume0_metadata", Fsys.File);
                 ("a.tar", Fsys.File)]);
             ("volume1.tar", Fsys.File);
             ("volume3", Fsys.Dir true [("b.gz", Fsys.File)])])])].

Definition restore_path : string := "/restore/2018-08-23".

Definition restore_glob (root : Fsys.fs) (pattern : string) : list string :=
  if String.eqb pattern "/restore/2018-08-23/volume0/*_metadata"
  then ["/restore/2018-08-23/volume0/volume0_metadata"]
  else [].

Definition restore_volumes : list string :=
  ["volume0"; "volume1"; "volume2"; "volume3"].

(** the remote shell answers [du -bms] for the backup directory *)
Definition size_peer : unit -> string -> string -> Remote.ssh_reply * unit :=
  table_peer [("du -bms " ^^ backup_dir, "2048" ^^ tab ^^ backup_dir ^^ nl)].

Definition no_jobs : Download.handler :=
  {| Download.process_pool := []; Download.backup_output_dict := [] |}.

(** the destination once the archive [volume.1.tar] of a volume called
    [volume.1] is unpacked *)
Definition unpacked_fs : Fsys.fs :=
  Fsys.Dir true
    [("restore",
      Fsys.Dir true
        [("2018-08-23",
          Fsys.Dir true
            [("volume.1", Fsys.Dir true [("a.gz.gpg", Fsys.File)])])])].

Definition downloaded : Download.volume_output :=
  {| Download.vo_status := true; Download.vo_rsync_output := None;
     Download.vo_output := None |}.

(** the outcome of [check_volumes_for_download] on [restore_fs] *)
Definition restore_check
  : res (pyobj * list string) * Fsys.fs * Download.handler :=
  Download.check_volumes_for_download restore_glob nfs_json_load
    offsite_target restore_path (Ok sample_rsync_output)
    (Ok (PyList (map PyStr restore_volumes))) true restore_fs no_jobs.

End Cases.

(* ==== THEOREMS ==== *)

(* ================================================================== *)
(** * Facts about the string primitives *)
(* ================================================================== *)

Import PyStr PyObj Exc Samples.

Section StringFacts.

Lemma blank_lstrip (s : string) : blank s = true -> lstrip s = EmptyString.
Proof.
  induction s as [|c s IH]; simpl; [reflexivity|].
  intros H. apply andb_prop in H. destruct H as [Hc Hs].
  rewrite Hc. auto.
Qed.

Lemma blank_strip (s : string) : blank s = true -> strip s = EmptyString.
Proof. intros H. unfold strip. rewrite (blank_lstrip _ H). reflexivity. Qed.

Lemma rstrip_empty_blank (s : string) :
  rstrip s = EmptyString -> blank s = true.
Proof.
  induction s as [|c s IH]; simpl; [reflexivity|].
  destruct (rstrip s) eqn:Hr.
  - destruct (is_space c); [intros _; simpl; auto | discriminate].
  - discriminate.
Qed.

Lemma lstrip_blank (s : string) :
  blank (lstrip s) = true -> blank s = true.
Proof.
  induction s as [|c s IH]; simpl; [reflexivity|].
  destruct (is_space c) eqn:Hc; simpl.
  - exact IH.
  - rewrite Hc. simpl. discriminate.
Qed.

Lemma strip_empty_blank (s : string) :
  strip s = EmptyString -> blank s = true.
Proof.
  unfold strip. intros H. apply lstrip_blank, rstrip_empty_blank, H.
Qed.

(** a string is false after [strip()] exactly when it is empty or made
    of whitespace only *)
Lemma strip_truthy_blank (s : string) :
  truthy (strip s) = negb (blank s).
Proof.
  destruct (blank s) eqn:Hb.
  - rewrite (blank_strip _ Hb). reflexivity.
  - destruct (strip s) eqn:Hs; [|reflexivity].
    apply strip_empty_blank in Hs. congruence.
Qed.

End StringFacts.

(* ================================================================== *)
(** * utils/remote.py: blank arguments *)
(* ================================================================== *)

Section BlankArguments.
Variable R : Type.
Variable communicate : R -> string -> string -> Remote.ssh_reply * R.

(** C9.  When the host or the text handed over (the command of
    [run_ssh_command], the path of [check_remote_path_exists]) is empty
    or consists of whitespace only, [run_ssh_command] returns the pair of
    empty strings and [check_remote_path_exists] returns [False]; neither
    raises, and the network is left as it was: no ssh process is spawned
    and the remote side is not touched. *)
Theorem blank_arguments_run_nothing
  (host text : string) (w : Remote.net R)
  (Hblank : blank host = true \/ blank text = true) :
  Remote.run_ssh_command communicate host text w
    = ((EmptyString, EmptyString), w)
  /\ Remote.check_remote_path_exists communicate host text w = (false, w).
Proof.
  unfold Remote.run_ssh_command, Remote.check_remote_path_exists.
  rewrite !strip_truthy_blank, !negb_involutive.
  destruct Hblank as [H|H]; rewrite H; rewrite ?orb_true_r; simpl; auto.
Qed.

End BlankArguments.

Lemma blank_arguments_run_nothing_witness :
  let w := {| Remote.peer := 0; Remote.spawned := [] |} in
  (blank "user@offsite" = true \/ blank ("  " ^^ tab ^^ nl) = true)
  /\ Remote.run_ssh_command counting_peer "user@offsite" ("  " ^^ tab ^^ nl) w
       = ((EmptyString, EmptyString), w)
  /\ Remote.check_remote_path_exists counting_peer "user@offsite"
       ("  " ^^ tab ^^ nl) w = (false, w).
Proof.
  split; [right; reflexivity|].
  apply (blank_arguments_run_nothing counting_peer "user@offsite"
           ("  " ^^ tab ^^ nl)).
  right; reflexivity.
Defined.

(** With a host and a command that are not blank the same shell is run:
    the call is logged and the peer moves on. *)
Example run_ssh_command_runs :
  Remote.run_ssh_command counting_peer "user@offsite" "ls"
    {| Remote.peer := 0; Remote.spawned := [] |}
  = (("DIR_IS_AVAILABLE", EmptyString),
     {| Remote.peer := 1; Remote.spawned := [("user@offsite", "ls")] |}).
Proof. reflexivity. Qed.

(* ================================================================== *)
(** * utils/backup_handler.py: the disk-space precondition of the upload *)
(* ================================================================== *)

(** When the free space equals the size of the backup the check raises. *)
Lemma disk_space_check_refuses_equal_space :
  ~ (BackupHandler.is_disk_space_error
       (BackupHandler.check_local_disk_space_for_upload
          "/tmp/CUSTOMER_0/2018-12-04" (Ok 1000%Z) (Ok 1000%Z)) = true
     <-> (1000 < 1000)%Z).
Proof. intros [H _]. specialize (H eq_refl). lia. Qed.

(** C5, as the code has it.  Given the two figures, the check raises the
    disk-space error exactly when the free space is at most the size of the
    backup (equal figures included), and it returns [True] exactly when the
    free space is strictly greater. *)
Theorem disk_space_check_needs_strictly_more
  (temp_backup_path : string) (free_mb size_mb : Z) :
  (BackupHandler.is_disk_space_error
     (BackupHandler.check_local_disk_space_for_upload temp_backup_path
        (Ok free_mb) (Ok size_mb)) = true
   <-> (free_mb <= size_mb)%Z)
  /\ (BackupHandler.check_local_disk_space_for_upload temp_backup_path
        (Ok free_mb) (Ok size_mb) = Ok true
      <-> (size_mb < free_mb)%Z).
Proof.
  unfold BackupHandler.check_local_disk_space_for_upload; simpl.
  destruct (Z.leb_spec free_mb size_mb); simpl; split; split; intros;
    try reflexivity; try lia; try discriminate.
Qed.

(** The figure for the free space comes from [df -k]: kilobytes divided by
    1000, rounded down, so up to 999 KB of the free space are not counted. *)
Example free_disk_space_of_df :
  BackupHandler.get_free_disk_space
    ["Filesystem 1K-blocks Used Available Use% Mounted on";
     "/dev/sda1 41152736 9263908 1000999 23% /"] = Ok 1000%Z.
Proof. reflexivity. Qed.

(* ================================================================== *)
(** * offsite_backup_handler.py: reading a descriptor *)
(* ================================================================== *)

(** A list of integers is not a list of strings, and it is read without
    an error. *)
Lemma descriptor_with_non_strings_is_accepted :
  is_list_of_str (PyList [PyInt 1; PyInt 2]) = false
  /\ Offsite.retrieve_remote_pickle_file_content
       "user@offsite:/bkp/CUSTOMER_0/2018-12-04/bur_volume_list_descriptor.dat"
       "/restore/CUSTOMER_0/2018-12-04"
       (Ok sample_rsync_output) (Ok (PyList [PyInt 1; PyInt 2])) true
     = Ok (PyList [PyInt 1; PyInt 2]).
Proof. split; reflexivity. Qed.

(** C7, as the code has it.  Once the file is downloaded and unpickled,
    the read raises the wrong-type error exactly when the object is not a
    list; the elements of a list are not looked at.  When the local copy is
    removed as well, the read fails exactly for the objects that are not
    lists, and a list is returned as it is. *)
Theorem descriptor_read_checks_list_only
  (remote_file_path local_destination_path : string)
  (ro : Rsync.RsyncOutput) (content : pyobj) (removed : bool) :
  ((exists ps,
      Offsite.retrieve_remote_pickle_file_content remote_file_path
        local_destination_path (Ok ro) (Ok content) removed
      = Raise (BurException DownloadBackupException WrongTypeError ps))
   <-> isinstance_list content = false)
  /\ raised (Offsite.retrieve_remote_pickle_file_content remote_file_path
               local_destination_path (Ok ro) (Ok content) true)
     = negb (isinstance_list content)
  /\ (Offsite.retrieve_remote_pickle_file_content remote_file_path
        local_destination_path (Ok ro) (Ok content) true = Ok content
      <-> isinstance_list content = true).
Proof.
  unfold Offsite.retrieve_remote_pickle_file_content; simpl.
  destruct (isinstance_list content) eqn:Hl; simpl.
  - repeat split; intros; try reflexivity; try discriminate.
    destruct H as [ps H]. destruct removed; simpl in H; discriminate.
  - repeat split; intros; try reflexivity; try discriminate.
    eexists; reflexivity.
Qed.

(* ================================================================== *)
(** * rsync_manager.py: the retry rule *)
(* ================================================================== *)

Example parse_output_of_test_data :
  Rsync.parse_output RSYNC_OUTPUT = Ok (parsed "1").
Proof. reflexivity. Qed.

Section RetryRule.
Variable check_output : nat -> Rsync.check_output_result.
Variable self : Rsync.RsyncManager.
Variable n_files : Z.

Let mismatch (k : nat) : Prop :=
  exists ro t, Rsync.attempt check_output k = Some (ro, t) /\ t <> n_files.

Lemma send_loop_step_mismatch (tries : nat) (cur : Z) (calls : nat) :
  mismatch calls -> cur <> Rsync.retry self ->
  Rsync.send_loop check_output self n_files (S tries) cur calls
  = Rsync.send_loop check_output self n_files tries (cur + 1) (S calls).
Proof.
  intros (ro & t & Ha & Hne) Hcur. unfold Rsync.attempt in Ha. simpl.
  destruct (check_output calls); [discriminate|].
  destruct (Rsync.parse_output output); [|discriminate].
  destruct (py_int (Rsync.n_transferred_files a)); [|discriminate].
  inversion Ha; subst.
  destruct (Z.eqb_spec t n_files); [contradiction|].
  destruct (Z.eqb_spec cur (Rsync.retry self)); [contradiction|].
  reflexivity.
Qed.

Lemma send_loop_succeeds (tries : nat) :
  forall (cur : Z) (calls k : nat) (ro : Rsync.RsyncOutput),
    (Z.of_nat tries + cur = Rsync.retry self + 1)%Z ->
    k < tries ->
    (forall j, j < k -> mismatch (calls + j)) ->
    Rsync.attempt check_output (calls + k) = Some (ro, n_files) ->
    Rsync.send_loop check_output self n_files tries cur calls
    = (Ok (Rsync.Sent ro), calls + k + 1).
Proof.
  induction tries as [|tries IH]; intros cur calls k ro Hinv Hk Hmis Hok;
    [lia|].
  destruct k as [|k].
  - rewrite Nat.add_0_r in Hok. unfold Rsync.attempt in Hok. simpl.
    destruct (check_output calls); [discriminate|].
    destruct (Rsync.parse_output output); [|discriminate].
    destruct (py_int (Rsync.n_transferred_files a)); [|discriminate].
    inversion Hok; subst. rewrite Z.eqb_refl.
    f_equal. lia.
  - rewrite send_loop_step_mismatch.
    + rewrite (IH (cur + 1)%Z (S calls) k ro); try lia.
      * f_equal. lia.
      * intros j Hj. replace (S calls + j) with (calls + S j) by lia.
        apply Hmis. lia.
      * replace (S calls + k) with (calls + S k) by lia. exact Hok.
    + specialize (Hmis 0). rewrite Nat.add_0_r in Hmis. apply Hmis. lia.
    + lia.
Qed.

Lemma send_loop_exhausts (tries : nat) :
  forall (cur : Z) (calls : nat),
    (Z.of_nat (S tries) + cur = Rsync.retry self + 1)%Z ->
    (forall j, j < S tries -> mismatch (calls + j)) ->
    exists ro t,
      Rsync.attempt check_output (calls + tries) = Some (ro, t)
      /\ Rsync.send_loop check_output self n_files (S tries) cur calls
         = (Raise (BurException RsyncException ExceedTryOuts
                     [PyInt (Rsync.retry self);
                      PyStr (Rsync.RsyncOutput_str ro)]),
            calls + S tries).
Proof.
  induction tries as [|tries IH]; intros cur calls Hinv Hmis.
  - destruct (Hmis 0) as (ro & t & Ha & Hne); [lia|].
    rewrite Nat.add_0_r in *. exists ro, t. split; [exact Ha|].
    unfold Rsync.attempt in Ha. simpl.
    destruct (check_output calls); [discriminate|].
    destruct (Rsync.parse_output output); [|discriminate].
    destruct (py_int (Rsync.n_transferred_files a)); [|discriminate].
    inversion Ha; subst.
    destruct (Z.eqb_spec t n_files); [contradiction|].
    destruct (Z.eqb_spec cur (Rsync.retry self)); [|lia].
    f_equal. lia.
  - rewrite send_loop_step_mismatch.
    + destruct (IH (cur + 1)%Z (S calls)) as (ro & t & Ha & Hs).
      * lia.
      * intros j Hj. replace (S calls + j) with (calls + S j) by lia.
        apply Hmis. lia.
      * exists ro, t. split.
        -- replace (calls + S tries) with (S calls + tries) by lia. exact Ha.
        -- rewrite Hs. f_equal. lia.
    + specialize (Hmis 0). rewrite Nat.add_0_r in Hmis. apply Hmis. lia.
    + lia.
Qed.

Lemma send_loop_success_inv (tries : nat) :
  forall (cur : Z) (calls n : nat) (ro : Rsync.RsyncOutput),
    Rsync.send_loop check_output self n_files tries cur calls
    = (Ok (Rsync.Sent ro), n) ->
    exists k, n = calls + k + 1 /\ k < tries
              /\ Rsync.attempt check_output (calls + k) = Some (ro, n_files).
Proof.
  induction tries as [|tries IH]; intros cur calls n ro H; simpl in H;
    [discriminate|].
  unfold Rsync.attempt.
  destruct (check_output calls) eqn:Hc; [discriminate|].
  destruct (Rsync.parse_output output) eqn:Hp; [|discriminate].
  destruct (py_int (Rsync.n_transferred_files a)) eqn:Hi; [|discriminate].
  destruct (Z.eqb_spec z n_files).
  - inversion H; subst. exists 0. rewrite Nat.add_0_r, Hc, Hp, Hi.
    repeat split; [lia|lia].
  - destruct (Z.eqb_spec cur (Rsync.retry self)); [discriminate|].
    apply IH in H. destruct H as (k & Hn & Hk & Ha).
    exists (S k). replace (calls + S k) with (S calls + k) by lia.
    repeat split; [lia|lia|exact Ha].
Qed.

End RetryRule.

(** With a budget of three tries, [receive] gives up after one rsync
    invocation whose count (1) differs from the two file counts (2), though
    the next invocation would have reported 2; [send] against the same
    rsync does retry and succeeds at the second invocation. *)
Lemma receive_does_not_retry :
  Rsync.retry receiver = 3%Z
  /\ Rsync.attempt rsync_second_time_lucky 1 = Some (parsed "2", 2%Z)
  /\ Rsync.receive rsync_second_time_lucky receiver true
       (Ok (2, 0)%Z) (Ok (2, 0)%Z)
     = (Raise (BurException RsyncException RsyncTransferNumberFilesDiffer
                 [PyDict [("n_transferred_files", PyStr "1");
                          ("destination_number_files", PyInt 2);
                          ("origin_number_files", PyInt 2)]]), 1)
  /\ Rsync.send rsync_second_time_lucky sender (Ok (2, 0)%Z)
     = (Ok (Rsync.Sent (parsed "2")), 2).
Proof. repeat split; reflexivity. Qed.

(** C6, as the code has it.  [send], for a source with [n_files <> 0]
    files: it returns the parsed output of the first invocation whose
    transferred count equals [n_files], provided that invocation is within
    the budget of [retry] and the earlier ones reported other counts, and it
    returns an output only in that way; when all [retry] invocations report
    other counts it raises [ExceedTryOuts] with the budget and the last
    parsed output, after exactly [retry] invocations.  [receive] makes one
    invocation and never a second: it returns the parsed output when the
    transferred count equals both the remote and the local file count, and
    raises [RsyncTransferNumberFilesDiffer] with the three counts
    otherwise. *)
Theorem rsync_retry_rule
  (check_output : nat -> Rsync.check_output_result)
  (self : Rsync.RsyncManager) (n_files n_dirs : Z)
  (Hfiles : n_files <> 0%Z) :
  (forall k ro,
      k < Z.to_nat (Rsync.retry self) ->
      (forall j, j < k ->
         exists ro' t, Rsync.attempt check_output j = Some (ro', t)
                       /\ t <> n_files) ->
      Rsync.attempt check_output k = Some (ro, n_files) ->
      Rsync.send check_output self (Ok (n_files, n_dirs))
      = (Ok (Rsync.Sent ro), k + 1))
  /\ (forall ro n,
        Rsync.send check_output self (Ok (n_files, n_dirs))
        = (Ok (Rsync.Sent ro), n) ->
        1 <= n <= Z.to_nat (Rsync.retry self)
        /\ Rsync.attempt check_output (n - 1) = Some (ro, n_files))
  /\ ((0 < Rsync.retry self)%Z ->
      (forall j, j < Z.to_nat (Rsync.retry self) ->
         exists ro' t, Rsync.attempt check_output j = Some (ro', t)
                       /\ t <> n_files) ->
      exists ro t,
        Rsync.attempt check_output (Z.to_nat (Rsync.retry self) - 1)
        = Some (ro, t)
        /\ Rsync.send check_output self (Ok (n_files, n_dirs))
           = (Raise (BurException RsyncException ExceedTryOuts
                       [PyInt (Rsync.retry self);
                        PyStr (Rsync.RsyncOutput_str ro)]),
              Z.to_nat (Rsync.retry self)))
  /\ (forall remote_host remote_path ro t origin o_dirs destination d_dirs,
        split ":" (Rsync.source_path self) = [remote_host; remote_path] ->
        Rsync.attempt check_output 0 = Some (ro, t) ->
        Rsync.receive check_output self true
          (Ok (origin, o_dirs)) (Ok (destination, d_dirs))
        = (if ((t =? origin) && (t =? destination))%Z
           then Ok ro
           else Raise (BurException RsyncException
                         RsyncTransferNumberFilesDiffer
                         [PyDict
                            [("n_transferred_files",
                               PyStr (Rsync.n_transferred_files ro));
                             ("destination_number_files", PyInt destination);
                             ("origin_number_files", PyInt origin)]]),
           1)).
Proof.
  assert (Hsend : Rsync.send check_output self (Ok (n_files, n_dirs))
                  = Rsync.send_loop check_output self n_files
                      (Z.to_nat (Rsync.retry self)) 1 0).
  { unfold Rsync.send. destruct (Z.eqb_spec n_files 0); [contradiction|].
    reflexivity. }
  repeat split.
  - intros k ro Hk Hmis Hok. rewrite Hsend.
    change (k + 1) with (0 + k + 1).
    apply send_loop_succeeds; auto. lia.
  - rewrite Hsend in H.
    apply send_loop_success_inv in H. destruct H as (k & Hn & Hk & _). lia.
  - rewrite Hsend in H.
    apply send_loop_success_inv in H. destruct H as (k & Hn & Hk & _). lia.
  - rewrite Hsend in H.
    apply send_loop_success_inv in H. destruct H as (k & Hn & Hk & Ha).
    subst n. replace (0 + k + 1 - 1) with (0 + k) by lia. exact Ha.
  - intros Hpos Hmis. rewrite Hsend.
    destruct (Z.to_nat (Rsync.retry self)) as [|tries] eqn:Htries; [lia|].
    destruct (@send_loop_exhausts check_output self n_files tries 1%Z 0)
      as (ro & t & Ha & Hs).
    + lia.
    + intros j Hj. apply Hmis. exact Hj.
    + exists ro, t. split.
      * replace (S tries - 1) with (0 + tries) by lia. exact Ha.
      * exact Hs.
  - intros remote_host remote_path ro t origin o_dirs destination d_dirs
           Hsplit Ha.
    unfold Rsync.receive. rewrite Hsplit. simpl.
    unfold Rsync.attempt in Ha.
    destruct (check_output 0); [discriminate|].
    destruct (Rsync.parse_output output); [|discriminate].
    destruct (py_int (Rsync.n_transferred_files a)); [|discriminate].
    inversion Ha; subst.
    destruct (t =? origin)%Z, (t =? destination)%Z; reflexivity.
Qed.

Lemma rsync_retry_rule_witness :
  (2 <> 0)%Z
  /\ Rsync.send rsync_second_time_lucky sender (Ok (2, 0)%Z)
     = (Ok (Rsync.Sent (parsed "2")), 2)
  /\ (exists ro t,
        Rsync.attempt rsync_always_one 2 = Some (ro, t)
        /\ Rsync.send rsync_always_one sender (Ok (2, 0)%Z)
           = (Raise (BurException RsyncException ExceedTryOuts
                       [PyInt 3; PyStr (Rsync.RsyncOutput_str ro)]), 3))
  /\ Rsync.receive rsync_always_one receiver true (Ok (1, 0)%Z) (Ok (1, 0)%Z)
     = (Ok (parsed "1"), 1).
Proof.
  assert (Hne : (2 <> 0)%Z) by lia.
  split; [exact Hne|].
  split; [|split].
  - destruct (rsync_retry_rule rsync_second_time_lucky sender 0%Z Hne)
      as (Hs & _).
    apply (Hs 1 (parsed "2")).
    + vm_compute. lia.
    + intros j Hj. assert (j = 0) by lia. subst j.
      exists (parsed "1"), 1%Z. split; [reflexivity | lia].
    + reflexivity.
  - destruct (rsync_retry_rule rsync_always_one sender 0%Z Hne)
      as (_ & _ & He & _).
    apply He.
    + reflexivity.
    + intros j _. exists (parsed "1"), 1%Z. split; [reflexivity | lia].
  - destruct (rsync_retry_rule rsync_always_one receiver 0%Z Hne)
      as (_ & _ & _ & Hr).
    apply (Hr "user@offsite" "/bkp/CUSTOMER_0/2018-12-04/volume0.tar"
              (parsed "1") 1%Z 1%Z 0%Z 1%Z 0%Z); reflexivity.
Defined.

(* ================================================================== *)
(** * utils/remote.py: sorting remote folders by their oldest entry *)
(* ================================================================== *)

Section StringOrder.

Lemma ltb_lt (a b : string) : String.ltb a b = true <-> String_as_OT.lt a b.
Proof.
  rewrite <- String_as_OT.cmp_lt.
  unfold String.ltb, String_as_OT.cmp.
  destruct (String.compare a b); split; intros H;
    first [reflexivity | discriminate H].
Qed.

Lemma ltb_false_trans (a b c : string) :
  String.ltb a b = false -> String.ltb b c = false -> String.ltb a c = false.
Proof.
  intros Hab Hbc. destruct (String.ltb a c) eqn:Hac; [|reflexivity].
  apply ltb_lt in Hac.
  destruct (String.compare a b) eqn:Hcmp.
  - apply String_as_OT.cmp_eq in Hcmp. subst b.
    apply ltb_lt in Hac. congruence.
  - unfold String.ltb in Hab. rewrite Hcmp in Hab. discriminate.
  - assert (Hba : String_as_OT.lt b a).
    { apply String_as_OT.cmp_lt. unfold String_as_OT.cmp.
      rewrite String.compare_antisym, Hcmp. reflexivity. }
    assert (Hlt : String_as_OT.lt b c)
      by (eapply String_as_OT.lt_trans; eassumption).
    apply ltb_lt in Hlt. congruence.
Qed.

Lemma ltb_asym (a b : string) : String.ltb a b = true -> String.ltb b a = false.
Proof.
  unfold String.ltb. rewrite (String.compare_antisym b a).
  destruct (String.compare a b); simpl; congruence.
Qed.

End StringOrder.

Section SortReverse.
Variable A : Type.
Variable key : A -> string.

Let not_older := Remote.not_older key.

Lemma insert_reverse_perm (x : A) (l : list A) :
  Permutation (Remote.insert_reverse key x l) (x :: l).
Proof.
  induction l as [|y l IH]; simpl; [apply Permutation_refl|].
  destruct (String.ltb (key x) (key y)).
  - eapply perm_trans; [apply perm_skip, IH | apply perm_swap].
  - apply Permutation_refl.
Qed.

Lemma sort_reverse_perm (l : list A) :
  Permutation (Remote.sort_reverse key l) l.
Proof.
  induction l as [|x l IH]; simpl; [constructor|].
  eapply perm_trans; [apply insert_reverse_perm | apply perm_skip, IH].
Qed.

Lemma insert_reverse_sorted (x : A) (l : list A) :
  StronglySorted not_older l ->
  StronglySorted not_older (Remote.insert_reverse key x l).
Proof.
  induction l as [|y l IH]; intros Hs; simpl.
  - constructor; constructor.
  - inversion Hs as [|? ? Hs' Hall]; subst.
    destruct (String.ltb (key x) (key y)) eqn:Hxy.
    + constructor; [apply IH; exact Hs'|].
      apply (Permutation_Forall (Permutation_sym (insert_reverse_perm x l))).
      constructor; [apply ltb_asym; exact Hxy | exact Hall].
    + constructor; [exact Hs|].
      constructor; [exact Hxy|].
      eapply Forall_impl; [|exact Hall].
      intros z Hyz. unfold not_older in *.
      eapply ltb_false_trans; eassumption.
Qed.

Lemma sort_reverse_sorted (l : list A) :
  StronglySorted not_older (Remote.sort_reverse key l).
Proof.
  induction l as [|x l IH]; simpl; [constructor|].
  apply insert_reverse_sorted, IH.
Qed.

Lemma sorted_split (l1 l2 : list A) :
  StronglySorted not_older (l1 ++ l2) ->
  forall x y, In x l1 -> In y l2 -> not_older x y.
Proof.
  induction l1 as [|a l1 IH]; intros Hs x y Hx Hy; [contradiction|].
  simpl in Hs. inversion Hs as [|? ? Hs' Hall]; subst.
  destruct Hx as [->|Hx].
  - rewrite Forall_forall in Hall. apply Hall, in_or_app. right; exact Hy.
  - eapply IH; eassumption.
Qed.

End SortReverse.

Section SplitFacts.

Lemma append_assoc (a b c : string) : (a ^^ b) ^^ c = a ^^ (b ^^ c).
Proof. induction a as [|x a IH]; simpl; [reflexivity | now rewrite IH]. Qed.

Lemma append_empty_r (a : string) : a ^^ EmptyString = a.
Proof. induction a as [|x a IH]; simpl; [reflexivity | now rewrite IH]. Qed.

Lemma truthy_append_l (a b : string) : truthy a = true -> truthy (a ^^ b) = true.
Proof. destruct a; simpl; [discriminate | reflexivity]. Qed.

Lemma blank_append (a b : string) : blank (a ^^ b) = blank a && blank b.
Proof.
  induction a as [|x a IH]; simpl; [reflexivity|].
  rewrite IH. apply andb_assoc.
Qed.

Lemma no_space_not_blank (a : string) :
  has_space a = false -> truthy a = true -> blank a = false.
Proof.
  destruct a as [|x a]; simpl; [discriminate|].
  intros H _. apply orb_false_elim in H. destruct H as [H _].
  now rewrite H.
Qed.

Lemma split_ws_go_blank_prefix (lead s : string) :
  blank lead = true ->
  split_ws_go EmptyString (lead ^^ s) = split_ws_go EmptyString s.
Proof.
  induction lead as [|x lead IH]; simpl; [reflexivity|].
  intros H. apply andb_prop in H. destruct H as [Hx Hl].
  rewrite Hx. simpl. auto.
Qed.

Lemma split_ws_go_no_space (a : string) :
  forall cur s, has_space a = false ->
                split_ws_go cur (a ^^ s) = split_ws_go (cur ^^ a) s.
Proof.
  induction a as [|x a IH]; intros cur s H; simpl.
  - now rewrite append_empty_r.
  - simpl in H. apply orb_false_elim in H. destruct H as [Hx Ha].
    rewrite Hx, IH by exact Ha.
    rewrite append_assoc. reflexivity.
Qed.

Lemma split_ws_go_blank (t : string) :
  forall cur, blank t = true ->
              split_ws_go cur t = split_ws_go cur EmptyString.
Proof.
  induction t as [|x t IH]; intros cur H; [reflexivity|].
  simpl in H. apply andb_prop in H. destruct H as [Hx Ht].
  simpl. rewrite Hx.
  destruct (truthy cur) eqn:Hc.
  - rewrite (IH EmptyString Ht). reflexivity.
  - rewrite (IH EmptyString Ht). reflexivity.
Qed.

Lemma split_ws_go_blank_suffix (s t : string) :
  forall cur, blank t = true ->
              split_ws_go cur (s ^^ t) = split_ws_go cur s.
Proof.
  induction s as [|x s IH]; intros cur H.
  - simpl. apply split_ws_go_blank, H.
  - simpl. destruct (is_space x); [destruct (truthy cur)|];
      rewrite ?IH by exact H; reflexivity.
Qed.

(** the tokens of a line [timestamp TAB path NEWLINE], with optional
    whitespace in front: the time stamp, then the tokens of the path *)
Lemma tokens_of_find_line (lead timestamp path : string) :
  blank lead = true -> has_space timestamp = false ->
  truthy timestamp = true ->
  split_ws (lead ^^ timestamp ^^ tab ^^ path ^^ nl)
  = timestamp :: split_ws path.
Proof.
  intros Hl Hs Ht. unfold split_ws.
  rewrite split_ws_go_blank_prefix by exact Hl.
  rewrite split_ws_go_no_space by exact Hs.
  simpl. rewrite Ht. f_equal.
  apply split_ws_go_blank_suffix. reflexivity.
Qed.

End SplitFacts.

Section SortFailures.
Variable R : Type.
Variable communicate : R -> string -> string -> Remote.ssh_reply * R.

Lemma parse_find_results_malformed
  (host : string) (folders results : list string) (chunk : string) :
  In chunk results ->
  truthy (strip chunk) = true ->
  List.length (split_ws chunk) <> 2 ->
  exists ps,
    Remote.parse_find_results host folders results
    = Raise (BurException UtilsException ErrorSortingOffsiteBackupList ps).
Proof.
  intros Hin Hne Htok.
  induction results as [|r results IH]; [contradiction|].
  simpl. destruct Hin as [->|Hin].
  - rewrite Hne. simpl.
    destruct (split_ws chunk) as [|a [|b [|c l]]]; simpl in Htok;
      try (eexists; reflexivity).
    contradiction.
  - destruct (IH Hin) as [ps Hps].
    destruct (truthy (strip r)); simpl; [|eexists; exact Hps].
    destruct (split_ws r) as [|a [|b [|c l]]]; try (eexists; reflexivity).
    rewrite Hps. simpl. eexists; reflexivity.
Qed.

End SortFailures.

(** The oldest entry of the backup directory is a file whose name ends in
    a space: the path contains whitespace, the line still splits into two
    tokens, and the sort returns an ordering. *)
Lemma sort_accepts_trailing_space :
  has_space "/bkp/CUSTOMER_0/2018-12-04/notes " = true
  /\ Remote.sort_remote_folders_by_content peer_trailing_space
       "user@offsite" [backup_dir] fresh_net
     = (Ok ["/bkp/CUSTOMER_0/2018-12-04"],
        {| Remote.peer := tt;
           Remote.spawned :=
             [("user@offsite", Remote.build_find_cmd [backup_dir])] |}).
Proof. split; vm_compute; reflexivity. Qed.

(** A file name with a line feed in it: the name holds white space, but
    the line the program reads ends at the line feed and splits into two
    tokens, and the sort returns an ordering. *)
Example sort_accepts_a_line_feed :
  has_space ("/bkp/CUSTOMER_0/2018-12-04/my" ^^ nl ^^ "notes") = true
  /\ Remote.sort_remote_folders_by_content peer_line_feed
       "user@offsite" [backup_dir] fresh_net
     = (Ok ["/bkp/CUSTOMER_0/2018-12-04"],
        {| Remote.peer := tt;
           Remote.spawned :=
             [("user@offsite", Remote.build_find_cmd [backup_dir])] |}).
Proof. split; vm_compute; reflexivity. Qed.

(** C10, as the code has it.  For a non-empty list of folders, let
    [stdout] be what the remote find commands printed.  Whenever a piece of
    [stdout] between two [END_OF_COMMAND] markers is not blank and does not
    split into exactly two whitespace-separated tokens, the sort raises the
    sorting error.  Consequently it raises for every line made of a time
    stamp, a tab and a path when the path does not amount to exactly one
    token: a path with whitespace between two of its characters, or a
    path that is blank.  This is about the line as it is printed: of a
    path with a line feed only one part stands on the line. *)
Theorem sort_fails_unless_two_tokens
  (R : Type) (communicate : R -> string -> string -> Remote.ssh_reply * R)
  (host : string) (folders : list string) (w w' : Remote.net R)
  (stdout stderr : string)
  (Hfolders : folders <> [])
  (Hrun : Remote.run_ssh_command communicate host
            (Remote.build_find_cmd folders) w = ((stdout, stderr), w')) :
  (forall chunk,
      In chunk (split "END_OF_COMMAND" stdout) ->
      truthy (strip chunk) = true ->
      List.length (split_ws chunk) <> 2 ->
      exists ps,
        Remote.sort_remote_folders_by_content communicate host folders w
        = (Raise (BurException UtilsException
                    ErrorSortingOffsiteBackupList ps), w'))
  /\ (forall lead timestamp path,
        In (lead ^^ timestamp ^^ tab ^^ path ^^ nl)
           (split "END_OF_COMMAND" stdout) ->
        blank lead = true ->
        has_space timestamp = false -> truthy timestamp = true ->
        List.length (split_ws path) <> 1 ->
        exists ps,
          Remote.sort_remote_folders_by_content communicate host folders w
          = (Raise (BurException UtilsException
                      ErrorSortingOffsiteBackupList ps), w')).
Proof.
  assert (Hmain : forall chunk,
      In chunk (split "END_OF_COMMAND" stdout) ->
      truthy (strip chunk) = true ->
      List.length (split_ws chunk) <> 2 ->
      exists ps,
        Remote.sort_remote_folders_by_content communicate host folders w
        = (Raise (BurException UtilsException
                    ErrorSortingOffsiteBackupList ps), w')).
  { intros chunk Hin Hne Htok.
    unfold Remote.sort_remote_folders_by_content.
    destruct folders as [|f fs]; [contradiction|].
    rewrite Hrun.
    destruct (truthy stderr); [eexists; reflexivity|].
    destruct (parse_find_results_malformed host (f :: fs) _ _ Hin Hne Htok)
      as [ps Hps].
    rewrite Hps. eexists; reflexivity. }
  split; [exact Hmain|].
  intros lead timestamp path Hin Hlead Hts Htt Hpath.
  apply (Hmain _ Hin).
  - rewrite strip_truthy_blank, !blank_append.
    rewrite (no_space_not_blank _ Hts Htt).
    rewrite andb_false_r. reflexivity.
  - rewrite tokens_of_find_line by assumption. simpl. lia.
Qed.

Lemma sort_fails_unless_two_tokens_witness :
  exists ps,
    Remote.sort_remote_folders_by_content peer_inner_space
      "user@offsite" [backup_dir] fresh_net
    = (Raise (BurException UtilsException ErrorSortingOffsiteBackupList ps),
       {| Remote.peer := tt;
          Remote.spawned :=
            [("user@offsite", Remote.build_find_cmd [backup_dir])] |}).
Proof.
  assert (Hfolders : [backup_dir] <> []) by discriminate.
  destruct (sort_fails_unless_two_tokens peer_inner_space "user@offsite"
              fresh_net Hfolders
              (stdout := oldest_entry_line "2018-12-04+10:30:00.0000000000"
                           "/bkp/CUSTOMER_0/2018-12-04/my notes")
              (stderr := EmptyString) eq_refl) as [_ Hline].
  apply (Hline EmptyString "2018-12-04+10:30:00.0000000000"
               "/bkp/CUSTOMER_0/2018-12-04/my notes").
  - vm_compute. left. reflexivity.
  - reflexivity.
  - reflexivity.
  - reflexivity.
  - vm_compute. lia.
Defined.

(* ================================================================== *)
(** * offsite_backup_handler.py: retention *)
(* ================================================================== *)

Example retention_scenario :
  fst (Offsite.get_backup_dir_list_to_cleanup retention_peer "user@offsite" 4
         [("CUSTOMER_0", seven_backups)] fresh_net)
  = Ok [backup_of_day "1"].
Proof. vm_compute. reflexivity. Qed.

Section Tokens.

Lemma rstrip_no_space (s : string) : has_space s = false -> rstrip s = s.
Proof.
  induction s as [|c s IH]; simpl; [reflexivity|].
  intros H. apply orb_false_elim in H. destruct H as [Hc Hs].
  rewrite (IH Hs). destruct s; [now rewrite Hc | reflexivity].
Qed.

Lemma strip_no_space (s : string) : has_space s = false -> strip s = s.
Proof.
  intros H. unfold strip.
  assert (Hl : lstrip s = s).
  { destruct s as [|c s]; simpl; [reflexivity|].
    simpl in H. apply orb_false_elim in H. destruct H as [Hc _].
    now rewrite Hc. }
  rewrite Hl. apply rstrip_no_space, H.
Qed.

Lemma split_ws_token (s : string) : Remote.token s -> split_ws s = [s].
Proof.
  intros [Hs Ht]. unfold split_ws.
  rewrite <- (append_empty_r s) at 1.
  rewrite split_ws_go_no_space by exact Hs.
  simpl. now rewrite Ht.
Qed.

End Tokens.

Section Retention.
Variable R : Type.
Variable communicate : R -> string -> string -> Remote.ssh_reply * R.

(** The remote side does not change while it is inspected: the answer to a
    command does not depend on what was asked before. *)
Hypothesis Hpure :
  forall (st st' : R) (host command : string),
    fst (communicate st host command) = fst (communicate st' host command).

Lemma run_ssh_command_answer (host command : string) (w w' : Remote.net R) :
  fst (Remote.run_ssh_command communicate host command w)
  = fst (Remote.run_ssh_command communicate host command w').
Proof.
  unfold Remote.run_ssh_command.
  destruct (negb (truthy (strip host)) || negb (truthy (strip command)));
    [reflexivity|].
  pose proof (Hpure (Remote.peer w) (Remote.peer w') host command) as H.
  destruct (communicate (Remote.peer w) host command) as [r p].
  destruct (communicate (Remote.peer w') host command) as [r' p'].
  simpl in H. subst r'. reflexivity.
Qed.

Lemma content_answer (host path : string) (w w' : Remote.net R) :
  fst (Remote.get_number_of_content_from_remote_path communicate host path w)
  = fst (Remote.get_number_of_content_from_remote_path communicate host path w').
Proof.
  unfold Remote.get_number_of_content_from_remote_path.
  destruct (Validator.check_not_empty host); [|reflexivity].
  destruct (Validator.check_not_empty path); [|reflexivity].
  pose proof (run_ssh_command_answer host
                ("find " ^^ path ^^ " -type f | wc -l") w w') as H1.
  destruct (Remote.run_ssh_command communicate host
              ("find " ^^ path ^^ " -type f | wc -l") w) as [[o1 e1] w1].
  destruct (Remote.run_ssh_command communicate host
              ("find " ^^ path ^^ " -type f | wc -l") w') as [[o1' e1'] w1'].
  simpl in H1. inversion H1; subst.
  destruct (truthy e1'); [reflexivity|].
  pose proof (run_ssh_command_answer host
                ("find " ^^ path ^^ " -mindepth 1 -type d | wc -l") w1 w1')
    as H2.
  destruct (Remote.run_ssh_command communicate host
              ("find " ^^ path ^^ " -mindepth 1 -type d | wc -l") w1)
    as [[o2 e2] w2].
  destruct (Remote.run_ssh_command communicate host
              ("find " ^^ path ^^ " -mindepth 1 -type d | wc -l") w1')
    as [[o2' e2'] w2'].
  simpl in H2. inversion H2; subst.
  destruct (truthy e2'); [reflexivity|].
  destruct (py_int o1'), (py_int o2'); reflexivity.
Qed.

Lemma empty_answer (host path : string) (w w' : Remote.net R) :
  fst (Remote.is_remote_folder_empty communicate host path w)
  = fst (Remote.is_remote_folder_empty communicate host path w').
Proof.
  unfold Remote.is_remote_folder_empty.
  pose proof (content_answer host path w w') as H.
  destruct (Remote.get_number_of_content_from_remote_path communicate host path w)
    as [[[a b]|e] w1];
  destruct (Remote.get_number_of_content_from_remote_path communicate host path w')
    as [[[a' b']|e'] w1']; simpl in H; inversion H; subst; reflexivity.
Qed.

(** the filter keeps the folders that are not empty, in order *)
Lemma filter_not_empty_is_filter (host : string) (dirs : list string) :
  forall (w w1 : Remote.net R) (kept : list string),
    Offsite.filter_not_empty communicate host dirs w = (Ok kept, w1) ->
    forall w0,
      kept = filter (Offsite.counted_not_empty communicate host w0) dirs.
Proof.
  induction dirs as [|d dirs IH]; intros w w1 kept H w0; simpl in H.
  - inversion H; subst. reflexivity.
  - pose proof (empty_answer host d w w0) as Hd.
    cbn [filter]. unfold Offsite.counted_not_empty at 1.
    destruct (Remote.is_remote_folder_empty communicate host d w)
      as [[is_empty|e] wa]; [|discriminate].
    destruct (Offsite.filter_not_empty communicate host dirs wa)
      as [[kept'|e] wb] eqn:Hrest; [|discriminate].
    inversion H; subst. rewrite <- (IH _ _ _ Hrest w0).
    simpl in Hd. rewrite <- Hd.
    destruct is_empty; reflexivity.
Qed.

(** the loop over the pieces of the answer reads the reported entries:
    for each, the directory of the path and the time stamp *)
Lemma parse_reported (host : string) (folders pieces : list string) :
  forall entries : list (string * string),
    Forall2
      (fun piece entry =>
         exists lead,
           blank lead = true
           /\ piece = lead ^^ snd entry ^^ tab ^^ fst entry ^^ nl)
      (filter (fun piece => truthy (strip piece)) pieces) entries ->
    Forall (fun entry => Remote.token (fst entry) /\ Remote.token (snd entry))
           entries ->
    Remote.parse_find_results host folders pieces
    = Ok (map (fun entry => (dirname (fst entry), snd entry)) entries).
Proof.
  induction pieces as [|piece pieces IH]; intros entries Hlines Htokens.
  - simpl in Hlines. inversion Hlines; subst. reflexivity.
  - cbn [filter] in Hlines. cbn [Remote.parse_find_results].
    destruct (truthy (strip piece)) eqn:Hp; cbn [negb].
    + inversion Hlines as [|? [path stamp] ? es (lead & Hlead & Hpiece) Hrest];
        subst.
      inversion Htokens as [|? ? [Hpath Hstamp] Htokens']; subst.
      cbn [fst snd] in *.
      destruct Hstamp as [Hs1 Hs2].
      rewrite tokens_of_find_line by assumption.
      rewrite (split_ws_token Hpath).
      rewrite (IH es Hrest Htokens'). cbn [bind map fst snd].
      rewrite (strip_no_space _ Hs1).
      destruct Hpath as [Hp1 _]. rewrite (strip_no_space _ Hp1).
      reflexivity.
    + apply IH; assumption.
Qed.

(** the sort returns the directories of the reported entries, by time
    stamp, newest first *)
Lemma sort_reported (host : string) (folders sorted : list string)
  (w w2 w0 : Remote.net R) (entries : list (string * string)) :
  folders <> [] ->
  Remote.sort_remote_folders_by_content communicate host folders w
  = (Ok sorted, w2) ->
  Remote.reports
    (fst (fst (Remote.run_ssh_command communicate host
                 (Remote.build_find_cmd folders) w0))) entries ->
  sorted
  = map fst (Remote.sort_reverse snd
               (map (fun entry => (dirname (fst entry), snd entry)) entries)).
Proof.
  intros Hne Hsort [Hlines Htokens].
  unfold Remote.sort_remote_folders_by_content in Hsort.
  destruct folders as [|f fs]; [contradiction|].
  rewrite (run_ssh_command_answer host (Remote.build_find_cmd (f :: fs)) w0 w)
    in Hlines.
  destruct (Remote.run_ssh_command communicate host
              (Remote.build_find_cmd (f :: fs)) w) as [[out err] w'].
  cbn [fst] in Hlines.
  destruct (truthy err); [discriminate|].
  rewrite (parse_reported host (f :: fs) _ Hlines Htokens) in Hsort.
  inversion Hsort; subst. reflexivity.
Qed.

End Retention.

Section RetentionRule.
Variable R : Type.
Variable communicate : R -> string -> string -> Remote.ssh_reply * R.
Variable host : string.
Variable N : nat.
Variable w0 : Remote.net R.

Hypothesis Hpure :
  forall (st st' : R) (h c : string),
    fst (communicate st h c) = fst (communicate st' h c).

Lemma customer_queue_obeys (customer_dirs queue : list string)
  (w w1 : Remote.net R) :
  Offsite.customer_dirs_to_cleanup communicate host N customer_dirs w
  = (Ok queue, w1) ->
  Offsite.retention_rule communicate host N w0 customer_dirs queue.
Proof.
  unfold Offsite.customer_dirs_to_cleanup, Offsite.retention_rule.
  destruct (Offsite.filter_not_empty communicate host customer_dirs w)
    as [[kept|e] wa] eqn:Hfilter; [|discriminate].
  rewrite <- (@filter_not_empty_is_filter R communicate Hpure host
                customer_dirs w wa kept Hfilter w0).
  cbv zeta.
  destruct (Nat.ltb_spec N (List.length kept)) as [Hlt|Hle].
  - destruct (Remote.sort_remote_folders_by_content communicate host kept wa)
      as [[sorted|e] wb] eqn:Hsort; [|discriminate].
    intros H. inversion H; subst. split; [intros; lia|].
    intros _ entries Hreports.
    assert (Hne : kept <> []) by (destruct kept; [simpl in Hlt; lia | discriminate]).
    pose proof (@sort_reported R communicate Hpure host kept sorted wa w1 w0
                  entries Hne Hsort Hreports) as Hsorted.
    set (pairs := map (fun entry : string * string =>
                         (dirname (fst entry), snd entry)) entries) in *.
    exists (Remote.sort_reverse snd pairs).
    split; [apply sort_reverse_perm|].
    split; [apply sort_reverse_sorted|].
    split; [rewrite Hsorted; unfold Offsite.slice_from; apply skipn_map|].
    split.
    + intros x y Hx Hy.
      apply (sorted_split (key := snd)
               (firstn N (Remote.sort_reverse snd pairs))
               (skipn N (Remote.sort_reverse snd pairs)));
        [rewrite firstn_skipn; apply sort_reverse_sorted | exact Hx | exact Hy].
    + intros Hflat. split.
      * rewrite Hsorted. unfold Offsite.slice_from.
        rewrite skipn_map, <- map_app, firstn_skipn.
        eapply perm_trans;
          [apply Permutation_map, sort_reverse_perm|].
        unfold pairs. rewrite map_map. cbn [fst]. rewrite Hflat.
        apply Permutation_refl.
      * apply firstn_length_le.
        rewrite (Permutation_length (sort_reverse_perm snd pairs)).
        unfold pairs. rewrite length_map.
        rewrite <- Hflat in Hlt. rewrite length_map in Hlt. lia.
  - intros H. inversion H; subst.
    split; [intros; reflexivity | intros; lia].
Qed.

End RetentionRule.




(* ================================================================== *)
(** * utils/fsys.py: removing and creating a path twice *)
(* ================================================================== *)

Section NodeInduction.
Variable P : Fsys.node -> Prop.
Hypothesis HFile : P Fsys.File.
Hypothesis HDir :
  forall w es, Forall (fun e => P (snd e)) es -> P (Fsys.Dir w es).

Lemma node_induction (n : Fsys.node) : P n.
Proof.
  revert n. fix IH 1. intros [|w es].
  - exact HFile.
  - apply HDir. induction es as [|e rest IHrest].
    + constructor.
    + constructor; [apply IH | exact IHrest].
Qed.

End NodeInduction.

Section FsysFacts.

Lemma find_entry_replace_some (c : string) (m' : Fsys.node)
  (es : list (string * Fsys.node)) :
  Fsys.find_entry c es <> None ->
  Fsys.find_entry c (Fsys.replace_entry c (Some m') es) = Some m'.
Proof.
  induction es as [|[n m] es IH]; simpl; [congruence|].
  destruct (String.eqb n c) eqn:Hn; simpl; rewrite Hn; auto.
Qed.

Lemma existsb_find_entry (c : string) (es : list (string * Fsys.node)) :
  existsb (String.eqb c) (map fst es) = false -> Fsys.find_entry c es = None.
Proof.
  induction es as [|[n m] es IH]; simpl; [reflexivity|].
  intros H. apply orb_false_elim in H. destruct H as [Hc Hes].
  rewrite String.eqb_sym, Hc. auto.
Qed.

Lemma find_entry_replace_none (c : string) (es : list (string * Fsys.node)) :
  Fsys.names_unique (map fst es) = true ->
  Fsys.find_entry c (Fsys.replace_entry c None es) = None.
Proof.
  induction es as [|[n m] es IH]; simpl; [reflexivity|].
  intros H. apply andb_prop in H. destruct H as [Hn Hes].
  destruct (String.eqb n c) eqn:Hnc.
  - apply String.eqb_eq in Hnc. subst n.
    apply existsb_find_entry. now apply negb_true_iff in Hn.
  - simpl. rewrite Hnc. auto.
Qed.

Lemma replace_entry_twice (c : string) (m' : Fsys.node)
  (es : list (string * Fsys.node)) :
  Fsys.replace_entry c (Some m') (Fsys.replace_entry c (Some m') es)
  = Fsys.replace_entry c (Some m') es.
Proof.
  induction es as [|[n m] es IH]; simpl; [reflexivity|].
  destruct (String.eqb n c) eqn:Hn; simpl; rewrite Hn; [reflexivity|].
  now rewrite IH.
Qed.

Lemma find_entry_well_formed (c : string) (m : Fsys.node)
  (es : list (string * Fsys.node)) :
  forallb (fun e => Fsys.well_formed (snd e)) es = true ->
  Fsys.find_entry c es = Some m -> Fsys.well_formed m = true.
Proof.
  induction es as [|[n x] es IH]; simpl; [discriminate|].
  intros H. apply andb_prop in H. destruct H as [Hx Hes].
  destruct (String.eqb n c); [intros E; inversion E; subst; exact Hx | auto].
Qed.

Lemma rm_list_all_gone (rm : Fsys.node -> option Fsys.node)
  (es es' : list (string * Fsys.node)) :
  Fsys.rm_list rm es = (true, es') -> es' = [].
Proof.
  revert es'. induction es as [|[n m] es IH]; simpl; intros es' H.
  - now inversion H.
  - destruct (rm m); [discriminate | auto].
Qed.

Lemma rm_list_stuck (rm : Fsys.node -> option Fsys.node)
  (es es' : list (string * Fsys.node)) :
  Forall (fun e => forall n', rm (snd e) = Some n' -> rm n' = Some n') es ->
  Fsys.rm_list rm es = (false, es') ->
  Fsys.rm_list rm es' = (false, es').
Proof.
  revert es'. induction es as [|[n m] es IH]; simpl; intros es' Hall H.
  - discriminate.
  - inversion Hall as [|? ? Hm Hrest]; subst. simpl in Hm.
    destruct (rm m) as [m'|] eqn:Hrm.
    + inversion H; subst. simpl. now rewrite (Hm _ eq_refl).
    + auto.
Qed.

(** a removal that failed fails again, and changes nothing any more *)
Lemma rm_node_stuck (n : Fsys.node) :
  forall parent_w n',
    Fsys.rm_node parent_w n = Some n' -> Fsys.rm_node parent_w n' = Some n'.
Proof.
  induction n as [|w es IH] using node_induction; intros parent_w n' H.
  - simpl in H. destruct parent_w; [discriminate|].
    inversion H; subst. reflexivity.
  - simpl in H.
    destruct (Fsys.rm_list (Fsys.rm_node w) es) as [[|] es'] eqn:Hl.
    + destruct parent_w; [discriminate|]. inversion H; subst. reflexivity.
    + inversion H; subst. simpl.
      erewrite rm_list_stuck; [reflexivity | | exact Hl].
      eapply Forall_impl; [|exact IH]. intros e He n'. apply He.
Qed.

Lemma rm_at_leaves_something (n : Fsys.node) (p : list string) (ok : bool) :
  Fsys.rm_at false n p <> (ok, None).
Proof.
  destruct p as [|c p]; simpl.
  - destruct n as [|w es]; simpl; [congruence|].
    destruct (Fsys.rm_list (Fsys.rm_node w) es) as [[|] es']; congruence.
  - destruct n as [|w es]; [congruence|].
    destruct (Fsys.find_entry c es); [|congruence].
    destruct (Fsys.rm_at w n p). congruence.
Qed.

Lemma rm_at_failure_leaves (p : list string) :
  forall parent_w n r, Fsys.rm_at parent_w n p = (false, r) -> r <> None.
Proof.
  destruct p as [|c p]; simpl; intros parent_w n r H.
  - destruct (Fsys.rm_node parent_w n); inversion H; congruence.
  - destruct n as [|w es]; [inversion H; congruence|].
    destruct (Fsys.find_entry c es); [|inversion H; congruence].
    destruct (Fsys.rm_at w n p). inversion H; congruence.
Qed.

(** after a removal that succeeded the path names nothing *)
Lemma rm_at_success (p : list string) :
  forall parent_w n r,
    Fsys.well_formed n = true ->
    Fsys.rm_at parent_w n p = (true, r) ->
    match r with Some n' => Fsys.lookup n' p = None | None => p = [] end.
Proof.
  induction p as [|c p IH]; simpl; intros parent_w n r Hwf H.
  - destruct (Fsys.rm_node parent_w n); inversion H; subst. reflexivity.
  - destruct n as [|w es]; [discriminate|].
    destruct (Fsys.find_entry c es) as [m|] eqn:Hf; [|discriminate].
    destruct (Fsys.rm_at w m p) as [ok r'] eqn:Hr.
    inversion H; subst. simpl.
    simpl in Hwf. apply andb_prop in Hwf. destruct Hwf as [Hu Hall].
    pose proof (find_entry_well_formed _ _ Hall Hf) as Hm.
    specialize (IH w m r' Hm Hr).
    destruct r' as [m'|].
    + rewrite find_entry_replace_some by congruence. exact IH.
    + now rewrite find_entry_replace_none.
Qed.

(** after a removal that failed the path still names something, and the
    removal fails again without any further change *)
Lemma rm_at_failure (p : list string) :
  forall parent_w n n',
    Fsys.lookup n p <> None ->
    Fsys.rm_at parent_w n p = (false, Some n') ->
    Fsys.lookup n' p <> None
    /\ Fsys.rm_at parent_w n' p = (false, Some n').
Proof.
  induction p as [|c p IH]; simpl; intros parent_w n n' Hl H.
  - split; [congruence|].
    destruct (Fsys.rm_node parent_w n) as [x|] eqn:Hn; inversion H; subst.
    now rewrite (rm_node_stuck _ _ Hn).
  - destruct n as [|w es]; [congruence|].
    destruct (Fsys.find_entry c es) as [m|] eqn:Hf; [|congruence].
    destruct (Fsys.rm_at w m p) as [ok r] eqn:Hr.
    inversion H; subst.
    pose proof (rm_at_failure_leaves _ _ _ Hr) as Hsome.
    destruct r as [m'|]; [|congruence].
    destruct (IH w m m' Hl Hr) as [Hl' Hr'].
    simpl. rewrite find_entry_replace_some by congruence.
    rewrite Hr', replace_entry_twice. split; [exact Hl' | reflexivity].
Qed.

Lemma lookup_fresh (p : list string) : Fsys.lookup (Fsys.fresh p) p <> None.
Proof.
  induction p as [|c p IH]; simpl; [congruence|].
  rewrite String.eqb_refl. exact IH.
Qed.

Lemma find_entry_app_new (c : string) (x : Fsys.node)
  (es : list (string * Fsys.node)) :
  Fsys.find_entry c es = None ->
  Fsys.find_entry c (es ++ [(c, x)]) = Some x.
Proof.
  induction es as [|[n m] es IH]; simpl.
  - now rewrite String.eqb_refl.
  - destruct (String.eqb n c); [discriminate | auto].
Qed.

(** what [os.makedirs] created is there *)
Lemma mk_at_creates (p : list string) :
  forall n n', Fsys.mk_at n p = Some n' -> Fsys.lookup n' p <> None.
Proof.
  induction p as [|c p IH]; simpl; intros n n' H; [discriminate|].
  destruct n as [|w es]; [discriminate|].
  destruct (Fsys.find_entry c es) as [m|] eqn:Hf.
  - destruct (Fsys.mk_at m p) as [m'|] eqn:Hm; [|discriminate].
    inversion H; subst. simpl.
    rewrite find_entry_replace_some by congruence. eapply IH, Hm.
  - destruct w; [|discriminate]. inversion H; subst. simpl.
    rewrite find_entry_app_new by exact Hf. apply lookup_fresh.
Qed.

Lemma remove_path_of_existing (path : string) (root : Fsys.fs) :
  Fsys.os_path_exists root path = true ->
  Fsys.remove_path path root = Fsys.remove_tree_or_file root path.
Proof.
  intros He. unfold Fsys.remove_path, Fsys.shutil_rmtree, Fsys.os_remove.
  rewrite He. simpl.
  destruct (Fsys.os_path_isdir root path);
    destruct (Fsys.remove_tree_or_file root path) as [[|] r]; reflexivity.
Qed.

(** when [remove_path] reports success the path is gone *)
Lemma remove_path_success_gone (path : string) (root : Fsys.fs) :
  Fsys.well_formed root = true ->
  fst (Fsys.remove_path path root) = true ->
  Fsys.os_path_exists (snd (Fsys.remove_path path root)) path = false.
Proof.
  intros Hwf Hok.
  destruct (Fsys.os_path_exists root path) eqn:He.
  - rewrite (remove_path_of_existing _ _ He) in *.
    unfold Fsys.remove_tree_or_file in *.
    unfold Fsys.os_path_exists, Fsys.resolve in *.
    destruct (truthy path) eqn:Hp; [|discriminate].
    destruct (Fsys.rm_at false root (Fsys.components path))
      as [ok [root'|]] eqn:Hr; simpl in *; [|discriminate].
    subst ok. pose proof (rm_at_success _ _ _ Hwf Hr) as Hgone.
    simpl in Hgone. now rewrite Hgone.
  - unfold Fsys.remove_path. rewrite He. simpl. exact He.
Qed.

End FsysFacts.

(** A removal that fails half way: the entries before the read-only
    directory are gone, the rest stays, and a second call changes nothing. *)
Example remove_path_partial :
  Fsys.remove_path "/tmp/CUSTOMER_0/2018-12-04/volume2" sample_fs
  = (false,
     Fsys.Dir true
       [("tmp",
         Fsys.Dir true
           [("CUSTOMER_0",
             Fsys.Dir true
               [("2018-12-04",
                 Fsys.Dir true
                   [("volume1.tar", Fsys.File);
                    ("volume2",
                     Fsys.Dir true
                       [("locked", Fsys.Dir false [("b.gz", Fsys.File)]);
                        ("c.gz.gpg", Fsys.File)])])])]);
        ("readonly", Fsys.Dir false [])]).
Proof. vm_compute. reflexivity. Qed.

(** C8.  On a file system whose directories list no name twice:
    [remove_path] returns [True], and changes nothing, for a path that
    does not exist; [create_path] returns [True], and changes nothing, for
    a path that exists; and calling either a second time on the outcome of
    the first call gives the result of the first call and leaves the file
    system as the first call left it. *)
Theorem remove_and_create_are_idempotent
  (root : Fsys.fs) (path : string)
  (Hwf : Fsys.well_formed root = true) :
  (Fsys.os_path_exists root path = false ->
   Fsys.remove_path path root = (true, root))
  /\ (Fsys.os_path_exists root path = true ->
      Fsys.create_path path root = (true, root))
  /\ Fsys.remove_path path (snd (Fsys.remove_path path root))
     = Fsys.remove_path path root
  /\ Fsys.create_path path (snd (Fsys.create_path path root))
     = Fsys.create_path path root.
Proof.
  split; [|split; [|split]].
  - intros He. unfold Fsys.remove_path. now rewrite He.
  - intros He. unfold Fsys.create_path. now rewrite He.
  - destruct (Fsys.os_path_exists root path) eqn:He.
    + rewrite (remove_path_of_existing _ _ He).
      unfold Fsys.os_path_exists, Fsys.resolve in He.
      unfold Fsys.remove_tree_or_file.
      destruct (truthy path) eqn:Hp; [|discriminate].
      destruct (Fsys.rm_at false root (Fsys.components path))
        as [ok [root'|]] eqn:Hr.
      2:{ exfalso. eapply rm_at_leaves_something, Hr. }
      simpl. destruct ok.
      * pose proof (rm_at_success _ _ _ Hwf Hr) as Hgone. simpl in Hgone.
        unfold Fsys.remove_path, Fsys.os_path_exists, Fsys.resolve.
        rewrite Hp, Hgone. reflexivity.
      * assert (Hl : Fsys.lookup root (Fsys.components path) <> None)
          by (destruct (Fsys.lookup root (Fsys.components path));
              [congruence | discriminate]).
        destruct (rm_at_failure _ _ _ Hl Hr) as [Hl' Hr'].
        rewrite remove_path_of_existing.
        -- unfold Fsys.remove_tree_or_file. rewrite Hr'. reflexivity.
        -- unfold Fsys.os_path_exists, Fsys.resolve. rewrite Hp.
           destruct (Fsys.lookup root' (Fsys.components path));
             [reflexivity | congruence].
    + unfold Fsys.remove_path at 2 3. rewrite He. simpl.
      unfold Fsys.remove_path. now rewrite He.
  - destruct (Fsys.os_path_exists root path) eqn:He.
    + unfold Fsys.create_path at 2 3. rewrite He. simpl.
      unfold Fsys.create_path. now rewrite He.
    + unfold Fsys.create_path at 2 3. rewrite He.
      destruct (Fsys.os_makedirs root path) as [root'|] eqn:Hm; simpl.
      * unfold Fsys.os_makedirs in Hm.
        destruct (truthy path) eqn:Hp; [|discriminate].
        pose proof (mk_at_creates _ _ Hm) as Hl.
        unfold Fsys.create_path, Fsys.os_path_exists, Fsys.resolve.
        rewrite Hp.
        destruct (Fsys.lookup root' (Fsys.components path));
          [reflexivity | congruence].
      * unfold Fsys.create_path. now rewrite He, Hm.
Qed.

Lemma remove_and_create_are_idempotent_witness :
  Fsys.well_formed sample_fs = true
  /\ Fsys.remove_path "/tmp/CUSTOMER_0/2018-12-04/volume2"
       (snd (Fsys.remove_path "/tmp/CUSTOMER_0/2018-12-04/volume2" sample_fs))
     = Fsys.remove_path "/tmp/CUSTOMER_0/2018-12-04/volume2" sample_fs
  /\ Fsys.create_path "/tmp/CUSTOMER_0/2018-12-05"
       (snd (Fsys.create_path "/tmp/CUSTOMER_0/2018-12-05" sample_fs))
     = Fsys.create_path "/tmp/CUSTOMER_0/2018-12-05" sample_fs.
Proof.
  assert (Hwf : Fsys.well_formed sample_fs = true) by (vm_compute; reflexivity).
  split; [exact Hwf|].
  split.
  - apply (@remove_and_create_are_idempotent sample_fs
             "/tmp/CUSTOMER_0/2018-12-04/volume2" Hwf).
  - apply (@remove_and_create_are_idempotent sample_fs
             "/tmp/CUSTOMER_0/2018-12-05" Hwf).
Defined.

(* ================================================================== *)
(** * Facts about paths *)
(* ================================================================== *)

Section PathFacts.

Lemma has_slash_append (a b : string) :
  has_slash (a ^^ b) = has_slash a || has_slash b.
Proof.
  induction a as [|c a IH]; simpl; [reflexivity|].
  rewrite IH. apply orb_assoc.
Qed.

Lemma rsplit_slash_no_slash (n : string) :
  has_slash n = false -> rsplit_slash n = (EmptyString, n).
Proof.
  destruct n as [|c n]; simpl; [reflexivity|].
  intros H. apply orb_false_elim in H. destruct H as [Hc Hn].
  now rewrite Hn, Hc.
Qed.

Lemma rsplit_slash_snd_no_slash (p : string) :
  has_slash (snd (rsplit_slash p)) = false.
Proof.
  induction p as [|c p IH]; simpl; [reflexivity|].
  destruct (has_slash p) eqn:Hp.
  - destruct (rsplit_slash p) as [h t]. exact IH.
  - destruct (is_slash c) eqn:Hc; simpl; [exact Hp|].
    now rewrite Hc, Hp.
Qed.

(** a base name holds no slash *)
Lemma basename_no_slash (p : string) : has_slash (basename p) = false.
Proof. apply rsplit_slash_snd_no_slash. Qed.

Lemma rsplit_slash_after_slash (x n : string) :
  has_slash n = false ->
  rsplit_slash (x ^^ String "/"%char n) = (x ^^ "/", n).
Proof.
  intros Hn. induction x as [|c x IH]; simpl.
  - now rewrite Hn.
  - rewrite has_slash_append. simpl.
    rewrite orb_true_r. now rewrite IH.
Qed.

Lemma ends_with_slash_split (d : string) :
  ends_with_slash d = true -> exists x, d = x ^^ "/".
Proof.
  induction d as [|c d IH]; simpl; [discriminate|].
  destruct d as [|c' d'].
  - intros H. unfold is_slash in H. apply Ascii.eqb_eq in H. subst c.
    exists EmptyString. reflexivity.
  - intros H. destruct (IH H) as [x Hx]. exists (String c x).
    simpl. now rewrite <- Hx.
Qed.

(** the base name of [join(d, n)] is [n] when [n] holds no slash *)
Lemma basename_join (d n : string) :
  has_slash n = false -> basename (join d n) = n.
Proof.
  intros Hn. unfold basename, join.
  destruct n as [|c n'].
  - destruct (negb (truthy d) || ends_with_slash d) eqn:Hd.
    + apply orb_prop in Hd. destruct Hd as [Hd|Hd].
      * destruct d; [reflexivity | discriminate].
      * destruct (ends_with_slash_split _ Hd) as [x ->].
        change (x ^^ "/") with (x ^^ String "/"%char EmptyString).
        now rewrite rsplit_slash_after_slash.
    + change (d ^^ "/") with (d ^^ String "/"%char EmptyString).
      now rewrite rsplit_slash_after_slash.
  - pose proof Hn as Hn'. simpl in Hn'. apply orb_false_elim in Hn'.
    destruct Hn' as [Hc _]. rewrite Hc.
    destruct (negb (truthy d) || ends_with_slash d) eqn:Hd.
    + apply orb_prop in Hd. destruct Hd as [Hd|Hd].
      * destruct d; [|discriminate]. simpl append.
        now rewrite rsplit_slash_no_slash.
      * destruct (ends_with_slash_split _ Hd) as [x ->].
        rewrite append_assoc. simpl append.
        now rewrite rsplit_slash_after_slash.
    + simpl append. now rewrite rsplit_slash_after_slash.
Qed.

Lemma last_char_append (a b : string) :
  truthy b = true -> last_char (a ^^ b) = last_char b.
Proof.
  intros Hb. induction a as [|c a IH]; simpl; [reflexivity|].
  rewrite IH. destruct (a ^^ b) eqn:E; [|reflexivity].
  destruct a; simpl in E; [subst b; discriminate | discriminate].
Qed.

Lemma archive_name_no_slash (name : string) :
  has_slash (basename name ^^ ".tar") = false.
Proof. rewrite has_slash_append, basename_no_slash. reflexivity. Qed.

End PathFacts.

(* ================================================================== *)
(** * local_backup_handler.py: the partition of the volumes *)
(* ================================================================== *)

Section Partition.
Variables temp_backup_path remote_backup_path : string.
Variable uploaded_volume_name_list : list string.

Let step :=
  Local.partition_step temp_backup_path remote_backup_path
                       uploaded_volume_name_list.

(** what later turns do to the two queues: they only append *)
Lemma partition_appends (l : list string) :
  forall st,
    exists more_volumes more_jobs,
      Local.volume_path_list_to_process (fold_left step l st)
      = Local.volume_path_list_to_process st ++ more_volumes
      /\ Local.transfer_pool (Local.pools (fold_left step l st))
         = Local.transfer_pool (Local.pools st) ++ more_jobs
      /\ Local.backup_output_dict (Local.pools (fold_left step l st))
         = Local.backup_output_dict (Local.pools st)
      /\ Forall (fun v => In v l) more_volumes
      /\ Forall (fun j => In (Local.task_volume_name j) (map basename l)
                          /\ Local.task_processed_volume_path j
                             = join temp_backup_path
                                 (Local.task_volume_name j ^^ ".tar")
                          /\ Local.task_volume_output j
                             = Local.get_empty_volume_output
                                 (Local.task_processed_volume_path j) true)
                more_jobs.
Proof.
  induction l as [|v l IH]; intros st; simpl.
  - exists [], []. rewrite !app_nil_r. repeat split; constructor.
  - destruct (IH (step st v)) as (mv & mj & Hv & Hj & Hd & Hmv & Hmj).
    assert (Hmv' : Forall (fun x => v = x \/ In x l) mv)
      by (eapply Forall_impl; [|exact Hmv]; simpl; auto).
    assert (Hmj' : Forall
              (fun j => (basename v = Local.task_volume_name j
                         \/ In (Local.task_volume_name j) (map basename l))
                        /\ Local.task_processed_volume_path j
                           = join temp_backup_path
                               (Local.task_volume_name j ^^ ".tar")
                        /\ Local.task_volume_output j
                           = Local.get_empty_volume_output
                               (Local.task_processed_volume_path j) true) mj)
      by (eapply Forall_impl; [|exact Hmj]; simpl; tauto).
    rewrite Hv, Hj, Hd. unfold step, Local.partition_step.
    destruct (Local.str_in (basename v) uploaded_volume_name_list).
    + exists mv, mj. repeat split; assumption.
    + destruct (Fsys.os_path_exists (Local.tmp st)
                  (join temp_backup_path
                     (basename v ^^ Local.PROCESSED_VOLUME_ENDS_WITH))).
      * simpl. eexists mv, (_ :: mj). rewrite <- app_assoc. simpl.
        repeat split; try assumption.
        constructor; [|exact Hmj']. simpl. auto.
      * simpl. exists (v :: mv), mj. rewrite <- app_assoc. simpl.
        repeat split; try assumption.
        constructor; [auto | exact Hmv'].
Qed.

End Partition.

(** The run of [validate_already_processed_volumes] on the backup of
    scenario 2 when the half-done [volume2] in the temporary directory
    holds a read-only directory: [remove_path] gives up half way. *)
Example locked_volume_partition :
  Local.validate_already_processed_volumes locked_volume_env local_backup
    temp_backup backup_dir Local.new_handler
  = (Ok ([join local_backup "BACKUP_OK"; join local_backup "backup.metadata"],
         resume_volumes,
         [join local_backup "volume2"; join local_backup "volume3"]),
     snd (Fsys.remove_path (join temp_backup "volume2") sample_fs),
     {| Local.transfer_pool :=
          [{| Local.task_volume_name := "volume1";
              Local.task_volume_output :=
                Local.get_empty_volume_output (join temp_backup "volume1.tar")
                                              true;
              Local.task_processed_volume_path :=
                join temp_backup "volume1.tar";
              Local.task_remote_backup_path := backup_dir |}];
        Local.backup_output_dict := [] |}).
Proof. vm_compute. reflexivity. Qed.

(** C2, at the failing input.  The backup of scenario 2 with a half-done
    [volume2] in the temporary directory that cannot be removed (it holds
    a read-only directory).  [volume2.tar] is neither on the remote nor in
    the temporary directory and the directory [volume2] exists there, so
    the specification has the partial directory removed and the volume
    encoded from scratch.  [validate_already_processed_volumes] returns; it queues
    [volume2] for encoding although [remove_path] reported a failure, and
    the partial directory is still in the temporary directory afterwards,
    with what the interrupted run left in it. *)
Theorem unfinished_volume_survives_a_failed_removal :
  let outcome :=
    Local.validate_already_processed_volumes locked_volume_env local_backup
      temp_backup backup_dir Local.new_handler in
  let tmp_before := Local.local_fs locked_volume_env in
  let tmp_after := snd (fst outcome) in
  let partial_directory := join temp_backup "volume2" in
  (* neither on the remote nor archived in the temporary directory *)
  Local.get_list_processed_vols_names_offsite backup_dir
    (Local.offsite_volume_list locked_volume_env)
  = Ok ["volume0"; EmptyString]
  /\ Fsys.os_path_exists tmp_before (join temp_backup "volume2.tar") = false
  (* the partial directory is there *)
  /\ Fsys.os_path_isdir tmp_before partial_directory = true
  (* the removal fails *)
  /\ fst (Fsys.remove_path partial_directory tmp_before) = false
  (* the volume is queued for encoding all the same *)
  /\ fst (fst outcome)
     = Ok ([join local_backup "BACKUP_OK";
            join local_backup "backup.metadata"],
           resume_volumes,
           [join local_backup "volume2"; join local_backup "volume3"])
  (* and the partial directory is still there *)
  /\ Fsys.resolve tmp_after partial_directory
     = Some (Fsys.Dir true
               [("locked", Fsys.Dir false [("b.gz", Fsys.File)]);
                ("c.gz.gpg", Fsys.File)]).
Proof. vm_compute. repeat split; reflexivity. Qed.

(** X27.  [validate_already_processed_volumes] on a backup with volumes and
    metadata files whose remote listing could be read.  It returns the
    files, the volumes and the volumes to encode, and leaves the temporary
    directory and the transfer pool, as the loop over the volumes leaves
    them.  The turn of a volume [V] in that loop, [st] being the state of
    the loop when the turn comes and [st'] the state after it; the turns
    that follow only append to the two queues.  If the volume name is among
    the names of the remote [.tar] files, nothing changes: the volume is
    neither queued for encoding nor handed to the transfer pool.  Else, if
    [V.tar] exists in the temporary directory, one job for that file is
    handed to the transfer pool and the volume is not queued for encoding.
    Otherwise the volume is queued for encoding and no transfer job is
    made in this turn; before that, if a path [V] exists in the temporary
    directory, [remove_path] is run on it and its result is not looked at:
    the temporary directory is what [remove_path] left, with the path gone
    when it reported success; if no such path exists the file system is
    left alone.  A volume queued for encoding is handed to [process_volume]
    by the process pool, and a result with a true status hands one job for
    the archive to the transfer pool. *)
Theorem partition_classifies_each_volume
  (env : Local.upload_env)
  (local_backup_path temp_backup_path remote_backup_path : string)
  (h0 : Local.handler)
  (volume_path_list file_path_list uploaded_volume_name_list : list string)
  (pre post : list string) (volume_path : string) :
  Local.folder_file_lists env = Ok (volume_path_list, file_path_list) ->
  file_path_list <> [] ->
  Local.get_list_processed_vols_names_offsite remote_backup_path
    (Local.offsite_volume_list env) = Ok uploaded_volume_name_list ->
  volume_path_list = pre ++ volume_path :: post ->
  let step := Local.partition_step temp_backup_path remote_backup_path
                                   uploaded_volume_name_list in
  let st := fold_left step pre
              {| Local.volume_path_list_to_process := [];
                 Local.tmp := Local.local_fs env;
                 Local.pools := h0 |} in
  let st' := step st volume_path in
  let final := fold_left step post st' in
  let volume_name := basename volume_path in
  let tar_path := join temp_backup_path (volume_name ^^ ".tar") in
  let dir_path := join temp_backup_path volume_name in
  Local.validate_already_processed_volumes env local_backup_path
    temp_backup_path remote_backup_path h0
  = (Ok (file_path_list, volume_path_list,
         Local.volume_path_list_to_process final),
     Local.tmp final, Local.pools final)
  /\ (exists more_volumes more_jobs,
        Local.volume_path_list_to_process final
        = Local.volume_path_list_to_process st' ++ more_volumes
        /\ Local.transfer_pool (Local.pools final)
           = Local.transfer_pool (Local.pools st') ++ more_jobs
        /\ Forall (fun v => In v post) more_volumes
        /\ Forall (fun j => In (Local.task_volume_name j) (map basename post))
                  more_jobs)
  /\ (Local.str_in volume_name uploaded_volume_name_list = true -> st' = st)
  /\ (Local.str_in volume_name uploaded_volume_name_list = false ->
      Fsys.os_path_exists (Local.tmp st) tar_path = true ->
      Local.volume_path_list_to_process st'
      = Local.volume_path_list_to_process st
      /\ Local.tmp st' = Local.tmp st
      /\ Local.backup_output_dict (Local.pools st')
         = Local.backup_output_dict (Local.pools st)
      /\ Local.transfer_pool (Local.pools st')
         = Local.transfer_pool (Local.pools st) ++
           [{| Local.task_volume_name := volume_name;
               Local.task_volume_output :=
                 Local.get_empty_volume_output tar_path true;
               Local.task_processed_volume_path := tar_path;
               Local.task_remote_backup_path := remote_backup_path |}])
  /\ (Local.str_in volume_name uploaded_volume_name_list = false ->
      Fsys.os_path_exists (Local.tmp st) tar_path = false ->
      Local.volume_path_list_to_process st'
      = Local.volume_path_list_to_process st ++ [volume_path]
      /\ Local.pools st' = Local.pools st
      /\ (Fsys.os_path_exists (Local.tmp st) dir_path = true ->
          Local.tmp st' = snd (Fsys.remove_path dir_path (Local.tmp st))
          /\ (Fsys.well_formed (Local.tmp st) = true ->
              fst (Fsys.remove_path dir_path (Local.tmp st)) = true ->
              Fsys.os_path_exists (Local.tmp st') dir_path = false))
      /\ (Fsys.os_path_exists (Local.tmp st) dir_path = false ->
          Local.tmp st' = Local.tmp st))
  /\ (forall h vo,
        Local.process_volume env volume_path dir_path = Ok vo ->
        Local.vo_status vo = true ->
        Local.run_process_pool env temp_backup_path remote_backup_path
                               [volume_path] h
        = {| Local.transfer_pool :=
               Local.transfer_pool h ++
               [{| Local.task_volume_name := volume_name;
                   Local.task_volume_output := vo;
                   Local.task_processed_volume_path := Local.vo_volume_path vo;
                   Local.task_remote_backup_path := remote_backup_path |}];
             Local.backup_output_dict := Local.backup_output_dict h |}).
Proof.
  intros Hlists Hfiles Huploaded Hsplit step st st' final volume_name
         tar_path dir_path.
  split; [|split; [|split; [|split; [|split]]]].
  - unfold Local.validate_already_processed_volumes.
    rewrite Hlists, Huploaded.
    destruct volume_path_list as [|v0 vl];
      [destruct pre; discriminate Hsplit|].
    destruct file_path_list as [|f0 fl]; [contradiction|].
    rewrite Hsplit, fold_left_app. reflexivity.
  - destruct (partition_appends temp_backup_path remote_backup_path
                uploaded_volume_name_list post st')
      as (mv & mj & Hv & Hj & _ & Hmv & Hmj).
    exists mv, mj. repeat split; try assumption.
    eapply Forall_impl; [|exact Hmj]. simpl. tauto.
  - intros Hup. unfold st', step, Local.partition_step.
    fold volume_name. now rewrite Hup.
  - intros Hup Htar. unfold st', step, Local.partition_step.
    fold volume_name. rewrite Hup.
    change (volume_name ^^ Local.PROCESSED_VOLUME_ENDS_WITH)
      with (volume_name ^^ ".tar").
    fold tar_path. rewrite Htar. simpl.
    split; [reflexivity|]. split; [reflexivity|]. split; reflexivity.
  - intros Hup Htar. unfold st', step, Local.partition_step.
    fold volume_name. rewrite Hup.
    change (volume_name ^^ Local.PROCESSED_VOLUME_ENDS_WITH)
      with (volume_name ^^ ".tar").
    fold tar_path. rewrite Htar. fold dir_path. simpl.
    split; [reflexivity|]. split; [reflexivity|]. split.
    + intros Hdir. rewrite Hdir. split; [reflexivity|].
      intros Hwf Hok. now apply remove_path_success_gone.
    + intros Hdir. now rewrite Hdir.
  - intros h vo Hvo Hstatus. simpl. fold volume_name. fold dir_path.
    rewrite Hvo. unfold Local.on_volume_ready. rewrite Hstatus. reflexivity.
Qed.

Lemma partition_classifies_each_volume_witness :
  (* volume2 is half done: it is queued for encoding, no job is made *)
  Local.volume_path_list_to_process
    (Local.partition_step temp_backup backup_dir ["volume0"; EmptyString]
       (fold_left
          (Local.partition_step temp_backup backup_dir
                                ["volume0"; EmptyString])
          [join local_backup "volume0"; join local_backup "volume1"]
          partition_start)
       (join local_backup "volume2"))
  = [join local_backup "volume2"]
  (* and what the method returns *)
  /\ fst (fst (Local.validate_already_processed_volumes resume_env
                 local_backup temp_backup backup_dir Local.new_handler))
     = Ok ([join local_backup "BACKUP_OK";
            join local_backup "backup.metadata"],
           resume_volumes,
           [join local_backup "volume2"; join local_backup "volume3"]).
Proof.
  assert (Hfiles : [join local_backup "BACKUP_OK";
                    join local_backup "backup.metadata"] <> [])
    by discriminate.
  pose proof (@partition_classifies_each_volume resume_env local_backup
                temp_backup backup_dir Local.new_handler resume_volumes
                [join local_backup "BACKUP_OK";
                 join local_backup "backup.metadata"]
                ["volume0"; EmptyString]
                [join local_backup "volume0"; join local_backup "volume1"]
                [join local_backup "volume3"]
                (join local_backup "volume2")
                eq_refl Hfiles eq_refl eq_refl)
    as (Hrun & _ & _ & _ & Hqueue & _).
  split.
  - destruct Hqueue as (Hv & _);
      [vm_compute; reflexivity | vm_compute; reflexivity |].
    exact Hv.
  - rewrite Hrun. vm_compute. reflexivity.
Defined.


(* ================================================================== *)
(** * local_backup_handler.py: volumes first, then the success flag *)
(* ================================================================== *)

Section OutputDict.

Lemma dict_set_in (key : string) (value : Local.volume_output)
  (d : list (string * Local.volume_output)) (k : string)
  (v : Local.volume_output) :
  In (k, v) (Local.dict_set key value d) ->
  (k = key /\ v = value) \/ In (k, v) d.
Proof.
  induction d as [|[k0 v0] d IH]; simpl.
  - intros [E|[]]. inversion E; auto.
  - destruct (String.eqb k0 key) eqn:Hk; simpl.
    + apply String.eqb_eq in Hk. subst k0.
      intros [E|H]; [inversion E; auto | auto].
    + intros [E|H]; [auto | destruct (IH H); auto].
Qed.

Lemma dict_set_has_key (key : string) (value : Local.volume_output)
  (d : list (string * Local.volume_output)) :
  exists v, In (key, v) (Local.dict_set key value d).
Proof.
  induction d as [|[k0 v0] d IH]; simpl.
  - eexists; left; reflexivity.
  - destruct (String.eqb k0 key) eqn:Hk.
    + apply String.eqb_eq in Hk. subst k0. eexists; left; reflexivity.
    + destruct IH as [v Hv]. exists v. right; exact Hv.
Qed.

Lemma dict_set_keeps_keys (key : string) (value : Local.volume_output)
  (d : list (string * Local.volume_output)) (k : string) :
  (exists v, In (k, v) d) ->
  exists v, In (k, v) (Local.dict_set key value d).
Proof.
  induction d as [|[k0 v0] d IH]; simpl; intros [v Hv]; [contradiction|].
  destruct (String.eqb k0 key) eqn:Hk.
  - destruct Hv as [E|Hv].
    + inversion E; subst. eexists; left; reflexivity.
    + exists v. right; exact Hv.
  - destruct Hv as [E|Hv].
    + exists v. left; exact E.
    + destruct IH as [v' Hv']; [eauto|]. exists v'. right; exact Hv'.
Qed.

Lemma check_passed (h : Local.handler) (ok : bool) :
  Local.check_backup_output_errors h = Ok ok ->
  forall k v, In (k, v) (Local.backup_output_dict h) ->
              Local.vo_status v = true.
Proof.
  unfold Local.check_backup_output_errors. intros H k v Hin.
  destruct (Local.vo_status v) eqn:Hs; [reflexivity|].
  assert (Hf : In (k, v)
                 (filter (fun kv => negb (Local.vo_status (snd kv)))
                         (Local.backup_output_dict h))).
  { apply filter_In. split; [exact Hin|]. simpl. now rewrite Hs. }
  destruct (filter (fun kv => negb (Local.vo_status (snd kv)))
                   (Local.backup_output_dict h)); [contradiction|].
  simpl in H. discriminate.
Qed.

End OutputDict.

Section Workers.
Variable env : Local.upload_env.

(** [process_volume] returns an output when the gpg manager returns or
    raises a [BurException]; with a true status the output names the
    archive of the temporary volume folder *)
Lemma process_volume_outcome (volume_path tmp_volume_path : string) :
  returns_or_raises_bur
    (Local.compress_encrypt_file_list env volume_path tmp_volume_path) = true ->
  exists vo,
    Local.process_volume env volume_path tmp_volume_path = Ok vo
    /\ (Local.vo_status vo = true ->
        basename (Local.vo_volume_path vo) = basename tmp_volume_path ^^ ".tar").
Proof.
  intros Hgpg.
  unfold Local.process_volume.
  destruct (Local.create_path_ok env tmp_volume_path); simpl;
    [|eexists; split; [reflexivity | discriminate]].
  destruct (Local.compress_encrypt_file_list env volume_path tmp_volume_path)
    as [b|[c code ps|name]]; simpl in *;
    [| eexists; split; [reflexivity | discriminate] | discriminate].
  unfold Compress.compress_file, Compress.is_valid_path.
  destruct (Validator.check_not_empty tmp_volume_path) as [b1|e1] eqn:H1; simpl.
  2:{ unfold Validator.check_not_empty in H1.
      destruct (negb (truthy tmp_volume_path)); [inversion H1; subst|].
      - eexists; split; [reflexivity | discriminate].
      - destruct (negb (truthy (strip tmp_volume_path))); inversion H1; subst.
        eexists; split; [reflexivity | discriminate]. }
  destruct (Local.path_exists env tmp_volume_path); simpl;
    [|eexists; split; [reflexivity | discriminate]].
  destruct (Validator.check_not_empty (dirname tmp_volume_path))
    as [b2|e2] eqn:H2; simpl.
  2:{ unfold Validator.check_not_empty in H2.
      destruct (negb (truthy (dirname tmp_volume_path)));
        [inversion H2; subst|].
      - eexists; split; [reflexivity | discriminate].
      - destruct (negb (truthy (strip (dirname tmp_volume_path))));
          inversion H2; subst.
        eexists; split; [reflexivity | discriminate]. }
  destruct (Local.path_exists env (dirname tmp_volume_path)); simpl;
    [|eexists; split; [reflexivity | discriminate]].
  unfold Compress.tar_file.
  destruct (negb (Local.tar_ret env tmp_volume_path =? 0)%Z); simpl;
    [eexists; split; [reflexivity | discriminate]|].
  destruct (Local.remove_path_ok env tmp_volume_path); simpl;
    eexists; (split; [reflexivity|]); [|discriminate].
  intros _. simpl. apply basename_join.
  change (basename tmp_volume_path ^^ "." ^^ Compress.TAR_SUFFIX)
    with (basename tmp_volume_path ^^ ".tar").
  apply archive_name_no_slash.
Qed.

(** an output of [process_volume] with a true status names the archive of
    the temporary volume folder, whatever the workers do *)
Lemma process_volume_archive (volume_path tmp_volume_path : string)
  (vo : Local.volume_output) :
  Local.process_volume env volume_path tmp_volume_path = Ok vo ->
  Local.vo_status vo = true ->
  basename (Local.vo_volume_path vo) = basename tmp_volume_path ^^ ".tar".
Proof.
  intros H Hs.
  destruct (returns_or_raises_bur
              (Local.compress_encrypt_file_list env volume_path
                 tmp_volume_path)) eqn:Hg.
  - destruct (process_volume_outcome _ _ Hg) as (vo' & Heq & Hname).
    rewrite Heq in H. inversion H; subst. exact (Hname Hs).
  - exfalso. unfold Local.process_volume in H.
    destruct (Local.compress_encrypt_file_list env volume_path
                tmp_volume_path) as [b|[c code ps|name]];
      try discriminate Hg.
    destruct (Local.create_path_ok env tmp_volume_path); simpl in H;
      [discriminate H|].
    inversion H; subst. discriminate Hs.
Qed.

(** whatever comes of it, a transfer job makes one call of the rsync
    manager, on the file it was given *)
Lemma transfer_sends (volume_name : string) (vo : Local.volume_output)
  (path remote_dir : string) (e : Local.event) :
  In e (snd (Local.transfer_backup_volume_to_offsite env volume_name vo path
               remote_dir)) ->
  Local.sent_name e = basename path.
Proof.
  unfold Local.transfer_backup_volume_to_offsite.
  destruct (Local.transfer_file env path (Local.host env ^^ ":" ^^ remote_dir))
    as [ro|[c code ps|name]]; simpl.
  - destruct (Local.remove_path_ok env path); simpl;
      intros [<-|[]]; reflexivity.
  - intros [<-|[]]. reflexivity.
  - intros [<-|[]]. reflexivity.
Qed.

Hypothesis Hworkers : Local.workers_return env.

(** under the contract, [process_volume] returns an output; with a true
    status the output names the archive of the temporary volume folder *)
Lemma process_volume_returns (volume_path tmp_volume_path : string) :
  exists vo,
    Local.process_volume env volume_path tmp_volume_path = Ok vo
    /\ (Local.vo_status vo = true ->
        basename (Local.vo_volume_path vo) = basename tmp_volume_path ^^ ".tar").
Proof.
  apply process_volume_outcome. destruct Hworkers as [Hgpg _]. apply Hgpg.
Qed.

(** under the contract, a transfer job returns; with a true status the
    transfer of its file returned *)
Lemma transfer_returns (volume_name : string) (vo : Local.volume_output)
  (path remote_dir : string) :
  exists vo' evs,
    Local.transfer_backup_volume_to_offsite env volume_name vo path remote_dir
    = (Ok (volume_name, vo'), evs)
    /\ (forall e, In e evs -> Local.sent_name e = basename path)
    /\ (Local.vo_status vo' = true ->
        exists e, In e evs /\ Local.delivered e = true).
Proof.
  destruct Hworkers as [_ Hrsync].
  specialize (Hrsync path (Local.host env ^^ ":" ^^ remote_dir)).
  unfold Local.transfer_backup_volume_to_offsite.
  destruct (Local.transfer_file env path (Local.host env ^^ ":" ^^ remote_dir))
    as [ro|[c code ps|name]]; simpl in *; [| |discriminate].
  - destruct (Local.remove_path_ok env path); simpl;
      eexists; eexists; (split; [reflexivity|]); split.
    + intros e [<-|[]]. reflexivity.
    + intros _. eexists; split; [left; reflexivity | reflexivity].
    + intros e [<-|[]]. reflexivity.
    + discriminate.
  - eexists; eexists; (split; [reflexivity|]); split.
    + intros e [<-|[]]. reflexivity.
    + discriminate.
Qed.

End Workers.

Section Schedule.

Lemma insert_job_perm (moment : nat -> nat) (x : nat * Local.transfer_task)
  (l : list (nat * Local.transfer_task)) :
  Permutation (Local.insert_job moment x l) (x :: l).
Proof.
  induction l as [|y l IH]; simpl; [apply Permutation_refl|].
  destruct (moment (fst x) <=? moment (fst y))%nat.
  - apply Permutation_refl.
  - eapply perm_trans; [apply perm_skip, IH | apply perm_swap].
Qed.

Lemma map_snd_combine_seq (A : Type) (l : list A) :
  forall n, map snd (combine (seq n (List.length l)) l) = l.
Proof.
  induction l as [|x l IH]; intros n; simpl; [reflexivity|].
  now rewrite IH.
Qed.

(** the transfer pool runs the jobs it was given, each once, in an order
    of its own *)
Lemma schedule_runs_every_job (env : Local.upload_env)
  (jobs : list Local.transfer_task) :
  Permutation (Local.schedule env jobs) jobs.
Proof.
  unfold Local.schedule.
  assert (H : forall l : list (nat * Local.transfer_task),
             Permutation
               (fold_right (Local.insert_job (Local.finish_moment env)) [] l)
               l).
  { induction l as [|x l IH]; simpl; [constructor|].
    eapply perm_trans; [apply insert_job_perm | apply perm_skip, IH]. }
  pose proof (Permutation_map snd
                (H (combine (seq 0 (List.length jobs)) jobs))) as Hp.
  rewrite (map_snd_combine_seq jobs 0) in Hp. exact Hp.
Qed.

End Schedule.

Section VolumePhase.
Variable env : Local.upload_env.
Variables temp_backup_path remote_backup_path : string.

(** the partition loop leaves every volume in one of its three classes *)
Lemma partition_covers (uploaded : list string) (l : list string) :
  forall st volume_path,
    In volume_path l ->
    let st' :=
      fold_left (Local.partition_step temp_backup_path remote_backup_path
                                      uploaded) l st in
    Local.str_in (basename volume_path) uploaded = true
    \/ (exists job, In job (Local.transfer_pool (Local.pools st'))
                    /\ Local.task_volume_name job = basename volume_path)
    \/ In volume_path (Local.volume_path_list_to_process st').
Proof.
  induction l as [|v l IH]; intros st volume_path Hin; [contradiction|].
  destruct Hin as [<-|Hin]; [|apply IH; exact Hin].
  simpl.
  destruct (partition_appends temp_backup_path remote_backup_path uploaded l
              (Local.partition_step temp_backup_path remote_backup_path
                                    uploaded st v))
    as (mv & mj & Hv & Hj & _).
  rewrite Hv, Hj. unfold Local.partition_step.
  destruct (Local.str_in (basename v) uploaded); [left; reflexivity|].
  right.
  destruct (Fsys.os_path_exists (Local.tmp st)
              (join temp_backup_path
                 (basename v ^^ Local.PROCESSED_VOLUME_ENDS_WITH))); simpl.
  - left. eexists. split.
    + apply in_or_app. left. apply in_or_app. right. left. reflexivity.
    + reflexivity.
  - right. apply in_or_app. left. apply in_or_app. right. left. reflexivity.
Qed.

(** the jobs the partition loop hands over send archives, and the loop
    leaves the output dictionary alone *)
Lemma partition_jobs (uploaded : list string) (l : list string)
  (st : Local.partition_state) :
  let st' :=
    fold_left (Local.partition_step temp_backup_path remote_backup_path
                                    uploaded) l st in
  (Forall Local.sends_archive (Local.transfer_pool (Local.pools st)) ->
   Forall Local.sends_archive (Local.transfer_pool (Local.pools st')))
  /\ Local.backup_output_dict (Local.pools st')
     = Local.backup_output_dict (Local.pools st).
Proof.
  destruct (partition_appends temp_backup_path remote_backup_path uploaded l st)
    as (mv & mj & _ & Hj & Hd & _ & Hmj).
  simpl. split; [|exact Hd].
  intros Hst. rewrite Hj. apply Forall_app. split; [exact Hst|].
  eapply Forall_impl; [|exact Hmj]. simpl.
  intros j (Hname & Hpath & _). unfold Local.sends_archive.
  rewrite Hpath. apply in_map_iff in Hname.
  destruct Hname as (x & <- & _).
  apply basename_join. apply archive_name_no_slash.
Qed.

(** the jobs the process pool hands over send archives *)
Lemma run_process_pool_jobs (l : list string) :
  forall h,
    Forall Local.sends_archive (Local.transfer_pool h) ->
    Forall Local.sends_archive
      (Local.transfer_pool
         (Local.run_process_pool env temp_backup_path remote_backup_path l h)).
Proof.
  induction l as [|vp l IH]; intros h Hall; simpl; [exact Hall|].
  apply IH.
  destruct (Local.process_volume env vp (join temp_backup_path (basename vp)))
    as [vo|e] eqn:Hvo; [|exact Hall].
  unfold Local.on_volume_ready.
  destruct (Local.vo_status vo) eqn:Hs; simpl; [|exact Hall].
  apply Forall_app. split; [exact Hall|].
  constructor; [|constructor]. unfold Local.sends_archive. simpl.
  rewrite (process_volume_archive _ _ _ Hvo Hs).
  rewrite basename_join by apply basename_no_slash.
  reflexivity.
Qed.

(** the transfer pool at work: the trace grows by transfers of archives *)
Lemma run_transfer_jobs_names (jobs : list Local.transfer_task) :
  forall h trace h' trace',
    Local.run_transfer_jobs env jobs h trace = (h', trace') ->
    Forall Local.sends_archive jobs ->
    exists more,
      trace' = trace ++ more
      /\ Forall (fun e => exists name, Local.sent_name e = name ^^ ".tar")
                more.
Proof.
  induction jobs as [|job jobs IH]; intros h trace h' trace' Hrun Hall.
  - simpl in Hrun. inversion Hrun; subst. exists [].
    rewrite app_nil_r. split; [reflexivity | constructor].
  - simpl in Hrun.
    pose proof (transfer_sends env (Local.task_volume_name job)
                  (Local.task_volume_output job)
                  (Local.task_processed_volume_path job)
                  (Local.task_remote_backup_path job)) as Hnames.
    destruct (Local.transfer_backup_volume_to_offsite env
                (Local.task_volume_name job) (Local.task_volume_output job)
                (Local.task_processed_volume_path job)
                (Local.task_remote_backup_path job)) as [r evs].
    inversion Hall as [|? ? Hjob Hrest]; subst.
    destruct (IH _ _ _ _ Hrun Hrest) as (more & -> & Hmore).
    exists (evs ++ more). rewrite app_assoc. split; [reflexivity|].
    apply Forall_app. split; [|exact Hmore].
    apply Forall_forall. intros e He.
    exists (Local.task_volume_name job).
    rewrite (Hnames e He). exact Hjob.
Qed.

Hypothesis Hworkers : Local.workers_return env.

(** what the callback of a processed volume does to the handler *)
Lemma volume_ready_step (volume_path : string) (h : Local.handler) :
  exists vo,
    Local.process_volume env volume_path
      (join temp_backup_path (basename volume_path)) = Ok vo
    /\ let h' :=
         snd (Local.on_volume_ready (basename volume_path) vo
                                    remote_backup_path h) in
       (Forall Local.sends_archive (Local.transfer_pool h) ->
        Forall Local.sends_archive (Local.transfer_pool h'))
       /\ (forall job, In job (Local.transfer_pool h) ->
                       In job (Local.transfer_pool h'))
       /\ ((forall k v, In (k, v) (Local.backup_output_dict h) ->
                        Local.vo_status v = false) ->
           forall k v, In (k, v) (Local.backup_output_dict h') ->
                       Local.vo_status v = false)
       /\ (forall k, (exists v, In (k, v) (Local.backup_output_dict h)) ->
                     exists v, In (k, v) (Local.backup_output_dict h'))
       /\ ((exists job, In job (Local.transfer_pool h')
                        /\ Local.task_volume_name job = basename volume_path)
           \/ exists v, In (basename volume_path, v)
                           (Local.backup_output_dict h')).
Proof.
  destruct (process_volume_returns Hworkers volume_path
              (join temp_backup_path (basename volume_path)))
    as (vo & Heq & Hname).
  exists vo. split; [exact Heq|].
  unfold Local.on_volume_ready.
  destruct (Local.vo_status vo) eqn:Hs; simpl.
  - split; [|split; [|split; [|split]]].
    + intros Hall. apply Forall_app. split; [exact Hall|].
      constructor; [|constructor]. unfold Local.sends_archive. simpl.
      rewrite (Hname eq_refl).
      rewrite basename_join by apply basename_no_slash.
      reflexivity.
    + intros job Hjob. apply in_or_app. left. exact Hjob.
    + auto.
    + auto.
    + left. eexists. split; [apply in_or_app; right; left; reflexivity|].
      reflexivity.
  - split; [|split; [|split; [|split]]].
    + auto.
    + auto.
    + intros Hall k v Hin. apply dict_set_in in Hin.
      destruct Hin as [[_ ->]|Hin]; [exact Hs | eapply Hall; exact Hin].
    + intros k Hk. apply dict_set_keeps_keys. exact Hk.
    + right. apply dict_set_has_key.
Qed.

(** the process pool: jobs are only added, they send archives; entries of
    the output dictionary are only added, with a false status; and every
    volume processed ends as a job or as an entry *)
Lemma run_process_pool_spec (l : list string) :
  forall h,
    let h' :=
      Local.run_process_pool env temp_backup_path remote_backup_path l h in
    (Forall Local.sends_archive (Local.transfer_pool h) ->
     Forall Local.sends_archive (Local.transfer_pool h'))
    /\ (forall job, In job (Local.transfer_pool h) ->
                    In job (Local.transfer_pool h'))
    /\ ((forall k v, In (k, v) (Local.backup_output_dict h) ->
                     Local.vo_status v = false) ->
        forall k v, In (k, v) (Local.backup_output_dict h') ->
                    Local.vo_status v = false)
    /\ (forall k, (exists v, In (k, v) (Local.backup_output_dict h)) ->
                  exists v, In (k, v) (Local.backup_output_dict h'))
    /\ (forall volume_path, In volume_path l ->
          (exists job, In job (Local.transfer_pool h')
                       /\ Local.task_volume_name job = basename volume_path)
          \/ exists v, In (basename volume_path, v)
                          (Local.backup_output_dict h')).
Proof.
  induction l as [|vp l IH]; intros h; simpl.
  - repeat split; auto. intros ? [].
  - destruct (volume_ready_step vp h) as (vo & -> & H1 & H2 & H3 & H4 & H5).
    destruct (IH (snd (Local.on_volume_ready (basename vp) vo
                         remote_backup_path h)))
      as (I1 & I2 & I3 & I4 & I5).
    split; [|split; [|split; [|split]]].
    + intros Hall. apply I1, H1, Hall.
    + intros job Hjob. apply I2, H2, Hjob.
    + intros Hall. apply I3, H3, Hall.
    + intros k Hk. apply I4, H4, Hk.
    + intros volume_path [<-|Hin]; [|apply I5; exact Hin].
      destruct H5 as [(job & Hjob & Hn)|Hkey].
      * left. exists job. split; [apply I2; exact Hjob | exact Hn].
      * right. apply I4. exact Hkey.
Qed.

(** the transfer pool at work: the trace grows by transfers of the jobs'
    archives; an entry with a true status has its archive delivered; keys
    stay; every job run leaves an entry under its volume name *)
Lemma run_transfer_jobs_spec (jobs : list Local.transfer_task) :
  forall h trace h' trace',
    Local.run_transfer_jobs env jobs h trace = (h', trace') ->
    Forall Local.sends_archive jobs ->
    (exists more,
        trace' = trace ++ more
        /\ Forall (fun e => exists job,
                       In job jobs
                       /\ Local.sent_name e
                          = Local.task_volume_name job ^^ ".tar") more)
    /\ ((forall k v, In (k, v) (Local.backup_output_dict h) ->
                     Local.vo_status v = true ->
                     exists e, In e trace /\ Local.delivered e = true
                               /\ Local.sent_name e = k ^^ ".tar") ->
        forall k v, In (k, v) (Local.backup_output_dict h') ->
                    Local.vo_status v = true ->
                    exists e, In e trace' /\ Local.delivered e = true
                              /\ Local.sent_name e = k ^^ ".tar")
    /\ (forall k, (exists v, In (k, v) (Local.backup_output_dict h)) ->
                  exists v, In (k, v) (Local.backup_output_dict h'))
    /\ (forall job, In job jobs ->
                    exists v, In (Local.task_volume_name job, v)
                                 (Local.backup_output_dict h')).
Proof.
  induction jobs as [|job jobs IH]; intros h trace h' trace' Hrun Hall.
  - simpl in Hrun. inversion Hrun; subst.
    split; [|split; [|split]].
    + exists []. rewrite app_nil_r. split; [reflexivity | constructor].
    + auto.
    + auto.
    + intros ? [].
  - simpl in Hrun.
    destruct (transfer_returns Hworkers (Local.task_volume_name job)
                (Local.task_volume_output job)
                (Local.task_processed_volume_path job)
                (Local.task_remote_backup_path job))
      as (vo' & evs & Heq & Hnames & Hdel).
    rewrite Heq in Hrun.
    inversion Hall as [|? ? Hjob Hrest]; subst.
    destruct (IH _ _ _ _ Hrun Hrest) as ((more & Htr & Hmore) & I2 & I3 & I4).
    unfold Local.sends_archive in Hjob.
    split; [|split; [|split]].
    + exists (evs ++ more). rewrite Htr, app_assoc. split; [reflexivity|].
      apply Forall_app. split.
      * apply Forall_forall. intros e He. exists job.
        split; [left; reflexivity|]. rewrite (Hnames e He). exact Hjob.
      * eapply Forall_impl; [|exact Hmore]. simpl.
        intros e (j & Hj & Hn). exists j. split; [right; exact Hj | exact Hn].
    + intros Hinv. apply I2. simpl. intros k v Hin Hs.
      apply dict_set_in in Hin. destruct Hin as [[-> ->]|Hin].
      * destruct (Hdel Hs) as (e & He & Hd). exists e.
        split; [apply in_or_app; right; exact He|].
        split; [exact Hd|]. rewrite (Hnames e He). exact Hjob.
      * destruct (Hinv k v Hin Hs) as (e & He & Hd & Hn). exists e.
        split; [apply in_or_app; left; exact He|]. split; assumption.
    + intros k Hk. apply I3. simpl. apply dict_set_keeps_keys. exact Hk.
    + intros j [<-|Hj]; [|apply I4; exact Hj].
      apply I3. simpl. apply dict_set_has_key.
Qed.

End VolumePhase.

Section FilePhase.
Variable env : Local.upload_env.
Variables temp_backup_path remote_backup_path : string.

(** an archive made in mode [w] carries the name of its source and
    [.tar] *)
Lemma compress_file_archive (source_path archived : string)
  (path_exists : string -> bool) (ret : Z) :
  Compress.compress_file source_path None "w" path_exists ret = Ok archived ->
  basename archived = basename source_path ^^ ".tar".
Proof.
  unfold Compress.compress_file.
  destruct (Compress.is_valid_path source_path (path_exists source_path));
    simpl; [|discriminate].
  destruct (Compress.is_valid_path (dirname source_path)
              (path_exists (dirname source_path))); simpl; [|discriminate].
  unfold Compress.tar_file.
  destruct (negb (ret =? 0)%Z); [discriminate|].
  intros H. inversion H; subst.
  apply basename_join.
  change (basename source_path ^^ "." ^^ Compress.TAR_SUFFIX)
    with (basename source_path ^^ ".tar").
  apply archive_name_no_slash.
Qed.

(** the loop sends a file called [BACKUP_OK] only for the success flag of
    the list, and then it sends that file itself *)
Lemma flag_file_to_transfer (file_path sent : string) :
  Local.file_to_transfer env file_path temp_backup_path = Some (Ok sent) ->
  basename sent = Local.SUCCESS_FLAG_FILE ->
  basename file_path = Local.SUCCESS_FLAG_FILE /\ sent = file_path.
Proof.
  unfold Local.file_to_transfer.
  destruct (String.eqb_spec Local.SUCCESS_FLAG_FILE (basename file_path))
    as [Hflag|_].
  - intros H _. inversion H; subst. auto.
  - destruct (String.eqb Local.BACKUP_META_FILE (basename file_path));
      [|discriminate].
    destruct (Local.compress_encrypt_file env file_path temp_backup_path)
      as [processed|e]; simpl; [|discriminate].
    destruct (Compress.compress_file processed None "w"
                (Local.path_exists env) (Local.tar_ret env processed))
      as [archived|e] eqn:Harch; simpl; [|discriminate].
    destruct (negb (Local.remove_path_ok env processed)); [discriminate|].
    intros H Hname. inversion H; subst. exfalso.
    rewrite (compress_file_archive _ _ _ Harch) in Hname.
    apply (f_equal last_char) in Hname.
    rewrite last_char_append in Hname by reflexivity.
    vm_compute in Hname. discriminate Hname.
Qed.

(** the loop over the metadata files only adds transfers to the trace *)
Lemma metadata_files_extend (file_list : list string) :
  forall trace r trace',
    Local.process_backup_metadata_files env file_list temp_backup_path
      remote_backup_path trace = (r, trace') ->
    exists more, trace' = trace ++ more.
Proof.
  induction file_list as [|file_path rest IH]; intros trace r trace' Hrun.
  - inversion Hrun; subst. exists []. now rewrite app_nil_r.
  - cbn [Local.process_backup_metadata_files] in Hrun.
    destruct (Local.check_remote_path_exists env trace
                (join remote_backup_path (basename file_path)));
      [eapply IH; exact Hrun|].
    destruct (Local.file_to_transfer env file_path temp_backup_path)
      as [[file_to_transfer|e]|].
    + destruct (Local.transfer_file env file_to_transfer
                  (Local.host env ^^ ":" ^^ remote_backup_path)).
      * destruct (Local.process_backup_metadata_files env rest
                    temp_backup_path remote_backup_path
                    (trace ++ [Local.Transfer file_to_transfer
                                 (Local.host env ^^ ":" ^^ remote_backup_path)
                                 true])) as [r0 t0] eqn:Hrest.
        destruct (IH _ _ _ Hrest) as [more ->].
        destruct r0; inversion Hrun; subst;
          eexists; rewrite <- app_assoc; reflexivity.
      * inversion Hrun; subst. eexists. reflexivity.
    + inversion Hrun; subst. exists []. now rewrite app_nil_r.
    + eapply IH; exact Hrun.
Qed.

(** Where a transfer of the loop over the metadata files comes from: it
    is the transfer made for one file of the list; the files listed before
    that one were handled before it, without an exception; when the
    transfer returned, the files listed after are handled after it, and
    when it raised, the loop ended there. *)
Lemma metadata_event_origin (file_list : list string) :
  forall trace r trace' m1 e m2,
    Local.process_backup_metadata_files env file_list temp_backup_path
      remote_backup_path trace = (r, trace') ->
    trace' = trace ++ m1 ++ e :: m2 ->
    exists before file_path after names sent,
      file_list = before ++ file_path :: after
      /\ Local.process_backup_metadata_files env before temp_backup_path
           remote_backup_path trace = (Ok names, trace ++ m1)
      /\ Local.file_to_transfer env file_path temp_backup_path
         = Some (Ok sent)
      /\ e = Local.Transfer sent (Local.host env ^^ ":" ^^ remote_backup_path)
                            (Local.delivered e)
      /\ (Local.delivered e = true ->
          snd (Local.process_backup_metadata_files env after temp_backup_path
                 remote_backup_path (trace ++ m1 ++ [e]))
          = trace ++ m1 ++ e :: m2)
      /\ (Local.delivered e = false -> m2 = [] /\ raised r = true).
Proof.
  assert (Hnone : forall (trace : list Local.event) m1 e m2,
             trace = trace ++ m1 ++ e :: m2 -> False).
  { intros trace m1 e m2 H. apply (f_equal (@List.length _)) in H.
    rewrite !length_app in H. simpl in H. lia. }
  induction file_list as [|f rest IH]; intros trace r trace' m1 e m2 Hrun Htr.
  - inversion Hrun; subst. exfalso. eapply Hnone. eassumption.
  - cbn [Local.process_backup_metadata_files] in Hrun.
    destruct (Local.check_remote_path_exists env trace
                (join remote_backup_path (basename f))) eqn:Hex.
    { destruct (IH _ _ _ _ _ _ Hrun Htr)
        as (before & fp & after & names & sent & -> & Hb & Hrest).
      exists (f :: before), fp, after, names, sent.
      split; [reflexivity|]. split; [|exact Hrest].
      cbn [Local.process_backup_metadata_files]. rewrite Hex. exact Hb. }
    destruct (Local.file_to_transfer env f temp_backup_path)
      as [[p|e0]|] eqn:Hft.
    3:{ destruct (IH _ _ _ _ _ _ Hrun Htr)
          as (before & fp & after & names & sent & -> & Hb & Hrest).
        exists (f :: before), fp, after, names, sent.
        split; [reflexivity|]. split; [|exact Hrest].
        cbn [Local.process_backup_metadata_files]. rewrite Hex, Hft.
        exact Hb. }
    2:{ inversion Hrun; subst. exfalso. eapply Hnone. eassumption. }
    destruct (Local.transfer_file env p
                (Local.host env ^^ ":" ^^ remote_backup_path))
      as [ro|e0] eqn:Htf.
    2:{ assert (Ht : trace' = trace ++ [Local.Transfer p
                          (Local.host env ^^ ":" ^^ remote_backup_path) false])
          by (inversion Hrun; reflexivity).
        assert (Hr : raised r = true) by (inversion Hrun; reflexivity).
        rewrite Ht in Htr. apply app_inv_head in Htr.
        destruct m1 as [|x m1]; cbn [app] in Htr.
        - inversion Htr; subst e m2.
          exists [], f, rest, [], p. simpl.
          split; [reflexivity|]. split; [now rewrite app_nil_r|].
          split; [exact Hft|]. split; [reflexivity|].
          split; [discriminate | auto].
        - inversion Htr. destruct m1; discriminate. }
    destruct (Local.process_backup_metadata_files env rest temp_backup_path
                remote_backup_path
                (trace ++ [Local.Transfer p
                             (Local.host env ^^ ":" ^^ remote_backup_path)
                             true])) as [r0 t0] eqn:Hrest.
    destruct (metadata_files_extend _ _ Hrest) as [more Hmore].
    assert (Ht : trace' = t0) by (destruct r0; inversion Hrun; reflexivity).
    assert (Hr : raised r = raised r0)
      by (destruct r0; inversion Hrun; reflexivity).
    rewrite Ht, Hmore, <- app_assoc in Htr.
    apply app_inv_head in Htr. cbn [app] in Htr.
    destruct m1 as [|x m1]; cbn [app] in Htr; inversion Htr; subst.
    + exists [], f, rest, [], p. cbn [app Local.delivered].
      split; [reflexivity|].
      split; [cbn [Local.process_backup_metadata_files];
              now rewrite app_nil_r|].
      split; [exact Hft|]. split; [reflexivity|].
      split; [|discriminate].
      intros _.
      change (Local.host env ^^ String ":" remote_backup_path)
        with (Local.host env ^^ ":" ^^ remote_backup_path).
      rewrite Hrest. cbn [snd]. rewrite <- app_assoc. reflexivity.
    + destruct (IH _ _ _ m1 e m2 Hrest)
        as (before & fp & after & names & sent & -> & Hb & Hf & He & Hd & Hn).
      { rewrite <- app_assoc. reflexivity. }
      exists (f :: before), fp, after, (basename p :: names), sent.
      split; [reflexivity|]. split.
      * cbn [app Local.process_backup_metadata_files].
        rewrite Hex, Hft, Htf, Hb. rewrite <- app_assoc. reflexivity.
      * split; [exact Hf|]. split; [exact He|]. split.
        -- intros Hd'. specialize (Hd Hd').
           rewrite <- !app_assoc in Hd. exact Hd.
        -- intros Hd'. destruct (Hn Hd') as [Hm2 Hr0].
           split; [exact Hm2|]. now rewrite Hr.
Qed.

(** a descriptor step adds at most the transfer of the descriptor; it
    adds exactly that transfer when the descriptor is not on the remote
    and the step returns *)
Lemma descriptor_step (descriptor_name : string) (content_list : list string)
  (trace : list Local.event) (r : res bool) (trace' : list Local.event) :
  Local.process_bur_descriptors env descriptor_name content_list
    temp_backup_path remote_backup_path trace = (r, trace') ->
  (exists more,
      trace' = trace ++ more
      /\ Forall (fun e => Local.sent_name e
                          = basename (join temp_backup_path descriptor_name))
                more)
  /\ (Local.check_remote_path_exists env trace
        (join remote_backup_path descriptor_name) = false ->
      raised r = false ->
      trace' = trace ++ [Local.descriptor_transfer env descriptor_name
                           temp_backup_path remote_backup_path]).
Proof.
  unfold Local.process_bur_descriptors, Local.create_transfer_pickle_file,
    Local.descriptor_transfer.
  destruct (Local.check_remote_path_exists env trace
              (join remote_backup_path descriptor_name)); cbn [negb].
  - intros H; inversion H; subst. split; [|discriminate].
    exists []. rewrite app_nil_r. split; [reflexivity | constructor].
  - destruct (Local.create_pickle_file env
                (join temp_backup_path descriptor_name)).
    + destruct (Local.transfer_file env
                  (join temp_backup_path descriptor_name)
                  (Local.host env ^^ ":" ^^ remote_backup_path)).
      * destruct (Local.remove_path_ok env
                    (join temp_backup_path descriptor_name)); cbn [negb];
          intros H; inversion H; subst;
          (split;
           [eexists; split;
            [reflexivity | constructor; [reflexivity | constructor]]|]);
          intros _ Hr; [reflexivity | discriminate Hr].
      * intros H; inversion H; subst.
        split; [|intros _ Hr; discriminate Hr].
        eexists; split;
          [reflexivity | constructor; [reflexivity | constructor]].
    + intros H; inversion H; subst.
      split; [|intros _ Hr; discriminate Hr].
      exists []. rewrite app_nil_r. split; [reflexivity | constructor].
Qed.

(** the second half of a run: what the loop over the metadata files sent,
    then what the two descriptor steps sent *)
Lemma process_backup_files_parts (file_path_list volume_path_list : list string)
  (trace : list Local.event) (r : res bool) (trace' : list Local.event) :
  Local.process_backup_files env file_path_list volume_path_list
    temp_backup_path remote_backup_path trace = (r, trace') ->
  exists r1 m d,
    Local.process_backup_metadata_files env file_path_list temp_backup_path
      remote_backup_path trace = (r1, trace ++ m)
    /\ trace' = (trace ++ m) ++ d
    /\ Forall (fun e => Local.sent_name e
                        = Local.BUR_FILE_LIST_DESCRIPTOR_FILE_NAME
                        \/ Local.sent_name e
                           = Local.BUR_VOLUME_LIST_DESCRIPTOR_FILE_NAME) d
    /\ (raised r1 = true -> d = [] /\ raised r = true)
    /\ ((forall tr, Local.check_remote_path_exists env tr
                      (join remote_backup_path
                            Local.BUR_FILE_LIST_DESCRIPTOR_FILE_NAME) = false) ->
        (forall tr, Local.check_remote_path_exists env tr
                      (join remote_backup_path
                            Local.BUR_VOLUME_LIST_DESCRIPTOR_FILE_NAME) = false) ->
        raised r = false ->
        d = [Local.descriptor_transfer env
               Local.BUR_FILE_LIST_DESCRIPTOR_FILE_NAME
               temp_backup_path remote_backup_path;
             Local.descriptor_transfer env
               Local.BUR_VOLUME_LIST_DESCRIPTOR_FILE_NAME
               temp_backup_path remote_backup_path]).
Proof.
  unfold Local.process_backup_files.
  destruct (Local.process_backup_metadata_files env file_path_list
              temp_backup_path remote_backup_path trace)
    as [r1 trace1] eqn:Hmeta.
  destruct (metadata_files_extend _ _ Hmeta) as [m ->].
  destruct r1 as [file_name_list|e].
  2:{ intros H; inversion H; subst. exists (Raise e), m, [].
      rewrite app_nil_r. split; [reflexivity|]. split; [reflexivity|].
      split; [constructor|]. split; [auto | discriminate]. }
  destruct (Local.process_bur_descriptors env
              Local.BUR_FILE_LIST_DESCRIPTOR_FILE_NAME file_name_list
              temp_backup_path remote_backup_path (trace ++ m))
    as [r2 trace2] eqn:Hfile.
  destruct (descriptor_step _ _ _ Hfile) as [(m2 & Hm2 & Hn2) Hsent2].
  rewrite basename_join in Hn2 by reflexivity.
  destruct r2 as [b2|e].
  2:{ intros H; inversion H; subst. exists (Ok file_name_list), m, m2.
      split; [reflexivity|]. split; [reflexivity|].
      split; [eapply Forall_impl; [|exact Hn2]; simpl; auto|].
      split; discriminate. }
  intros Hvol.
  destruct (descriptor_step _ _ _ Hvol) as [(m3 & Hm3 & Hn3) Hsent3].
  rewrite basename_join in Hn3 by reflexivity.
  exists (Ok file_name_list), m, (m2 ++ m3).
  split; [reflexivity|]. split; [rewrite Hm3, Hm2, <- !app_assoc; reflexivity|].
  split.
  { apply Forall_app. split;
      [eapply Forall_impl; [|exact Hn2] | eapply Forall_impl; [|exact Hn3]];
      simpl; auto. }
  split; [discriminate|].
  intros Hf Hv Hr.
  pose proof (Hsent3 (Hv _) Hr) as H3. rewrite Hm3 in H3.
  apply app_inv_head in H3.
  pose proof (Hsent2 (Hf _) eq_refl) as H2. rewrite Hm2 in H2.
  apply app_inv_head in H2. subst m2 m3. reflexivity.
Qed.

End FilePhase.

Section RemoteEntries.
Variable remote_dir : list string.

Lemma remote_after_grows (x : string) (trace more : list Local.event) :
  In x (Local.remote_after remote_dir trace) ->
  In x (Local.remote_after remote_dir (trace ++ more)).
Proof.
  unfold Local.remote_after. rewrite filter_app, map_app. intros H.
  apply in_app_or in H. destruct H as [H|H]; apply in_or_app; [left; exact H|].
  right. apply in_or_app. left. exact H.
Qed.

Lemma volumes_on_remote_grows (volumes : list string)
  (trace more : list Local.event) :
  Local.volumes_on_remote volumes (Local.remote_after remote_dir trace) ->
  Local.volumes_on_remote volumes
    (Local.remote_after remote_dir (trace ++ more)).
Proof. intros H vp Hvp. apply remote_after_grows, H, Hvp. Qed.

(** an archive is neither the success flag nor a descriptor *)
Lemma archive_is_no_flag (e : Local.event) (name : string) :
  Local.sent_name e = name ^^ ".tar" -> ~ Local.writes_flag_or_descriptor e.
Proof.
  intros Hname [F|[F|F]]; rewrite Hname in F;
    apply (f_equal last_char) in F;
    rewrite last_char_append in F by reflexivity;
    vm_compute in F; discriminate.
Qed.

Lemma descriptor_transfer_name (env : Local.upload_env)
  (descriptor_name temp_backup_path remote_backup_path : string) :
  has_slash descriptor_name = false ->
  Local.sent_name (Local.descriptor_transfer env descriptor_name
                     temp_backup_path remote_backup_path)
  = descriptor_name.
Proof. intros H. simpl. apply basename_join. exact H. Qed.

End RemoteEntries.

Section UploadRun.
Variable env : Local.upload_env.
Variables backup_folder_name temp_backup_path remote_backup_path : string.

(** the first half of a run sends archives only *)
Lemma volume_phase_names
  (r : res (list string * list string * Local.handler))
  (vt : list Local.event) :
  Local.process_backup_volumes env backup_folder_name temp_backup_path
    remote_backup_path = (r, vt) ->
  Forall (fun e => exists name, Local.sent_name e = name ^^ ".tar") vt.
Proof.
  unfold Local.process_backup_volumes.
  destruct (BackupHandler.check_local_disk_space_for_upload temp_backup_path
              (Local.free_disk_space env) (Local.size_on_disk env));
    [|intros H; inversion H; subst; constructor].
  unfold Local.validate_already_processed_volumes.
  destruct (Local.folder_file_lists env)
    as [[volume_path_list file_path_list]|e];
    [|intros H; inversion H; subst; constructor].
  destruct volume_path_list as [|v0 vl];
    [intros H; inversion H; subst; constructor|].
  destruct file_path_list as [|f0 fl];
    [intros H; inversion H; subst; constructor|].
  destruct (Local.get_list_processed_vols_names_offsite remote_backup_path
              (Local.offsite_volume_list env)) as [uploaded|e];
    [|intros H; inversion H; subst; constructor].
  set (start := {| Local.volume_path_list_to_process := [];
                   Local.tmp := Local.local_fs env;
                   Local.pools := Local.new_handler |}).
  set (st := fold_left
               (Local.partition_step temp_backup_path remote_backup_path
                                     uploaded) (v0 :: vl) start).
  set (h1 := Local.run_process_pool env temp_backup_path remote_backup_path
               (Local.volume_path_list_to_process st) (Local.pools st)).
  destruct (Local.run_transfer_jobs env
              (Local.schedule env (Local.transfer_pool h1)) h1 [])
    as [h2 trace] eqn:Hjobs.
  destruct (partition_jobs temp_backup_path remote_backup_path uploaded
              (v0 :: vl) start) as [Hpart _].
  fold st in Hpart. specialize (Hpart (Forall_nil _)).
  pose proof (@run_process_pool_jobs env temp_backup_path remote_backup_path
                (Local.volume_path_list_to_process st) (Local.pools st) Hpart)
    as Hpool.
  fold h1 in Hpool.
  assert (Hsched : Forall Local.sends_archive
                     (Local.schedule env (Local.transfer_pool h1))).
  { eapply Permutation_Forall; [|exact Hpool].
    apply Permutation_sym, schedule_runs_every_job. }
  destruct (@run_transfer_jobs_names env _ _ _ _ _ Hjobs Hsched)
    as (more & Htrace & Hmore).
  simpl in Htrace. subst more.
  destruct (Local.check_backup_output_errors h2);
    intros H; inversion H; subst; exact Hmore.
Qed.

(** a run: the trace of its first half, followed by what the second half
    sent: the transfers of the loop over the metadata files, then those of
    the two descriptor steps *)
Lemma process_backup_parts
  (r : res (string * list (string * Local.volume_output)))
  (trace : list Local.event) :
  Local.process_backup env backup_folder_name temp_backup_path
    remote_backup_path = (r, trace) ->
  let rv := fst (Local.process_backup_volumes env backup_folder_name
                   temp_backup_path remote_backup_path) in
  let vt := snd (Local.process_backup_volumes env backup_folder_name
                   temp_backup_path remote_backup_path) in
  (raised rv = true /\ trace = vt)
  \/ exists file_path_list volume_path_list h r1 m d,
       rv = Ok (file_path_list, volume_path_list, h)
       /\ Local.process_backup_metadata_files env file_path_list
            temp_backup_path remote_backup_path vt = (r1, vt ++ m)
       /\ trace = (vt ++ m) ++ d
       /\ Forall (fun e => Local.sent_name e
                           = Local.BUR_FILE_LIST_DESCRIPTOR_FILE_NAME
                           \/ Local.sent_name e
                              = Local.BUR_VOLUME_LIST_DESCRIPTOR_FILE_NAME) d
       /\ (raised r1 = true -> d = [] /\ raised r = true).
Proof.
  unfold Local.process_backup.
  destruct (Local.process_backup_volumes env backup_folder_name
              temp_backup_path remote_backup_path) as [rv vt].
  destruct rv as [[[file_path_list volume_path_list] h]|e]; simpl.
  2:{ intros H; inversion H; subst. left. auto. }
  destruct (Local.process_backup_files env file_path_list volume_path_list
              temp_backup_path remote_backup_path vt) as [rf trace'] eqn:Hfiles.
  destruct (process_backup_files_parts _ _ _ _ _ _ Hfiles)
    as (r1 & m & d & Hmeta & Htrace & Hd & Hr1 & _).
  intros H. right.
  assert (Ht : trace = trace') by (destruct rf; inversion H; reflexivity).
  assert (Hr : raised r = raised rf) by (destruct rf; inversion H; reflexivity).
  exists file_path_list, volume_path_list, h, r1, m, d.
  split; [reflexivity|]. split; [exact Hmeta|].
  split; [now rewrite Ht|]. split; [exact Hd|].
  intros Hraised. destruct (Hr1 Hraised) as [Hd' Hrf].
  split; [exact Hd' | now rewrite Hr].
Qed.

(** a run: the trace of its first half, followed by what the second half
    sent *)
Lemma process_backup_spec
  (r : res (string * list (string * Local.volume_output)))
  (trace : list Local.event) :
  Local.process_backup env backup_folder_name temp_backup_path
    remote_backup_path = (r, trace) ->
  let rv := fst (Local.process_backup_volumes env backup_folder_name
                   temp_backup_path remote_backup_path) in
  let vt := snd (Local.process_backup_volumes env backup_folder_name
                   temp_backup_path remote_backup_path) in
  exists ft,
    trace = vt ++ ft
    /\ (raised rv = true -> ft = [])
    /\ ((forall tr, Local.check_remote_path_exists env tr
                      (join remote_backup_path
                            Local.BUR_FILE_LIST_DESCRIPTOR_FILE_NAME) = false) ->
        (forall tr, Local.check_remote_path_exists env tr
                      (join remote_backup_path
                            Local.BUR_VOLUME_LIST_DESCRIPTOR_FILE_NAME) = false) ->
        raised r = false ->
        exists more,
          ft = more
               ++ [Local.descriptor_transfer env
                     Local.BUR_FILE_LIST_DESCRIPTOR_FILE_NAME
                     temp_backup_path remote_backup_path;
                   Local.descriptor_transfer env
                     Local.BUR_VOLUME_LIST_DESCRIPTOR_FILE_NAME
                     temp_backup_path remote_backup_path]).
Proof.
  unfold Local.process_backup.
  destruct (Local.process_backup_volumes env backup_folder_name
              temp_backup_path remote_backup_path) as [rv vt].
  destruct rv as [[[file_path_list volume_path_list] h]|e]; simpl.
  2:{ intros H; inversion H; subst. exists []. rewrite app_nil_r.
      split; [reflexivity|]. split; [reflexivity | discriminate]. }
  destruct (Local.process_backup_files env file_path_list volume_path_list
              temp_backup_path remote_backup_path vt) as [rf trace'] eqn:Hfiles.
  destruct (process_backup_files_parts _ _ _ _ _ _ Hfiles)
    as (r1 & m & d & _ & Htrace & _ & _ & Hdesc).
  intros H. exists (m ++ d).
  assert (Ht : trace = trace') by (destruct rf; inversion H; reflexivity).
  assert (Hr : raised r = raised rf) by (destruct rf; inversion H; reflexivity).
  subst trace. split; [rewrite Htrace, app_assoc; reflexivity|].
  split; [discriminate|].
  intros Hf Hv Hok. rewrite Hr in Hok.
  exists m. now rewrite (Hdesc Hf Hv Hok).
Qed.

(** whatever writes the success flag or a descriptor comes after the whole
    first half of the run *)
Lemma flag_after_volume_phase
  (r : res (string * list (string * Local.volume_output)))
  (trace pre post : list Local.event) (e : Local.event) :
  Local.process_backup env backup_folder_name temp_backup_path
    remote_backup_path = (r, trace) ->
  trace = pre ++ e :: post ->
  Local.writes_flag_or_descriptor e ->
  exists pre',
    pre = snd (Local.process_backup_volumes env backup_folder_name
                 temp_backup_path remote_backup_path) ++ pre'
    /\ raised (fst (Local.process_backup_volumes env backup_folder_name
                      temp_backup_path remote_backup_path)) = false.
Proof.
  intros Hrun Hsplit Hflag.
  destruct (process_backup_spec Hrun) as (ft & Htrace & Hraised & _).
  destruct (Local.process_backup_volumes env backup_folder_name
              temp_backup_path remote_backup_path) as [rv vt] eqn:Hvol.
  simpl in *.
  pose proof (volume_phase_names Hvol) as Hnames.
  assert (Hnot : ~ In e vt).
  { intros Hin. rewrite Forall_forall in Hnames.
    destruct (Hnames e Hin) as [name Hname].
    exact (@archive_is_no_flag e name Hname Hflag). }
  rewrite Hsplit in Htrace. apply app_eq_app in Htrace.
  destruct Htrace as [l [[Hpre Hft]|[Hvt Hpost]]].
  - exists l. split; [exact Hpre|].
    destruct (raised rv) eqn:Hrv; [|reflexivity].
    rewrite (Hraised eq_refl) in Hft. destruct l; discriminate.
  - destruct l as [|x l].
    + rewrite app_nil_r in Hvt. subst vt. exists [].
      rewrite app_nil_r. split; [reflexivity|].
      destruct (raised rv) eqn:Hrv; [|reflexivity].
      rewrite (Hraised eq_refl) in Hpost. discriminate.
    + inversion Hpost; subst. exfalso. apply Hnot.
      apply in_or_app. right. left. reflexivity.
Qed.

Hypothesis Hworkers : Local.workers_return env.

(** under the contract of the workers, a first half that passes the check
    of the output dictionary has delivered the archive of every volume
    that the remote listing did not report *)
Lemma volume_phase_spec (r : res (list string * list string * Local.handler))
  (vt : list Local.event) :
  Local.process_backup_volumes env backup_folder_name temp_backup_path
    remote_backup_path = (r, vt) ->
  forall files volumes h,
    r = Ok (files, volumes, h) ->
    Local.folder_file_lists env = Ok (volumes, files)
    /\ (Local.listing_is_sound env remote_backup_path ->
        Local.volumes_on_remote volumes
          (Local.remote_after (Local.remote_dir env) vt)).
Proof.
  unfold Local.process_backup_volumes.
  destruct (BackupHandler.check_local_disk_space_for_upload temp_backup_path
              (Local.free_disk_space env) (Local.size_on_disk env));
    [|intros H; inversion H; subst; discriminate].
  unfold Local.validate_already_processed_volumes.
  destruct (Local.folder_file_lists env) as [[volume_path_list file_path_list]|e]
    eqn:Hlists;
    [|intros H; inversion H; subst; discriminate].
  destruct volume_path_list as [|v0 vl];
    [intros H; inversion H; subst; discriminate|].
  destruct file_path_list as [|f0 fl];
    [intros H; inversion H; subst; discriminate|].
  destruct (Local.get_list_processed_vols_names_offsite remote_backup_path
              (Local.offsite_volume_list env)) as [uploaded|e] eqn:Huploaded;
    [|intros H; inversion H; subst; discriminate].
  set (start := {| Local.volume_path_list_to_process := [];
                   Local.tmp := Local.local_fs env;
                   Local.pools := Local.new_handler |}).
  set (st := fold_left
               (Local.partition_step temp_backup_path remote_backup_path
                                     uploaded) (v0 :: vl) start).
  set (h1 := Local.run_process_pool env temp_backup_path remote_backup_path
               (Local.volume_path_list_to_process st) (Local.pools st)).
  destruct (Local.run_transfer_jobs env
              (Local.schedule env (Local.transfer_pool h1)) h1 [])
    as [h2 trace] eqn:Hjobs.
  destruct (partition_jobs temp_backup_path remote_backup_path uploaded
              (v0 :: vl) start) as [Hpart Hdict].
  fold st in Hpart, Hdict. specialize (Hpart (Forall_nil _)).
  destruct (run_process_pool_spec temp_backup_path remote_backup_path
              Hworkers (Local.volume_path_list_to_process st) (Local.pools st))
    as (P1 & P2 & P3 & P4 & P5).
  fold h1 in P1, P2, P3, P4, P5. specialize (P1 Hpart).
  assert (Hfalse : forall k v, In (k, v) (Local.backup_output_dict h1) ->
                               Local.vo_status v = false).
  { apply P3. rewrite Hdict. simpl. intros k v []. }
  assert (Hsched : Forall Local.sends_archive
                     (Local.schedule env (Local.transfer_pool h1))).
  { eapply Permutation_Forall; [|exact P1].
    apply Permutation_sym, schedule_runs_every_job. }
  destruct (@run_transfer_jobs_spec env Hworkers _ _ _ _ _ Hjobs Hsched)
    as (_ & T2 & T3 & T4).
  destruct (Local.check_backup_output_errors h2) as [ok|e] eqn:Hcheck;
    intros H; inversion H; subst; [|discriminate].
  intros files volumes h E. inversion E; subst. split; [reflexivity|].
  intros Hlisting volume_path Hin.
  assert (Hkey : Local.str_in (basename volume_path) uploaded = true
                 \/ exists v, In (basename volume_path, v)
                                 (Local.backup_output_dict h)).
  { assert (Hjob : forall job, In job (Local.transfer_pool h1) ->
                     exists v, In (Local.task_volume_name job, v)
                                  (Local.backup_output_dict h)).
    { intros job Hjob. apply T4.
      eapply Permutation_in;
        [apply Permutation_sym, schedule_runs_every_job | exact Hjob]. }
    destruct (partition_covers temp_backup_path remote_backup_path uploaded
                (v0 :: vl) start volume_path Hin)
      as [Hup|[(job & Hjob' & Hn)|Hproc]].
    - left. exact Hup.
    - right. rewrite <- Hn. apply Hjob, P2, Hjob'.
    - right. destruct (P5 _ Hproc) as [(job & Hjob' & Hn)|Hk].
      + rewrite <- Hn. apply Hjob, Hjob'.
      + apply T3, Hk. }
  destruct Hkey as [Hup|[v Hv]].
  - unfold Local.remote_after. apply in_or_app. left.
    eapply Hlisting; eauto.
  - pose proof (check_passed _ Hcheck _ _ Hv) as Hs.
    destruct (T2 (fun k v Hkv Hst =>
                    False_ind _ (eq_true_false_abs _ Hst (Hfalse k v Hkv)))
                 _ _ Hv Hs) as (e & He & Hd & Hn).
    unfold Local.remote_after. apply in_or_app. right.
    apply in_map_iff. exists e. split; [exact Hn|].
    apply filter_In. split; assumption.
Qed.

End UploadRun.

(** the transfers of the run of scenario 2, in order *)
Example resume_run_trace :
  snd (Local.process_backup resume_env "2018-12-04" temp_backup backup_dir)
  = resume_archives ++ resume_flag :: resume_after_flag.
Proof. vm_compute. reflexivity. Qed.

Section ResumeScenario.

Lemma resume_env_workers_return : Local.workers_return resume_env.
Proof. split; intros; reflexivity. Qed.

Lemma resume_env_listing_is_sound :
  Local.listing_is_sound resume_env backup_dir.
Proof.
  intros uploaded volumes files volume_path Hup Hlists Hin Hstr.
  vm_compute in Hup. inversion Hup; subst uploaded.
  unfold resume_env in Hlists. simpl in Hlists.
  inversion Hlists; subst volumes files.
  destruct Hin as [<-|[<-|[<-|[<-|[]]]]]; vm_compute in Hstr;
    try discriminate Hstr.
  vm_compute. left. reflexivity.
Qed.

End ResumeScenario.

Section ListFacts.
Variable A : Type.

(** an element that is neither of the last two of a list has them after it *)
Lemma before_the_last_two (d1 d2 e : A) (pre post : list A) :
  e <> d1 -> e <> d2 ->
  forall l, l ++ [d1; d2] = pre ++ e :: post ->
            exists mid, post = mid ++ [d1; d2].
Proof.
  intros H1 H2. induction pre as [|p pre IH]; intros l Heq.
  - destruct l as [|x l]; simpl in Heq; inversion Heq; subst.
    + contradiction H1; reflexivity.
    + exists l. reflexivity.
  - destruct l as [|x l]; simpl in Heq; inversion Heq; subst.
    + destruct pre as [|y pre]; simpl in *.
      * match goal with E : [d2] = _ |- _ => inversion E; subst end.
        contradiction H2; reflexivity.
      * match goal with E : [d2] = _ |- _ => inversion E end.
        destruct pre; discriminate.
    + eapply IH. eassumption.
Qed.

End ListFacts.

(** the transfers of the run of scenario 2 when [volume3] cannot be read *)
Example unreadable_volume_run :
  Local.process_backup unreadable_volume_env "2018-12-04" temp_backup
    backup_dir
  = (Ok ("CUSTOMER_0_2018-12-04",
         [("volume2",
           {| Local.vo_volume_path := join temp_backup "volume2.tar";
              Local.vo_output := EmptyString;
              Local.vo_status := true;
              Local.vo_rsync_output := Some sample_rsync_output |});
          ("volume1",
           {| Local.vo_volume_path := join temp_backup "volume1.tar";
              Local.vo_output := EmptyString;
              Local.vo_status := true;
              Local.vo_rsync_output := Some sample_rsync_output |})]),
     [Local.Transfer (join temp_backup "volume2.tar") offsite_target true;
      Local.Transfer (join temp_backup "volume1.tar") offsite_target true]
     ++ resume_flag :: resume_after_flag).
Proof. vm_compute. reflexivity. Qed.

(** C1, at the failing input.  The backup of scenario 2 with a volume,
    [volume3], that the worker cannot read: [os.listdir] raises [OSError]
    inside [compress_encrypt_file_list].  The exception is no
    [BurException], so it leaves [process_volume]; the process pool keeps
    it to itself and calls no callback, and the output dictionary never
    hears of [volume3].  The check of the output dictionary passes, the
    run reaches the metadata-file step and returns: [BACKUP_OK] and both
    descriptors are transferred, and afterwards the remote backup
    directory holds [BACKUP_OK] but not [volume3.tar]. *)
Theorem success_flag_without_a_volume :
  let run :=
    Local.process_backup unreadable_volume_env "2018-12-04" temp_backup
      backup_dir in
  let first_half :=
    Local.process_backup_volumes unreadable_volume_env "2018-12-04"
      temp_backup backup_dir in
  let remote :=
    Local.remote_after (Local.remote_dir unreadable_volume_env) (snd run) in
  (* volume3 is a volume of the backup, and its worker raises *)
  Local.folder_file_lists unreadable_volume_env
  = Ok (resume_volumes,
        [join local_backup "BACKUP_OK"; join local_backup "backup.metadata"])
  /\ In (join local_backup "volume3") resume_volumes
  /\ Local.process_volume unreadable_volume_env (join local_backup "volume3")
       (join temp_backup "volume3")
     = Raise (OtherError "OSError")
  (* the run reaches the metadata-file step and returns *)
  /\ raised (fst first_half) = false
  /\ raised (fst run) = false
  (* what reached the remote, in order *)
  /\ map Local.sent_name (filter Local.delivered (snd run))
     = ["volume2.tar"; "volume1.tar"; "BACKUP_OK";
        "backup.metadata.gz.gpg.tar"; "bur_file_list_descriptor.dat";
        "bur_volume_list_descriptor.dat"]
  (* the success flag is there, the archive of volume3 is not *)
  /\ In Local.SUCCESS_FLAG_FILE remote
  /\ ~ In "volume3.tar" remote
  /\ ~ Local.volumes_on_remote resume_volumes
         (Local.remote_after (Local.remote_dir unreadable_volume_env)
            (snd first_half))
  /\ ~ Local.flag_implies_volumes resume_volumes remote.
Proof.
  assert (Hmissing :
            ~ In "volume3.tar"
                (Local.remote_after (Local.remote_dir unreadable_volume_env)
                   (snd (Local.process_backup unreadable_volume_env
                           "2018-12-04" temp_backup backup_dir)))).
  { vm_compute. intros H.
    repeat (destruct H as [H|H]; [discriminate H|]). exact H. }
  assert (Hflag :
            In Local.SUCCESS_FLAG_FILE
               (Local.remote_after (Local.remote_dir unreadable_volume_env)
                  (snd (Local.process_backup unreadable_volume_env
                          "2018-12-04" temp_backup backup_dir)))).
  { vm_compute. tauto. }
  assert (Hvolume : In (join local_backup "volume3") resume_volumes).
  { vm_compute. tauto. }
  cbv zeta.
  split; [reflexivity|]. split; [exact Hvolume|].
  split; [vm_compute; reflexivity|]. split; [vm_compute; reflexivity|].
  split; [vm_compute; reflexivity|]. split; [vm_compute; reflexivity|].
  split; [exact Hflag|]. split; [exact Hmissing|]. split.
  - intros Hall. specialize (Hall _ Hvolume). vm_compute in Hall.
    repeat (destruct Hall as [Hall|Hall]; [discriminate Hall|]). exact Hall.
  - intros Himp. apply Hmissing.
    exact (Himp Hflag _ Hvolume).
Qed.



(** C3, as the specification has it, fails on the run of scenario 2: the
    archive of the backup metadata and the two descriptors are transferred
    after [BACKUP_OK]. *)
Lemma success_flag_is_not_written_last :
  ~ Local.success_flag_written_last
      (snd (Local.process_backup resume_env "2018-12-04" temp_backup
              backup_dir))
  /\ map Local.sent_name
       (filter Local.delivered
          (snd (Local.process_backup resume_env "2018-12-04" temp_backup
                  backup_dir)))
     = ["volume3.tar"; "volume2.tar"; "volume1.tar"; "BACKUP_OK";
        "backup.metadata.gz.gpg.tar"; "bur_file_list_descriptor.dat";
        "bur_volume_list_descriptor.dat"].
Proof.
  split; [|vm_compute; reflexivity].
  intros Hlast.
  assert (E : resume_after_flag = []).
  { apply (Hlast resume_archives resume_flag resume_after_flag).
    - vm_compute. reflexivity.
    - vm_compute. reflexivity. }
  discriminate E.
Qed.

(** C3, amended.  Any run of [process_backup] and any transfer [e] of a
    file called [BACKUP_OK] in it, [pre] being the transfers made before
    [e] and [post] those made after.  (1) Every transfer of the first half
    of the run, which is where the volume archives are sent, is in [pre]:
    no volume archive is transferred after [BACKUP_OK].  (2) [e] is made by
    the loop over the metadata files for a file [flag_path] of the backup
    folder whose name is [BACKUP_OK], and it sends that file as it is; the
    files listed before it have been handled when [e] is made; when [e]
    returns, the files listed after [flag_path] are handled after it, and
    what they transfer follows [e] in the trace; when [e] raises, nothing
    more is transferred and the run raises.  (3) [BACKUP_OK] is not the
    last file written: when the run returns and neither descriptor was on
    the remote, the transfers made after [e] end with the file-list
    descriptor and the volume-list descriptor, in this order. *)
Theorem success_flag_precedes_descriptors
  (env : Local.upload_env)
  (backup_folder_name temp_backup_path remote_backup_path : string)
  (r : res (string * list (string * Local.volume_output)))
  (trace pre post : list Local.event) (e : Local.event) :
  Local.process_backup env backup_folder_name temp_backup_path
    remote_backup_path = (r, trace) ->
  trace = pre ++ e :: post ->
  Local.sent_name e = Local.SUCCESS_FLAG_FILE ->
  let first_half :=
    Local.process_backup_volumes env backup_folder_name temp_backup_path
      remote_backup_path in
  (exists pre', pre = snd first_half ++ pre')
  /\ (exists file_path_list volume_path_list h before flag_path after names,
        fst first_half = Ok (file_path_list, volume_path_list, h)
        /\ file_path_list = before ++ flag_path :: after
        /\ basename flag_path = Local.SUCCESS_FLAG_FILE
        /\ e = Local.Transfer flag_path
                 (Local.host env ^^ ":" ^^ remote_backup_path)
                 (Local.delivered e)
        /\ Local.process_backup_metadata_files env before temp_backup_path
             remote_backup_path (snd first_half) = (Ok names, pre)
        /\ (Local.delivered e = true ->
            exists more rest,
              snd (Local.process_backup_metadata_files env after
                     temp_backup_path remote_backup_path (pre ++ [e]))
              = (pre ++ [e]) ++ more
              /\ post = more ++ rest
              /\ Forall (fun d =>
                           Local.sent_name d
                           = Local.BUR_FILE_LIST_DESCRIPTOR_FILE_NAME
                           \/ Local.sent_name d
                              = Local.BUR_VOLUME_LIST_DESCRIPTOR_FILE_NAME)
                        rest)
        /\ (Local.delivered e = false -> post = [] /\ raised r = true))
  /\ ((forall tr, Local.check_remote_path_exists env tr
                    (join remote_backup_path
                          Local.BUR_FILE_LIST_DESCRIPTOR_FILE_NAME) = false) ->
      (forall tr, Local.check_remote_path_exists env tr
                    (join remote_backup_path
                          Local.BUR_VOLUME_LIST_DESCRIPTOR_FILE_NAME) = false) ->
      raised r = false ->
      (exists mid,
          post = mid
                 ++ [Local.descriptor_transfer env
                       Local.BUR_FILE_LIST_DESCRIPTOR_FILE_NAME
                       temp_backup_path remote_backup_path;
                     Local.descriptor_transfer env
                       Local.BUR_VOLUME_LIST_DESCRIPTOR_FILE_NAME
                       temp_backup_path remote_backup_path])
      /\ ~ Local.success_flag_written_last trace).
Proof.
  intros Hrun Hsplit Hname first_half.
  destruct (@flag_after_volume_phase env backup_folder_name
              temp_backup_path remote_backup_path
              r trace pre post e Hrun Hsplit (or_introl Hname))
    as (pre' & Hpre & Hok).
  fold first_half in Hpre, Hok.
  split; [exists pre'; exact Hpre|]. split.
  - destruct (@process_backup_parts env backup_folder_name temp_backup_path
                remote_backup_path r trace Hrun)
      as [[Hraised _]|(files & volumes & h & r1 & m & d & Hrv & Hmeta
                       & Htrace & Hd & Hr1)].
    { fold first_half in Hraised. rewrite Hok in Hraised.
      discriminate Hraised. }
    fold first_half in Hrv, Hmeta, Htrace.
    assert (Hmd : m ++ d = pre' ++ e :: post).
    { rewrite Hsplit, Hpre, <- !app_assoc in Htrace.
      apply app_inv_head in Htrace. symmetry. exact Htrace. }
    assert (Hnot : ~ In e d).
    { intros Hin. rewrite Forall_forall in Hd.
      destruct (Hd e Hin) as [F|F]; rewrite Hname in F; discriminate F. }
    assert (Hm : exists m2, m = pre' ++ e :: m2 /\ post = m2 ++ d).
    { apply app_eq_app in Hmd. destruct Hmd as [l [[Hm Hp]|[Hp Hd']]].
      - destruct l as [|x l].
        + exfalso. apply Hnot. simpl in Hp. rewrite <- Hp. left. reflexivity.
        + inversion Hp; subst. exists l. split; reflexivity.
      - exfalso. apply Hnot. rewrite Hd'. apply in_or_app. right.
        left. reflexivity. }
    destruct Hm as (m2 & Hm & Hpost).
    rewrite Hm in Hmeta.
    destruct (@metadata_event_origin env temp_backup_path remote_backup_path
                files (snd first_half) r1 _ pre' e m2 Hmeta eq_refl)
      as (before & fp & after & names & sent & Hfiles & Hb & Hf & He & Hdel
          & Hfail).
    assert (Hsent : basename sent = Local.SUCCESS_FLAG_FILE).
    { rewrite He in Hname. exact Hname. }
    destruct (flag_file_to_transfer _ _ _ Hf Hsent) as [Hfp ->].
    exists files, volumes, h, before, fp, after, names.
    split; [exact Hrv|]. split; [exact Hfiles|]. split; [exact Hfp|].
    split; [exact He|]. split; [rewrite Hpre; exact Hb|]. split.
    + intros Hd'. exists m2, d. split; [|split; [exact Hpost | exact Hd]].
      rewrite Hpre, <- !app_assoc. simpl. exact (Hdel Hd').
    + intros Hd'. destruct (Hfail Hd') as [-> Hraised].
      destruct (Hr1 Hraised) as [-> Hr]. rewrite Hpost. auto.
  - intros Hf Hv Hrok.
    destruct (@process_backup_spec env backup_folder_name temp_backup_path
                remote_backup_path r trace Hrun)
      as (ft & Htrace & _ & Hdesc).
    destruct (Hdesc Hf Hv Hrok) as [more Hmore].
    assert (Hmid : exists mid,
               post = mid
                      ++ [Local.descriptor_transfer env
                            Local.BUR_FILE_LIST_DESCRIPTOR_FILE_NAME
                            temp_backup_path remote_backup_path;
                          Local.descriptor_transfer env
                            Local.BUR_VOLUME_LIST_DESCRIPTOR_FILE_NAME
                            temp_backup_path remote_backup_path]).
    { rewrite Hmore, app_assoc, Hsplit in Htrace. symmetry in Htrace.
      eapply before_the_last_two; [| |exact Htrace].
      - intros ->.
        rewrite descriptor_transfer_name in Hname by reflexivity.
        discriminate Hname.
      - intros ->.
        rewrite descriptor_transfer_name in Hname by reflexivity.
        discriminate Hname. }
    split; [exact Hmid|].
    intros Hlast. destruct Hmid as [mid Hmid].
    rewrite (Hlast pre e post Hsplit Hname) in Hmid.
    destruct mid; discriminate Hmid.
Qed.

Lemma success_flag_precedes_descriptors_witness :
  (exists pre',
      resume_archives
      = snd (Local.process_backup_volumes resume_env "2018-12-04" temp_backup
               backup_dir) ++ pre')
  /\ exists mid,
       resume_after_flag
       = mid
         ++ [Local.descriptor_transfer resume_env
               Local.BUR_FILE_LIST_DESCRIPTOR_FILE_NAME temp_backup backup_dir;
             Local.descriptor_transfer resume_env
               Local.BUR_VOLUME_LIST_DESCRIPTOR_FILE_NAME temp_backup
               backup_dir].
Proof.
  destruct (@success_flag_precedes_descriptors resume_env "2018-12-04"
              temp_backup backup_dir
              (fst (Local.process_backup resume_env "2018-12-04"
                      temp_backup backup_dir))
              (snd (Local.process_backup resume_env "2018-12-04"
                      temp_backup backup_dir))
              resume_archives resume_after_flag resume_flag
              (surjective_pairing _)) as (Ha & Hb & Hc).
  - vm_compute. reflexivity.
  - vm_compute. reflexivity.
  - split; [exact Ha|].
    destruct Hc as [Hmid _].
    + intros tr. reflexivity.
    + intros tr. reflexivity.
    + vm_compute. reflexivity.
    + exact Hmid.
Defined.


(* ================================================================== *)
(** * Splitting at a character *)
(* ================================================================== *)

Import Cases.

Section SplitChar.
Variable c : ascii.

Lemma prefix_char (a : ascii) (s : string) :
  prefix (String c EmptyString) (String a s) = Ascii.eqb a c.
Proof.
  simpl. destruct (ascii_dec c a) as [->|Hne].
  - rewrite Ascii.eqb_refl. destruct s; reflexivity.
  - symmetry. apply Ascii.eqb_neq. congruence.
Qed.

(** a text without the separator is one piece *)
Lemma split_go_no_sep (s : string) :
  forall cur,
    FsysLists.has_char c s = false ->
    split_go (String c EmptyString) 0 cur s = [cur ^^ s].
Proof.
  induction s as [|a s IH]; intros cur H.
  - simpl. now rewrite append_empty_r.
  - cbn [split_go]. rewrite prefix_char.
    simpl in H. apply orb_false_elim in H. destruct H as [Ha Hs].
    rewrite Ha, (IH _ Hs), append_assoc. reflexivity.
Qed.

(** the first piece ends at the first separator *)
Lemma split_go_at_sep (a b : string) :
  forall cur,
    FsysLists.has_char c a = false ->
    split_go (String c EmptyString) 0 cur (a ^^ String c b)
    = (cur ^^ a) :: split_go (String c EmptyString) 0 EmptyString b.
Proof.
  induction a as [|x a IH]; intros cur H.
  - cbn [append split_go]. rewrite prefix_char, Ascii.eqb_refl.
    now rewrite append_empty_r.
  - cbn [append split_go]. rewrite prefix_char.
    simpl in H. apply orb_false_elim in H. destruct H as [Hx Ha].
    rewrite Hx, (IH _ Ha), append_assoc. reflexivity.
Qed.

(** a text that ends in the separator has an empty last piece *)
Lemma split_go_sep_last (s : string) :
  forall cur,
    split_go (String c EmptyString) 0 cur (s ^^ String c EmptyString)
    = split_go (String c EmptyString) 0 cur s ++ [EmptyString].
Proof.
  induction s as [|a s IH]; intros cur.
  - cbn [append split_go]. rewrite prefix_char, Ascii.eqb_refl. reflexivity.
  - cbn [append split_go]. rewrite !prefix_char.
    destruct (Ascii.eqb a c).
    + cbn [String.length Nat.sub]. rewrite IH. reflexivity.
    + apply IH.
Qed.

Lemma split_char_at_sep (a b : string) :
  FsysLists.has_char c a = false ->
  split (String c EmptyString) (a ^^ String c b)
  = a :: split (String c EmptyString) b.
Proof. intros H. unfold split. now rewrite split_go_at_sep. Qed.

Lemma split_char_no_sep (s : string) :
  FsysLists.has_char c s = false -> split (String c EmptyString) s = [s].
Proof. intros H. unfold split. now rewrite split_go_no_sep. Qed.

Lemma has_char_append (a b : string) :
  FsysLists.has_char c (a ^^ b)
  = FsysLists.has_char c a || FsysLists.has_char c b.
Proof.
  induction a as [|x a IH]; simpl; [reflexivity|].
  rewrite IH. apply orb_assoc.
Qed.

End SplitChar.

Section StripFacts.

Lemma lstrip_length (s : string) : String.length (lstrip s) <= String.length s.
Proof.
  induction s as [|a s IH]; simpl; [lia|].
  destruct (is_space a); simpl; lia.
Qed.

Lemma rstrip_length (s : string) : String.length (rstrip s) <= String.length s.
Proof.
  induction s as [|a s IH]; simpl; [lia|].
  destruct (rstrip s); [destruct (is_space a)|]; simpl in *; lia.
Qed.

(** a stripped string does not begin with white space *)
Lemma strip_fixed_head (a : ascii) (s : string) :
  strip (String a s) = String a s -> is_space a = false.
Proof.
  unfold strip. simpl. destruct (is_space a); [|reflexivity].
  intros H. exfalso.
  pose proof (rstrip_length (lstrip s)) as H1.
  pose proof (lstrip_length s) as H2.
  rewrite H in H1. simpl in H1. lia.
Qed.

Lemma rstrip_ends_nonspace (s : string) (a : ascii) :
  is_space a = false ->
  rstrip (s ^^ String a EmptyString) = s ^^ String a EmptyString.
Proof.
  intros Ha. induction s as [|x s IH]; simpl.
  - now rewrite Ha.
  - rewrite IH. destruct s; reflexivity.
Qed.

(** a stripped string followed by a character that is no white space is
    stripped *)
Lemma strip_snoc (s : string) (a : ascii) :
  strip s = s -> is_space a = false ->
  strip (s ^^ String a EmptyString) = s ^^ String a EmptyString.
Proof.
  intros Hs Ha. unfold strip. destruct s as [|x s].
  - simpl. rewrite Ha. simpl. now rewrite Ha.
  - pose proof (strip_fixed_head Hs) as Hx.
    assert (Hl : lstrip (String x s ^^ String a EmptyString)
                 = String x s ^^ String a EmptyString)
      by (simpl; now rewrite Hx).
    rewrite Hl. now apply rstrip_ends_nonspace.
Qed.

Lemma drop_last_snoc (s : string) (a : ascii) :
  FsysLists.drop_last (s ^^ String a EmptyString) = s.
Proof.
  induction s as [|x s IH]; simpl; [reflexivity|].
  rewrite IH. destruct s; reflexivity.
Qed.

Lemma blank_head (a : ascii) (s : string) :
  is_space a = false -> blank (String a s) = false.
Proof. intros H. simpl. now rewrite H. Qed.

End StripFacts.

(* ================================================================== *)
(** * utils/fsys.py: [split_folder_list] *)
(* ================================================================== *)

Section FolderList.

Lemma tidy_spec (d : string) :
  FsysLists.tidy d = true ->
  FsysLists.has_char "010"%char d = false /\ strip d = d.
Proof.
  unfold FsysLists.tidy. intros H. apply andb_prop in H.
  destruct H as [Hn Hs]. apply negb_true_iff in Hn.
  apply String.eqb_eq in Hs. split; assumption.
Qed.

Lemma snoc_not_dot (d : string) : String.eqb (d ^^ "/") "." = false.
Proof.
  destruct d as [|a d]; [reflexivity|]. simpl.
  destruct (Ascii.eqb a "."%char); [|reflexivity].
  destruct d; reflexivity.
Qed.

Lemma snoc_truthy (d : string) (a : ascii) :
  truthy (d ^^ String a EmptyString) = true.
Proof. destruct d; reflexivity. Qed.

(** a line [d/] gives the entry [d] *)
Lemma split_folder_lines_step (d : string) (lines : list string) :
  FsysLists.tidy d = true ->
  FsysLists.split_folder_lines ((d ^^ "/") :: lines)
  = d :: FsysLists.split_folder_lines lines.
Proof.
  intros Ht. destruct (tidy_spec _ Ht) as [_ Hs].
  cbn [FsysLists.split_folder_lines].
  rewrite strip_snoc by first [exact Hs | reflexivity].
  rewrite snoc_truthy, snoc_not_dot. cbn [negb orb].
  rewrite last_char_append by reflexivity. cbn [last_char].
  replace (is_slash "/"%char) with true by reflexivity.
  now rewrite drop_last_snoc.
Qed.

Lemma ls_output_cons (d : string) (dirs : list string) :
  FsysLists.ls_output (d :: dirs)
  = (d ^^ "/") ^^ String "010"%char (FsysLists.ls_output dirs).
Proof. simpl. now rewrite append_assoc. Qed.

Lemma split_folder_list_blank_line (s : string) :
  FsysLists.split_folder_list (nl ^^ s) = FsysLists.split_folder_list s.
Proof.
  unfold FsysLists.split_folder_list.
  change (nl ^^ s) with (EmptyString ^^ String "010"%char s).
  unfold nl. rewrite split_char_at_sep by reflexivity. reflexivity.
Qed.

End FolderList.

(** X1.  [split_folder_list] reads back what [ls -d] printed.  For paths
    that hold no line feed and have no white space around them, the
    listing that shows each path with a slash after it on a line of its
    own gives back exactly the paths, in order; an empty line before the
    listing (as after an [END-OF-COMMAND] marker) changes nothing. *)
Theorem split_folder_list_reads_ls_output (dirs : list string) :
  Forall (fun d => FsysLists.tidy d = true) dirs ->
  FsysLists.split_folder_list (FsysLists.ls_output dirs) = dirs
  /\ FsysLists.split_folder_list (nl ^^ FsysLists.ls_output dirs) = dirs.
Proof.
  intros Hall.
  assert (H : FsysLists.split_folder_list (FsysLists.ls_output dirs) = dirs).
  { induction Hall as [|d dirs Hd Hall IH]; [reflexivity|].
    rewrite ls_output_cons. unfold FsysLists.split_folder_list, nl.
    destruct (tidy_spec _ Hd) as [Hn _].
    rewrite split_char_at_sep
      by (rewrite has_char_append, Hn; reflexivity).
    rewrite split_folder_lines_step by exact Hd. f_equal. exact IH. }
  split; [exact H|]. rewrite split_folder_list_blank_line. exact H.
Qed.

Lemma split_folder_list_reads_ls_output_witness :
  FsysLists.split_folder_list
    (FsysLists.ls_output [backup_of_day "7"; backup_of_day "5"])
  = [backup_of_day "7"; backup_of_day "5"]
  /\ FsysLists.split_folder_list
       (nl ^^ FsysLists.ls_output [backup_of_day "7"; backup_of_day "5"])
     = [backup_of_day "7"; backup_of_day "5"].
Proof.
  apply (@split_folder_list_reads_ls_output
            [backup_of_day "7"; backup_of_day "5"]).
  repeat constructor.
Defined.

(** the root directory and a path given with two slashes: one slash is cut
    off, whatever is left *)
Example split_folder_list_edge :
  FsysLists.split_folder_list ("/" ^^ nl ^^ "." ^^ nl ^^ " a// " ^^ nl)
  = [EmptyString; "a/"].
Proof. reflexivity. Qed.

(* ================================================================== *)
(** * utils/remote.py: directories and listings on the remote side *)
(* ================================================================== *)

Section RemoteDirsFacts.
Variable R : Type.
Variable communicate : R -> string -> string -> Remote.ssh_reply * R.

(** what the caller sees of the reply to a command that was run *)
Let seen (w : Remote.net R) (host command : string) : string * string :=
  let r := fst (communicate (Remote.peer w) host command) in
  (Remote.reply_stdout r,
   if Remote.timer_fired r then "Command '" ^^ command ^^ "' timeout."
   else Remote.reply_stderr r).

Let after (w : Remote.net R) (host command : string) : Remote.net R :=
  {| Remote.peer := snd (communicate (Remote.peer w) host command);
     Remote.spawned := Remote.spawned w ++ [(host, command)] |}.

Lemma run_ssh_command_spawns (host command : string) (w : Remote.net R) :
  blank host = false -> blank command = false ->
  Remote.run_ssh_command communicate host command w
  = (seen w host command, after w host command).
Proof.
  intros Hh Hc. unfold Remote.run_ssh_command, seen, after.
  rewrite !strip_truthy_blank, Hh, Hc. simpl.
  destruct (communicate (Remote.peer w) host command). reflexivity.
Qed.

Lemma run_ssh_command_skips (host command : string) (w : Remote.net R) :
  blank host = true \/ blank command = true ->
  Remote.run_ssh_command communicate host command w
  = ((EmptyString, EmptyString), w).
Proof.
  intros H. unfold Remote.run_ssh_command.
  rewrite !strip_truthy_blank.
  destruct H as [H|H]; rewrite H; simpl; [|rewrite orb_true_r]; reflexivity.
Qed.

Lemma check_remote_path_exists_true (host path : string) (w : Remote.net R) :
  fst (Remote.check_remote_path_exists communicate host path w) = true ->
  blank host = false /\ blank path = false.
Proof.
  unfold Remote.check_remote_path_exists.
  rewrite !strip_truthy_blank, !negb_involutive.
  destruct (blank host); [discriminate|].
  destruct (blank path); [discriminate|]. auto.
Qed.

Lemma validate_removed_dirs_spec (host : string) (dirs : list string) :
  forall w,
    let lists := fst (RemoteDirs.validate_removed_dirs communicate host dirs w) in
    Permutation (fst lists ++ snd lists) dirs
    /\ Forall (fun p => blank p = false) (fst lists)
    /\ (fst lists = [] -> snd lists = dirs).
Proof.
  induction dirs as [|p dirs IH]; intros w; simpl.
  - repeat split; auto.
  - destruct (Remote.check_remote_path_exists communicate host p w)
      as [still_there w1] eqn:Hcheck.
    specialize (IH w1).
    destruct (RemoteDirs.validate_removed_dirs communicate host dirs w1)
      as [[nr vr] w2].
    simpl in IH. destruct IH as (Hperm & Hnb & Hall).
    destruct still_there; simpl.
    + split; [constructor; exact Hperm|]. split; [|discriminate].
      constructor; [|exact Hnb].
      apply (check_remote_path_exists_true host p w). now rewrite Hcheck.
    + split; [|split; [exact Hnb|]].
      * apply Permutation_sym, Permutation_cons_app, Permutation_sym, Hperm.
      * intros Hnil. now rewrite (Hall Hnil).
Qed.

Lemma remove_dir_cmd_acc (dirs : list string) :
  forall acc,
    fold_left (fun cmd folder_path =>
                 cmd ^^ "rm -rf " ^^ strip folder_path ^^ nl) dirs acc
    = acc ^^ RemoteDirs.remove_dir_cmd dirs.
Proof.
  unfold RemoteDirs.remove_dir_cmd.
  induction dirs as [|d dirs IH]; intros acc; cbn [fold_left].
  - now rewrite append_empty_r.
  - rewrite (IH (acc ^^ _)), (IH (EmptyString ^^ _)), append_assoc.
    reflexivity.
Qed.

(** the removal command of a list that is not empty is not blank *)
Lemma remove_dir_cmd_not_blank (d : string) (dirs : list string) :
  blank (RemoteDirs.remove_dir_cmd (d :: dirs)) = false.
Proof.
  unfold RemoteDirs.remove_dir_cmd. cbn [fold_left].
  rewrite remove_dir_cmd_acc. reflexivity.
Qed.

End RemoteDirsFacts.

(** X2.  [validate_removed_dir_list] sorts every path it is given into
    exactly one of its two lists: the list of paths not removed followed by
    the list of paths validated as removed is a rearrangement of the input
    (no path is lost, none is invented).  A path reported as not removed is
    never blank, and when nothing is reported as not removed the validated
    list is the input itself.  Without a list ([None]) both lists are
    empty and nothing is asked of the remote side. *)
Theorem validate_removed_dir_list_partitions
  (R : Type) (communicate : R -> string -> string -> Remote.ssh_reply * R)
  (host : string) (dirs : list string) (w : Remote.net R) :
  let lists :=
    fst (RemoteDirs.validate_removed_dir_list communicate host (Some dirs) w) in
  Permutation (fst lists ++ snd lists) dirs
  /\ Forall (fun p => blank p = false) (fst lists)
  /\ (fst lists = [] -> snd lists = dirs)
  /\ RemoteDirs.validate_removed_dir_list communicate host None w
     = (([], []), w).
Proof.
  destruct (validate_removed_dirs_spec communicate host dirs w)
    as (H1 & H2 & H3).
  unfold RemoteDirs.validate_removed_dir_list. simpl.
  repeat split; assumption.
Qed.

(** X3.  [remove_remote_dir]: with a blank host, or with no directory
    ([None], an empty list, a blank string), it raises [EmptyValue] and
    nothing is run on the remote side.  When it raises [CannotRemovePath]
    the removal command is the only command that was run: nothing is
    validated.  When it returns, its two lists are a rearrangement of the
    directories it was given. *)
Theorem remove_remote_dir_outcomes
  (R : Type) (communicate : R -> string -> string -> Remote.ssh_reply * R)
  (host : string) (dir_list : RemoteDirs.dir_list_arg) (w : Remote.net R) :
  (blank host = true
   \/ RemoteDirs.as_list dir_list = []
   \/ (exists folder_path,
          dir_list = RemoteDirs.DirStr folder_path /\ blank folder_path = true) ->
   RemoteDirs.remove_remote_dir communicate host dir_list w
   = (Raise (BurException UtilsException EmptyValue []), w))
  /\ (forall parameters w',
         RemoteDirs.remove_remote_dir communicate host dir_list w
         = (Raise (BurException UtilsException CannotRemovePath parameters), w') ->
         Remote.spawned w'
         = Remote.spawned w
           ++ [(host, RemoteDirs.remove_dir_cmd (RemoteDirs.as_list dir_list))])
  /\ (forall not_removed_list validated_removed_list w',
         RemoteDirs.remove_remote_dir communicate host dir_list w
         = (Ok (not_removed_list, validated_removed_list), w') ->
         Permutation (not_removed_list ++ validated_removed_list)
                     (RemoteDirs.as_list dir_list)).
Proof.
  unfold RemoteDirs.remove_remote_dir.
  assert (Hcheck : forall s,
             Validator.check_not_empty s
             = if blank s
               then Raise (BurException UtilsException EmptyValue [])
               else Ok true).
  { intros s. unfold Validator.check_not_empty.
    rewrite strip_truthy_blank.
    destruct s as [|a s]; [reflexivity|]. simpl truthy. cbn [negb].
    destruct (blank (String a s)); reflexivity. }
  rewrite Hcheck.
  split; [|split].
  - intros [Hh|[Hl|(s & -> & Hs)]].
    + now rewrite Hh.
    + destruct (blank host); [reflexivity|].
      destruct dir_list as [|s|l]; simpl in *;
        [reflexivity | discriminate | subst l; reflexivity].
    + destruct (blank host); [reflexivity|]. simpl. now rewrite Hcheck, Hs.
  - intros parameters w'.
    destruct (blank host) eqn:Hh; [discriminate|].
    destruct (RemoteDirs.check_dir_list_not_empty dir_list) as [ok|e] eqn:Hd.
    2:{ intros H. inversion H; subst.
        destruct dir_list as [|s|l]; simpl in Hd.
        - discriminate.
        - rewrite Hcheck in Hd. destruct (blank s); discriminate.
        - destruct l; discriminate. }
    destruct (blank (RemoteDirs.remove_dir_cmd (RemoteDirs.as_list dir_list)))
      eqn:Hc.
    + rewrite run_ssh_command_skips by (right; exact Hc). simpl.
      destruct (RemoteDirs.validate_removed_dir_list communicate host
                  (Some (RemoteDirs.as_list dir_list)) w); discriminate.
    + rewrite run_ssh_command_spawns by assumption.
      cbv beta iota zeta.
      match goal with
      | |- context [if truthy (strip ?e) then _ else _] =>
          destruct (truthy (strip e))
      end.
      * intros H. inversion H; subst. reflexivity.
      * match goal with
        | |- context [RemoteDirs.validate_removed_dir_list ?c ?h ?l ?w0] =>
            destruct (RemoteDirs.validate_removed_dir_list c h l w0)
        end. discriminate.
  - intros nr vr w'.
    destruct (blank host) eqn:Hh; [discriminate|].
    destruct (RemoteDirs.check_dir_list_not_empty dir_list); [|discriminate].
    destruct (Remote.run_ssh_command communicate host
                (RemoteDirs.remove_dir_cmd (RemoteDirs.as_list dir_list)) w)
      as [[out stderr] w1].
    destruct (truthy (strip stderr)); [discriminate|].
    pose proof (validate_removed_dirs_spec communicate host
                  (RemoteDirs.as_list dir_list) w1) as Hspec.
    unfold RemoteDirs.validate_removed_dir_list.
    destruct (RemoteDirs.validate_removed_dirs communicate host
                (RemoteDirs.as_list dir_list) w1) as [[nr' vr'] w2].
    simpl in Hspec. intros H. inversion H; subst. apply Hspec.
Qed.

Section RemoteListing.
Variable R : Type.
Variable communicate : R -> string -> string -> Remote.ssh_reply * R.

Lemma check_not_empty_blank (s : string) :
  Validator.check_not_empty s
  = if blank s then Raise (BurException UtilsException EmptyValue [])
    else Ok true.
Proof.
  unfold Validator.check_not_empty. rewrite strip_truthy_blank.
  destruct s as [|a s]; [reflexivity|]. simpl truthy. cbn [negb].
  destruct (blank (String a s)); reflexivity.
Qed.

Lemma basenames_hold_no_slash (l : list string) :
  Forall (fun n => has_slash n = false) (map basename l).
Proof.
  induction l as [|x l IH]; simpl; constructor;
    [apply basename_no_slash | exact IH].
Qed.

End RemoteListing.

(** X4.  The names [get_remote_folder_content] returns are bare file
    names: none of them holds a slash, whatever [find] printed. *)
Theorem remote_folder_content_names_are_bare
  (R : Type) (communicate : R -> string -> string -> Remote.ssh_reply * R)
  (host remote_path filtering_criteria : string) (w w' : Remote.net R)
  (names : list string) :
  RemoteDirs.get_remote_folder_content communicate host remote_path
    filtering_criteria w = (Ok names, w') ->
  Forall (fun name => has_slash name = false) names.
Proof.
  unfold RemoteDirs.get_remote_folder_content.
  rewrite !check_not_empty_blank.
  destruct (blank host); [discriminate|].
  destruct (blank remote_path); [discriminate|].
  destruct (Remote.run_ssh_command communicate host
              ("find " ^^ remote_path ^^ " -name " ^^ filtering_criteria) w)
    as [[result error] w1].
  destruct (truthy error); [discriminate|].
  destruct (truthy (strip result)); intros H; inversion H; subst.
  - apply basenames_hold_no_slash.
  - constructor.
Qed.

(** X5.  [find] ends every line it prints with a line feed, and
    [get_remote_folder_content] splits at line feeds: when the command
    succeeds (no time-out, nothing on the error stream) and prints a text
    that is not blank and ends in a line feed, the list returned is the
    base names of the lines printed, followed by one empty name. *)
Theorem remote_folder_content_ends_with_empty_name
  (R : Type) (communicate : R -> string -> string -> Remote.ssh_reply * R)
  (host remote_path filtering_criteria body : string) (w : Remote.net R) :
  let find_command :=
    "find " ^^ remote_path ^^ " -name " ^^ filtering_criteria in
  let reply := fst (communicate (Remote.peer w) host find_command) in
  blank host = false ->
  blank remote_path = false ->
  Remote.timer_fired reply = false ->
  Remote.reply_stderr reply = EmptyString ->
  Remote.reply_stdout reply = body ^^ nl ->
  blank body = false ->
  fst (RemoteDirs.get_remote_folder_content communicate host remote_path
         filtering_criteria w)
  = Ok (map basename (split nl body) ++ [EmptyString]).
Proof.
  intros find_command reply Hh Hp Ht He Ho Hb.
  unfold RemoteDirs.get_remote_folder_content.
  rewrite !check_not_empty_blank, Hh, Hp.
  fold find_command.
  rewrite run_ssh_command_spawns by (exact Hh || reflexivity).
  cbv beta iota zeta. fold reply. rewrite Ht, He, Ho. cbn [truthy].
  rewrite strip_truthy_blank, blank_append, Hb. cbn [andb negb fst].
  unfold split, nl. rewrite split_go_sep_last, map_app. reflexivity.
Qed.

(** X6.  [create_remote_dir] reports success exactly when the host is not
    blank and the script it sends ran without time-out, left nothing but
    white space on the error stream, and printed [DIR_IS_AVAILABLE] (white
    space around it apart).  In particular a time-out or any error output
    makes it report failure even when the directory is there. *)
Theorem create_remote_dir_reports_success_iff
  (R : Type) (communicate : R -> string -> string -> Remote.ssh_reply * R)
  (host full_path : string) (w : Remote.net R) :
  let reply :=
    fst (communicate (Remote.peer w) host
           (RemoteDirs.ssh_create_dir_commands full_path)) in
  fst (RemoteDirs.create_remote_dir communicate host full_path w) = true
  <-> (blank host = false
       /\ Remote.timer_fired reply = false
       /\ blank (Remote.reply_stderr reply) = true
       /\ strip (Remote.reply_stdout reply) = "DIR_IS_AVAILABLE").
Proof.
  intros reply. unfold RemoteDirs.create_remote_dir.
  destruct (blank host) eqn:Hh.
  - rewrite run_ssh_command_skips by (left; exact Hh). simpl.
    split; [discriminate | intros (H & _); discriminate].
  - rewrite run_ssh_command_spawns by (exact Hh || reflexivity).
    cbv beta iota zeta. fold reply.
    destruct (Remote.timer_fired reply).
    + split; [|intros (_ & H & _); discriminate].
      rewrite strip_truthy_blank. simpl. discriminate.
    + rewrite strip_truthy_blank.
      destruct (blank (Remote.reply_stderr reply)); cbn [negb].
      * destruct (String.eqb_spec (strip (Remote.reply_stdout reply))
                    "DIR_IS_AVAILABLE") as [He|Hne]; cbn [negb fst].
        -- split; auto.
        -- split; [discriminate | intros (_ & _ & _ & H); contradiction].
      * split; [discriminate | intros (_ & _ & H & _); discriminate].
Qed.

Lemma remote_folder_content_names_are_bare_witness :
  Forall (fun name => has_slash name = false)
         ["volume0.tar"; "volume1.tar"; EmptyString].
Proof.
  eapply (@remote_folder_content_names_are_bare unit listing_peer
            "user@offsite" backup_dir "*.tar" fresh_net).
  vm_compute. reflexivity.
Defined.

Lemma remote_folder_content_ends_with_empty_name_witness :
  fst (RemoteDirs.get_remote_folder_content listing_peer "user@offsite"
         backup_dir "*.tar" fresh_net)
  = Ok (map basename (split nl two_archives) ++ [EmptyString]).
Proof.
  apply (@remote_folder_content_ends_with_empty_name unit listing_peer
           "user@offsite" backup_dir "*.tar" two_archives fresh_net);
    reflexivity.
Defined.

(* ================================================================== *)
(** * utils/datatypes.py: [find_elem_dict] *)
(* ================================================================== *)

Section FindElem.
Variable query : string.

Lemma find_in_items_some (key : string) (items : list string)
  (found : string * string) :
  Datatypes.find_in_items query key items = Some found ->
  fst found = key /\ In (snd found) items
  /\ contains query (snd found) = true.
Proof.
  induction items as [|item items IH]; simpl; [discriminate|].
  destruct (contains query item) eqn:Hc.
  - intros H. inversion H; subst. simpl. auto.
  - intros H. destruct (IH H) as (H1 & H2 & H3). auto.
Qed.

Lemma find_in_items_none (key : string) (items : list string) :
  Datatypes.find_in_items query key items = None ->
  forall item, In item items -> contains query item = false.
Proof.
  induction items as [|x items IH]; simpl; [intros _ ? []|].
  destruct (contains query x) eqn:Hc; [discriminate|].
  intros H item [<-|Hin]; [exact Hc | exact (IH H item Hin)].
Qed.

Lemma find_in_dict_some (dic : list (string * list string))
  (found : string * string) :
  Datatypes.find_in_dict query dic = Some found ->
  exists items, In (fst found, items) dic /\ In (snd found) items
                /\ contains query (snd found) = true.
Proof.
  induction dic as [|[key items] dic IH]; simpl; [discriminate|].
  destruct (Datatypes.find_in_items query key items) as [f|] eqn:Hf.
  - intros H. inversion H; subst.
    destruct (find_in_items_some _ _ Hf) as (<- & H2 & H3).
    exists items. auto.
  - intros H. destruct (IH H) as (its & H1 & H2 & H3).
    exists its. auto.
Qed.

Lemma find_in_dict_none (dic : list (string * list string)) :
  Datatypes.find_in_dict query dic = None ->
  forall key items item,
    In (key, items) dic -> In item items -> contains query item = false.
Proof.
  induction dic as [|[k its] dic IH]; simpl; [intros _ ? ? ? []|].
  destruct (Datatypes.find_in_items query k its) eqn:Hf; [discriminate|].
  intros H key items item [E|Hin] Hitem.
  - inversion E; subst. eapply find_in_items_none; eassumption.
  - eapply IH; eassumption.
Qed.

End FindElem.

(** X7.  [find_elem_dict] looks for the query as a piece of text inside
    the items.  A blank query finds nothing.  A pair it returns, other than
    the pair of empty strings, is a key of the map and an item of that
    key's list that holds the query somewhere inside it.  For a query that
    is not blank, the pair of empty strings is returned only when no item
    of any list holds the query. *)
Theorem find_elem_dict_matches_substrings
  (dic : list (string * list string)) (query : string) :
  (blank query = true ->
   Datatypes.find_elem_dict dic query = (EmptyString, EmptyString))
  /\ (forall key item,
         Datatypes.find_elem_dict dic query = (key, item) ->
         (key, item) <> (EmptyString, EmptyString) ->
         exists items, In (key, items) dic /\ In item items
                       /\ contains query item = true)
  /\ (blank query = false ->
      Datatypes.find_elem_dict dic query = (EmptyString, EmptyString) ->
      forall key items item,
        In (key, items) dic -> In item items ->
        contains query item = false).
Proof.
  unfold Datatypes.find_elem_dict. rewrite strip_truthy_blank, negb_involutive.
  split; [|split].
  - intros H. now rewrite H.
  - intros key item. destruct (blank query).
    + intros H Hne. congruence.
    + destruct (Datatypes.find_in_dict query dic) as [found|] eqn:Hf.
      * intros -> _. apply find_in_dict_some in Hf. exact Hf.
      * intros H Hne. congruence.
  - intros Hb. rewrite Hb.
    destruct (Datatypes.find_in_dict query dic) as [found|] eqn:Hf.
    + intros ->. apply find_in_dict_some in Hf.
      destruct Hf as (its & _ & _ & Hc).
      simpl in Hc. destruct query; [discriminate Hb | discriminate Hc].
    + intros _. eapply find_in_dict_none. exact Hf.
Qed.

(** a tag that is the beginning of another tag picks the first path that
    holds it *)
Example find_elem_dict_picks_first_match :
  Datatypes.find_elem_dict
    [("CUSTOMER_0", [backup_of_day "10"; backup_of_day "1"])] "2018-12-01"
  = ("CUSTOMER_0", backup_of_day "10").
Proof. reflexivity. Qed.

(* ================================================================== *)
(** * rsync_manager.py: the budget of [send] and [transfer_file] *)
(* ================================================================== *)

Section SendBudget.
Variable check_output : nat -> Rsync.check_output_result.
Variable self : Rsync.RsyncManager.
Variable n_files : Z.

(** the loop makes at most as many invocations as the range has values,
    and a range that is not empty never ends in [return False] *)
Lemma send_loop_bounds (tries : nat) :
  forall (cur : Z) (calls : nat) (r : res Rsync.send_value) (n : nat),
    (Z.of_nat tries + cur = Rsync.retry self + 1)%Z ->
    Rsync.send_loop check_output self n_files tries cur calls = (r, n) ->
    calls <= n <= calls + tries
    /\ (0 < tries -> r <> Ok Rsync.ReturnedFalse /\ calls < n).
Proof.
  induction tries as [|tries IH]; intros cur calls r n Hinv H; simpl in H.
  - inversion H; subst. split; lia.
  - assert (Hdone : forall e,
               (Raise e, S calls) = (r, n) ->
               calls <= n <= calls + S tries
               /\ (0 < S tries -> r <> Ok Rsync.ReturnedFalse /\ calls < n)).
    { intros e E. inversion E; subst.
      split; [lia|]. intros _. split; [discriminate | lia]. }
    destruct (check_output calls); [eapply Hdone; exact H|].
    destruct (Rsync.parse_output output); [|eapply Hdone; exact H].
    destruct (py_int (Rsync.n_transferred_files a));
      [|eapply Hdone; exact H].
    destruct (z =? n_files)%Z.
    { inversion H; subst. split; [lia|]. intros _.
      split; [discriminate | lia]. }
    destruct (Z.eqb_spec cur (Rsync.retry self)) as [Hc|Hc];
      [eapply Hdone; exact H|].
    destruct (IH (cur + 1)%Z (S calls) r n) as [Hb Hr]; [lia | exact H |].
    split; [lia|]. intros _.
    destruct Hr as [Hr Hn]; [lia|]. split; [exact Hr | lia].
Qed.

End SendBudget.

(** X8.  [send], for a source that holds files: when the retry budget is
    zero or negative the loop body never runs, rsync is not invoked and
    [send] returns [False]; with a positive budget it never returns
    [False] (it returns the parsed output or raises), and it makes at
    least one and at most [retry] invocations. *)
Theorem send_returns_false_without_budget
  (check_output : nat -> Rsync.check_output_result)
  (self : Rsync.RsyncManager) (n_files n_dirs : Z) :
  n_files <> 0%Z ->
  ((Rsync.retry self <= 0)%Z ->
   Rsync.send check_output self (Ok (n_files, n_dirs))
   = (Ok Rsync.ReturnedFalse, 0))
  /\ ((0 < Rsync.retry self)%Z ->
      forall r n,
        Rsync.send check_output self (Ok (n_files, n_dirs)) = (r, n) ->
        r <> Ok Rsync.ReturnedFalse
        /\ 1 <= n <= Z.to_nat (Rsync.retry self)).
Proof.
  intros Hfiles. unfold Rsync.send.
  destruct (Z.eqb_spec n_files 0) as [E|E]; [contradiction|]. split.
  - intros Hle. replace (Z.to_nat (Rsync.retry self)) with 0 by lia.
    reflexivity.
  - intros Hpos r n H.
    destruct (@send_loop_bounds check_output self n_files
                (Z.to_nat (Rsync.retry self)) 1%Z 0 r n) as [Hb Hr];
      [lia | exact H |].
    destruct Hr as [Hr Hn]; [lia|]. split; [exact Hr | lia].
Qed.

Lemma send_returns_false_without_budget_witness :
  Rsync.send rsync_always_one
    {| Rsync.source_path := "/tmp/CUSTOMER_0/2018-12-04/volume0.tar";
       Rsync.destination_path := "user@offsite:/bkp/CUSTOMER_0/2018-12-04";
       Rsync.retry := 0; Rsync.rsync_ssh := true |} (Ok (1, 0)%Z)
  = (Ok Rsync.ReturnedFalse, 0).
Proof.
  apply (@send_returns_false_without_budget rsync_always_one
           {| Rsync.source_path := "/tmp/CUSTOMER_0/2018-12-04/volume0.tar";
              Rsync.destination_path := "user@offsite:/bkp/CUSTOMER_0/2018-12-04";
              Rsync.retry := 0; Rsync.rsync_ssh := true |} 1%Z 0%Z).
  - discriminate.
  - simpl. lia.
Defined.

Section ReceiveBudget.
Variable check_output : nat -> Rsync.check_output_result.

Lemma receive_calls (self : Rsync.RsyncManager) (remote_path_exists : bool)
  (origin_content destination_content : res (Z * Z)) :
  snd (Rsync.receive check_output self remote_path_exists origin_content
         destination_content) <= 1.
Proof.
  unfold Rsync.receive.
  repeat match goal with
         | |- context [match ?x with _ => _ end] => destruct x
         end; simpl; lia.
Qed.

End ReceiveBudget.

(** X9.  [transfer_file] makes at most [NUMBER_TRIES] (three) rsync
    invocations, whatever the direction and whatever rsync answers, and it
    never returns [False]: it returns a parsed rsync output or raises.
    With a blank source or target it raises [EmptyValue] before rsync is
    invoked at all. *)
Theorem transfer_file_is_bounded
  (check_output : nat -> Rsync.check_output_result)
  (source_path target_path : string) (rsync_ssh : bool)
  (local_content : res (Z * Z)) (remote_path_exists : bool)
  (origin_content destination_content : res (Z * Z)) :
  let outcome :=
    RsyncTransfer.transfer_file check_output source_path target_path
      rsync_ssh local_content remote_path_exists origin_content
      destination_content in
  snd outcome <= 3
  /\ fst outcome <> Ok Rsync.ReturnedFalse
  /\ (blank source_path = true \/ blank target_path = true ->
      outcome = (Raise (BurException UtilsException EmptyValue []), 0)).
Proof.
  unfold RsyncTransfer.transfer_file. rewrite !check_not_empty_blank.
  destruct (blank source_path);
    [simpl; repeat split; [lia | discriminate]|].
  destruct (blank target_path);
    [simpl; repeat split; [lia | discriminate]|].
  set (manager := {| Rsync.source_path := source_path;
                     Rsync.destination_path := target_path;
                     Rsync.retry := Rsync.NUMBER_TRIES;
                     Rsync.rsync_ssh := rsync_ssh |}).
  cbv zeta.
  split; [|split; [|intros [H|H]; discriminate H]].
  - destruct (contains "@" source_path).
    + pose proof (receive_calls check_output manager remote_path_exists
                    origin_content destination_content) as Hr.
      destruct (Rsync.receive check_output manager remote_path_exists
                  origin_content destination_content) as [[ro|e] n];
        simpl in *; lia.
    + unfold Rsync.send. destruct local_content as [[nf nd]|e]; [|simpl; lia].
      destruct (nf =? 0)%Z; [simpl; lia|].
      destruct (Rsync.send_loop check_output manager nf
                  (Z.to_nat (Rsync.retry manager)) 1 0) as [r n] eqn:Hs.
      destruct (@send_loop_bounds check_output manager nf
                  (Z.to_nat (Rsync.retry manager)) 1%Z 0 r n) as [Hb _];
        [reflexivity | exact Hs |].
      simpl in *. lia.
  - destruct (contains "@" source_path).
    + destruct (Rsync.receive check_output manager remote_path_exists
                  origin_content destination_content) as [[ro|e] n];
        simpl; discriminate.
    + unfold Rsync.send. destruct local_content as [[nf nd]|e];
        [|simpl; discriminate].
      destruct (nf =? 0)%Z; [simpl; discriminate|].
      destruct (Rsync.send_loop check_output manager nf
                  (Z.to_nat (Rsync.retry manager)) 1 0) as [r n] eqn:Hs.
      destruct (@send_loop_bounds check_output manager nf
                  (Z.to_nat (Rsync.retry manager)) 1%Z 0 r n) as [_ Hr];
        [reflexivity | exact Hs |].
      destruct Hr as [Hr _]; [simpl; lia|]. exact Hr.
Qed.

(* ================================================================== *)
(** * offsite_backup_handler.py: the list of off-site backups *)
(* ================================================================== *)

Section DictFacts.
Variable A : Type.

Lemma dict_get_put_same (key : string) (v : A) (d : list (string * A)) :
  OffsiteOps.dict_get key (OffsiteOps.dict_put key v d) = Some v.
Proof.
  induction d as [|[k x] d IH]; simpl.
  - now rewrite String.eqb_refl.
  - destruct (String.eqb k key) eqn:Hk; simpl; rewrite Hk; auto.
Qed.

Lemma dict_get_put_other (key k : string) (v : A) (d : list (string * A)) :
  k <> key ->
  OffsiteOps.dict_get k (OffsiteOps.dict_put key v d) = OffsiteOps.dict_get k d.
Proof.
  intros Hne. induction d as [|[k' x] d IH]; simpl.
  - destruct (String.eqb_spec key k); [congruence | reflexivity].
  - destruct (String.eqb_spec k' key) as [->|Hk]; simpl.
    + destruct (String.eqb_spec key k); [congruence | reflexivity].
    + destruct (String.eqb k' k); auto.
Qed.

Lemma dict_put_keys_in (key k : string) (v : A) (d : list (string * A)) :
  In k (map fst (OffsiteOps.dict_put key v d)) ->
  k = key \/ In k (map fst d).
Proof.
  induction d as [|[k' x] d IH]; simpl.
  - intros [H|[]]; auto.
  - destruct (String.eqb_spec k' key) as [->|Hk]; simpl.
    + intros [H|H]; auto.
    + intros [H|H]; [auto | destruct (IH H); auto].
Qed.

Lemma dict_put_keys_nodup (key : string) (v : A) (d : list (string * A)) :
  NoDup (map fst d) -> NoDup (map fst (OffsiteOps.dict_put key v d)).
Proof.
  induction d as [|[k' x] d IH]; simpl; intros H.
  - constructor; [intros [] | constructor].
  - inversion H as [|? ? Hnin Hd]; subst.
    destruct (String.eqb_spec k' key) as [->|Hk]; simpl.
    + constructor; assumption.
    + constructor; [|auto].
      intros Hin. apply dict_put_keys_in in Hin.
      destruct Hin as [->|Hin]; [congruence | contradiction].
Qed.

End DictFacts.

Section SortedKeys.

Lemma insert_sorted_perm (x : string) (l : list string) :
  Permutation (OffsiteOps.insert_sorted x l) (x :: l).
Proof.
  induction l as [|y l IH]; simpl; [reflexivity|].
  destruct (String.ltb y x); [|reflexivity].
  rewrite IH. apply perm_swap.
Qed.

Lemma sorted_perm (l : list string) : Permutation (OffsiteOps.sorted l) l.
Proof.
  induction l as [|x l IH]; simpl; [reflexivity|].
  rewrite insert_sorted_perm. now constructor.
Qed.

Lemma empty_backup_lists_nodup (customers : list OffsiteOps.EnmConfig) :
  NoDup (map fst (OffsiteOps.empty_backup_lists customers)).
Proof.
  unfold OffsiteOps.empty_backup_lists.
  assert (H : forall d : list (string * list string),
             NoDup (map fst d) ->
             NoDup (map fst
                      (fold_left
                         (fun d c => OffsiteOps.dict_put (OffsiteOps.name c) [] d)
                         customers d))).
  { induction customers as [|c customers IH]; intros d Hd; simpl; [exact Hd|].
    apply IH. apply dict_put_keys_nodup. exact Hd. }
  apply H. constructor.
Qed.

(** a text splits into at least one piece *)
Lemma split_go_not_nil (sep : string) (s : string) :
  forall skip cur, 1 <= List.length (split_go sep skip cur s).
Proof.
  induction s as [|a s IH]; intros skip cur; cbn [split_go];
    [simpl; lia|].
  destruct skip; [|apply IH].
  destruct (prefix sep (String a s)); [simpl; lia | apply IH].
Qed.

End SortedKeys.

Section AssignFolders.
Variable chunks : list string.

Lemma assign_folders_short (keys : list string) :
  forall idx d,
    idx <= List.length chunks ->
    List.length chunks < idx + List.length keys ->
    OffsiteOps.assign_folders keys chunks idx d
    = Raise (OtherError "IndexError").
Proof.
  induction keys as [|key keys IH]; intros idx d Hle Hlt; simpl in *; [lia|].
  destruct (Nat.ltb_spec (List.length chunks) idx); [lia|].
  destruct (nth_error chunks idx) as [chunk|] eqn:Hn; [|reflexivity].
  apply IH; [|lia].
  assert (idx < List.length chunks)
    by (apply nth_error_Some; congruence).
  lia.
Qed.

Lemma assign_folders_enough (keys : list string) :
  forall idx d,
    NoDup keys ->
    idx + List.length keys <= List.length chunks ->
    exists d',
      OffsiteOps.assign_folders keys chunks idx d = Ok d'
      /\ (forall i key chunk,
             nth_error keys i = Some key ->
             nth_error chunks (idx + i) = Some chunk ->
             OffsiteOps.dict_get key d'
             = Some (FsysLists.split_folder_list chunk))
      /\ (forall k, ~ In k keys ->
                    OffsiteOps.dict_get k d' = OffsiteOps.dict_get k d).
Proof.
  induction keys as [|key keys IH]; intros idx d Hnd Hlen; simpl in *.
  - exists d. split; [reflexivity|]. split; [|reflexivity].
    intros i key chunk H. destruct i; discriminate.
  - inversion Hnd as [|? ? Hnin Hnd']; subst.
    destruct (Nat.ltb_spec (List.length chunks) idx); [lia|].
    destruct (nth_error chunks idx) as [chunk0|] eqn:Hn.
    2:{ apply nth_error_None in Hn. lia. }
    destruct (IH (S idx)
                (OffsiteOps.dict_put key (FsysLists.split_folder_list chunk0) d)
                Hnd') as (d' & Hok & Hget & Hkeep); [lia|].
    exists d'. split; [exact Hok|]. split.
    + intros i k chunk Hk Hc. destruct i as [|i]; simpl in Hk.
      * inversion Hk; subst k. rewrite Nat.add_0_r in Hc.
        rewrite Hn in Hc. inversion Hc; subst.
        rewrite (Hkeep key Hnin). apply dict_get_put_same.
      * apply (Hget i k chunk Hk).
        replace (S idx + i) with (idx + S i) by lia. exact Hc.
    + intros k Hk. rewrite Hkeep by tauto.
      apply dict_get_put_other. intros ->. tauto.
Qed.

End AssignFolders.

(** X10.  [get_offsite_backup_dict] hands the pieces of the answer, cut at
    [END-OF-COMMAND], to the customer names in ascending order, one piece
    each.  When the answer has at least as many pieces as there are names
    it returns a dictionary in which the name at position [i] holds the
    folders [split_folder_list] reads in piece [i].  When the answer has
    fewer pieces (a truncated or empty answer and several customers) it
    raises [IndexError]: the guard before the access never stops the loop.
    An answer has at least one piece, so one customer alone never fails. *)
Theorem offsite_backup_dict_needs_a_piece_per_customer
  (R : Type) (communicate : R -> string -> string -> Remote.ssh_reply * R)
  (sort_configs : list OffsiteOps.EnmConfig -> list OffsiteOps.EnmConfig)
  (customer_config_dict : list (string * OffsiteOps.EnmConfig))
  (remote_root_backup_path host : string)
  (customer_query : OffsiteOps.customer_query_arg) (w : Remote.net R) :
  let customers :=
    OffsiteOps.customers_asked sort_configs customer_config_dict
      customer_query in
  let keys :=
    OffsiteOps.sorted (map fst (OffsiteOps.empty_backup_lists customers)) in
  let pieces :=
    split "END-OF-COMMAND"
      (fst (fst (Remote.run_ssh_command communicate host
                   (OffsiteOps.ssh_get_sorted_dir_list remote_root_backup_path
                      customers) w))) in
  let outcome :=
    fst (OffsiteOps.get_offsite_backup_dict communicate sort_configs
           customer_config_dict remote_root_backup_path host customer_query w) in
  (List.length pieces < List.length keys ->
   outcome = Raise (OtherError "IndexError"))
  /\ (List.length keys <= List.length pieces ->
      exists d,
        outcome = Ok d
        /\ forall i key piece,
             nth_error keys i = Some key ->
             nth_error pieces i = Some piece ->
             OffsiteOps.dict_get key d
             = Some (FsysLists.split_folder_list piece))
  /\ 1 <= List.length pieces.
Proof.
  intros customers keys pieces outcome.
  assert (Hout : outcome
                 = OffsiteOps.assign_folders keys pieces 0
                     (OffsiteOps.empty_backup_lists customers)).
  { unfold outcome, OffsiteOps.get_offsite_backup_dict, pieces, keys.
    fold customers.
    destruct (Remote.run_ssh_command communicate host
                (OffsiteOps.ssh_get_sorted_dir_list remote_root_backup_path
                   customers) w) as [[out err] w1].
    reflexivity. }
  rewrite Hout. split; [|split].
  - intros Hlt. apply assign_folders_short; lia.
  - intros Hle.
    destruct (@assign_folders_enough pieces keys 0
                (OffsiteOps.empty_backup_lists customers))
      as (d & Hok & Hget & _).
    + eapply Permutation_NoDup;
        [apply Permutation_sym, sorted_perm | apply empty_backup_lists_nodup].
    + simpl. exact Hle.
    + exists d. split; [exact Hok|]. exact Hget.
  - unfold pieces, split. apply split_go_not_nil.
Qed.

(* ================================================================== *)
(** * offsite_backup_handler.py: cleaning the off-site *)
(* ================================================================== *)

Section CleanOffsite.
Variable R : Type.
Variable communicate : R -> string -> string -> Remote.ssh_reply * R.
Variable host : string.

(** what [remove_remote_dir] does with a list: it raises a
    [BurException] or returns a partition in which nothing left over means
    everything validated *)
Lemma remove_remote_dir_of_list (dirs : list string) (w : Remote.net R) :
  (exists c code ps w',
      RemoteDirs.remove_remote_dir communicate host (RemoteDirs.DirList dirs) w
      = (Raise (BurException c code ps), w'))
  \/ (exists not_removed validated w',
         RemoteDirs.remove_remote_dir communicate host
           (RemoteDirs.DirList dirs) w
         = (Ok (not_removed, validated), w')
         /\ Permutation (not_removed ++ validated) dirs
         /\ (not_removed = [] -> validated = dirs)).
Proof.
  unfold RemoteDirs.remove_remote_dir. rewrite check_not_empty_blank.
  destruct (blank host); [left; repeat eexists|].
  destruct dirs as [|d dirs]; [left; repeat eexists|].
  cbn [RemoteDirs.check_dir_list_not_empty Validator.check_not_empty_list
       RemoteDirs.as_list].
  destruct (Remote.run_ssh_command communicate host
              (RemoteDirs.remove_dir_cmd (d :: dirs)) w)
    as [[out stderr] w1].
  destruct (truthy (strip stderr)); [left; repeat eexists|].
  right. unfold RemoteDirs.validate_removed_dir_list.
  pose proof (validate_removed_dirs_spec communicate host (d :: dirs) w1)
    as Hspec.
  destruct (RemoteDirs.validate_removed_dirs communicate host (d :: dirs) w1)
    as [[nr vr] w2].
  simpl in Hspec. destruct Hspec as (Hp & _ & Hall).
  exists nr, vr, w2. auto.
Qed.

End CleanOffsite.

(** X11.  [clean_offsite_backup]: an exception of the planning step (the
    listing of the backups and the choice of the directories to remove)
    leaves the method as it is.  When no directory is chosen it reports
    success with an empty list and runs nothing more on the remote side.
    Otherwise it returns, and what it returns fits what was chosen: every
    directory in the list of removed directories was chosen, and the flag
    is true exactly when the list of removed directories is the list
    chosen. *)
Theorem clean_offsite_backup_reports_what_was_removed
  (R : Type) (communicate : R -> string -> string -> Remote.ssh_reply * R)
  (sort_configs : list OffsiteOps.EnmConfig -> list OffsiteOps.EnmConfig)
  (list_repr : list string -> string) (exn_str : exn_text)
  (customer_config_dict : list (string * OffsiteOps.EnmConfig))
  (remote_root_backup_path host : string)
  (number_retention : nat) (w : Remote.net R) :
  let plan :=
    OffsiteOps.get_backup_dir_list_to_cleanup communicate sort_configs
      customer_config_dict remote_root_backup_path host number_retention w in
  let outcome :=
    OffsiteOps.clean_offsite_backup communicate sort_configs list_repr
      exn_str customer_config_dict remote_root_backup_path host
      number_retention w in
  (forall e w1, plan = (Raise e, w1) -> outcome = (Raise e, w1))
  /\ (forall w1,
         plan = (Ok [], w1) ->
         outcome
         = (Ok (true,
                "Off-site clean up finished successfully with no backup removed.",
                []), w1))
  /\ (forall remove_dir_list w1,
         plan = (Ok remove_dir_list, w1) ->
         exists flag message removed w',
           outcome = (Ok (flag, message, removed), w')
           /\ (forall d, In d removed -> In d remove_dir_list)
           /\ (flag = true <-> removed = remove_dir_list)).
Proof.
  intros plan outcome. unfold outcome, OffsiteOps.clean_offsite_backup.
  fold plan. split; [|split].
  - intros e w1 ->. reflexivity.
  - intros w1 ->. reflexivity.
  - intros remove_dir_list w1 ->.
    destruct remove_dir_list as [|d dirs].
    { exists true. eexists. exists [], w1.
      split; [reflexivity|]. split; [intros ? []|]. split; auto. }
    destruct (remove_remote_dir_of_list communicate host (d :: dirs) w1)
      as [(c & code & ps & w' & ->)|(nr & vr & w' & -> & Hperm & Hall)].
    + exists false. eexists. exists [], w'.
      split; [reflexivity|]. split; [intros ? []|].
      split; discriminate.
    + destruct nr as [|x nr].
      * rewrite (Hall eq_refl). exists true. eexists. exists (d :: dirs), w'.
        split; [reflexivity|]. split; [auto|]. split; auto.
      * exists false. eexists. exists vr, w'.
        split; [reflexivity|]. split.
        -- intros y Hy. eapply Permutation_in; [exact Hperm|].
           apply in_or_app. right. exact Hy.
        -- split; [discriminate|]. intros ->.
           apply Permutation_length in Hperm.
           rewrite length_app in Hperm. simpl in Hperm. lia.
Qed.

(* ================================================================== *)
(** * offsite_backup_handler.py: the destination of a download *)
(* ================================================================== *)

Section CreatePathFacts.

Lemma create_path_true_exists (path : string) (root root' : Fsys.fs) :
  Fsys.create_path path root = (true, root') ->
  Fsys.os_path_exists root' path = true.
Proof.
  unfold Fsys.create_path.
  destruct (Fsys.os_path_exists root path) eqn:He.
  - intros H. inversion H; subst. exact He.
  - unfold Fsys.os_makedirs.
    destruct (truthy path) eqn:Hp; [|discriminate].
    destruct (Fsys.mk_at root (Fsys.components path)) as [r|] eqn:Hm;
      [|discriminate].
    intros H. inversion H; subst.
    unfold Fsys.os_path_exists, Fsys.resolve. rewrite Hp.
    pose proof (mk_at_creates _ _ Hm) as Hl.
    destruct (Fsys.lookup root' (Fsys.components path)); congruence.
Qed.

(** [create_path] answers [False] only for a path that does not exist *)
Lemma create_path_false_absent (path : string) (root root' : Fsys.fs) :
  Fsys.create_path path root = (false, root') ->
  Fsys.os_path_exists root path = false.
Proof.
  unfold Fsys.create_path.
  destruct (Fsys.os_path_exists root path); [discriminate | reflexivity].
Qed.

End CreatePathFacts.

(** X12.  [validate_backup_destination]: the path it returns exists when
    it returns, whether it was there or had to be created; it is the
    customer's own backup path when the destination given is blank and the
    destination joined with the customer name otherwise.  When it raises
    [CannotCreatePath] it does so for that same path, which did not exist
    when the method was called. *)
Theorem validate_backup_destination_exists
  (customer_config_dict : list (string * OffsiteOps.EnmConfig))
  (customer_name backup_destination : string) (root : Fsys.fs) :
  let outcome :=
    OffsiteOps.validate_backup_destination customer_config_dict customer_name
      backup_destination root in
  (forall destination root',
      outcome = (Ok destination, root') ->
      Fsys.os_path_exists root' destination = true
      /\ (if blank backup_destination
          then exists customer_config,
                 OffsiteOps.dict_get customer_name customer_config_dict
                 = Some customer_config
                 /\ destination = OffsiteOps.backup_path customer_config
          else destination = join backup_destination customer_name))
  /\ (forall c parameters root',
         outcome = (Raise (BurException c CannotCreatePath parameters), root') ->
         exists destination,
           c = DownloadBackupException
           /\ parameters = [PyStr destination]
           /\ Fsys.os_path_exists root destination = false
           /\ (if blank backup_destination
               then exists customer_config,
                      OffsiteOps.dict_get customer_name customer_config_dict
                      = Some customer_config
                      /\ destination = OffsiteOps.backup_path customer_config
               else destination = join backup_destination customer_name)).
Proof.
  intros outcome. unfold outcome, OffsiteOps.validate_backup_destination.
  rewrite strip_truthy_blank, negb_involutive.
  assert (Hcore : forall p,
             (forall destination root',
                 (let '(created, root') := Fsys.create_path p root in
                  if negb created
                  then (Raise (BurException DownloadBackupException
                                 CannotCreatePath [PyStr p]), root')
                  else (Ok p, root'))
                 = (Ok destination, root') ->
                 destination = p
                 /\ Fsys.os_path_exists root' destination = true)
             /\ (forall c parameters root',
                    (let '(created, root') := Fsys.create_path p root in
                     if negb created
                     then (Raise (BurException DownloadBackupException
                                    CannotCreatePath [PyStr p]), root')
                     else (@Ok string p, root'))
                    = (Raise (BurException c CannotCreatePath parameters),
                       root') ->
                    c = DownloadBackupException
                    /\ parameters = [PyStr p]
                    /\ Fsys.os_path_exists root p = false)).
  { intros p. destruct (Fsys.create_path p root) as [[|] r] eqn:Hc; simpl.
    - split; [|discriminate]. intros destination root' H.
      inversion H; subst. split; [reflexivity|].
      eapply create_path_true_exists. exact Hc.
    - split; [discriminate|]. intros c ps root' H. inversion H; subst.
      split; [reflexivity|]. split; [reflexivity|].
      eapply create_path_false_absent. exact Hc. }
  destruct (blank backup_destination).
  - destruct (OffsiteOps.dict_get customer_name customer_config_dict)
      as [customer_config|]; [|split; discriminate].
    destruct (Hcore (OffsiteOps.backup_path customer_config)) as [H1 H2].
    split.
    + intros destination root' H. destruct (H1 _ _ H) as [-> He].
      split; [exact He|]. exists customer_config. auto.
    + intros c ps root' H. destruct (H2 _ _ _ H) as (Hc & Hps & He).
      exists (OffsiteOps.backup_path customer_config).
      split; [exact Hc|]. split; [exact Hps|]. split; [exact He|].
      exists customer_config. auto.
  - destruct (Hcore (join backup_destination customer_name)) as [H1 H2].
    split.
    + intros destination root' H. destruct (H1 _ _ H) as [-> He]. auto.
    + intros c ps root' H. destruct (H2 _ _ _ H) as (Hc & Hps & He).
      exists (join backup_destination customer_name). auto.
Qed.

(* ================================================================== *)
(** * utils/backup_handler.py: what the validation looks at *)
(* ================================================================== *)

Section MetadataFacts.

Lemma dict_get_map_values (A B : Type) (g : string -> A -> B) (key : string)
  (d : list (string * A)) :
  OffsiteOps.dict_get key (map (fun kv => (fst kv, g (fst kv) (snd kv))) d)
  = option_map (g key) (OffsiteOps.dict_get key d).
Proof.
  induction d as [|[k v] d IH]; simpl; [reflexivity|].
  destruct (String.eqb_spec k key) as [->|Hne]; [reflexivity | exact IH].
Qed.

Lemma map_fst_map_values (A B : Type) (g : string -> A -> B)
  (d : list (string * A)) :
  map fst (map (fun kv => (fst kv, g (fst kv) (snd kv))) d) = map fst d.
Proof. rewrite map_map. reflexivity. Qed.

Variable change : pyobj -> pyobj.

Lemma keys_of_attributes (o : pyobj) :
  Validation.keys_of (Validation.checksums_in_attributes change o)
  = Validation.keys_of o.
Proof.
  destruct o; try reflexivity. simpl.
  now rewrite (map_fst_map_values
                 (fun k v => if String.eqb k Validation.MD5 then change v
                             else v)).
Qed.

Lemma keys_of_entry (o : pyobj) :
  Validation.keys_of (Validation.checksums_in_entry change o)
  = Validation.keys_of o.
Proof.
  destruct o; try reflexivity. simpl.
  now rewrite (map_fst_map_values
                 (fun _ v => Validation.checksums_in_attributes change v)).
Qed.

Lemma check_items_blind (volume_list : list string) (items : list pyobj) :
  Validation.check_items volume_list
    (map (Validation.checksums_in_entry change) items)
  = Validation.check_items volume_list items.
Proof.
  induction items as [|item items IH]; [reflexivity|].
  cbn [map Validation.check_items]. rewrite keys_of_entry.
  destruct (Validation.keys_of item) as [[|vol_file [|k ks]]|e] eqn:Hk;
    try reflexivity.
  cbn [bind].
  destruct (Local.str_in vol_file volume_list); [|reflexivity].
  cbn [negb].
  destruct item; try discriminate. simpl.
  rewrite (dict_get_map_values
             (fun _ v => Validation.checksums_in_attributes change v)).
  destruct (OffsiteOps.dict_get vol_file l) as [entry|]; [|reflexivity].
  simpl. rewrite keys_of_attributes.
  destruct (Validation.keys_of entry) as [entry_keys|e]; [|reflexivity].
  simpl. destruct (Local.str_in Validation.MD5 entry_keys); [|reflexivity].
  exact IH.
Qed.

Lemma str_in_incl (x : string) (l l' : list string) :
  incl l l' -> Local.str_in x l = true -> Local.str_in x l' = true.
Proof.
  unfold Local.str_in. intros Hincl H.
  apply existsb_exists in H. destruct H as (y & Hy & He).
  apply existsb_exists. exists y. split; [apply Hincl; exact Hy | exact He].
Qed.

Lemma check_items_more_files (l l' : list string) (items : list pyobj) :
  incl l l' ->
  Validation.check_items l items = Ok true ->
  Validation.check_items l' items = Ok true.
Proof.
  intros Hincl. induction items as [|item items IH]; [reflexivity|].
  cbn [Validation.check_items].
  destruct (Validation.keys_of item) as [[|vol_file [|k ks]]|e];
    try discriminate.
  cbn [bind].
  destruct (Local.str_in vol_file l) eqn:Hin; [|discriminate].
  rewrite (str_in_incl _ Hincl Hin). cbn [negb].
  destruct (Validation.subscript item vol_file) as [entry|e];
    [|discriminate].
  cbn [bind].
  destruct (Validation.keys_of entry) as [entry_keys|e]; [|discriminate].
  cbn [bind].
  destruct (Local.str_in Validation.MD5 entry_keys); [|discriminate].
  exact IH.
Qed.

End MetadataFacts.

(** X13.  [validate_metadata_content] looks at names only.  Its answer
    (or the exception it raises) does not depend on the values stored
    under [md5]: the metadata with any other checksums gives the same
    result.  And files of the volume that the metadata does not mention do
    no harm: metadata that is valid for a listing of the volume is valid
    for every listing that holds the same names and more. *)
Theorem metadata_validation_looks_at_names_only
  (metadata_json : pyobj) :
  (forall (change : pyobj -> pyobj) (volume_list : res (list string)),
      Validation.validate_metadata_content volume_list
        (Validation.with_checksums change metadata_json)
      = Validation.validate_metadata_content volume_list metadata_json)
  /\ (forall volume_list larger_volume_list,
         incl volume_list larger_volume_list ->
         Validation.validate_metadata_content (Ok volume_list) metadata_json
         = Ok true ->
         Validation.validate_metadata_content (Ok larger_volume_list)
           metadata_json = Ok true).
Proof.
  split.
  - intros change volume_list.
    unfold Validation.validate_metadata_content.
    destruct volume_list as [volume_list|e]; [|reflexivity]. cbn [bind].
    destruct metadata_json; try reflexivity. simpl.
    rewrite (dict_get_map_values
               (fun k v => if String.eqb k Validation.OBJECTS
                           then Validation.checksums_in_objects change v
                           else v)).
    destruct (OffsiteOps.dict_get Validation.OBJECTS l) as [objects|];
      [|reflexivity].
    simpl. destruct objects; try reflexivity; simpl; apply check_items_blind.
  - intros l l' Hincl. unfold Validation.validate_metadata_content.
    cbn [bind].
    destruct (Validation.subscript metadata_json Validation.OBJECTS)
      as [objects|e]; [|discriminate].
    cbn [bind].
    destruct (Validation.iterate objects) as [items|e]; [|discriminate].
    cbn [bind]. apply check_items_more_files. exact Hincl.
Qed.

Section BackupStructure.
Variable root : Fsys.fs.
Variable backup_path : string.

(** the files of the structure are the entries that are regular files *)
Lemma backup_structure_files (items : list string) (name : string) :
  In name (fst (Validation.backup_structure root backup_path items))
  <-> In name items
      /\ FsysLists.os_path_isfile root (join backup_path name) = true.
Proof.
  induction items as [|item items IH]; simpl; [tauto|].
  destruct (Validation.backup_structure root backup_path items)
    as [files folders].
  simpl in IH.
  destruct (FsysLists.os_path_isfile root (join backup_path item)) eqn:Hf;
    simpl; rewrite IH.
  - split.
    + intros [->|[H1 H2]]; auto.
    + intros [[->|H1] H2]; auto.
  - split.
    + intros [H1 H2]; auto.
    + intros [[->|H1] H2]; [congruence | auto].
Qed.

Lemma str_in_In (x : string) (l : list string) :
  Local.str_in x l = true <-> In x l.
Proof.
  unfold Local.str_in. rewrite existsb_exists. split.
  - intros (y & Hy & He). apply String.eqb_eq in He. now subst.
  - intros H. exists x. split; [exact H | apply String.eqb_refl].
Qed.

Variable glob : Fsys.fs -> string -> list string.
Variable json_load : string -> res pyobj.
Variable deployment_label : string.

Lemma valid_backup_flag_file :
  Validation.validate_backup_per_volume glob json_load root
    deployment_label backup_path = Ok true ->
  exists items,
    FsysLists.os_listdir root backup_path = Some items
    /\ In Local.SUCCESS_FLAG_FILE items
    /\ FsysLists.os_path_isfile root
         (join backup_path Local.SUCCESS_FLAG_FILE) = true.
Proof.
  unfold Validation.validate_backup_per_volume.
  destruct (FsysLists.os_listdir root backup_path) as [items|];
    [|discriminate].
  pose proof (backup_structure_files items Local.SUCCESS_FLAG_FILE) as Hfiles.
  destruct (Validation.backup_structure root backup_path items)
    as [files folders].
  simpl in Hfiles. unfold Validation.is_backup_ok_valid.
  destruct (Local.str_in Local.SUCCESS_FLAG_FILE files) eqn:Hin; cbn [negb];
    [|discriminate].
  apply str_in_In in Hin. apply Hfiles in Hin. destruct Hin as [H1 H2].
  intros _. exists items. auto.
Qed.

End BackupStructure.

(** X14.  [validate_backup_per_volume] accepts no backup without the
    success flag: when it answers [True], [BACKUP_OK] is an entry of the
    backup folder and is a regular file.  For the deployment label
    [genie_vol_bkp] that is all it asks: the answer is [True] exactly when
    the flag file is there, and no volume is looked at. *)
Theorem valid_backup_holds_the_success_flag
  (glob : Fsys.fs -> string -> list string) (json_load : string -> res pyobj)
  (root : Fsys.fs) (deployment_label backup_path : string) :
  let answer :=
    Validation.validate_backup_per_volume glob json_load root
      deployment_label backup_path in
  let flagged :=
    exists items,
      FsysLists.os_listdir root backup_path = Some items
      /\ In Local.SUCCESS_FLAG_FILE items
      /\ FsysLists.os_path_isfile root
           (join backup_path Local.SUCCESS_FLAG_FILE) = true in
  (answer = Ok true -> flagged)
  /\ (deployment_label = Validation.GENIE_VOL_BKPS_DEPLOYMENT ->
      flagged -> answer = Ok true).
Proof.
  intros answer flagged. split.
  - apply valid_backup_flag_file.
  - intros -> (items & E & H1 & H2).
    unfold answer, Validation.validate_backup_per_volume. rewrite E.
    pose proof (backup_structure_files root backup_path items
                  Local.SUCCESS_FLAG_FILE) as Hfiles.
    destruct (Validation.backup_structure root backup_path items)
      as [files folders].
    simpl in Hfiles. unfold Validation.is_backup_ok_valid.
    assert (Hf : In Local.SUCCESS_FLAG_FILE files) by (apply Hfiles; auto).
    apply str_in_In in Hf. rewrite Hf. reflexivity.
Qed.

(* ================================================================== *)
(** * local_backup_handler.py: the backups on site *)
(* ================================================================== *)

Section LocalBackups.
Variable glob : Fsys.fs -> string -> list string.
Variable json_load : string -> res pyobj.
Variable root : Fsys.fs.
Variables customer_name source_dir : string.

Lemma valid_dirs_are_flagged (customer_tags : list string) :
  forall valid_dir_list,
    LocalOps.valid_dirs glob json_load root customer_name source_dir
      customer_tags = Ok valid_dir_list ->
    forall tag,
      In tag valid_dir_list ->
      In tag customer_tags
      /\ FsysLists.os_path_isfile root (join source_dir tag) = false
      /\ Validation.validate_backup_per_volume glob json_load root
           customer_name (join source_dir tag) = Ok true.
Proof.
  induction customer_tags as [|backup_folder rest IH];
    intros valid_dir_list H tag Hin; cbn [LocalOps.valid_dirs] in H.
  - inversion H; subst. contradiction.
  - destruct (FsysLists.os_path_isfile root (join source_dir backup_folder))
      eqn:Hfile.
    + destruct (IH _ H tag Hin) as (H1 & H2 & H3).
      split; [right; exact H1 | split; assumption].
    + destruct (Validation.validate_backup_per_volume glob json_load root
                  customer_name (join source_dir backup_folder))
        as [valid|e] eqn:Hv; [|discriminate].
      cbn [bind] in H.
      destruct (LocalOps.valid_dirs glob json_load root customer_name
                  source_dir rest) as [l|e]; [|discriminate].
      cbn [bind] in H. inversion H; subst. clear H.
      destruct valid; cbn [negb] in Hin.
      * destruct Hin as [<-|Hin];
          [split; [left; reflexivity | split; assumption]|].
        destruct (IH _ eq_refl tag Hin) as (H1 & H2 & H3).
        split; [right; exact H1 | split; assumption].
      * destruct (IH _ eq_refl tag Hin) as (H1 & H2 & H3).
        split; [right; exact H1 | split; assumption].
Qed.

End LocalBackups.

Section SortBy.
Variable key : string -> Z.

Lemma insert_by_perm (x : string) (l : list string) :
  Permutation (LocalOps.insert_by key x l) (x :: l).
Proof.
  induction l as [|y l IH]; simpl; [reflexivity|].
  destruct (key y <? key x)%Z; [|reflexivity].
  rewrite IH. apply perm_swap.
Qed.

Lemma sort_by_perm (l : list string) : Permutation (LocalOps.sort_by key l) l.
Proof.
  induction l as [|x l IH]; simpl; [reflexivity|].
  rewrite insert_by_perm. now constructor.
Qed.

Lemma insert_by_sorted (x : string) (l : list string) :
  StronglySorted (fun a b => (key a <= key b)%Z) l ->
  StronglySorted (fun a b => (key a <= key b)%Z) (LocalOps.insert_by key x l).
Proof.
  induction l as [|y l IH]; intros Hs; simpl.
  - constructor; constructor.
  - inversion Hs as [|? ? Hs' Hall]; subst.
    destruct (Z.ltb_spec (key y) (key x)).
    + constructor; [apply IH, Hs'|].
      apply Forall_forall. intros z Hz.
      apply (Permutation_in _ (insert_by_perm x l)) in Hz.
      destruct Hz as [<-|Hz]; [lia|].
      rewrite Forall_forall in Hall. apply Hall, Hz.
    + constructor; [exact Hs|].
      constructor; [lia|].
      eapply Forall_impl; [|exact Hall]. simpl. intros; lia.
Qed.

Lemma sort_by_sorted (l : list string) :
  StronglySorted (fun a b => (key a <= key b)%Z) (LocalOps.sort_by key l).
Proof.
  induction l as [|x l IH]; simpl; [constructor|].
  apply insert_by_sorted, IH.
Qed.

End SortBy.

(** X15.  [get_local_backup_list] offers for upload only backups that
    hold the success flag.  When it returns a list, every tag in it is an
    entry of the customer's folder that is not a regular file and that
    [validate_backup_per_volume] accepted, so its folder holds a regular
    file [BACKUP_OK]; and the list is in the order of the modification
    times, oldest first.  When the customer's folder does not exist it
    returns [None]. *)
Theorem local_backup_list_is_flagged_and_ordered
  (glob : Fsys.fs -> string -> list string) (json_load : string -> res pyobj)
  (getmtime : string -> Z)
  (root : Fsys.fs) (customer_name source_dir : string) :
  let outcome :=
    LocalOps.get_local_backup_list glob json_load getmtime root
      customer_name source_dir in
  (Fsys.os_path_exists root source_dir = false -> outcome = Ok None)
  /\ (forall valid_dir_list,
         outcome = Ok (Some valid_dir_list) ->
         (forall tag,
             In tag valid_dir_list ->
             (exists customer_tags,
                 FsysLists.os_listdir root source_dir = Some customer_tags
                 /\ In tag customer_tags)
             /\ FsysLists.os_path_isfile root (join source_dir tag) = false
             /\ FsysLists.os_path_isfile root
                  (join (join source_dir tag) Local.SUCCESS_FLAG_FILE) = true)
         /\ StronglySorted
              (fun a b => (getmtime (join source_dir a)
                           <= getmtime (join source_dir b))%Z)
              valid_dir_list).
Proof.
  intros outcome. unfold outcome, LocalOps.get_local_backup_list. split.
  - intros ->. reflexivity.
  - intros valid_dir_list.
    destruct (Fsys.os_path_exists root source_dir); [|discriminate].
    cbn [negb].
    destruct (FsysLists.os_listdir root source_dir) as [customer_tags|];
      [|discriminate].
    destruct (LocalOps.valid_dirs glob json_load root customer_name source_dir
                customer_tags) as [l|e] eqn:Hv; [|discriminate].
    cbn [bind]. intros H. inversion H; subst. clear H. split.
    + intros tag Hin.
      apply (Permutation_in _ (sort_by_perm _ l)) in Hin.
      destruct (valid_dirs_are_flagged _ _ _ _ _ _ Hv tag Hin)
        as (H1 & H2 & H3).
      split; [exists customer_tags; auto|]. split; [exact H2|].
      destruct (valid_backup_flag_file _ _ _ _ _ H3) as (_ & _ & _ & H4).
      exact H4.
    + apply (sort_by_sorted (fun s => getmtime (join source_dir s))).
Qed.

Section BackupFolders.
Variable root : Fsys.fs.
Variable backup_path : string.

(** the folders of the structure are the entries that are no regular
    files *)
Lemma backup_structure_folders (items : list string) (name : string) :
  In name (snd (Validation.backup_structure root backup_path items))
  <-> In name items
      /\ FsysLists.os_path_isfile root (join backup_path name) = false.
Proof.
  induction items as [|item items IH]; simpl; [tauto|].
  destruct (Validation.backup_structure root backup_path items)
    as [files folders].
  simpl in IH.
  destruct (FsysLists.os_path_isfile root (join backup_path item)) eqn:Hf;
    simpl; rewrite IH.
  - split.
    + intros [H1 H2]; auto.
    + intros [[->|H1] H2]; [congruence | auto].
  - split.
    + intros [->|[H1 H2]]; auto.
    + intros [[->|H1] H2]; auto.
Qed.

End BackupFolders.

Section ValidVolumes.
Variable glob : Fsys.fs -> string -> list string.
Variable json_load : string -> res pyobj.
Variable root : Fsys.fs.
Variable backup_path : string.

Lemma volumes_valid_all (folders : list string) :
  Validation.volumes_valid glob json_load root backup_path folders = Ok true ->
  forall volume_folder,
    In volume_folder folders ->
    Validation.validate_volume_metadata glob json_load root
      (join backup_path volume_folder) = Ok true.
Proof.
  induction folders as [|f folders IH]; intros H volume_folder Hin;
    [contradiction|].
  cbn [Validation.volumes_valid] in H.
  destruct (Validation.validate_volume_metadata glob json_load root
              (join backup_path f)) as [[|]|e] eqn:Hv;
    cbn [bind negb] in H; try discriminate.
  destruct Hin as [<-|Hin]; [exact Hv | apply IH; assumption].
Qed.

(** what a volume that passes [validate_volume_metadata] holds *)
Lemma valid_volume_holds_metadata (volume_path : string) :
  Validation.validate_volume_metadata glob json_load root volume_path
  = Ok true ->
  FsysLists.is_dir root volume_path = true
  /\ exists volume_list metadata_file_name metadata_json,
       FsysLists.os_listdir root volume_path = Some volume_list
       /\ volume_list <> []
       /\ glob root (join volume_path "*_metadata") = [metadata_file_name]
       /\ json_load metadata_file_name = Ok metadata_json
       /\ Validation.validate_metadata_content (Ok volume_list) metadata_json
          = Ok true.
Proof.
  unfold Validation.validate_volume_metadata.
  destruct (FsysLists.is_dir root volume_path); cbn [negb]; [|discriminate].
  destruct (FsysLists.os_listdir root volume_path) as [[|x volume_list]|];
    try discriminate.
  unfold Validation.get_metadata_file_json,
    Validation.get_volume_metadata_file.
  change ("*" ^^ Validation.METADATA_FILE_SUFFIX) with "*_metadata".
  destruct (glob root (join volume_path "*_metadata"))
    as [|metadata_file_name [|y l]]; try discriminate.
  destruct (truthy metadata_file_name); cbn [negb]; [|discriminate].
  destruct (json_load metadata_file_name)
    as [metadata_json|[cls c ps|error]] eqn:Hj; try discriminate.
  - cbn [bind].
    destruct (Validation.py_truthy metadata_json); cbn [negb];
      [|discriminate].
    destruct (Validation.validate_metadata_content (Ok (x :: volume_list))
                metadata_json) as [[|]|e] eqn:Hc; try discriminate.
    intros _. split; [reflexivity|].
    exists (x :: volume_list), metadata_file_name, metadata_json.
    split; [reflexivity|]. split; [discriminate|].
    split; [reflexivity|]. split; [exact Hj | exact Hc].
  - destruct (String.eqb error "ValueError" || String.eqb error "TypeError");
      discriminate.
Qed.

End ValidVolumes.

(** X16.  What a backup that [validate_backup_per_volume] accepts holds,
    for a deployment label other than [genie_vol_bkp]: at least one entry
    that is no regular file, and every such entry is a directory that is
    not empty, in which [glob] finds exactly one [*_metadata] file, which
    [json.load] reads without error, and everything the metadata lists
    under [objects] is a single-key entry naming a file of the directory
    and carrying an [md5] key. *)
Theorem valid_backup_volumes_hold_their_metadata
  (glob : Fsys.fs -> string -> list string) (json_load : string -> res pyobj)
  (root : Fsys.fs) (deployment_label backup_path : string)
  (Hlabel : deployment_label <> Validation.GENIE_VOL_BKPS_DEPLOYMENT)
  (Hvalid : Validation.validate_backup_per_volume glob json_load root
              deployment_label backup_path = Ok true) :
  exists items,
    FsysLists.os_listdir root backup_path = Some items
    /\ (exists item,
           In item items
           /\ FsysLists.os_path_isfile root (join backup_path item) = false)
    /\ forall item,
         In item items ->
         FsysLists.os_path_isfile root (join backup_path item) = false ->
         let volume_path := join backup_path item in
         FsysLists.is_dir root volume_path = true
         /\ exists volume_list metadata_file_name metadata_json,
              FsysLists.os_listdir root volume_path = Some volume_list
              /\ volume_list <> []
              /\ glob root (join volume_path "*_metadata")
                 = [metadata_file_name]
              /\ json_load metadata_file_name = Ok metadata_json
              /\ Validation.validate_metadata_content (Ok volume_list)
                   metadata_json = Ok true.
Proof.
  unfold Validation.validate_backup_per_volume in Hvalid.
  destruct (FsysLists.os_listdir root backup_path) as [items|];
    [|discriminate].
  exists items. split; [reflexivity|].
  pose proof (backup_structure_folders root backup_path items) as Hfolders.
  destruct (Validation.backup_structure root backup_path items)
    as [files folders].
  simpl in Hfolders.
  destruct (Validation.is_backup_ok_valid files); cbn [negb] in Hvalid;
    [|discriminate].
  apply String.eqb_neq in Hlabel. rewrite Hlabel in Hvalid.
  unfold Validation.is_backup_volume_valid in Hvalid.
  destruct (Fsys.os_path_exists root backup_path); cbn [negb bind] in Hvalid;
    [|discriminate].
  destruct folders as [|f folders]; [discriminate|].
  destruct (Validation.volumes_valid glob json_load root backup_path
              (f :: folders)) as [[|]|e] eqn:Hv;
    cbn [negb bind] in Hvalid; try discriminate.
  split.
  - exists f. apply Hfolders. left. reflexivity.
  - intros item Hin Hfile volume_path.
    apply valid_volume_holds_metadata.
    apply (volumes_valid_all _ _ _ _ _ Hv). apply Hfolders. auto.
Qed.

Lemma valid_backup_volumes_hold_their_metadata_witness :
  exists items,
    FsysLists.os_listdir nfs nfs_backup = Some items
    /\ (exists item,
           In item items
           /\ FsysLists.os_path_isfile nfs (join nfs_backup item) = false)
    /\ forall item,
         In item items ->
         FsysLists.os_path_isfile nfs (join nfs_backup item) = false ->
         let volume_path := join nfs_backup item in
         FsysLists.is_dir nfs volume_path = true
         /\ exists volume_list metadata_file_name metadata_json,
              FsysLists.os_listdir nfs volume_path = Some volume_list
              /\ volume_list <> []
              /\ nfs_glob nfs (join volume_path "*_metadata")
                 = [metadata_file_name]
              /\ nfs_json_load metadata_file_name = Ok metadata_json
              /\ Validation.validate_metadata_content (Ok volume_list)
                   metadata_json = Ok true.
Proof.
  apply (@valid_backup_volumes_hold_their_metadata nfs_glob nfs_json_load nfs
           "customer0" nfs_backup).
  - vm_compute. discriminate.
  - vm_compute. reflexivity.
Defined.

Section CleanLocal.

Lemma remove_path_failure_stays (path : string) (root : Fsys.fs) :
  fst (Fsys.remove_path path root) = false ->
  Fsys.os_path_exists (snd (Fsys.remove_path path root)) path = true.
Proof.
  intros Hfail.
  destruct (Fsys.os_path_exists root path) eqn:He.
  - rewrite (remove_path_of_existing _ _ He) in *.
    unfold Fsys.remove_tree_or_file in *.
    unfold Fsys.os_path_exists, Fsys.resolve in *.
    destruct (truthy path) eqn:Hp; [|discriminate].
    destruct (Fsys.rm_at false root (Fsys.components path))
      as [ok [root'|]] eqn:Hr; simpl in *.
    + subst ok.
      destruct (Fsys.lookup root (Fsys.components path)) eqn:Hl;
        [|discriminate].
      destruct (@rm_at_failure (Fsys.components path) false root root')
        as [Hl' _]; [congruence | exact Hr |].
      destruct (Fsys.lookup root' (Fsys.components path)); congruence.
    + exact He.
  - unfold Fsys.remove_path in Hfail. rewrite He in Hfail. discriminate.
Qed.

End CleanLocal.

(** X17.  [clean_local_backup] never removes the last backup.  It counts
    the entries of the customer's folder that are no regular files; with
    one of them or none it answers [False] and leaves the file system as
    it is.  It answers [True] only with two or more, and then the path it
    was given no longer exists; when it answers [False] with two or more,
    the removal failed and the path is still there. *)
Theorem clean_local_backup_keeps_the_last_backup
  (backup_path customer_backup_path : string) (root : Fsys.fs)
  (entries : list string)
  (Hwf : Fsys.well_formed root = true)
  (Hentries : FsysLists.os_listdir root backup_path = Some entries) :
  let number_backup_dir :=
    List.length
      (filter (fun backup_dir =>
                 negb (FsysLists.os_path_isfile root
                         (join backup_path backup_dir))) entries) in
  let outcome :=
    fst (LocalOps.clean_local_backup backup_path customer_backup_path root) in
  let root' :=
    snd (LocalOps.clean_local_backup backup_path customer_backup_path root) in
  (number_backup_dir <= 1 ->
   outcome = Ok (false, "Backup '" ^^ customer_backup_path
                          ^^ "' NOT removed. Just 1 backup found.")
   /\ root' = root)
  /\ (1 < number_backup_dir ->
      exists removed message,
        outcome = Ok (removed, message)
        /\ Fsys.os_path_exists root' customer_backup_path = negb removed).
Proof.
  intros number_backup_dir outcome root'.
  unfold outcome, root', number_backup_dir, LocalOps.clean_local_backup.
  rewrite Hentries. cbv zeta.
  set (n := List.length _).
  unfold LocalOps.MIN_BKP_LOCAL.
  destruct (Nat.ltb_spec 1 n) as [Hn|Hn].
  - split; [lia|]. intros _.
    pose proof (@remove_path_success_gone customer_backup_path root Hwf)
      as Hgone.
    pose proof (@remove_path_failure_stays customer_backup_path root)
      as Hstays.
    destruct (Fsys.remove_path customer_backup_path root) as [[|] r];
      simpl in *.
    + do 2 eexists. split; [reflexivity | auto].
    + do 2 eexists. split; [reflexivity | auto].
  - split; [|lia]. intros _. split; reflexivity.
Qed.

Lemma clean_local_backup_keeps_the_last_backup_witness :
  let number_backup_dir :=
    List.length
      (filter (fun backup_dir =>
                 negb (FsysLists.os_path_isfile nfs
                         (join nfs_customer backup_dir)))
              ["2018-08-23"; "2018-08-24"; "notes.txt"]) in
  let outcome :=
    fst (LocalOps.clean_local_backup nfs_customer nfs_backup nfs) in
  let root' :=
    snd (LocalOps.clean_local_backup nfs_customer nfs_backup nfs) in
  (number_backup_dir <= 1 ->
   outcome = Ok (false, "Backup '" ^^ nfs_backup
                          ^^ "' NOT removed. Just 1 backup found.")
   /\ root' = nfs)
  /\ (1 < number_backup_dir ->
      exists removed message,
        outcome = Ok (removed, message)
        /\ Fsys.os_path_exists root' nfs_backup = negb removed).
Proof.
  apply (@clean_local_backup_keeps_the_last_backup nfs_customer nfs_backup
           nfs ["2018-08-23"; "2018-08-24"; "notes.txt"]).
  - vm_compute. reflexivity.
  - vm_compute. reflexivity.
Defined.

(** the backup that is removed on [nfs], and the one that is kept when it
    is the only one left *)
Example clean_local_backup_on_nfs :
  fst (LocalOps.clean_local_backup nfs_customer nfs_backup nfs)
  = Ok (true, "Backup '/data/customer0/2018-08-23' removed successfully.")
  /\ LocalOps.get_local_backup_list nfs_glob nfs_json_load nfs_getmtime nfs
       "customer0" nfs_customer
     = Ok (Some ["2018-08-23"])
  /\ fst (LocalOps.clean_local_backup nfs_customer
            "/data/customer0/2018-08-24"
            (snd (LocalOps.clean_local_backup nfs_customer nfs_backup nfs)))
     = Ok (false, "Backup '/data/customer0/2018-08-24' NOT removed. Just 1 backup found.").
Proof. vm_compute. repeat split. Qed.

(* ================================================================== *)
(** * utils/fsys.py: what a removal and a creation leave alone *)
(* ================================================================== *)

Section RemovalShrinks.

Lemma find_entry_in_names (c : string) (m : Fsys.node)
  (es : list (string * Fsys.node)) :
  Fsys.find_entry c es = Some m ->
  existsb (String.eqb c) (map fst es) = true.
Proof.
  intros H. destruct (existsb (String.eqb c) (map fst es)) eqn:E;
    [reflexivity|].
  rewrite (existsb_find_entry _ _ E) in H. discriminate.
Qed.

Lemma find_entry_replace_other (c c2 : string) (r : option Fsys.node)
  (es : list (string * Fsys.node)) :
  c2 <> c ->
  Fsys.find_entry c2 (Fsys.replace_entry c r es) = Fsys.find_entry c2 es.
Proof.
  intros Hne. induction es as [|[n m] es IH]; simpl; [reflexivity|].
  destruct (String.eqb_spec n c) as [->|Hn].
  - destruct (String.eqb_spec c c2) as [E|E]; [congruence|].
    destruct r; simpl.
    + destruct (String.eqb_spec c c2); [congruence | reflexivity].
    + reflexivity.
  - simpl. now rewrite IH.
Qed.

Lemma replace_entry_names (f : string -> bool) (c : string)
  (r : option Fsys.node) (es : list (string * Fsys.node)) :
  existsb f (map fst (Fsys.replace_entry c r es)) = true ->
  existsb f (map fst es) = true.
Proof.
  induction es as [|[n m] es IH]; simpl; [auto|].
  destruct (String.eqb n c).
  - destruct r; simpl; [auto|]. intros ->. apply orb_true_r.
  - simpl. intros H. apply orb_prop in H. destruct H as [H|H].
    + now rewrite H.
    + rewrite (IH H). apply orb_true_r.
Qed.

Lemma replace_entry_well_formed (c : string) (r : option Fsys.node)
  (es : list (string * Fsys.node)) :
  match r with Some x => Fsys.well_formed x = true | None => True end ->
  Fsys.names_unique (map fst es) = true ->
  forallb (fun e => Fsys.well_formed (snd e)) es = true ->
  Fsys.names_unique (map fst (Fsys.replace_entry c r es)) = true
  /\ forallb (fun e => Fsys.well_formed (snd e)) (Fsys.replace_entry c r es)
     = true.
Proof.
  intros Hr. induction es as [|[n m] es IH]; simpl; [auto|].
  intros Hu Hall.
  apply andb_prop in Hu. destruct Hu as [Hn Hu].
  apply andb_prop in Hall. destruct Hall as [Hm Hall].
  destruct (String.eqb n c).
  - destruct r; simpl; [|auto].
    rewrite Hn, Hu, Hr, Hall. auto.
  - simpl. destruct (IH Hu Hall) as [Hu' Hall']. rewrite Hu', Hall', Hm.
    split; [|reflexivity]. rewrite andb_true_r.
    apply negb_true_iff. apply negb_true_iff in Hn.
    destruct (existsb (String.eqb n)
                (map fst (Fsys.replace_entry c r es))) eqn:E;
      [|reflexivity].
    apply replace_entry_names in E. congruence.
Qed.

Lemma rm_list_shrinks (rm : Fsys.node -> option Fsys.node)
  (es : list (string * Fsys.node)) :
  Forall (fun e =>
            forall n', rm (snd e) = Some n' ->
                       Fsys.well_formed n' = true
                       /\ forall q, Fsys.lookup n' q <> None ->
                                    Fsys.lookup (snd e) q <> None) es ->
  Fsys.names_unique (map fst es) = true ->
  forallb (fun e => Fsys.well_formed (snd e)) es = true ->
  forall es',
    Fsys.rm_list rm es = (false, es') ->
    Fsys.names_unique (map fst es') = true
    /\ forallb (fun e => Fsys.well_formed (snd e)) es' = true
    /\ forall c m',
         Fsys.find_entry c es' = Some m' ->
         exists m, Fsys.find_entry c es = Some m
                   /\ forall q, Fsys.lookup m' q <> None ->
                                Fsys.lookup m q <> None.
Proof.
  induction es as [|[name child] es IH]; simpl; intros Hrm Hu Hall es' H;
    [discriminate|].
  inversion Hrm as [|? ? Hchild Hrest]; subst. simpl in Hchild.
  apply andb_prop in Hu. destruct Hu as [Hname Hu].
  apply andb_prop in Hall. destruct Hall as [Hwf Hall].
  destruct (rm child) as [child'|] eqn:Hc.
  - inversion H; subst. clear H.
    destruct (Hchild _ eq_refl) as [Hwf' Hsh]. simpl.
    rewrite Hname, Hu, Hwf', Hall. split; [reflexivity|].
    split; [reflexivity|].
    intros c m'. destruct (String.eqb name c).
    + intros E. inversion E; subst. exists child. auto.
    + intros E. exists m'. auto.
  - destruct (IH Hrest Hu Hall _ H) as (Hu' & Hall' & Hfind).
    split; [exact Hu'|]. split; [exact Hall'|].
    intros c m' E. destruct (Hfind _ _ E) as (m & Hm & Hsh).
    exists m. split; [|exact Hsh].
    destruct (String.eqb_spec name c) as [->|Hne]; [|exact Hm].
    apply find_entry_in_names in Hm. apply negb_true_iff in Hname.
    congruence.
Qed.

Lemma rm_node_shrinks (n : Fsys.node) :
  forall parent_w n',
    Fsys.well_formed n = true ->
    Fsys.rm_node parent_w n = Some n' ->
    Fsys.well_formed n' = true
    /\ forall q, Fsys.lookup n' q <> None -> Fsys.lookup n q <> None.
Proof.
  induction n as [|w es IH] using node_induction; intros parent_w n' Hwf H.
  - simpl in H. destruct parent_w; [discriminate|].
    inversion H; subst. auto.
  - simpl in H. simpl in Hwf. apply andb_prop in Hwf.
    destruct Hwf as [Hu Hall].
    destruct (Fsys.rm_list (Fsys.rm_node w) es) as [[|] es'] eqn:Hl.
    + destruct parent_w; [discriminate|]. inversion H; subst.
      split; [reflexivity|].
      intros [|c q]; simpl; congruence.
    + inversion H; subst. clear H.
      assert (Hrm : Forall
                (fun e =>
                   forall n', Fsys.rm_node w (snd e) = Some n' ->
                              Fsys.well_formed n' = true
                              /\ forall q, Fsys.lookup n' q <> None ->
                                           Fsys.lookup (snd e) q <> None) es).
      { rewrite Forall_forall in IH. apply Forall_forall. intros e He n' Hn.
        apply (IH e He w n'); [|exact Hn].
        rewrite forallb_forall in Hall. apply Hall, He. }
      destruct (@rm_list_shrinks _ _ Hrm Hu Hall _ Hl) as (Hu' & Hall' & Hfind).
      split; [simpl; now rewrite Hu', Hall'|].
      intros [|c q]; simpl; [congruence|].
      destruct (Fsys.find_entry c es') as [m'|] eqn:Hf; [|congruence].
      destruct (Hfind _ _ Hf) as (m & Hm & Hsh). rewrite Hm. apply Hsh.
Qed.

Lemma rm_at_shrinks (p : list string) :
  forall parent_w n ok n',
    Fsys.well_formed n = true ->
    Fsys.rm_at parent_w n p = (ok, Some n') ->
    Fsys.well_formed n' = true
    /\ forall q, Fsys.lookup n' q <> None -> Fsys.lookup n q <> None.
Proof.
  induction p as [|c p IH]; simpl; intros parent_w n ok n' Hwf H.
  - destruct (Fsys.rm_node parent_w n) as [x|] eqn:Hn; inversion H; subst.
    eapply rm_node_shrinks; eassumption.
  - destruct n as [|w es]; [inversion H; subst; auto|].
    destruct (Fsys.find_entry c es) as [m|] eqn:Hf;
      [|inversion H; subst; auto].
    destruct (Fsys.rm_at w m p) as [ok' r] eqn:Hr.
    inversion H; subst. clear H.
    simpl in Hwf. apply andb_prop in Hwf. destruct Hwf as [Hu Hall].
    pose proof (find_entry_well_formed _ _ Hall Hf) as Hm.
    assert (Hr' : match r with
                  | Some x =>
                      Fsys.well_formed x = true
                      /\ forall q, Fsys.lookup x q <> None ->
                                   Fsys.lookup m q <> None
                  | None => True
                  end).
    { destruct r as [x|]; [|exact I]. eapply IH; eassumption. }
    assert (Hrw : match r with
                  | Some x => Fsys.well_formed x = true
                  | None => True
                  end) by (destruct r; [apply Hr' | exact I]).
    destruct (replace_entry_well_formed c r es Hrw Hu Hall) as [Hu' Hall'].
    split; [simpl; now rewrite Hu', Hall'|].
    intros [|c2 q]; simpl; [congruence|].
    destruct (String.eqb_spec c2 c) as [->|Hne].
    + destruct r as [x|].
      * rewrite find_entry_replace_some by congruence.
        rewrite Hf. apply Hr'.
      * rewrite find_entry_replace_none by exact Hu. congruence.
    + rewrite find_entry_replace_other by exact Hne. auto.
Qed.

(** [remove_path] only removes: the tree stays well formed, and a path
    that names something afterwards named something before *)
Lemma remove_path_shrinks (path : string) (root : Fsys.fs) :
  Fsys.well_formed root = true ->
  Fsys.well_formed (snd (Fsys.remove_path path root)) = true
  /\ forall q, Fsys.lookup (snd (Fsys.remove_path path root)) q <> None ->
               Fsys.lookup root q <> None.
Proof.
  intros Hwf.
  assert (Htree :
            Fsys.well_formed (snd (Fsys.remove_tree_or_file root path)) = true
            /\ forall q,
                 Fsys.lookup (snd (Fsys.remove_tree_or_file root path)) q
                 <> None -> Fsys.lookup root q <> None).
  { unfold Fsys.remove_tree_or_file.
    destruct (Fsys.rm_at false root (Fsys.components path))
      as [ok [root'|]] eqn:Hr; simpl; [|auto].
    eapply rm_at_shrinks; eassumption. }
  unfold Fsys.remove_path, Fsys.shutil_rmtree, Fsys.os_remove.
  destruct (Fsys.os_path_exists root path); simpl; [|auto].
  destruct (Fsys.os_path_isdir root path);
    destruct (Fsys.remove_tree_or_file root path) as [[|] r]; simpl in *;
    auto.
Qed.

Lemma exists_of_lookup (root root' : Fsys.fs) :
  (forall q, Fsys.lookup root' q <> None -> Fsys.lookup root q <> None) ->
  forall path,
    Fsys.os_path_exists root' path = true ->
    Fsys.os_path_exists root path = true.
Proof.
  intros Hsh path. unfold Fsys.os_path_exists, Fsys.resolve.
  destruct (truthy path); [|discriminate].
  specialize (Hsh (Fsys.components path)).
  destruct (Fsys.lookup root' (Fsys.components path)); [|discriminate].
  intros _. destruct (Fsys.lookup root (Fsys.components path));
    [reflexivity|]. exfalso. apply Hsh; congruence.
Qed.

Lemma find_entry_app_some (c : string) (m : Fsys.node)
  (es l : list (string * Fsys.node)) :
  Fsys.find_entry c es = Some m -> Fsys.find_entry c (es ++ l) = Some m.
Proof.
  induction es as [|[n x] es IH]; simpl; [discriminate|].
  destruct (String.eqb n c); auto.
Qed.

(** [os.makedirs] only adds *)
Lemma mk_at_grows (p : list string) :
  forall n n',
    Fsys.mk_at n p = Some n' ->
    forall q, Fsys.lookup n q <> None -> Fsys.lookup n' q <> None.
Proof.
  induction p as [|c p IH]; simpl; intros n n' H; [discriminate|].
  destruct n as [|w es]; [discriminate|].
  destruct (Fsys.find_entry c es) as [m|] eqn:Hf.
  - destruct (Fsys.mk_at m p) as [m'|] eqn:Hm; [|discriminate].
    inversion H; subst. clear H.
    intros [|c2 q]; simpl; [congruence|].
    destruct (String.eqb_spec c2 c) as [->|Hne].
    + rewrite find_entry_replace_some by congruence. rewrite Hf.
      eapply IH, Hm.
    + rewrite find_entry_replace_other by exact Hne. auto.
  - destruct w; [|discriminate]. inversion H; subst. clear H.
    intros [|c2 q]; simpl; [congruence|].
    destruct (Fsys.find_entry c2 es) as [m|] eqn:Hf2; [|congruence].
    now rewrite (find_entry_app_some _ _ _ Hf2).
Qed.

Lemma create_path_grows (path : string) (root : Fsys.fs) :
  forall q,
    Fsys.os_path_exists root q = true ->
    Fsys.os_path_exists (snd (Fsys.create_path path root)) q = true.
Proof.
  intros q. unfold Fsys.create_path.
  destruct (Fsys.os_path_exists root path); [auto|].
  unfold Fsys.os_makedirs.
  destruct (truthy path); [|auto].
  destruct (Fsys.mk_at root (Fsys.components path)) as [root'|] eqn:Hm;
    [|auto].
  simpl. apply exists_of_lookup. eapply mk_at_grows, Hm.
Qed.

End RemovalShrinks.

(** X18.  [remove_path] only removes and [create_path] only adds.  On a
    file system whose directories list no name twice, whatever path exists
    after [remove_path], whether it reported success or not, existed
    before, and the directories still list no name twice.  Whatever path
    exists before [create_path] exists after it, whether it reported
    success or not. *)
Theorem remove_only_removes_and_create_only_adds
  (root : Fsys.fs) (path : string)
  (Hwf : Fsys.well_formed root = true) :
  let removed := snd (Fsys.remove_path path root) in
  let created := snd (Fsys.create_path path root) in
  Fsys.well_formed removed = true
  /\ (forall other,
         Fsys.os_path_exists removed other = true ->
         Fsys.os_path_exists root other = true)
  /\ (forall other,
         Fsys.os_path_exists root other = true ->
         Fsys.os_path_exists created other = true).
Proof.
  intros removed created.
  destruct (@remove_path_shrinks path root Hwf) as [Hwf' Hsh].
  split; [exact Hwf'|]. split.
  - apply exists_of_lookup. exact Hsh.
  - apply create_path_grows.
Qed.

Lemma remove_only_removes_and_create_only_adds_witness :
  let removed := snd (Fsys.remove_path nfs_backup nfs) in
  let created := snd (Fsys.create_path "/data/customer1/tmp" nfs) in
  Fsys.well_formed removed = true
  /\ (forall other,
         Fsys.os_path_exists removed other = true ->
         Fsys.os_path_exists nfs other = true)
  /\ (forall other,
         Fsys.os_path_exists nfs other = true ->
         Fsys.os_path_exists created other = true).
Proof.
  pose proof (@remove_only_removes_and_create_only_adds nfs nfs_backup) as Hr.
  pose proof (@remove_only_removes_and_create_only_adds nfs
                "/data/customer1/tmp") as Hc.
  cbv zeta in *.
  destruct Hr as (H1 & H2 & _); [vm_compute; reflexivity|].
  destruct Hc as (_ & _ & H3); [vm_compute; reflexivity|].
  split; [exact H1|]. split; [exact H2 | exact H3].
Defined.

(* ================================================================== *)
(** * offsite_backup_handler.py: which volumes a download asks for *)
(* ================================================================== *)

Section DownloadCheck.
Variable glob : Fsys.fs -> string -> list string.
Variable json_load : string -> res pyobj.
Variable download_backup_path : string.

Lemma check_is_processed_volume_shrinks (root : Fsys.fs)
  (volume_path : string) :
  Fsys.well_formed root = true ->
  Fsys.well_formed
    (snd (Validation.check_is_processed_volume glob json_load root
            volume_path)) = true
  /\ forall q,
       Fsys.lookup
         (snd (Validation.check_is_processed_volume glob json_load root
                 volume_path)) q <> None ->
       Fsys.lookup root q <> None.
Proof.
  intros Hwf. unfold Validation.check_is_processed_volume.
  destruct (negb (Fsys.os_path_exists root volume_path)); [simpl; auto|].
  destruct (Validation.validate_volume_metadata glob json_load root
              volume_path) as [[|]|e]; simpl; auto.
  apply remove_path_shrinks, Hwf.
Qed.

Lemma check_volume_step (st : Download.check_state) (item : pyobj) :
  Fsys.well_formed (Download.local_fs st) = true ->
  let st' :=
    snd (Download.check_volume glob json_load download_backup_path st item) in
  Fsys.well_formed (Download.local_fs st') = true
  /\ (forall q, Fsys.lookup (Download.local_fs st') q <> None ->
                Fsys.lookup (Download.local_fs st) q <> None)
  /\ Download.backup_output_dict (Download.pools st')
     = Download.backup_output_dict (Download.pools st)
  /\ exists more tasks,
       Download.missing_volume_list st'
       = Download.missing_volume_list st ++ more
       /\ Download.process_pool (Download.pools st')
          = Download.process_pool (Download.pools st) ++ tasks
       /\ List.length more + List.length tasks <= 1
       /\ Forall (fun archive =>
                    exists volume_name,
                      item = PyStr volume_name
                      /\ archive = volume_name ^^ ".tar"
                      /\ Fsys.os_path_exists (Download.local_fs st')
                           (join download_backup_path archive) = false) more
       /\ Forall (fun task =>
                    exists volume_name,
                      item = PyStr volume_name
                      /\ task
                         = {| Download.task_archived_volume_name :=
                                volume_name ^^ ".tar";
                              Download.task_backup_destination_path :=
                                download_backup_path;
                              Download.task_volume_output :=
                                {| Download.vo_status := true;
                                   Download.vo_rsync_output := None;
                                   Download.vo_output := None |} |})
                 tasks.
Proof.
  intros Hwf st'. subst st'.
  assert (Hnothing :
    forall st1, st1 = st ->
      Fsys.well_formed (Download.local_fs st1) = true
      /\ (forall q, Fsys.lookup (Download.local_fs st1) q <> None ->
                    Fsys.lookup (Download.local_fs st) q <> None)
      /\ Download.backup_output_dict (Download.pools st1)
         = Download.backup_output_dict (Download.pools st)
      /\ exists more tasks,
           Download.missing_volume_list st1
           = Download.missing_volume_list st ++ more
           /\ Download.process_pool (Download.pools st1)
              = Download.process_pool (Download.pools st) ++ tasks
           /\ List.length more + List.length tasks <= 1
           /\ Forall (fun archive =>
                        exists volume_name,
                          item = PyStr volume_name
                          /\ archive = volume_name ^^ ".tar"
                          /\ Fsys.os_path_exists (Download.local_fs st1)
                               (join download_backup_path archive) = false)
                     more
           /\ Forall (fun task =>
                        exists volume_name,
                          item = PyStr volume_name
                          /\ task
                             = {| Download.task_archived_volume_name :=
                                    volume_name ^^ ".tar";
                                  Download.task_backup_destination_path :=
                                    download_backup_path;
                                  Download.task_volume_output :=
                                    {| Download.vo_status := true;
                                       Download.vo_rsync_output := None;
                                       Download.vo_output := None |} |})
                     tasks).
  { intros st1 ->. split; [exact Hwf|]. split; [auto|].
    split; [reflexivity|]. exists [], [].
    rewrite !app_nil_r. repeat split; auto. }
  destruct item as [| | |volume_name| | |]; try (apply Hnothing; reflexivity).
  clear Hnothing. unfold Download.check_volume.
  destruct (@check_is_processed_volume_shrinks (Download.local_fs st)
              (join download_backup_path volume_name) Hwf) as [Hwf1 Hsh].
  destruct (Validation.check_is_processed_volume glob json_load
              (Download.local_fs st)
              (join download_backup_path volume_name)) as [processed fs1].
  simpl in Hwf1, Hsh.
  change (volume_name ^^ "." ^^ Compress.TAR_SUFFIX)
    with (volume_name ^^ ".tar").
  destruct processed as [[|]|e]; simpl.
  - split; [exact Hwf1|]. split; [exact Hsh|]. split; [reflexivity|].
    exists [], []. rewrite !app_nil_r. repeat split; auto.
  - destruct (Fsys.os_path_exists fs1
                (join download_backup_path (volume_name ^^ ".tar")))
      eqn:Harchive; simpl.
    + split; [exact Hwf1|]. split; [exact Hsh|]. split; [reflexivity|].
      exists []. eexists [_]. rewrite app_nil_r.
      split; [reflexivity|]. split; [reflexivity|]. split; [simpl; lia|].
      split; [constructor|].
      constructor; [|constructor]. exists volume_name. auto.
    + split; [exact Hwf1|]. split; [exact Hsh|]. split; [reflexivity|].
      exists [volume_name ^^ ".tar"], []. rewrite app_nil_r.
      split; [reflexivity|]. split; [reflexivity|]. split; [simpl; lia|].
      split; [|constructor].
      constructor; [|constructor]. exists volume_name. auto.
  - split; [exact Hwf1|]. split; [exact Hsh|]. split; [reflexivity|].
    exists [], []. rewrite !app_nil_r. repeat split; auto.
Qed.

Lemma check_volumes_steps (items : list pyobj) :
  forall st,
    Fsys.well_formed (Download.local_fs st) = true ->
    let st' :=
      snd (Download.check_volumes glob json_load download_backup_path st
             items) in
    Fsys.well_formed (Download.local_fs st') = true
    /\ (forall q, Fsys.lookup (Download.local_fs st') q <> None ->
                  Fsys.lookup (Download.local_fs st) q <> None)
    /\ Download.backup_output_dict (Download.pools st')
       = Download.backup_output_dict (Download.pools st)
    /\ exists more tasks,
         Download.missing_volume_list st'
         = Download.missing_volume_list st ++ more
         /\ Download.process_pool (Download.pools st')
            = Download.process_pool (Download.pools st) ++ tasks
         /\ List.length more + List.length tasks <= List.length items
         /\ Forall (fun archive =>
                      exists volume_name,
                        In (PyStr volume_name) items
                        /\ archive = volume_name ^^ ".tar"
                        /\ Fsys.os_path_exists (Download.local_fs st')
                             (join download_backup_path archive) = false)
                   more
         /\ Forall (fun task =>
                      exists volume_name,
                        In (PyStr volume_name) items
                        /\ task
                           = {| Download.task_archived_volume_name :=
                                  volume_name ^^ ".tar";
                                Download.task_backup_destination_path :=
                                  download_backup_path;
                                Download.task_volume_output :=
                                  {| Download.vo_status := true;
                                     Download.vo_rsync_output := None;
                                     Download.vo_output := None |} |})
                   tasks.
Proof.
  induction items as [|item items IH]; intros st Hwf.
  - simpl. split; [exact Hwf|]. split; [auto|]. split; [reflexivity|].
    exists [], []. rewrite !app_nil_r. repeat split; auto.
  - cbn [Download.check_volumes].
    destruct (@check_volume_step st item Hwf)
      as (Hwf1 & Hsh1 & Hd1 & more1 & tasks1 & Hm1 & Hp1 & Hl1 & Ha1 & Ht1).
    destruct (Download.check_volume glob json_load download_backup_path st
                item) as [outcome st1].
    simpl in Hwf1, Hsh1, Hd1, Hm1, Hp1, Ha1.
    assert (Ha1' : Forall (fun archive =>
                      exists volume_name,
                        In (PyStr volume_name) (item :: items)
                        /\ archive = volume_name ^^ ".tar"
                        /\ Fsys.os_path_exists (Download.local_fs st1)
                             (join download_backup_path archive) = false)
                   more1).
    { eapply Forall_impl; [|exact Ha1]. simpl.
      intros a (n & E & H1 & H2). exists n. auto. }
    assert (Ht1' : Forall (fun task =>
                      exists volume_name,
                        In (PyStr volume_name) (item :: items)
                        /\ task
                           = {| Download.task_archived_volume_name :=
                                  volume_name ^^ ".tar";
                                Download.task_backup_destination_path :=
                                  download_backup_path;
                                Download.task_volume_output :=
                                  {| Download.vo_status := true;
                                     Download.vo_rsync_output := None;
                                     Download.vo_output := None |} |})
                   tasks1).
    { eapply Forall_impl; [|exact Ht1]. simpl.
      intros t (n & E & H1). exists n. auto. }
    destruct outcome as [u|e].
    + destruct (IH st1 Hwf1)
        as (Hwf2 & Hsh2 & Hd2 & more2 & tasks2 & Hm2 & Hp2 & Hl2 & Ha2 & Ht2).
      split; [exact Hwf2|]. split; [auto|]. split; [congruence|].
      exists (more1 ++ more2), (tasks1 ++ tasks2).
      split; [rewrite Hm2, Hm1; symmetry; apply app_assoc|].
      split; [rewrite Hp2, Hp1; symmetry; apply app_assoc|].
      split; [rewrite !length_app; simpl; lia|].
      split; apply Forall_app; split.
      * eapply Forall_impl; [|exact Ha1']. simpl.
        intros a (n & E & H1 & H2). exists n. split; [exact E|].
        split; [exact H1|].
        destruct (Fsys.os_path_exists
                    (Download.local_fs
                       (snd (Download.check_volumes glob json_load
                               download_backup_path st1 items)))
                    (join download_backup_path a)) eqn:Hx; [|reflexivity].
        apply (@exists_of_lookup _ _ Hsh2) in Hx. congruence.
      * eapply Forall_impl; [|exact Ha2]. simpl.
        intros a (n & E & H1 & H2). exists n. auto.
      * exact Ht1'.
      * eapply Forall_impl; [|exact Ht2]. simpl.
        intros t (n & E & H1). exists n. auto.
    + simpl. split; [exact Hwf1|]. split; [exact Hsh1|].
      split; [exact Hd1|]. exists more1, tasks1.
      split; [exact Hm1|]. split; [exact Hp1|]. split; [simpl; lia|].
      split; [exact Ha1' | exact Ht1'].
Qed.

(** when the loop ends without an exception every entry was a string *)
Lemma check_volumes_ok_strings (items : list pyobj) :
  forall st,
    fst (Download.check_volumes glob json_load download_backup_path st items)
    = Ok tt ->
    exists names, items = map PyStr names.
Proof.
  induction items as [|item items IH]; intros st H.
  - exists []. reflexivity.
  - cbn [Download.check_volumes] in H.
    destruct (Download.check_volume glob json_load download_backup_path st
                item) as [[u|e] st1] eqn:Hstep; [|discriminate].
    destruct (IH _ H) as (names & ->).
    destruct item as [| | |volume_name| | |]; try discriminate.
    exists (volume_name :: names). reflexivity.
Qed.

(** on a destination that holds neither the volumes nor their archives
    every volume is reported missing and nothing is touched *)
Lemma check_volumes_fresh (names : list string) :
  forall st,
    (forall volume_name,
        In volume_name names ->
        Fsys.os_path_exists (Download.local_fs st)
          (join download_backup_path volume_name) = false
        /\ Fsys.os_path_exists (Download.local_fs st)
             (join download_backup_path (volume_name ^^ ".tar")) = false) ->
    Download.check_volumes glob json_load download_backup_path st
      (map PyStr names)
    = (Ok tt,
       {| Download.missing_volume_list :=
            Download.missing_volume_list st
            ++ map (fun volume_name => volume_name ^^ ".tar") names;
          Download.local_fs := Download.local_fs st;
          Download.pools := Download.pools st |}).
Proof.
  induction names as [|volume_name names IH]; intros st Hfresh.
  - simpl. rewrite app_nil_r. now destruct st.
  - cbn [map Download.check_volumes]. unfold Download.check_volume.
    destruct (Hfresh volume_name (or_introl eq_refl)) as [Hv Ha].
    unfold Validation.check_is_processed_volume. rewrite Hv. cbn [negb].
    change (volume_name ^^ "." ^^ Compress.TAR_SUFFIX)
      with (volume_name ^^ ".tar").
    rewrite Ha. rewrite IH.
    + simpl. now rewrite <- app_assoc.
    + simpl. intros n Hn. apply Hfresh. right. exact Hn.
Qed.

End DownloadCheck.

(** X19.  What [check_volumes_for_download] returns when it returns, on
    a file system whose directories list no name twice.  The descriptor
    held a list of strings that is not empty, and that list is returned
    as it is.  Every name in the list of missing volumes is [V.tar] for a
    volume [V] of the descriptor, and no such archive exists in the
    destination when the method returns.  Every job handed to the process
    pool is for the archive [V.tar] of a volume of the descriptor, with a
    true status.  There are no more missing volumes and jobs together than
    volumes in the descriptor.  The output dictionary is left alone, and
    the check creates nothing: every path that exists afterwards existed
    before. *)
Theorem download_check_asks_for_absent_archives
  (glob : Fsys.fs -> string -> list string) (json_load : string -> res pyobj)
  (source_remote_dir download_backup_path : string)
  (transfer : res Rsync.RsyncOutput) (loaded : res pyobj) (removed : bool)
  (root root' : Fsys.fs) (h h' : Download.handler)
  (volume_name_list : pyobj) (missing_volume_list : list string)
  (Hwf : Fsys.well_formed root = true)
  (Hreturned :
     Download.check_volumes_for_download glob json_load source_remote_dir
       download_backup_path transfer loaded removed root h
     = (Ok (volume_name_list, missing_volume_list), root', h')) :
  exists names tasks,
    names <> []
    /\ loaded = Ok (PyList (map PyStr names))
    /\ volume_name_list = PyList (map PyStr names)
    /\ Forall (fun archive =>
                 exists volume_name,
                   In volume_name names
                   /\ archive = volume_name ^^ ".tar"
                   /\ Fsys.os_path_exists root'
                        (join download_backup_path archive) = false)
              missing_volume_list
    /\ Download.process_pool h' = Download.process_pool h ++ tasks
    /\ Forall (fun task =>
                 exists volume_name,
                   In volume_name names
                   /\ task
                      = {| Download.task_archived_volume_name :=
                             volume_name ^^ ".tar";
                           Download.task_backup_destination_path :=
                             download_backup_path;
                           Download.task_volume_output :=
                             {| Download.vo_status := true;
                                Download.vo_rsync_output := None;
                                Download.vo_output := None |} |})
              tasks
    /\ List.length missing_volume_list + List.length tasks
       <= List.length names
    /\ Download.backup_output_dict h' = Download.backup_output_dict h
    /\ (forall other,
           Fsys.os_path_exists root' other = true ->
           Fsys.os_path_exists root other = true).
Proof.
  unfold Download.check_volumes_for_download,
    Offsite.retrieve_remote_pickle_file_content in Hreturned.
  destruct transfer as [ro|e]; cbn [bind] in Hreturned; [|discriminate].
  destruct loaded as [content|e]; cbn [bind] in Hreturned; [|discriminate].
  destruct content as [| | | |items| |]; cbn [isinstance_list negb] in Hreturned;
    try discriminate.
  destruct removed; cbn [negb] in Hreturned; [|discriminate].
  destruct items as [|item items]; [discriminate|].
  cbn [Validation.py_truthy negb Validation.iterate] in Hreturned.
  pose proof (@check_volumes_steps glob json_load download_backup_path
                (item :: items)
                {| Download.missing_volume_list := [];
                   Download.local_fs := root; Download.pools := h |} Hwf)
    as Hsteps.
  pose proof (@check_volumes_ok_strings glob json_load download_backup_path
                (item :: items)
                {| Download.missing_volume_list := [];
                   Download.local_fs := root; Download.pools := h |})
    as Hstrings.
  destruct (Download.check_volumes glob json_load download_backup_path
              {| Download.missing_volume_list := [];
                 Download.local_fs := root; Download.pools := h |}
              (item :: items)) as [[[]|e] st]; [|discriminate].
  inversion Hreturned; subst. clear Hreturned.
  destruct (Hstrings eq_refl) as (names & Hnames).
  cbv zeta in Hsteps. simpl in Hsteps.
  destruct Hsteps
    as (_ & Hsh & Hd & more & tasks & Hm & Hp & Hl & Ha & Ht).
  exists names, tasks.
  assert (Hin : forall n, In (PyStr n) (item :: items) -> In n names).
  { intros n. rewrite Hnames, in_map_iff.
    intros (x & E & Hx). inversion E; subst. exact Hx. }
  assert (Hlen : List.length (item :: items) = List.length names)
    by (rewrite Hnames; apply length_map).
  split; [destruct names; [discriminate | discriminate]|].
  split; [now rewrite Hnames|]. split; [now rewrite Hnames|].
  rewrite Hm. split.
  - eapply Forall_impl; [|exact Ha]. simpl.
    intros a (n & E & H1 & H2). exists n. auto.
  - split; [exact Hp|]. split.
    + eapply Forall_impl; [|exact Ht]. simpl.
      intros t (n & E & H1). exists n. auto.
    + split; [simpl in Hlen; lia|]. split; [exact Hd|].
      apply exists_of_lookup. exact Hsh.
Qed.

Lemma download_check_asks_for_absent_archives_witness :
  exists names tasks,
    names <> []
    /\ Ok (PyList (map PyStr restore_volumes))
       = Ok (PyList (map PyStr names))
    /\ PyList (map PyStr restore_volumes) = PyList (map PyStr names)
    /\ Forall (fun archive =>
                 exists volume_name,
                   In volume_name names
                   /\ archive = volume_name ^^ ".tar"
                   /\ Fsys.os_path_exists (snd (fst restore_check))
                        (join restore_path archive) = false)
              ["volume2.tar"; "volume3.tar"]
    /\ Download.process_pool (snd restore_check)
       = Download.process_pool no_jobs ++ tasks
    /\ Forall (fun task =>
                 exists volume_name,
                   In volume_name names
                   /\ task
                      = {| Download.task_archived_volume_name :=
                             volume_name ^^ ".tar";
                           Download.task_backup_destination_path :=
                             restore_path;
                           Download.task_volume_output :=
                             {| Download.vo_status := true;
                                Download.vo_rsync_output := None;
                                Download.vo_output := None |} |})
              tasks
    /\ List.length ["volume2.tar"; "volume3.tar"] + List.length tasks
       <= List.length names
    /\ Download.backup_output_dict (snd restore_check)
       = Download.backup_output_dict no_jobs
    /\ (forall other,
           Fsys.os_path_exists (snd (fst restore_check)) other = true ->
           Fsys.os_path_exists restore_fs other = true).
Proof.
  apply (@download_check_asks_for_absent_archives restore_glob nfs_json_load
           offsite_target restore_path (Ok sample_rsync_output)
           (Ok (PyList (map PyStr restore_volumes))) true restore_fs
           (snd (fst restore_check)) no_jobs (snd restore_check)).
  - vm_compute. reflexivity.
  - vm_compute. reflexivity.
Defined.

(** the interrupted download: [volume0] is left alone, the archive of
    [volume1] goes to the process pool, [volume2] and [volume3] are asked
    for again, and what was left of [volume3] is removed *)
Example check_volumes_for_download_resumes :
  restore_check
  = (Ok (PyList (map PyStr restore_volumes), ["volume2.tar"; "volume3.tar"]),
     Fsys.Dir true
       [("restore",
         Fsys.Dir true
           [("2018-08-23",
             Fsys.Dir true
               [("volume0",
                 Fsys.Dir true
                   [("volume0_metadata", Fsys.File);
                    ("a.tar", Fsys.File)]);
                ("volume1.tar", Fsys.File)])])],
     {| Download.process_pool :=
          [{| Download.task_archived_volume_name := "volume1.tar";
              Download.task_backup_destination_path := restore_path;
              Download.task_volume_output :=
                {| Download.vo_status := true;
                   Download.vo_rsync_output := None;
                   Download.vo_output := None |} |}];
        Download.backup_output_dict := [] |}).
Proof. vm_compute. reflexivity. Qed.

(** X20.  On a destination that holds neither a volume of the descriptor
    nor its archive, [check_volumes_for_download] reports every volume
    missing, as [V.tar] and in the order of the descriptor, touches
    nothing on the file system and hands nothing to the process pool.
    With an empty list in the descriptor it raises a
    [DownloadBackupException] with the code [NoVolumeListForBackup] and
    the path of the descriptor. *)
Theorem fresh_download_asks_for_every_volume
  (glob : Fsys.fs -> string -> list string) (json_load : string -> res pyobj)
  (source_remote_dir download_backup_path : string)
  (rsync_output : Rsync.RsyncOutput) (names : list string)
  (root : Fsys.fs) (h : Download.handler)
  (Hfresh :
     forall volume_name,
       In volume_name names ->
       Fsys.os_path_exists root (join download_backup_path volume_name)
       = false
       /\ Fsys.os_path_exists root
            (join download_backup_path (volume_name ^^ ".tar")) = false) :
  let outcome :=
    Download.check_volumes_for_download glob json_load source_remote_dir
      download_backup_path (Ok rsync_output)
      (Ok (PyList (map PyStr names))) true root h in
  (names <> [] ->
   outcome
   = (Ok (PyList (map PyStr names),
          map (fun volume_name => volume_name ^^ ".tar") names), root, h))
  /\ (names = [] ->
      outcome
      = (Raise (BurException DownloadBackupException NoVolumeListForBackup
                  [PyStr (join source_remote_dir
                            "bur_volume_list_descriptor.dat")]), root, h)).
Proof.
  intros outcome. unfold outcome, Download.check_volumes_for_download,
    Offsite.retrieve_remote_pickle_file_content.
  cbn [bind isinstance_list negb]. split.
  - intros Hne. destruct names as [|n names]; [congruence|].
    cbn [map Validation.py_truthy negb Validation.iterate].
    change (PyStr n :: map PyStr names) with (map PyStr (n :: names)).
    rewrite check_volumes_fresh by exact Hfresh.
    cbn [app]. destruct h. reflexivity.
  - intros ->. reflexivity.
Qed.

Lemma fresh_download_asks_for_every_volume_witness :
  let outcome :=
    Download.check_volumes_for_download nfs_glob nfs_json_load
      offsite_target "/restore/2018-08-24" (Ok sample_rsync_output)
      (Ok (PyList (map PyStr ["volume0"; "volume1"]))) true restore_fs
      no_jobs in
  (["volume0"; "volume1"] <> [] ->
   outcome
   = (Ok (PyList (map PyStr ["volume0"; "volume1"]),
          map (fun volume_name => volume_name ^^ ".tar")
              ["volume0"; "volume1"]), restore_fs, no_jobs))
  /\ (["volume0"; "volume1"] = [] ->
      outcome
      = (Raise (BurException DownloadBackupException NoVolumeListForBackup
                  [PyStr (join offsite_target
                            "bur_volume_list_descriptor.dat")]),
         restore_fs, no_jobs)).
Proof.
  apply (@fresh_download_asks_for_every_volume nfs_glob nfs_json_load
           offsite_target "/restore/2018-08-24" sample_rsync_output
           ["volume0"; "volume1"] restore_fs no_jobs).
  intros volume_name [<-|[<-|[]]]; vm_compute; split; reflexivity.
Defined.

(* ================================================================== *)
(** * local_backup_handler.py: the base paths of an upload *)
(* ================================================================== *)

(** X21.  [validate_create_offsite_onsite_base_paths] creates the remote
    root first and the two on-site paths after it.  When it returns, it
    returns [True], the remote directory was reported available and both
    on-site paths exist.  Otherwise it raises an [UploadBackupException]
    with the code [CannotCreatePath]; when it is the remote directory that
    failed, the on-site file system is as it was.  In every case the peer
    was asked once, for the remote root, and whatever existed on site
    before still exists: the first on-site path stays when the second
    cannot be created. *)
Theorem base_paths_exist_or_cannot_create_path
  (R : Type) (communicate : R -> string -> string -> Remote.ssh_reply * R)
  (host remote_root_path customer_name temp_path temp_customer_root_path
     : string)
  (w : Remote.net R) (root : Fsys.fs) :
  let result :=
    LocalOps.validate_create_offsite_onsite_base_paths communicate host
      remote_root_path customer_name temp_path temp_customer_root_path
      w root in
  let outcome := fst (fst result) in
  let root' := snd result in
  let remote :=
    RemoteDirs.create_remote_dir communicate host remote_root_path w in
  snd (fst result) = snd remote
  /\ (forall other,
         Fsys.os_path_exists root other = true ->
         Fsys.os_path_exists root' other = true)
  /\ (outcome = Ok true ->
      fst remote = true
      /\ Fsys.os_path_exists root' temp_path = true
      /\ Fsys.os_path_exists root' temp_customer_root_path = true)
  /\ (fst remote = false ->
      outcome
      = Raise (BurException UploadBackupException CannotCreatePath
                 [PyStr remote_root_path; PyStr customer_name])
      /\ root' = root)
  /\ (outcome = Ok true
      \/ exists parameters,
           outcome
           = Raise (BurException UploadBackupException CannotCreatePath
                      parameters)).
Proof.
  intros result outcome root' remote.
  unfold outcome, root', result, remote,
    LocalOps.validate_create_offsite_onsite_base_paths.
  destruct (RemoteDirs.create_remote_dir communicate host remote_root_path w)
    as [[|] w1]; cbn [negb fst snd].
  - pose proof (create_path_grows temp_path root) as Hgrow1.
    pose proof (@create_path_true_exists temp_path root) as Hthere1.
    destruct (Fsys.create_path temp_path root) as [[|] root1];
      cbn [negb fst snd] in *.
    + pose proof (create_path_grows temp_customer_root_path root1) as Hgrow2.
      pose proof (@create_path_true_exists temp_customer_root_path root1)
        as Hthere2.
      destruct (Fsys.create_path temp_customer_root_path root1)
        as [[|] root2]; cbn [negb fst snd] in *.
      * split; [reflexivity|]. split; [auto|].
        split; [intros _; split; [reflexivity|]; split;
                [apply Hgrow2; eapply Hthere1; reflexivity
                |eapply Hthere2; reflexivity]|].
        split; [discriminate|]. left. reflexivity.
      * split; [reflexivity|]. split; [auto|].
        split; [discriminate|]. split; [discriminate|].
        right. eexists. reflexivity.
    + split; [reflexivity|]. split; [auto|].
      split; [discriminate|]. split; [discriminate|].
      right. eexists. reflexivity.
  - split; [reflexivity|]. split; [auto|].
    split; [discriminate|]. split; [auto|].
    right. eexists. reflexivity.
Qed.

(* ================================================================== *)
(** * offsite_backup_handler.py: the folder of a downloaded volume *)
(* ================================================================== *)

(** X22.  [process_volume] looks for the unpacked volume under the part
    of the archive name before its first dot, whatever follows that dot.
    For an archive [V.rest], [V] without a dot, that is unpacked without
    error: if [V] is no directory of the destination the volume ends with
    [status = False] and a message made of the text of the [GnupgException]
    that names [V] as an invalid folder, whatever that text is, even if the
    folder the archive held is there under its own name; if [V] is a
    directory and no thread left an error the volume ends with
    [status = True] and an empty output.  So a volume is restored under
    the name [V.tar] gives only if its name holds no dot. *)
Theorem process_volume_reads_the_name_up_to_the_first_dot
  (first_piece rest volume_root_path decompressed_file_path : string)
  (volume_output_dict : Download.volume_output) (exn_str : exn_text)
  (root : Fsys.fs) (job_error_list : list string)
  (Hpiece : FsysLists.has_char "."%char first_piece = false)
  (Hpath :
     Validator.check_not_empty
       (join volume_root_path (first_piece ^^ "." ^^ rest)) = Ok true) :
  let volume_name := first_piece ^^ "." ^^ rest in
  let outcome :=
    Download.process_volume volume_name volume_root_path volume_output_dict
      exn_str true (Ok decompressed_file_path) root job_error_list in
  (FsysLists.is_dir root (join volume_root_path first_piece) = false ->
   outcome
   = Ok (volume_name,
         {| Download.vo_status := false;
            Download.vo_rsync_output :=
              Download.vo_rsync_output volume_output_dict;
            Download.vo_output :=
              Some ("Error while processing volume. "
                      ^^ exn_str (BurException GnupgException InvalidFolder
                                    [PyStr (join volume_root_path
                                                 first_piece)])
                      ^^ ".") |}))
  /\ (FsysLists.is_dir root (join volume_root_path first_piece) = true ->
      job_error_list = [] ->
      outcome
      = Ok (volume_name,
            {| Download.vo_status := true;
               Download.vo_rsync_output :=
                 Download.vo_rsync_output volume_output_dict;
               Download.vo_output := Some EmptyString |})).
Proof.
  intros volume_name outcome. subst outcome volume_name.
  unfold Download.process_volume, Compress.is_valid_path.
  rewrite Hpath. cbn [bind negb].
  replace (split "." (first_piece ^^ "." ^^ rest))
    with (first_piece :: split "." rest)
    by (symmetry; apply (split_char_at_sep "."%char first_piece rest Hpiece)).
  cbn [nth_error]. unfold Download.decrypt_decompress_file_list. split.
  - intros ->. reflexivity.
  - intros -> ->. reflexivity.
Qed.

Lemma process_volume_reads_the_name_up_to_the_first_dot_witness :
  let volume_name := "volume" ^^ "." ^^ "1.tar" in
  let outcome :=
    Download.process_volume volume_name restore_path downloaded error_text
      true (Ok "/restore/2018-08-23/volume.1") unpacked_fs [] in
  (FsysLists.is_dir unpacked_fs (join restore_path "volume") = false ->
   outcome
   = Ok (volume_name,
         {| Download.vo_status := false;
            Download.vo_rsync_output := Download.vo_rsync_output downloaded;
            Download.vo_output :=
              Some ("Error while processing volume. "
                      ^^ error_text
                           (BurException GnupgException InvalidFolder
                              [PyStr (join restore_path "volume")])
                      ^^ ".") |}))
  /\ (FsysLists.is_dir unpacked_fs (join restore_path "volume") = true ->
      @nil string = [] ->
      outcome
      = Ok (volume_name,
            {| Download.vo_status := true;
               Download.vo_rsync_output := Download.vo_rsync_output downloaded;
               Download.vo_output := Some EmptyString |})).
Proof.
  apply (@process_volume_reads_the_name_up_to_the_first_dot "volume" "1.tar"
           restore_path "/restore/2018-08-23/volume.1" downloaded error_text
           unpacked_fs []).
  - vm_compute. reflexivity.
  - vm_compute. reflexivity.
Defined.

(** the volume [volume.1]: its folder is unpacked, and the volume fails *)
Example process_volume_with_a_dot_in_the_name (exn_str : exn_text) :
  FsysLists.is_dir unpacked_fs (join restore_path "volume.1") = true
  /\ Download.process_volume "volume.1.tar" restore_path downloaded exn_str
       true (Ok "/restore/2018-08-23/volume.1") unpacked_fs []
     = Ok ("volume.1.tar",
           {| Download.vo_status := false;
              Download.vo_rsync_output := None;
              Download.vo_output :=
                Some ("Error while processing volume. "
                        ^^ exn_str (BurException GnupgException InvalidFolder
                                      [PyStr "/restore/2018-08-23/volume"])
                        ^^ ".") |}).
Proof. vm_compute. split; reflexivity. Qed.

(* ================================================================== *)
(** * utils/fsys.py: the folders and the files of a directory *)
(* ================================================================== *)

Section FolderFileLists.
Variable root : Fsys.fs.
Variable dir_path : string.

Lemma sort_dir_items_filters (items : list string) :
  FsysLists.sort_dir_items root dir_path items
  = (filter (fun p => negb (FsysLists.os_path_isfile root p))
            (map (join dir_path) items),
     filter (FsysLists.os_path_isfile root) (map (join dir_path) items)).
Proof.
  induction items as [|dir_item items IH]; [reflexivity|].
  cbn [FsysLists.sort_dir_items map filter]. rewrite IH.
  destruct (FsysLists.os_path_isfile root (join dir_path dir_item));
    reflexivity.
Qed.

Lemma is_dir_lists :
  FsysLists.is_dir root dir_path = true ->
  exists items, FsysLists.os_listdir root dir_path = Some items.
Proof.
  unfold FsysLists.is_dir, FsysLists.os_listdir, Fsys.os_path_isdir.
  destruct (Fsys.os_path_exists root dir_path); cbn [negb]; [|discriminate].
  destruct (Fsys.resolve root dir_path) as [[|w es]|]; try discriminate.
  intros _. eexists. reflexivity.
Qed.

End FolderFileLists.

(** X23.  [get_folder_file_lists_from_dir] raises a [UtilsException]
    with the code [InvalidFolder] and the path for anything that is not an
    existing directory, and never fails on a directory: it returns the
    entries of the directory, each joined to the path, split in two with
    the listing order kept, the second list holding the regular files and
    the first everything else. *)
Theorem folder_file_lists_split_the_listing
  (root : Fsys.fs) (dir_path : string) :
  let outcome := FsysLists.get_folder_file_lists_from_dir root dir_path in
  (FsysLists.is_dir root dir_path = false ->
   outcome
   = Raise (BurException UtilsException InvalidFolder [PyStr dir_path]))
  /\ (FsysLists.is_dir root dir_path = true ->
      exists items,
        FsysLists.os_listdir root dir_path = Some items
        /\ outcome
           = Ok (filter (fun p => negb (FsysLists.os_path_isfile root p))
                        (map (join dir_path) items),
                 filter (FsysLists.os_path_isfile root)
                        (map (join dir_path) items))).
Proof.
  intros outcome. unfold outcome, FsysLists.get_folder_file_lists_from_dir.
  split.
  - intros ->. reflexivity.
  - intros Hdir. destruct (is_dir_lists _ _ Hdir) as [items Hitems].
    exists items. split; [exact Hitems|].
    rewrite Hdir, Hitems, sort_dir_items_filters. reflexivity.
Qed.

(* ================================================================== *)
(** * utils/backup_handler.py: the disk space for a download *)
(* ================================================================== *)

(** X24.  [check_local_disk_space_for_download] asks the remote host
    only when the free space on site is known: an exception of
    [get_free_disk_space] leaves it with no ssh command run.  Otherwise
    one [du -bms <path>] is run; when the reply has no error text and its
    first tab-separated field reads as the integer [size], the result is
    [True] exactly when the free space is strictly greater than [size],
    and a [UtilsException] with the code [NotEnoughFreeDiskSpace], naming
    the path, the required and the available space, when it is equal or
    less. *)
Theorem download_needs_strictly_more_free_space
  (R : Type) (communicate : R -> string -> string -> Remote.ssh_reply * R)
  (backup_path_offsite host bkp_download_path : string)
  (w : Remote.net R) (field rest : string) (size : Z)
  (Hhost : truthy (strip host) = true)
  (Hfired :
     Remote.timer_fired
       (fst (communicate (Remote.peer w) host
               ("du -bms " ^^ backup_path_offsite))) = false)
  (Hstderr :
     Remote.reply_stderr
       (fst (communicate (Remote.peer w) host
               ("du -bms " ^^ backup_path_offsite))) = EmptyString)
  (Hstdout :
     Remote.reply_stdout
       (fst (communicate (Remote.peer w) host
               ("du -bms " ^^ backup_path_offsite)))
     = field ^^ tab ^^ rest)
  (Hfield : FsysLists.has_char "009"%char field = false)
  (Hsize : py_int field = Some size) :
  let check := Validation.check_local_disk_space_for_download communicate
                 backup_path_offsite host bkp_download_path in
  (forall e, check (Raise e) w = (Raise e, w))
  /\ (forall free,
         Remote.spawned (snd (check (Ok free) w))
         = Remote.spawned w ++ [(host, "du -bms " ^^ backup_path_offsite)]
         /\ ((size < free)%Z -> fst (check (Ok free) w) = Ok true)
         /\ ((free <= size)%Z ->
             fst (check (Ok free) w)
             = Raise (BurException UtilsException NotEnoughFreeDiskSpace
                        [PyStr ("Path: " ^^ bkp_download_path ^^ ".");
                         PyStr ("Required: " ^^ BackupHandler.str_of_Z size
                                  ^^ "MB.");
                         PyStr ("Available: " ^^ BackupHandler.str_of_Z free
                                  ^^ "MB.")]))).
Proof.
  intros check. split; [reflexivity|]. intros free.
  unfold check, Validation.check_local_disk_space_for_download,
    RemoteDirs.get_remote_folder_size.
  assert (Hcmd : truthy (strip ("du -bms " ^^ backup_path_offsite)) = true).
  { rewrite strip_truthy_blank. reflexivity. }
  unfold Remote.run_ssh_command. rewrite Hhost, Hcmd. cbn [negb orb].
  destruct (communicate (Remote.peer w) host
              ("du -bms " ^^ backup_path_offsite)) as [r p'].
  cbn [fst] in Hfired, Hstderr, Hstdout.
  rewrite Hfired, Hstderr, Hstdout. cbn [truthy].
  change (field ^^ tab ^^ rest) with (field ^^ String "009"%char rest).
  change tab with (String "009"%char EmptyString).
  rewrite (split_char_at_sep "009"%char field rest Hfield).
  cbn [nth_error]. rewrite Hsize.
  split; [|split].
  - destruct (free <=? size)%Z; reflexivity.
  - intros Hlt. destruct (Z.leb_spec free size); [lia | reflexivity].
  - intros Hle. destruct (Z.leb_spec free size); [reflexivity | lia].
Qed.

Lemma download_needs_strictly_more_free_space_witness :
  let check := Validation.check_local_disk_space_for_download size_peer
                 backup_dir "user@offsite" restore_path in
  (forall e, check (Raise e) fresh_net = (Raise e, fresh_net))
  /\ (forall free,
         Remote.spawned (snd (check (Ok free) fresh_net))
         = Remote.spawned fresh_net
           ++ [("user@offsite", "du -bms " ^^ backup_dir)]
         /\ ((2048 < free)%Z -> fst (check (Ok free) fresh_net) = Ok true)
         /\ ((free <= 2048)%Z ->
             fst (check (Ok free) fresh_net)
             = Raise (BurException UtilsException NotEnoughFreeDiskSpace
                        [PyStr ("Path: " ^^ restore_path ^^ ".");
                         PyStr ("Required: " ^^ BackupHandler.str_of_Z 2048
                                  ^^ "MB.");
                         PyStr ("Available: " ^^ BackupHandler.str_of_Z free
                                  ^^ "MB.")]))).
Proof.
  apply (@download_needs_strictly_more_free_space unit size_peer backup_dir
           "user@offsite" restore_path fresh_net "2048" (backup_dir ^^ nl)
           2048).
  - vm_compute. reflexivity.
  - vm_compute. reflexivity.
  - vm_compute. reflexivity.
  - vm_compute. reflexivity.
  - vm_compute. reflexivity.
  - vm_compute. reflexivity.
Defined.

(* ================================================================== *)
(** * utils/fsys.py: counting the content of a path *)
(* ================================================================== *)

Section SplitAppend.
Variable c : ascii.

(** the pieces of [a + c + b] are the pieces of [a] and those of [b] *)
Lemma split_go_app (a b : string) :
  forall cur,
    split_go (String c EmptyString) 0 cur (a ^^ String c b)
    = split_go (String c EmptyString) 0 cur a
      ++ split_go (String c EmptyString) 0 EmptyString b.
Proof.
  induction a as [|x a IH]; intros cur.
  - cbn [append split_go]. rewrite prefix_char, Ascii.eqb_refl. reflexivity.
  - cbn [append split_go]. rewrite !prefix_char.
    destruct (Ascii.eqb x c).
    + cbn [String.length Nat.sub]. rewrite IH. reflexivity.
    + apply IH.
Qed.

Lemma split_char_app (a b : string) :
  split (String c EmptyString) (a ^^ String c b)
  = split (String c EmptyString) a ++ split (String c EmptyString) b.
Proof. unfold split. apply split_go_app. Qed.

End SplitAppend.

Section PathComponents.

Lemma has_char_slash (s : string) :
  FsysLists.has_char "/"%char s = has_slash s.
Proof.
  induction s as [|a s IH]; [reflexivity|].
  simpl. now rewrite IH.
Qed.

Lemma split_slash_name (name : string) :
  has_slash name = false -> split "/" name = [name].
Proof.
  intros H. apply (split_char_no_sep "/"%char).
  now rewrite has_char_slash.
Qed.

(** [join] adds one component to a path *)
Lemma components_join (path name : string) :
  truthy path = true -> truthy name = true -> has_slash name = false ->
  Fsys.components (join path name) = Fsys.components path ++ [name].
Proof.
  intros Hp Hn Hs. unfold Fsys.components, join.
  destruct name as [|a name]; [discriminate|].
  assert (Ha : is_slash a = false).
  { simpl in Hs. now apply orb_false_elim in Hs. }
  rewrite Ha, Hp. cbn [negb orb].
  destruct (ends_with_slash path) eqn:He.
  - destruct (ends_with_slash_split _ He) as [x ->].
    change (x ^^ "/") with (x ^^ String "/"%char EmptyString).
    rewrite append_assoc.
    change (String "/"%char EmptyString ^^ String a name)
      with (String "/"%char (String a name)).
    rewrite !(split_char_app "/"%char).
    rewrite (split_slash_name _ Hs).
    rewrite !filter_app. simpl. now rewrite app_nil_r.
  - change (path ^^ "/" ^^ String a name)
      with (path ^^ String "/"%char (String a name)).
    rewrite (split_char_app "/"%char), (split_slash_name _ Hs).
    rewrite filter_app. reflexivity.
Qed.

Lemma lookup_app (cs : list string) (name : string) :
  forall n,
    Fsys.lookup n (cs ++ [name])
    = match Fsys.lookup n cs with
      | Some m => Fsys.lookup m [name]
      | None => None
      end.
Proof.
  induction cs as [|c cs IH]; intros n; [reflexivity|].
  cbn [app Fsys.lookup]. destruct n as [|w es]; [reflexivity|].
  destruct (Fsys.find_entry c es); [apply IH | reflexivity].
Qed.

Lemma find_entry_unique (name : string) (m : Fsys.node)
  (es : list (string * Fsys.node)) :
  Fsys.names_unique (map fst es) = true ->
  In (name, m) es -> Fsys.find_entry name es = Some m.
Proof.
  induction es as [|[n x] es IH]; simpl; [contradiction|].
  intros Hu Hin. apply andb_prop in Hu. destruct Hu as [Hn Hu].
  destruct Hin as [E|Hin].
  - inversion E; subst. now rewrite String.eqb_refl.
  - destruct (String.eqb_spec n name) as [->|Hne]; [|auto].
    exfalso. apply negb_true_iff in Hn.
    assert (Hex : existsb (String.eqb name) (map fst es) = true).
    { apply existsb_exists. exists name. split; [|apply String.eqb_refl].
      apply in_map_iff. exists (name, m). auto. }
    congruence.
Qed.

Lemma join_not_blank (path name : string) :
  blank path = false -> blank (join path name) = false.
Proof.
  intros Hb. unfold join.
  assert (Hp : truthy path = true) by (destruct path; [discriminate | reflexivity]).
  destruct name as [|a name].
  - rewrite Hp. cbn [negb orb].
    destruct (ends_with_slash path); [exact Hb|].
    rewrite blank_append, Hb. reflexivity.
  - destruct (is_slash a) eqn:Ha.
    + simpl. unfold is_slash in Ha. apply Ascii.eqb_eq in Ha. subst a.
      reflexivity.
    + rewrite Hp. cbn [negb orb].
      destruct (ends_with_slash path); rewrite blank_append, Hb; reflexivity.
Qed.

End PathComponents.

Section CountTree.
Variable root : Fsys.fs.

Lemma child_resolves (path name : string) (m : Fsys.node) (w : bool)
  (es : list (string * Fsys.node)) :
  blank path = false ->
  Fsys.resolve root path = Some (Fsys.Dir w es) ->
  Fsys.names_unique (map fst es) = true ->
  In (name, m) es ->
  truthy name = true -> has_slash name = false ->
  Fsys.resolve root (join path name) = Some m.
Proof.
  intros Hb Hres Hu Hin Hn Hs. unfold Fsys.resolve in *.
  assert (Hp : truthy path = true)
    by (destruct path; [discriminate | reflexivity]).
  rewrite Hp in Hres.
  assert (Hj : truthy (join path name) = true).
  { pose proof (join_not_blank path name Hb) as Hjb.
    destruct (join path name); [discriminate | reflexivity]. }
  rewrite Hj, components_join by assumption.
  rewrite lookup_app, Hres. cbn [Fsys.lookup].
  now rewrite (find_entry_unique _ _ _ Hu Hin).
Qed.

Lemma count_entries_counts (recurse : string -> option (res (Z * Z)))
  (path : string) (l : list (string * Fsys.node)) :
  (forall e,
      In e l ->
      Fsys.os_path_isdir root (join path (fst e))
      = match snd e with Fsys.Dir _ _ => true | Fsys.File => false end
      /\ (Fsys.os_path_isdir root (join path (fst e)) = true ->
          recurse (join path (fst e))
          = Some (Ok (FsysLists.files_below (snd e),
                      FsysLists.folders_below (snd e))))) ->
  forall total_files total_folders,
    FsysLists.count_entries recurse root path (map fst l)
      total_files total_folders
    = Some (Ok ((total_files + FsysLists.files_below (Fsys.Dir true l))%Z,
                (total_folders
                 + FsysLists.folders_below (Fsys.Dir true l))%Z)).
Proof.
  induction l as [|[name m] l IH]; intros Hall total_files total_folders.
  - simpl. now rewrite !Z.add_0_r.
  - cbn [map fst FsysLists.count_entries].
    destruct (Hall (name, m) (or_introl eq_refl)) as [Hdir Hrec].
    cbn [fst snd] in Hdir, Hrec.
    assert (Hrest : forall e,
               In e l ->
               Fsys.os_path_isdir root (join path (fst e))
               = match snd e with
                 | Fsys.Dir _ _ => true
                 | Fsys.File => false
                 end
               /\ (Fsys.os_path_isdir root (join path (fst e)) = true ->
                   recurse (join path (fst e))
                   = Some (Ok (FsysLists.files_below (snd e),
                               FsysLists.folders_below (snd e)))))
      by (intros e He; apply Hall; right; exact He).
    destruct (Fsys.os_path_isdir root (join path name)) eqn:Hd.
    + rewrite (Hrec eq_refl), (IH Hrest).
      destruct m as [|w es]; [discriminate|].
      cbn [FsysLists.files_below FsysLists.folders_below fold_right snd].
      do 3 f_equal; lia.
    + rewrite (IH Hrest). destruct m as [|w es]; [|discriminate].
      cbn [FsysLists.files_below FsysLists.folders_below fold_right snd].
      do 3 f_equal; lia.
Qed.

Lemma height_of_entry (e : string * Fsys.node)
  (es : list (string * Fsys.node)) :
  In e es ->
  FsysLists.height (snd e)
  <= fold_right (fun e acc => Nat.max (FsysLists.height (snd e)) acc) 0 es.
Proof.
  induction es as [|x es IH]; simpl; [contradiction|].
  intros [->|H]; [lia|]. specialize (IH H). lia.
Qed.

Lemma files_below_any_flag (w w' : bool) (es : list (string * Fsys.node)) :
  FsysLists.files_below (Fsys.Dir w es) = FsysLists.files_below (Fsys.Dir w' es)
  /\ FsysLists.folders_below (Fsys.Dir w es)
     = FsysLists.folders_below (Fsys.Dir w' es).
Proof. split; reflexivity. Qed.

Lemma content_count_of_node (n : Fsys.node) :
  forall source_path depth,
    Fsys.well_formed n = true ->
    FsysLists.proper_names n = true ->
    blank source_path = false ->
    Fsys.resolve root source_path = Some n ->
    FsysLists.height n <= depth ->
    FsysLists.get_number_of_content_from_path depth root source_path
    = Some (Ok (FsysLists.files_below n, FsysLists.folders_below n)).
Proof.
  induction n as [|w es IH] using node_induction;
    intros source_path depth Hwf Hnames Hb Hres Hh.
  - destruct depth as [|d]; [simpl in Hh; lia|].
    cbn [FsysLists.get_number_of_content_from_path].
    unfold Compress.is_valid_path, Fsys.os_path_exists, Fsys.os_path_isdir.
    rewrite check_not_empty_blank, Hb, Hres. reflexivity.
  - destruct depth as [|d]; [simpl in Hh; lia|].
    cbn [FsysLists.get_number_of_content_from_path].
    unfold Compress.is_valid_path, Fsys.os_path_exists, Fsys.os_path_isdir,
      FsysLists.os_listdir.
    rewrite check_not_empty_blank, Hb, Hres. cbn [bind negb].
    simpl in Hwf. apply andb_prop in Hwf. destruct Hwf as [Hu Hall].
    simpl in Hnames.
    rewrite (@count_entries_counts _ source_path es).
    + destruct (files_below_any_flag true w es) as [-> ->]. reflexivity.
    + intros [name m] Hin. cbn [fst snd].
      rewrite forallb_forall in Hall, Hnames.
      pose proof (Hall _ Hin) as Hm. pose proof (Hnames _ Hin) as Hp.
      cbn [fst snd] in Hm, Hp.
      apply andb_prop in Hp. destruct Hp as [Hp Hpm].
      apply andb_prop in Hp. destruct Hp as [Ht Hs].
      apply negb_true_iff in Hs.
      pose proof (@child_resolves _ _ _ _ _ Hb Hres Hu Hin Ht Hs) as Hchild.
      unfold Fsys.os_path_isdir. rewrite Hchild. split.
      * destruct m; reflexivity.
      * intros _. rewrite Forall_forall in IH.
        apply (IH _ Hin); try assumption.
        -- apply join_not_blank, Hb.
        -- pose proof (@height_of_entry _ _ Hin) as Hle.
           cbn [snd] in *. cbn [FsysLists.height] in Hh.
           apply le_S_n in Hh. exact (Nat.le_trans _ _ _ Hle Hh).
Qed.

End CountTree.

(** X25.  [get_number_of_content_from_path] counts the tree below the
    path.  When the path is not blank and names a node whose directories
    list no name twice and hold only entries with a name without slash,
    the call returns (once the nesting of the calls covers the height of
    the node) the number of regular files of the node, a file counting as
    one, and the number of directories below it, the node itself left
    out.  For a path that is not blank and names nothing it raises a
    [UtilsException] with the code [InvalidPath]. *)
Theorem content_count_counts_the_tree
  (root : Fsys.fs) (source_path : string) (n : Fsys.node)
  (Hwf : Fsys.well_formed n = true)
  (Hnames : FsysLists.proper_names n = true)
  (Hpath : blank source_path = false)
  (Hnode : Fsys.resolve root source_path = Some n) :
  (forall depth,
      FsysLists.height n <= depth ->
      FsysLists.get_number_of_content_from_path depth root source_path
      = Some (Ok (FsysLists.files_below n, FsysLists.folders_below n)))
  /\ (forall depth other,
         blank other = false ->
         Fsys.os_path_exists root other = false ->
         FsysLists.get_number_of_content_from_path (S depth) root other
         = Some (Raise (BurException UtilsException InvalidPath
                          [PyStr other]))).
Proof.
  split.
  - intros depth Hh. now apply content_count_of_node.
  - intros depth other Hb He.
    cbn [FsysLists.get_number_of_content_from_path].
    unfold Compress.is_valid_path.
    rewrite check_not_empty_blank, Hb, He. reflexivity.
Qed.

Lemma content_count_counts_the_tree_witness :
  (forall depth,
      4 <= depth ->
      FsysLists.get_number_of_content_from_path depth nfs nfs_customer
      = Some (Ok (6, 4)%Z))
  /\ (forall depth other,
         blank other = false ->
         Fsys.os_path_exists nfs other = false ->
         FsysLists.get_number_of_content_from_path (S depth) nfs other
         = Some (Raise (BurException UtilsException InvalidPath
                          [PyStr other]))).
Proof.
  apply (@content_count_counts_the_tree nfs nfs_customer
           (match Fsys.resolve nfs nfs_customer with
            | Some n => n
            | None => Fsys.File
            end)).
  - vm_compute. reflexivity.
  - vm_compute. reflexivity.
  - vm_compute. reflexivity.
  - vm_compute. reflexivity.
Defined.

(* ================================================================== *)
(** * utils/compress.py: the name of an archive and back *)
(* ================================================================== *)

Section ArchiveNames.

Lemma prefix_tar_append (x : ascii) (v : string) :
  prefix ".tar" (String x v) = false ->
  prefix ".tar" (String x v ^^ ".tar") = false.
Proof.
  destruct v as [|x2 [|x3 [|x4 v]]]; cbn [prefix append];
    repeat match goal with
           | |- context [ascii_dec ?a ?b] =>
               destruct (ascii_dec a b); try subst; cbn [prefix append]
           end;
    intros; try congruence.
  destruct v; discriminate.
Qed.

(** taking [.tar] off a name that got it appended gives the name back,
    when the name itself holds no [.tar] *)
Lemma replace_tar_suffix (v : string) :
  contains ".tar" v = false ->
  Decompress.replace ".tar" EmptyString (v ^^ ".tar") = v.
Proof.
  unfold Decompress.replace. induction v as [|x v IH]; intros H.
  - reflexivity.
  - cbn [contains] in H. apply orb_false_elim in H. destruct H as [Hp Hc].
    change (String x v ^^ ".tar") with (String x (v ^^ ".tar")).
    cbn [Decompress.replace_go].
    change (String x (v ^^ ".tar")) with (String x v ^^ ".tar").
    rewrite (prefix_tar_append _ _ Hp).
    f_equal. apply IH, Hc.
Qed.

End ArchiveNames.

(** X26.  The name of an archive and back.  [tar_file], when the command
    succeeds, names the archive after the base name of what it packs, with
    [.tar] appended, inside the destination; [untar_file] on that archive
    reports, when its command succeeds, the base name it started from
    inside its own destination, provided the base name does not itself
    hold [.tar]: [untar_file] removes every [.tar] of the name, not only
    the last. *)
Theorem untar_gives_back_the_name_tar_took
  (file_path file_destination output_path : string)
  (Hname : contains ".tar" (basename file_path) = false) :
  exists tar_file_path,
    Compress.tar_file file_path file_destination 0 = Ok tar_file_path
    /\ basename tar_file_path = basename file_path ^^ ".tar"
    /\ Decompress.untar_file tar_file_path output_path 0
       = Ok (join output_path (basename file_path)).
Proof.
  unfold Compress.tar_file, Decompress.untar_file. cbn [Z.eqb negb].
  eexists. split; [reflexivity|].
  change ("." ^^ Compress.TAR_SUFFIX) with ".tar".
  assert (Hbase : basename (join file_destination
                              (basename file_path ^^ ".tar"))
                  = basename file_path ^^ ".tar").
  { apply basename_join. rewrite has_slash_append, basename_no_slash.
    reflexivity. }
  split; [exact Hbase|].
  rewrite Hbase, (replace_tar_suffix _ Hname). reflexivity.
Qed.

Lemma untar_gives_back_the_name_tar_took_witness :
  exists tar_file_path,
    Compress.tar_file "/tmp/CUSTOMER_0/2018-12-04/volume0"
      "/tmp/CUSTOMER_0/2018-12-04" 0 = Ok tar_file_path
    /\ basename tar_file_path
       = basename "/tmp/CUSTOMER_0/2018-12-04/volume0" ^^ ".tar"
    /\ Decompress.untar_file tar_file_path restore_path 0
       = Ok (join restore_path
               (basename "/tmp/CUSTOMER_0/2018-12-04/volume0")).
Proof.
  apply (@untar_gives_back_the_name_tar_took
           "/tmp/CUSTOMER_0/2018-12-04/volume0" "/tmp/CUSTOMER_0/2018-12-04"
           restore_path).
  vm_compute. reflexivity.
Defined.

(** a name that holds [.tar] does not come back *)
Example untar_of_a_name_with_tar_inside :
  Compress.tar_file "/tmp/volume.tar.old" "/tmp" 0
  = Ok "/tmp/volume.tar.old.tar"
  /\ Decompress.untar_file "/tmp/volume.tar.old.tar" "/restore" 0
     = Ok "/restore/volume.old"
  /\ Decompress.untar_file "/tmp/volume0.tar" "/restore" 2
     = Raise (BurException UtilsException TarZipCommandError [PyInt 2]).
Proof. vm_compute. repeat split. Qed.
